(* ===== verification/_CoqProject ===== *)
-Q . S2P
Prelude.v
Runtime.v
Text.v
Sha256.v
Float64.v
Domain.v
Json.v
JsonText.v
Encoding.v
Merkle.v
Tendermint.v
State.v
Accounts.v
Validation.v
Apply.v
Reversal.v
Mempool.v
Rewards.v
Mining.v
Author.v
Submission.v
Finality.v
Persistence.v
Tokenomics.v
Keys.v
Limits.v
Api.v
ApiSafety.v
P2P.v
Rosetta.v
Pool.v
LibP2P.v
StateStore.v
Node.v
NodeChain.v
NodeLedger.v
NodeMining.v
NodeP2P.v
NodeApi.v
NodeSafety.v
NodeDemo.v
Bridge.v
WalletTool.v
GenesisTool.v
Clients.v
Replication.v
Wiring.v
GossipHost.v
HostLifecycle.v
Relayer.v
Varint.v
