(* ===== verification/Prelude.v ===== *)
(** * The go-chain node: a verification development

    The program under [src/go-chain] is a blockchain node in Go.  Its core is
    the package [blockchain]: a [Blockchain] object holds the chain, the pool
    of pending transactions, the ledger of accounts, the registry of AI
    models, escrows, governance proposals, service agreements, validators and
    finality votes; operations on it validate and apply blocks, mine, choose
    authors, finalize and persist.  The other packages (HTTP API, peer to peer,
    tools) call it.

    ** Files and what they model

    - [Prelude]: 64-bit integers with their wrap-around ([u64], [i64], [+!],
      [-!], [*!]), the [outcome] type of fallible Go code ([Ok], [Err] for a
      returned error, [Panic] for a run-time panic), record update, list,
      option and map lemmas, tactics and hint databases.
    - [Runtime]: what the Go runtime decides and the code does not: the clock,
      the order of a map iteration, the algorithm behind [sort.Slice], whether
      a disk write succeeds, and ed25519 keys.  Each is a class with its
      documented laws ([Runtime], [Ed25519]); theorems hold for every instance,
      and concrete instances are used in the witnesses.
    - [Text], [Json], [Sha256], [Float64]: the parts of [strconv], [strings],
      [encoding/hex], [encoding/json], [crypto/sha256] and IEEE binary64
      arithmetic that the code relies on, all executable.  [JsonText]: what
      writing a value as JSON and reading it back does to its strings.
    - [Domain] ([domain.go]): data types, constants, amounts, canonical signing
      bytes, wallets, signatures.  [Encoding] ([encoding.go]): the binary codec.
      [Merkle] ([merkle.go], [CalculateMerkleRoot]): trees and proofs.
      [Tendermint] ([consensus_tendermint.go]): the consensus engine.
    - [State] ([blockchain.go]): the [Blockchain] record, the state file,
      construction.  [Accounts]: every operation on accounts, models, escrows,
      proposals, agreements, validators, minting pauses and the genesis file.
      [Validation]: nonces, fees, transaction, block and chain validation, fork
      choice.  [Apply] and [Reversal]: applying blocks and reversals.
      [Mempool]: the pool.  [Rewards]: the miner reward schedule.  [Mining],
      [Author], [Submission]: block production, author selection and blocks
      mined elsewhere.  [Finality]: finality votes.  [Persistence]: restarts.
    - [Tokenomics] ([tokenomics.go]): the supply schedule, reward shares and
      staking rewards, in binary64 as the code computes them.  [Keys]
      ([security.go], [wallet_vault.go], [validator_onboarding.go]): the
      security module, the wallet vault and validator onboarding.
    - [Limits] ([api/api.go]): the server configuration, authorization, the rate
      limiter and the circuit breaker.  [Api]: every endpoint of [StartAPI] and
      its middlewares, as handlers of a small monad over the server state with
      early answers, panics and the node's lock.  [ApiSafety]: its theorems.
    - [P2P] ([p2p/p2p.go]): the TCP gossip node, over a class of network oracles.
    - [Node], [NodeChain] ([main.go]): the program [main] has its own copy of the
      chain, with other constants, rewards, persistence and genesis loading:
      its state, its operations, validation, application, pool and mining.
      [NodeLedger], [NodeMining]: their theorems.  [NodeP2P]: messages,
      greetings, broadcasts and the HTTP relay.  [NodeApi]: configuration, start
      and every endpoint of [startAPI].  [NodeSafety]: the critical
      sections of the program as a step relation, and its invariants.  [NodeDemo]: concrete runs.
    - [Rosetta] ([rosetta.go]): the Rosetta endpoints of the package.  [Pool]
      ([tools/pool]): the mining pool and its server.  [LibP2P]
      ([p2p/libp2p_host.go]): identity, handshake, frames over a buffered
      reader, sessions.  [StateStore] ([state_store.go], and the second store
      in [domain.go]): snapshots in a directory of files.
    - Programs composed with the node program, whose [serve] answers their
      requests: [Bridge] ([tools/bridge-relayer]), [WalletTool]
      ([tools/wallet]), [GenesisTool] ([tools/genesis-tool]) and the miner of
      [Clients] ([tools/miner]).  [Clients] also has the stand-alone Rosetta
      server and the two programs that write validator identities.
    - [Wiring] ([main.go], [blockchain.go]): the libp2p host the node program
      starts, and the notification of the bridge relayer, each with the code on
      both sides.
    - [Replication]: two node programs with the messages between them, one that
      mines and one that follows.
    - [HostLifecycle] ([p2p/libp2p_host.go]): starting and stopping the host, its
      goroutines as a step relation.  [Varint]: its two string helpers.
      [Relayer] ([tools/bridge-relayer]): the process around the handlers of
      [Bridge].  [GossipHost] ([node/p2p/host.go]): the host of the other Go
      module, over a class of library calls.

    ** Correspondence

    A Go struct is a record with the fields in the same order, prefixed by an
    abbreviation of its type ([bc_Ledger], [tx_Nonce]); maps are [gmap], sets
    are [gset].  A method that mutates its receiver returns the new receiver;
    one that returns an error returns an [outcome] beside it.  Pointers to
    accounts are modelled by their key in the ledger and updated there, so two
    names of one account alias as in the source.  A [for range] over a map is a
    fold over [range_map], an arbitrary permutation chosen by the runtime; each
    use of the clock, the map order or the disk advances a tick counter, so two
    uses in one run may differ.  Every exported operation of the package
    runs under its mutex and is atomic here; the packages that call it take the
    mutex themselves too, and there it is a flag ([sv_locked], [pn_locked]).

    ** What the theorems show

    Conservation: applying blocks keeps the total of balances and stakes, and
    of the account operations that mint nothing only an escrow lowers it, by its
    amount; supply changes follow holdings.  Chains: validated
    chains are linked, their tail hash binds the history, block validation and
    fork choice are characterised branch by branch.  Replay: an applied nonce
    is spent, and nonces stay consistent through blocks and restarts.  Codecs:
    binary blocks and transactions round-trip, signed bytes are injective,
    signatures verify.  Merkle proofs are complete and, up to an exhibited
    collision, sound.  Consensus: engine invariants, votes needed for finality,
    quorum intersection of the floating-point threshold.  Pool and mining:
    bounds, eviction, deterministic author choice, the search for a proof of
    work ends when a solution exists, a mined block extends the chain, rewards
    are capped, but for blocks that are submitted.
    API: a refused request leaves the chain unchanged, guarded endpoints refuse
    without a token, the rate limiter refines a log of all accepted calls and
    bounds every window; a mint request blocks the node.  Gossip: peers of a
    strict node stay bounded, the peer rate limit is the API's limiter,
    duplicates are suppressed, identified messages are never relayed.
    Tokenomics: staking rewards are exact in any traversal order, minting stays
    capped.  Keys: the security module's log, level and counters.
    Node program: applied blocks conserve the holdings; from the start of
    [main], under any interleaving of the critical sections of requests, messages
    and polls, the chain is linked; a client without the key changes nothing; mining succeeds when its
    stated conditions hold, but no block ever holds a numbered transaction; the
    block reward decays within bounds; a state message of a peer decides
    balances; broadcasts travel one hop; minting replaces accounts and an escrow
    panics after its debit.
    Codec: what decodes re-encodes to itself, and no strict prefix of a
    transaction decodes.
    Libp2p host: the read loop of a session ends whatever the peer sends, small
    messages are read back, a strict host has sessions with validators and
    dialled peers only, and two such hosts do not complete a handshake.
    Snapshots: the store refines a list of the last 64 writes, a written
    snapshot is found again, pruning keeps the last names of the files it can
    remove; a state written 65
    times is lost.  Rosetta: block lookup, amounts, and what a submission
    changes.  Pool: shares and balances add up, the share test as a comparison
    of numbers.  Bridge: a node that records what it is
    sent sees no hash minted twice by the same way; a mint by the
    node program replaces the account.  Wallet tool: its signatures are those of
    the node, and a transfer it sends is queued as it was signed.  Genesis tool: one
    signer is enough, a signed file does not load, the allocations exceed the
    supply.  Miner: its submissions are always refused.  Wiring: the
    strict host of the node program accepts nobody, and the relayer refuses
    every notification.  Replication: a follower takes the
    chain and the accounts of a mining node round after round; a newcomer takes
    the accounts of a chain it refuses.  Host lifecycle: the wait group counts the
    goroutines but those of [Connect], which alone survive [Stop]; [Stop] returns
    once the accepted sessions end, and a peer that keeps sending holds it up.  Gossip
    host: a failed construction releases what it took, scores add up in any
    order, payloads go to the topic of their kind.  Relayer: a listener that
    ended never returns, and a short log ends the process.  Varint: 64-bit numbers
    round-trip, strings do not.  The engine finalizes two blocks at one height.
    Some theorems state what the code does where it differs from what one would
    expect (a copied transfer pays twice, a refund can repeat, one pending
    transaction without an ID stops mining, a node refuses its own history);
    they hold of the code as it is.

    ** Bounds and fuel

    [proofOfWork] takes fuel, and the theorem about it says that fuel larger than
    the first solving nonce is enough; [readLoop] of a libp2p session takes fuel,
    and one more than the bytes that arrive is enough; [decodeTransactions] takes
    the length of its input, which is enough too; [put_uvarint] takes 9, the
    continuation bytes of a 64-bit number.  All other recursion is structural or
    by a decreasing length.  The quorum
    theorem is checked for up to 5000 validators by evaluating the
    floating-point threshold for each count.

    ** Not modelled

    JSON text of the state file and of HTTP bodies (the state file is stored as
    the value its text decodes to, with strings that are not UTF-8 replaced as
    the encoder does; the JSON of a block is modelled because it is hashed);
    network and disk I/O beyond success or failure; logging; the
    interleavings the mutex excludes.
    Of the servers, the text of answers, static files and TLS; of the gossip
    nodes, sockets, pings and announcements, and the calls of UPnP and NAT-PMP,
    whose results the source drops; of the relayer, the health endpoint and the
    calls of the Ethereum library; of the command-line tools other than the
    wallet, the parsing of arguments.  The faucet tool refers to a type that is
    declared nowhere.  [main.go] repeats the rate limiter and the circuit breaker
    of [api.go] word for word; both are [Limits].  Web pages, workers, contracts
    and deployment files are not Go.
*)

From Stdlib Require Export ZArith Lia.
From Stdlib Require Export Strings.Byte.
From stdpp Require Export base tactics numbers list gmap sets strings sorting.
From stdpp Require Import relations.

Open Scope Z_scope.

(** ** Machine integers

    Go's [uint64], [int64] and [uint32] are integers of [Z] kept in range by
    the wrap-around functions below; the operators of [go_scope] are the
    [uint64] operators of the source. *)

Definition max_u64 : Z := 2 ^ 64.
Definition max_u32 : Z := 2 ^ 32.

Definition u64 (x : Z) : Z := x mod max_u64.
Definition u32 (x : Z) : Z := x mod max_u32.
Definition i64 (x : Z) : Z := (x + 2 ^ 63) mod max_u64 - 2 ^ 63.

Definition is_u64 (x : Z) : Prop := 0 ≤ x < max_u64.
Definition is_u32 (x : Z) : Prop := 0 ≤ x < max_u32.
Definition is_i64 (x : Z) : Prop := - 2 ^ 63 ≤ x < 2 ^ 63.

Declare Scope go_scope.
Delimit Scope go_scope with go.
Notation "a +! b" := (u64 (a + b)) (at level 50, left associativity) : go_scope.
Notation "a -! b" := (u64 (a - b)) (at level 50, left associativity) : go_scope.
Notation "a *! b" := (u64 (a * b)) (at level 40, left associativity) : go_scope.
Open Scope go_scope.

(** ** Results of Go calls

    A Go function with an [error] result returns a value or an error; a
    runtime panic is a third outcome. *)

Inductive outcome (A : Type) : Type :=
| Ok (a : A)
| Err (msg : string)
| Panic (msg : string).
Arguments Ok {A} _.
Arguments Err {A} _.
Arguments Panic {A} _.

Definition outcome_ok {A} (o : outcome A) : bool :=
  match o with Ok _ => true | _ => false end.

#[export] Instance outcome_ret : MRet outcome := λ A a, Ok a.
#[export] Instance outcome_bind : MBind outcome := λ A B f o,
  match o with Ok a => f a | Err e => Err e | Panic e => Panic e end.

(** ** Record update

    [r <| f := v |>] is the Go assignment [r.f = v] and [r <| f ::= g |>] is
    [r.f = g(r.f)].  A record type declares how it is rebuilt from its
    projections ([Rebuild]); the setter of one projection is that term with
    the projection abstracted. *)

Class Rebuild (R : Type) := rebuild : R → R.

Class Update {R T : Type} (proj : R → T) := update : (T → T) → R → R.
Arguments update {R T} proj {_} _ _ /.

Ltac derive_update proj :=
  match goal with
  | |- @Update ?R ?T _ =>
      let inst := constr:(ltac:(typeclasses eauto) : Rebuild R) in
      let h := eval hnf in inst in
      let body := constr:(fun (g : T -> T) (r : R) =>
        ltac:(let e := eval cbv beta in (h r) in
              let p := eval pattern (proj r) in e in
              match p with ?k _ => let t := eval cbv beta in (k (g (proj r))) in exact t end)) in
      exact body
  end.

#[export] Hint Extern 1 (Update ?proj) => derive_update proj : typeclass_instances.

Notation "r <| proj ::= f |>" := (update proj f r)
  (at level 1, f at level 99, left associativity, only parsing).
Notation "r <| proj := v |>" := (update proj (λ _, v) r)
  (at level 1, v at level 99, left associativity, only parsing).

(** ** Bytes

    A Go [string] is a Rocq [string] (a sequence of bytes) and a [[]byte] is a
    [list byte]; [[]byte(s)] and [string(b)] are the two conversions. *)

Definition bytes_of_string : string → list byte := String.list_byte_of_string.
Definition string_of_bytes : list byte → string := String.string_of_list_byte.

Definition Z_of_byte (b : byte) : Z := Z.of_N (Byte.to_N b).
Definition byte_of_Z (z : Z) : byte :=
  match Byte.of_N (Z.to_N (z mod 256)) with Some b => b | None => x00 end.

#[export] Instance byte_eq_decision : EqDecision byte := Byte.byte_eq_dec.

#[global] Arguments String.append !_ _ /.

Definition slen (s : string) : Z := Z.of_nat (String.length s).
Definition blen {A} (l : list A) : Z := Z.of_nat (length l).

(** ** Sums over a finite map *)

Definition map_sum {K A} `{Countable K} (f : A → Z) (m : gmap K A) : Z :=
  map_fold (λ _ a acc, f a + acc) 0 m.

(** The sum of [f] over a list. *)
Definition sum_over {A} (f : A → Z) (l : list A) : Z := foldr (λ a acc, f a + acc) 0 l.

(** ** Tactics *)

Ltac case_one :=
  match goal with
  | H : context [ match ?e with _ => _ end ] |- _ =>
      lazymatch e with context [ match _ with _ => _ end ] => fail | _ => destruct e eqn:? end
  | |- context [ match ?e with _ => _ end ] =>
      lazymatch e with context [ match _ with _ => _ end ] => fail | _ => destruct e eqn:? end
  end.

Ltac split_cases := repeat (case_one; simplify_eq/=).

(** Case analysis on the conditions of one hypothesis. *)
Ltac inv_cases H :=
  repeat (match type of H with
          | context [ match ?e with _ => _ end ] =>
              lazymatch e with context [ match _ with _ => _ end ] => fail | _ => destruct e eqn:? end
          end; simplify_eq/=).

(** Turn the boolean comparisons of Go conditions into propositions. *)
Ltac prop_bools :=
  repeat match goal with
  | H : (_ && _)%bool = true |- _ => apply andb_prop in H as [? ?]
  | H : (_ || _)%bool = false |- _ => apply orb_false_elim in H as [? ?]
  | H : negb _ = true |- _ => apply negb_true_iff in H
  | H : negb _ = false |- _ => apply negb_false_iff in H
  | H : (_ <? _) = true |- _ => apply Z.ltb_lt in H
  | H : (_ <? _) = false |- _ => apply Z.ltb_ge in H
  | H : (_ <=? _) = true |- _ => apply Z.leb_le in H
  | H : (_ <=? _) = false |- _ => apply Z.leb_gt in H
  | H : (_ =? _) = true |- _ => apply Z.eqb_eq in H
  | H : (_ =? _) = false |- _ => apply Z.eqb_neq in H
  | H : bool_decide _ = true |- _ => apply bool_decide_eq_true_1 in H
  | H : bool_decide _ = false |- _ => apply bool_decide_eq_false_1 in H
  end.

Create HintDb go.
Create Rewrite HintDb go.

(** ** Integer lemmas *)

Lemma u64_small x : is_u64 x → u64 x = x.
Proof. intros. by apply Z.mod_small. Qed.

Lemma u64_range x : is_u64 (u64 x).
Proof. apply Z.mod_pos_bound. unfold max_u64. lia. Qed.

Lemma u32_range x : is_u32 (u32 x).
Proof. apply Z.mod_pos_bound. unfold max_u32. lia. Qed.

Lemma u32_small x : is_u32 x → u32 x = x.
Proof. intros. by apply Z.mod_small. Qed.

Lemma u64_idemp x : u64 (u64 x) = u64 x.
Proof. apply u64_small, u64_range. Qed.

Lemma u64_add_l x y : u64 (u64 x + y) = u64 (x + y).
Proof. unfold u64. apply Zplus_mod_idemp_l. Qed.

Lemma u64_sub_l x y : u64 (u64 x - y) = u64 (x - y).
Proof. unfold u64. apply Zminus_mod_idemp_l. Qed.

Lemma i64_small x : is_i64 x → i64 x = x.
Proof.
  intros [??]. unfold i64, max_u64 in *.
  rewrite Z.mod_small by lia. lia.
Qed.

(** [int64(uint64(x))] gives back every [int64]. *)
Lemma i64_u64 x : is_i64 x → i64 (u64 x) = x.
Proof.
  intros Hx. rewrite <- (i64_small x Hx) at 2.
  unfold i64, u64. by rewrite Zplus_mod_idemp_l.
Qed.

Lemma i64_range x : is_i64 (i64 x).
Proof.
  unfold is_i64, i64. pose proof (Z.mod_pos_bound (x + 2 ^ 63) max_u64 ltac:(done)).
  unfold max_u64 in *. lia.
Qed.

Lemma u64_i64 x : u64 (i64 x) = u64 x.
Proof. unfold i64, u64. rewrite Zminus_mod_idemp_l. f_equal. lia. Qed.

#[export] Hint Resolve u64_small u64_range u32_range : go.

Ltac u64_lia := unfold is_u64, is_u32, is_i64, max_u64, max_u32 in *; lia.

(** ** Byte lemmas *)

Lemma Z_of_byte_range b : 0 ≤ Z_of_byte b < 256.
Proof.
  unfold Z_of_byte. pose proof (Byte.to_N_bounded b). lia.
Qed.

Lemma byte_of_Z_of_byte b : byte_of_Z (Z_of_byte b) = b.
Proof.
  unfold byte_of_Z. rewrite Z.mod_small by apply Z_of_byte_range.
  unfold Z_of_byte. rewrite N2Z.id. by rewrite Byte.of_to_N.
Qed.

Lemma Z_of_byte_of_Z z : Z_of_byte (byte_of_Z z) = z mod 256.
Proof.
  unfold byte_of_Z, Z_of_byte.
  pose proof (Z.mod_pos_bound z 256 ltac:(lia)).
  destruct (Byte.of_N (Z.to_N (z mod 256))) as [b|] eqn:E.
  - apply Byte.to_of_N in E. rewrite E. lia.
  - apply Byte.of_N_None_iff in E. lia.
Qed.

Lemma string_of_bytes_of_string s : string_of_bytes (bytes_of_string s) = s.
Proof. apply String.string_of_list_byte_of_string. Qed.

Lemma bytes_of_string_of_bytes l : bytes_of_string (string_of_bytes l) = l.
Proof. apply String.list_byte_of_string_of_list_byte. Qed.

Lemma length_bytes_of_string s : length (bytes_of_string s) = String.length s.
Proof.
  unfold bytes_of_string, String.list_byte_of_string. rewrite length_map.
  induction s as [|c s IH]; [done|]. simpl. by rewrite IH.
Qed.

Lemma blen_bytes_of_string s : blen (bytes_of_string s) = slen s.
Proof. unfold blen, slen. by rewrite length_bytes_of_string. Qed.

Lemma bytes_of_string_app s t :
  bytes_of_string (s +:+ t) = bytes_of_string s ++ bytes_of_string t.
Proof.
  unfold bytes_of_string, String.list_byte_of_string.
  rewrite <- List.map_app. f_equal.
  induction s as [|c s IH]; [done|]. simpl. by rewrite IH.
Qed.

#[export] Instance bytes_of_string_inj : Inj (=) (=) bytes_of_string.
Proof.
  intros s t E. rewrite <- (string_of_bytes_of_string s), E.
  apply string_of_bytes_of_string.
Qed.

Lemma blen_nonneg {A} (l : list A) : 0 ≤ blen l.
Proof. unfold blen. lia. Qed.

Lemma blen_app {A} (l k : list A) : blen (l ++ k) = blen l + blen k.
Proof. unfold blen. rewrite length_app. lia. Qed.

Lemma blen_cons {A} (x : A) (l : list A) : blen (x :: l) = 1 + blen l.
Proof. unfold blen. simpl. lia. Qed.

#[export] Hint Rewrite @blen_app @blen_cons blen_bytes_of_string : go.

(** ** Lemmas on sums *)

Section map_sum.
Context {K A : Type} `{Countable K} (f : A → Z).
Implicit Types m : gmap K A.

Lemma map_sum_empty : map_sum f (∅ : gmap K A) = 0.
Proof. unfold map_sum. by rewrite map_fold_empty. Qed.

Lemma map_sum_insert_None m k a :
  m !! k = None → map_sum f (<[k:=a]> m) = f a + map_sum f m.
Proof.
  intros Hk. unfold map_sum. rewrite map_fold_insert_L; [done| |done].
  intros; lia.
Qed.

Lemma map_sum_insert m k a :
  map_sum f (<[k:=a]> m) = f a + map_sum f m - from_option f 0 (m !! k).
Proof.
  destruct (m !! k) as [b|] eqn:E; simpl.
  - rewrite <- (insert_delete_id m k b E) at 2.
    rewrite <- insert_delete_eq.
    rewrite !map_sum_insert_None by apply lookup_delete_eq. lia.
  - rewrite map_sum_insert_None by done. lia.
Qed.

Lemma map_sum_insert_Some m k a b :
  m !! k = Some b → map_sum f (<[k:=a]> m) = map_sum f m + (f a - f b).
Proof. intros E. rewrite map_sum_insert, E. simpl. lia. Qed.

Lemma map_sum_nonneg m :
  (∀ k a, m !! k = Some a → 0 ≤ f a) → 0 ≤ map_sum f m.
Proof.
  induction m as [|k a m Hk IH] using map_ind; intros Hf.
  { by rewrite map_sum_empty. }
  rewrite map_sum_insert_None by done.
  assert (0 ≤ f a) by (eapply (Hf k); by simplify_map_eq).
  enough (0 ≤ map_sum f m) by lia.
  apply IH. intros k' a' E. apply (Hf k').
  rewrite lookup_insert_ne; [done|congruence].
Qed.

Lemma map_sum_ge m k a :
  (∀ k a, m !! k = Some a → 0 ≤ f a) → m !! k = Some a → f a ≤ map_sum f m.
Proof.
  intros Hf E. rewrite <- (insert_delete_id m k a E).
  rewrite map_sum_insert_None by apply lookup_delete_eq.
  enough (0 ≤ map_sum f (delete k m)) by lia.
  apply map_sum_nonneg. intros k' a' [? E']%lookup_delete_Some. eauto.
Qed.

(** Two different entries together are below the sum. *)
Lemma map_sum_ge2 m k1 k2 a1 a2 :
  (∀ k a, m !! k = Some a → 0 ≤ f a) → k1 ≠ k2 →
  m !! k1 = Some a1 → m !! k2 = Some a2 → f a1 + f a2 ≤ map_sum f m.
Proof.
  intros Hf Hne E1 E2. rewrite <- (insert_delete_id m k1 a1 E1).
  rewrite map_sum_insert_None by apply lookup_delete_eq.
  enough (f a2 ≤ map_sum f (delete k1 m)) by lia.
  apply map_sum_ge with (k := k2).
  - intros k' a' [? E']%lookup_delete_Some. eauto.
  - by rewrite lookup_delete_ne.
Qed.
End map_sum.

Section sum_over.
Context {A : Type}.
Implicit Types (f g : A → Z) (l : list A).

#[export] Instance sum_over_Permutation f : Proper ((≡ₚ) ==> (=)) (sum_over f).
Proof.
  intros l k Hl. unfold sum_over. induction Hl; simpl; lia.
Qed.

Lemma sum_over_app f l k : sum_over f (l ++ k) = sum_over f l + sum_over f k.
Proof. unfold sum_over. induction l as [|x l IH]; simpl; lia. Qed.

Lemma sum_over_nonneg f l : (∀ x, x ∈ l → 0 ≤ f x) → 0 ≤ sum_over f l.
Proof.
  unfold sum_over. induction l as [|x l IH]; simpl; intros Hf; [done|].
  assert (0 ≤ f x) by (apply Hf; set_solver).
  enough (0 ≤ foldr (λ a acc, f a + acc) 0 l) by lia.
  apply IH. intros y Hy. apply Hf. set_solver.
Qed.

Lemma map_sum_over {K} `{Countable K} f (m : gmap K A) :
  map_sum f m = sum_over (λ p, f p.2) (map_to_list m).
Proof.
  unfold map_sum, sum_over. rewrite map_fold_foldr.
  induction (map_to_list m) as [|[k a] l IH]; simpl; [done|]. by rewrite IH.
Qed.

Lemma map_sum_add {K} `{Countable K} f g (m : gmap K A) :
  map_sum (λ a, f a + g a) m = map_sum f m + map_sum g m.
Proof.
  rewrite !map_sum_over. unfold sum_over.
  induction (map_to_list m) as [|[k a] l IH]; simpl; [done|]. rewrite IH. lia.
Qed.

Lemma map_sum_fmap {K B} `{Countable K} (h : B → A) f (m : gmap K B) :
  map_sum f (h <$> m) = map_sum (λ b, f (h b)) m.
Proof.
  induction m as [|k b m Hk IH] using map_ind.
  - by rewrite fmap_empty, !map_sum_empty.
  - rewrite fmap_insert, !map_sum_insert_None, IH; [done..| by rewrite lookup_fmap, Hk].
Qed.

Lemma map_sum_ext {K} `{Countable K} f g (m : gmap K A) :
  (∀ k a, m !! k = Some a → f a = g a) → map_sum f m = map_sum g m.
Proof.
  induction m as [|k a m Hk IH] using map_ind; intros Hfg.
  - by rewrite !map_sum_empty.
  - rewrite !map_sum_insert_None by done. f_equal.
    + apply (Hfg k). by simplify_map_eq.
    + apply IH. intros j b E. apply (Hfg j). rewrite lookup_insert_ne; [done|congruence].
Qed.
End sum_over.

(** ** Loops *)

(** What no round of a loop changes, the loop does not change. *)
Lemma foldl_frame {S X P} (p : S → P) (f : S → X → S) s l :
  (∀ s x, p (f s x) = p s) → p (foldl f s l) = p s.
Proof. intros Hf. revert s. induction l as [|x l IH]; intros s; [done|]. simpl. by rewrite IH. Qed.

(** What every round of a loop keeps, the loop keeps. *)
Lemma foldl_inv {S X} (I : S → Prop) (f : S → X → S) s l :
  (∀ s x, x ∈ l → I s → I (f s x)) → I s → I (foldl f s l).
Proof.
  revert s. induction l as [|x l IH]; intros s Hf Hs; [done|]. simpl.
  apply IH; [intros; apply Hf; set_solver|]. apply Hf; set_solver.
Qed.
