(* ===== verification/Runtime.v ===== *)
(** * The Go runtime and the libraries the node calls

    What the program reads from outside its own text: the clock, the order in
    which a [range] loop visits a map, the order [sort.Slice] leaves between
    elements its comparison does not separate, the disk, the Unicode tables
    behind [strings.ToLower] and friends, and Ed25519.  They are the fields of
    two classes; every theorem holds for every instance.  [demo_runtime] and
    [demo_ed25519] are the concrete instances the examples evaluate. *)

From Stdlib Require Export Floats.SpecFloat.
From S2P Require Import Prelude.
Open Scope Z_scope.
Open Scope go_scope.

(** ** The runtime

    [clock k] is the [k]-th reading of [time.Now()], in nanoseconds since the
    Unix epoch; the program state counts the readings it has made.
    [shuffle k n] is the order in which the [k]-th unordered traversal visits
    [n] entries.  [disk_write k] says whether the [k]-th file write succeeds.
    [float_overflow] is the result of converting to [uint64] a [float64] whose
    truncation is not a [uint64], which Go leaves to the implementation.
    [make_limit] is the largest [n] for which [make([]Transaction, n)] does not
    panic. *)

Class Runtime := {
  clock : nat → Z;
  shuffle : nat → nat → list nat;
  shuffle_perm : ∀ k n, shuffle k n ≡ₚ seq 0 n;
  disk_write : nat → bool;
  float_overflow : spec_float → Z;
  float_overflow_u64 : ∀ f, is_u64 (float_overflow f);
  make_limit : Z;
  unicode_lower : string → string;
  unicode_trim : string → string;
  unicode_fields : string → list string;
}.

(** ** Ed25519

    [GenerateKey k] is the key pair the [k]-th call of [ed25519.GenerateKey]
    returns.  The law is the documented behaviour of the package: a signature
    made with a generated key verifies under its public half, public keys are
    32 bytes, private keys and signatures 64. *)

Class Ed25519 := {
  GenerateKey : nat → list byte * list byte;
  ed_Sign : list byte → list byte → list byte;
  ed_Verify : list byte → list byte → list byte → bool;
  GenerateKey_len : ∀ k, length (GenerateKey k).1 = 32%nat;
  GenerateKey_priv_len : ∀ k, length (GenerateKey k).2 = 64%nat;
  ed_Sign_len : ∀ priv m, length (ed_Sign priv m) = 64%nat;
  ed_Verify_Sign : ∀ k m,
    ed_Verify (GenerateKey k).1 m (ed_Sign (GenerateKey k).2 m) = true;
}.

Definition PublicKeySize : nat := 32.
Definition SignatureSize : nat := 64.
Definition PrivateKeySize : nat := 64.

(** ** Unordered traversals *)

(** The elements of [l] in the order of the index list [p]. *)
Definition reorder {A} (p : list nat) (l : list A) : list A :=
  omap (λ i, l !! i) p.

(** [range] over a map: its entries in the order the runtime picks. *)
Definition range_map {A} `{Runtime} (k : nat) (m : gmap string A) : list (string * A) :=
  let l := map_to_list m in reorder (shuffle k (length l)) l.

(** [sort.Slice(l, less)]: a sorted rearrangement of [l]; among elements that
    [less] does not separate the order is the runtime's. *)
Definition not_after {A} (less : A → A → bool) (x y : A) : Prop :=
  less y x = false.

#[export] Instance not_after_dec {A} (less : A → A → bool) : RelDecision (not_after less).
Proof. intros x y. unfold not_after. apply _. Defined.

Definition sort_Slice {A} `{Runtime} (k : nat) (less : A → A → bool) (l : list A) : list A :=
  merge_sort (not_after less) (reorder (shuffle k (length l)) l).

(** [s < t] on Go strings: bytewise lexicographic. *)
Fixpoint string_lt (s t : string) : bool :=
  match s, t with
  | EmptyString, EmptyString => false
  | EmptyString, String _ _ => true
  | String _ _, EmptyString => false
  | String a s, String b t =>
      let x := Ascii.nat_of_ascii a in
      let y := Ascii.nat_of_ascii b in
      if (x <? y)%nat then true else if (y <? x)%nat then false else string_lt s t
  end.

(** ** Concrete instances for examples *)

Definition demo_runtime : Runtime.
Proof.
  refine {| clock := λ k, 1700000000 * 10 ^ 9 + Z.of_nat k;
            shuffle := λ _ n, seq 0 n;
            disk_write := λ _, true;
            float_overflow := λ _, 2 ^ 63;
            make_limit := 2 ^ 40;
            unicode_lower := λ s, s;
            unicode_trim := λ s, s;
            unicode_fields := λ s, [s] |}.
  - reflexivity.
  - intros _. unfold is_u64, max_u64. lia.
Defined.

(** A toy scheme with the laws of the class: the public key is a constant
    and a signature is the first 64 bytes of the padded message. *)
Definition pad_to (n : nat) (l : list byte) : list byte :=
  take n (l ++ replicate n x00).

Definition demo_ed25519 : Ed25519.
Proof.
  refine {| GenerateKey := λ k, (pad_to 32 [byte_of_Z (Z.of_nat k)], replicate 64 x00);
            ed_Sign := λ _ m, pad_to 64 m;
            ed_Verify := λ _ m s, bool_decide (s = pad_to 64 m) |}.
  - intros k. reflexivity.
  - intros k. reflexivity.
  - intros _ m. unfold pad_to. rewrite length_take, length_app, length_replicate. lia.
  - intros k m. by apply bool_decide_eq_true_2.
Defined.

(** ** Lemmas *)

Lemma reorder_Permutation {A} (p : list nat) (l : list A) :
  p ≡ₚ seq 0 (length l) → reorder p l ≡ₚ l.
Proof.
  intros Hp. unfold reorder. rewrite Hp. clear p Hp.
  assert (∀ k : list A, omap (λ i, (k ++ l) !! i) (seq (length k) (length l)) = l) as Hg.
  { induction l as [|x l IH]; intros k; [done|]. simpl.
    rewrite list_lookup_middle by done. f_equal.
    specialize (IH (k ++ [x])).
    rewrite <- app_assoc, length_app in IH. simpl in IH.
    by rewrite Nat.add_1_r in IH. }
  specialize (Hg []). simpl in Hg. by rewrite Hg.
Qed.

Section runtime_lemmas.
Context `{Runtime}.

Lemma range_map_Permutation {A} k (m : gmap string A) :
  range_map k m ≡ₚ map_to_list m.
Proof. apply reorder_Permutation, shuffle_perm. Qed.

Lemma elem_of_range_map {A} k (m : gmap string A) a x :
  (a, x) ∈ range_map k m ↔ m !! a = Some x.
Proof. rewrite range_map_Permutation. apply elem_of_map_to_list. Qed.

Lemma sort_Slice_Permutation {A} k (less : A → A → bool) l :
  sort_Slice k less l ≡ₚ l.
Proof.
  unfold sort_Slice. rewrite merge_sort_Permutation.
  apply reorder_Permutation, shuffle_perm.
Qed.

Lemma sort_Slice_sorted {A} k (less : A → A → bool) l :
  (∀ x y, less x y = true → less y x = false) →
  Sorted (not_after less) (sort_Slice k less l).
Proof.
  intros Hasym. apply Sorted_merge_sort. intros x y. unfold not_after.
  destruct (less y x) eqn:E; [right|left]; eauto.
Qed.

(** When [less] is a strict total order the result does not depend on the
    runtime. *)
Lemma sort_Slice_unique {A} k k' (less : A → A → bool) l l' :
  (∀ x y, less x y = true → less y x = false) →
  (∀ x y z, less x y = false → less y z = false → less x z = false) →
  (∀ x y, less x y = false → less y x = false → x = y) →
  l ≡ₚ l' → sort_Slice k less l = sort_Slice k' less l'.
Proof.
  intros Hasym Htrans Hanti Hl.
  assert (Transitive (not_after less)) by (intros x y z ??; by eapply Htrans).
  assert (AntiSymm (=) (not_after less)) by (intros x y ??; by apply Hanti).
  apply (Sorted_unique (not_after less)).
  - by apply sort_Slice_sorted.
  - by apply sort_Slice_sorted.
  - by rewrite !sort_Slice_Permutation.
Qed.
End runtime_lemmas.

Lemma string_lt_irrefl s : string_lt s s = false.
Proof. induction s as [|a s IH]; [done|]. simpl. by rewrite Nat.ltb_irrefl. Qed.

Lemma string_lt_asym s t : string_lt s t = true → string_lt t s = false.
Proof.
  revert t. induction s as [|a s IH]; intros [|b t]; simpl; try done.
  repeat case_match; try done; eauto.
  all: repeat match goal with H : (_ <? _)%nat = _ |- _ =>
    rewrite ?Nat.ltb_lt, ?Nat.ltb_ge in H end; lia.
Qed.

Lemma string_lt_total s t : string_lt s t = false → string_lt t s = false → s = t.
Proof.
  revert t. induction s as [|a s IH]; intros [|b t]; simpl; try done.
  repeat case_match; try done. intros.
  rewrite ?Nat.ltb_lt, ?Nat.ltb_ge in *.
  assert (Ascii.nat_of_ascii a = Ascii.nat_of_ascii b) as E by lia.
  apply (f_equal Ascii.ascii_of_nat) in E. rewrite !Ascii.ascii_nat_embedding in E. subst.
  f_equal. eauto.
Qed.

Lemma string_lt_trans_neg r s t :
  string_lt r s = false → string_lt s t = false → string_lt r t = false.
Proof.
  revert s t. induction r as [|a r IH]; intros [|b s] [|c t]; simpl; try done.
  repeat case_match; try done; rewrite ?Nat.ltb_lt, ?Nat.ltb_ge in *; try lia.
  eauto.
Qed.
