(* ===== verification/Text.v ===== *)
(** * Go's text functions

    What the program uses of [strconv], [encoding/hex], [strings] and [fmt]:
    decimal formatting and parsing of [uint64], hexadecimal encoding and
    decoding, [TrimSpace], [ToLower] and [Fields].  On strings that are not
    ASCII the last three depend on the Unicode tables, which are parameters
    ([Runtime]). *)

From stdpp Require Export pretty.
From S2P Require Import Prelude Runtime.
Open Scope Z_scope.
Open Scope go_scope.

(** ** Decimal *)

(** [strconv.FormatUint(x, 10)], [strconv.FormatInt(x, 10)] and [%d]. *)
Definition FormatInt (x : Z) : string := pretty x.

(** [%t] *)
Definition FormatBool (b : bool) : string := if b then "true" else "false".

Definition digit_value (c : Ascii.ascii) : option Z :=
  let n := Z.of_nat (Ascii.nat_of_ascii c) in
  if (48 <=? n) && (n <=? 57) then Some (n - 48) else None.

Definition parse_cutoff : Z := (max_u64 - 1) `div` 10 + 1.

(** The digit loop of [strconv.ParseUint(s, 10, 64)]: the value returned
    (kept even when the error is dropped by the caller) and the error. *)
Fixpoint parse_uint_loop (n : Z) (s : string) : Z * option string :=
  match s with
  | EmptyString => (n, None)
  | String c s =>
      match digit_value c with
      | None => (0, Some "invalid syntax")
      | Some d =>
          if parse_cutoff <=? n then (max_u64 - 1, Some "value out of range")
          else let n1 := n * 10 + d in
               if max_u64 - 1 <? n1 then (max_u64 - 1, Some "value out of range")
               else parse_uint_loop n1 s
      end
  end.

Definition ParseUint (s : string) : Z * option string :=
  match s with
  | EmptyString => (0, Some "invalid syntax")
  | _ => parse_uint_loop 0 s
  end.

(** [fmt.Sprintf("%0<width>d", x)] for an unsigned [x]. *)
Fixpoint zeros (n : nat) : string :=
  match n with O => "" | S n => "0" +:+ zeros n end.

Definition pad_zeros (width : nat) (s : string) : string :=
  zeros (width - String.length s) +:+ s.

(** ** Hexadecimal *)

Definition hex_digit (n : Z) : Ascii.ascii :=
  Ascii.ascii_of_nat (Z.to_nat (if n <? 10 then 48 + n else 87 + n)).

Definition hex_value (c : Ascii.ascii) : option Z :=
  let n := Z.of_nat (Ascii.nat_of_ascii c) in
  if (48 <=? n) && (n <=? 57) then Some (n - 48)
  else if (97 <=? n) && (n <=? 102) then Some (n - 87)
  else if (65 <=? n) && (n <=? 70) then Some (n - 55)
  else None.

Definition hex_byte (b : byte) (s : string) : string :=
  let n := Z_of_byte b in
  String (hex_digit (n `div` 16)) (String (hex_digit (n mod 16)) s).

(** [hex.EncodeToString] *)
Definition EncodeToString (l : list byte) : string := foldr hex_byte "" l.

(** [hex.DecodeString]: an odd length or a byte that is not a hexadecimal
    digit is an error. *)
Fixpoint DecodeString (s : string) : outcome (list byte) :=
  match s with
  | EmptyString => Ok []
  | String _ EmptyString => Err "encoding/hex: odd length hex string"
  | String a (String b s) =>
      match hex_value a, hex_value b with
      | Some x, Some y => l ← DecodeString s; Ok (byte_of_Z (16 * x + y) :: l)
      | _, _ => Err "encoding/hex: invalid byte"
      end
  end.

(** ** Spaces and case *)

Fixpoint is_ascii (s : string) : bool :=
  match s with
  | EmptyString => true
  | String c s => (Ascii.nat_of_ascii c <? 128)%nat && is_ascii s
  end.

Fixpoint string_all (p : Ascii.ascii → bool) (s : string) : bool :=
  match s with
  | EmptyString => true
  | String c s => p c && string_all p s
  end.

Definition is_digit (c : Ascii.ascii) : bool := bool_decide (is_Some (digit_value c)).

Definition is_space (c : Ascii.ascii) : bool :=
  let n := Ascii.nat_of_ascii c in
  ((9 <=? n) && (n <=? 13) || (n =? 32))%nat.

Fixpoint trim_left (s : string) : string :=
  match s with
  | String c s' => if is_space c then trim_left s' else s
  | EmptyString => EmptyString
  end.

Fixpoint trim_right (s : string) : string :=
  match s with
  | EmptyString => EmptyString
  | String c s' =>
      match trim_right s' with
      | EmptyString => if is_space c then EmptyString else String c EmptyString
      | t => String c t
      end
  end.

Definition lower_char (c : Ascii.ascii) : Ascii.ascii :=
  let n := Ascii.nat_of_ascii c in
  if ((65 <=? n) && (n <=? 90))%nat then Ascii.ascii_of_nat (n + 32) else c.

Fixpoint lower_ascii (s : string) : string :=
  match s with
  | EmptyString => EmptyString
  | String c s => String (lower_char c) (lower_ascii s)
  end.

(** The maximal runs of non-space characters, [cur] being the run read so
    far. *)
Fixpoint fields_ascii (cur s : string) : list string :=
  match s with
  | EmptyString => match cur with EmptyString => [] | _ => [cur] end
  | String c s =>
      if is_space c
      then match cur with
           | EmptyString => fields_ascii "" s
           | _ => cur :: fields_ascii "" s
           end
      else fields_ascii (cur +:+ String c "") s
  end.

Section unicode.
Context `{Runtime}.

Definition TrimSpace (s : string) : string :=
  if is_ascii s then trim_right (trim_left s) else unicode_trim s.

Definition ToLower (s : string) : string :=
  if is_ascii s then lower_ascii s else unicode_lower s.

Definition Fields (s : string) : list string :=
  if is_ascii s then fields_ascii "" s else unicode_fields s.
End unicode.

(** ** Decimal lemmas *)

Lemma digit_value_pretty (x : N) :
  (x < 10)%N → digit_value (pretty_N_char x) = Some (Z.of_N x).
Proof.
  intros. assert (x = 0 ∨ x = 1 ∨ x = 2 ∨ x = 3 ∨ x = 4 ∨ x = 5 ∨ x = 6 ∨ x = 7 ∨ x = 8 ∨ x = 9)%N
    as Hx by lia.
  repeat (destruct Hx as [->|Hx]; [done|]). by subst.
Qed.

(** Parsing the digits of [x] continues the parse of what follows them with
    the accumulator at [x]. *)
Lemma parse_uint_loop_pretty (x : N) s :
  Z.of_N x < max_u64 →
  parse_uint_loop 0 (pretty_N_go x s) = parse_uint_loop (Z.of_N x) s.
Proof.
  revert s. induction (N.lt_wf_0 x) as [x _ IH]; intros s Hx.
  destruct (decide (x = 0)%N) as [->|Hne]; [done|].
  pose proof (N.div_mod x 10 ltac:(done)) as Hdm.
  pose proof (N.mod_lt x 10 ltac:(done)) as Hm.
  rewrite pretty_N_go_step by lia.
  set (q := (x `div` 10)%N) in *. set (r := (x `mod` 10)%N) in *.
  assert (q < x)%N by (apply N.div_lt; lia).
  clearbody q r. rewrite IH by lia. simpl.
  rewrite digit_value_pretty by done.
  destruct (Z.leb_spec parse_cutoff (Z.of_N q)) as [Hc|Hc].
  { exfalso. unfold parse_cutoff, max_u64 in *. change ((2 ^ 64 - 1) `div` 10) with 1844674407370955161 in Hc. lia. }
  replace (Z.of_N q * 10 + Z.of_N r) with (Z.of_N x) by lia.
  destruct (Z.ltb_spec (max_u64 - 1) (Z.of_N x)); [lia|done].
Qed.

Lemma pretty_N_go_nonempty x s : (0 < x)%N → pretty_N_go x s ≠ "".
Proof.
  revert s. induction (N.lt_wf_0 x) as [x _ IH]; intros s Hx.
  rewrite pretty_N_go_step by done.
  destruct (decide (x `div` 10 = 0)%N) as [->|]; [done|].
  apply IH; [apply N.div_lt; lia|by apply N.neq_0_lt_0].
Qed.

(** Formatting a [uint64] in decimal and parsing it back gives the value. *)
Lemma ParseUint_FormatInt x : is_u64 x → ParseUint (FormatInt x) = (x, None).
Proof.
  intros Hx. destruct x as [|p|p]; [done| |u64_lia].
  unfold FormatInt, pretty, pretty_Z, pretty, pretty_positive, pretty, pretty_N.
  rewrite decide_False by done.
  pose proof (parse_uint_loop_pretty (N.pos p) "") as Hp.
  pose proof (pretty_N_go_nonempty (N.pos p) "" ltac:(lia)) as Hne.
  unfold ParseUint. destruct (pretty_N_go (N.pos p) "") eqn:E; [done|].
  rewrite Hp by u64_lia. done.
Qed.

#[export] Instance FormatInt_inj : Inj (=) (=) FormatInt.
Proof. apply _. Qed.

(** ** Hexadecimal lemmas *)

Definition nibbles : list Z := seqZ 0 16.

Lemma hex_value_digit_all :
  forallb (λ n, bool_decide (hex_value (hex_digit n) = Some n)) nibbles = true.
Proof. vm_compute. reflexivity. Qed.

Lemma hex_value_digit n : 0 ≤ n < 16 → hex_value (hex_digit n) = Some n.
Proof.
  intros Hn. pose proof hex_value_digit_all as Ha.
  rewrite List.forallb_forall in Ha.
  specialize (Ha n). eapply bool_decide_eq_true_1, Ha.
  apply list_elem_of_In, elem_of_seqZ. lia.
Qed.

Lemma DecodeString_EncodeToString l : DecodeString (EncodeToString l) = Ok l.
Proof.
  induction l as [|b l IH]; [done|]. cbn.
  pose proof (Z_of_byte_range b).
  pose proof (Z.div_mod (Z_of_byte b) 16 ltac:(lia)).
  pose proof (Z.mod_pos_bound (Z_of_byte b) 16 ltac:(lia)).
  rewrite !hex_value_digit by lia.
  fold (EncodeToString l). rewrite IH. cbn.
  replace (16 * _ + _) with (Z_of_byte b) by lia.
  by rewrite byte_of_Z_of_byte.
Qed.

#[export] Instance EncodeToString_inj : Inj (=) (=) EncodeToString.
Proof.
  intros l k E. apply (f_equal DecodeString) in E.
  rewrite !DecodeString_EncodeToString in E. by injection E.
Qed.

Lemma EncodeToString_length l : String.length (EncodeToString l) = (2 * length l)%nat.
Proof. induction l as [|b l IH]; [done|]. cbn. unfold EncodeToString in IH. rewrite IH. lia. Qed.

(** ** Strings of one class of characters *)

Lemma string_app_assoc r s t : (r +:+ s) +:+ t = r +:+ (s +:+ t).
Proof. induction r as [|c r IH]; [done|]. simpl. by rewrite IH. Qed.

Lemma string_app_nil_r s : s +:+ "" = s.
Proof. induction s as [|c s IH]; [done|]. simpl. by rewrite IH. Qed.

Lemma string_all_app p s t : string_all p (s +:+ t) = string_all p s && string_all p t.
Proof. induction s as [|c s IH]; [done|]. simpl. by rewrite IH, andb_assoc. Qed.

Lemma string_all_impl (p q : Ascii.ascii → bool) s :
  (∀ c, p c = true → q c = true) → string_all p s = true → string_all q s = true.
Proof.
  intros Hpq. induction s as [|c s IH]; [done|]. simpl.
  intros [Hc Hs]%andb_prop. by rewrite (Hpq c Hc), (IH Hs).
Qed.

Lemma is_ascii_app s t : is_ascii (s +:+ t) = is_ascii s && is_ascii t.
Proof. induction s as [|c s IH]; [done|]. simpl. by rewrite IH, andb_assoc. Qed.

Lemma is_digit_pretty (x : N) : (x < 10)%N → is_digit (pretty_N_char x) = true.
Proof.
  intros. apply bool_decide_eq_true_2. rewrite digit_value_pretty by done. by eexists.
Qed.

Lemma pretty_N_go_digits x s :
  string_all is_digit s = true → string_all is_digit (pretty_N_go x s) = true.
Proof.
  revert s. induction (N.lt_wf_0 x) as [x _ IH]; intros s Hs.
  destruct (decide (x = 0)%N) as [->|]; [done|].
  rewrite pretty_N_go_step by lia.
  apply IH; [apply N.div_lt; lia|]. simpl. rewrite Hs, andb_true_r.
  by apply is_digit_pretty, N.mod_lt.
Qed.

Lemma FormatInt_digits x : 0 ≤ x → string_all is_digit (FormatInt x) = true.
Proof.
  intros Hx. destruct x as [|p|p]; [done| |lia].
  unfold FormatInt, pretty, pretty_Z, pretty, pretty_positive, pretty, pretty_N.
  rewrite decide_False by done. by apply pretty_N_go_digits.
Qed.

Lemma FormatInt_nonempty x : 0 ≤ x → FormatInt x ≠ "".
Proof.
  intros Hx. destruct x as [|p|p]; [done| |lia].
  unfold FormatInt, pretty, pretty_Z, pretty, pretty_positive, pretty, pretty_N.
  rewrite decide_False by done. by apply pretty_N_go_nonempty.
Qed.

Lemma is_digit_nat c :
  is_digit c = true → (48 ≤ Ascii.nat_of_ascii c ≤ 57)%nat.
Proof.
  unfold is_digit, digit_value. intros [v Hv]%bool_decide_eq_true_1.
  destruct (_ && _) eqn:E; [|done]. prop_bools. lia.
Qed.

Lemma digits_ascii s : string_all is_digit s = true → is_ascii s = true.
Proof.
  induction s as [|c s IH]; [done|]. simpl. intros [Hc%is_digit_nat Hs]%andb_prop.
  rewrite IH by done. rewrite andb_true_r. apply Nat.ltb_lt. lia.
Qed.

Definition is_visible (c : Ascii.ascii) : bool := negb (is_space c).

Lemma digits_visible s : string_all is_digit s = true → string_all is_visible s = true.
Proof.
  apply string_all_impl. intros c Hc%is_digit_nat. unfold is_visible, is_space.
  apply negb_true_iff.
  destruct (Nat.leb_spec 9 (Ascii.nat_of_ascii c)), (Nat.leb_spec (Ascii.nat_of_ascii c) 13),
    (Nat.eqb_spec (Ascii.nat_of_ascii c) 32); simpl; lia.
Qed.

(** ** Fields and trimming *)

Lemma fields_word cur w c rest :
  string_all is_visible w = true → is_space c = true → cur +:+ w ≠ "" →
  fields_ascii cur (w +:+ String c rest) = (cur +:+ w) :: fields_ascii "" rest.
Proof.
  revert cur. induction w as [|a w IH]; intros cur Hw Hc Hne; simpl in *.
  - rewrite string_app_nil_r in *. rewrite Hc. by destruct cur.
  - apply andb_prop in Hw as [Ha Hw]. unfold is_visible in Ha. apply negb_true_iff in Ha.
    rewrite Ha. rewrite IH; rewrite ?string_app_assoc; done.
Qed.

Lemma trim_left_visible c s : is_space c = false → trim_left (String c s) = String c s.
Proof. intros Hc. simpl. by rewrite Hc. Qed.

Lemma trim_right_app s t : trim_right t ≠ "" → trim_right (s +:+ t) = s +:+ trim_right t.
Proof.
  intros Ht. induction s as [|c s IH]; [done|]. simpl. rewrite IH.
  destruct (s +:+ trim_right t) as [|a u] eqn:E; [|done].
  by destruct s, (trim_right t).
Qed.
