(* ===== verification/Sha256.v ===== *)
(** * [crypto/sha256]

    An executable SHA-256 (FIPS 180-4) on byte lists: block hashes, Merkle
    nodes, addresses and transaction identifiers are computed with it.  The
    lemmas give the length of a digest; the examples are the standard test
    vectors. *)

From S2P Require Import Prelude Text.
Open Scope Z_scope.
Open Scope go_scope.

Definition rotr (n x : Z) : Z :=
  Z.lor (Z.shiftr x n) (u32 (Z.shiftl x (32 - n))).

(** The round constants are the first 32 bits of the fractional parts of the
    cube roots of the first 64 primes.  [cube_root n x] is the integer cube
    root of [x], found bit by bit from bit [n - 1] down. *)
Fixpoint cube_root_from (n : nat) (r x : Z) : Z :=
  match n with
  | O => r
  | S n =>
      let r' := r + 2 ^ Z.of_nat n in
      cube_root_from n (if r' * r' * r' <=? x then r' else r) x
  end.

Definition cube_root (n : nat) (x : Z) : Z := cube_root_from n 0 x.

Definition small_prime (p : nat) : bool :=
  forallb (λ d, negb (Nat.eqb (Nat.modulo p d) 0)) (seq 2 (p - 2)).

Definition primes64 : list nat := filter (λ p, small_prime p = true) (seq 2 310).

Definition round_constants : list Z :=
  Eval vm_compute in map (λ p, cube_root 35 (Z.of_nat p * 2 ^ 96) mod 2 ^ 32) primes64.

Example round_constants_ends :
  length round_constants = 64%nat ∧ head round_constants = Some 0x428a2f98 ∧
  last round_constants = Some 0xc67178f2.
Proof. by vm_compute. Qed.

Record hash_state := HashState
  { ha : Z; hb : Z; hc : Z; hd : Z; he : Z; hf : Z; hg : Z; hh : Z }.

Definition initial_state : hash_state :=
  HashState 0x6a09e667 0xbb67ae85 0x3c6ef372 0xa54ff53a
            0x510e527f 0x9b05688c 0x1f83d9ab 0x5be0cd19.

(** [n] bytes of [x], most significant first. *)
Fixpoint be_bytes (n : nat) (x : Z) : list byte :=
  match n with
  | O => []
  | S n => byte_of_Z (Z.shiftr x (8 * Z.of_nat n)) :: be_bytes n x
  end.

Definition be_value (l : list byte) : Z :=
  foldl (λ acc b, 256 * acc + Z_of_byte b) 0 l.

Fixpoint words (n : nat) (l : list byte) : list Z :=
  match n with
  | O => []
  | S n => be_value (take 4 l) :: words n (drop 4 l)
  end.

(** The message schedule, newest word first. *)
Fixpoint extend (n : nat) (w : list Z) : list Z :=
  match n with
  | O => w
  | S n =>
      let w15 := nth 14 w 0 in
      let w2 := nth 1 w 0 in
      let s0 := Z.lxor (Z.lxor (rotr 7 w15) (rotr 18 w15)) (Z.shiftr w15 3) in
      let s1 := Z.lxor (Z.lxor (rotr 17 w2) (rotr 19 w2)) (Z.shiftr w2 10) in
      extend n (u32 (nth 15 w 0 + s0 + nth 6 w 0 + s1) :: w)
  end.

Definition round (s : hash_state) (kw : Z * Z) : hash_state :=
  let '(HashState a b c d e f g h) := s in
  let s1 := Z.lxor (Z.lxor (rotr 6 e) (rotr 11 e)) (rotr 25 e) in
  let ch := Z.lxor (Z.land e f) (Z.land (Z.lxor e (max_u32 - 1)) g) in
  let t1 := u32 (h + s1 + ch + kw.1 + kw.2) in
  let s0 := Z.lxor (Z.lxor (rotr 2 a) (rotr 13 a)) (rotr 22 a) in
  let maj := Z.lxor (Z.lxor (Z.land a b) (Z.land a c)) (Z.land b c) in
  let t2 := u32 (s0 + maj) in
  HashState (u32 (t1 + t2)) a b c (u32 (d + t1)) e f g.

Definition compress (s : hash_state) (block : list byte) : hash_state :=
  let w := reverse (extend 48 (reverse (words 16 block))) in
  let r := foldl round s (zip round_constants w) in
  HashState (u32 (ha s + ha r)) (u32 (hb s + hb r)) (u32 (hc s + hc r)) (u32 (hd s + hd r))
            (u32 (he s + he r)) (u32 (hf s + hf r)) (u32 (hg s + hg r)) (u32 (hh s + hh r)).

Fixpoint compress_all (n : nat) (s : hash_state) (l : list byte) : hash_state :=
  match n with
  | O => s
  | S n => compress_all n (compress s (take 64 l)) (drop 64 l)
  end.

Definition padding (len : nat) : list byte :=
  x80 :: replicate (Z.to_nat ((55 - Z.of_nat len) mod 64)) x00
      ++ be_bytes 8 (8 * Z.of_nat len).

(** [sha256.Sum256] *)
Definition Sum256 (l : list byte) : list byte :=
  let m := l ++ padding (length l) in
  let s := compress_all (length m `div` 64) initial_state m in
  concat (map (be_bytes 4) [ha s; hb s; hc s; hd s; he s; hf s; hg s; hh s]).

(** [hex.EncodeToString] of a digest, the form every hash of the program is
    kept in. *)
Definition sha_hex (l : list byte) : string := EncodeToString (Sum256 l).

(** ** Lemmas *)

Lemma length_be_bytes n x : length (be_bytes n x) = n.
Proof. induction n; simpl; congruence. Qed.

(** Splitting and combining are inverse on values of [n] bytes. *)
Lemma be_value_app l b : be_value (l ++ [b]) = 256 * be_value l + Z_of_byte b.
Proof. unfold be_value. by rewrite foldl_app. Qed.

Lemma be_value_cons_acc l acc :
  foldl (λ acc b, 256 * acc + Z_of_byte b) acc l
  = acc * 256 ^ blen l + be_value l.
Proof.
  unfold be_value. revert acc. induction l as [|b l IH]; intros acc.
  { cbn. change (256 ^ blen []) with 1. lia. }
  cbn [foldl]. rewrite IH, (IH (256 * 0 + _)), blen_cons.
  rewrite Z.pow_add_r by (try lia; apply blen_nonneg). lia.
Qed.

Lemma be_value_cons b l : be_value (b :: l) = Z_of_byte b * 256 ^ blen l + be_value l.
Proof. unfold be_value at 1. cbn [foldl]. rewrite be_value_cons_acc. f_equal. Qed.

Lemma be_value_be_bytes n x : be_value (be_bytes n x) = x mod 256 ^ Z.of_nat n.
Proof.
  induction n as [|n IH].
  { cbn. by rewrite Z.mod_1_r. }
  cbn [be_bytes]. rewrite be_value_cons, IH, Z_of_byte_of_Z.
  unfold blen. rewrite length_be_bytes.
  rewrite Z.shiftr_div_pow2 by lia.
  replace (2 ^ (8 * Z.of_nat n)) with (256 ^ Z.of_nat n)
    by (change 256 with (2 ^ 8); rewrite <- Z.pow_mul_r by lia; done).
  rewrite Nat2Z.inj_succ, Z.pow_succ_r by lia.
  assert (0 < 256 ^ Z.of_nat n) by (apply Z.pow_pos_nonneg; lia).
  rewrite (Z.mul_comm 256), Z.rem_mul_r by lia. lia.
Qed.

Lemma be_value_range l : 0 ≤ be_value l < 256 ^ blen l.
Proof.
  induction l as [|b l IH]; [done|].
  rewrite be_value_cons, blen_cons. pose proof (Z_of_byte_range b).
  rewrite Z.pow_add_r by (try lia; apply blen_nonneg).
  assert (0 < 256 ^ blen l) by (apply Z.pow_pos_nonneg; [lia|apply blen_nonneg]). nia.
Qed.

Lemma be_value_inj l l' : length l = length l' → be_value l = be_value l' → l = l'.
Proof.
  revert l'. induction l as [|b l IH]; intros [|b' l'] Hl E; [done|done|done|].
  injection Hl as Hl. rewrite !be_value_cons in E.
  pose proof (be_value_range l) as H1. pose proof (be_value_range l') as H2.
  assert (blen l' = blen l) as Eb by (unfold blen; lia). rewrite Eb in *.
  assert (Z_of_byte b = Z_of_byte b') as Ez by nia.
  f_equal; [|apply IH; [done|]; rewrite Ez in E; lia].
  by apply (f_equal byte_of_Z) in Ez; rewrite !byte_of_Z_of_byte in Ez.
Qed.

Lemma be_bytes_be_value l : be_bytes (length l) (be_value l) = l.
Proof.
  apply be_value_inj; [apply length_be_bytes|]. rewrite be_value_be_bytes.
  apply Z.mod_small. apply be_value_range.
Qed.

Lemma length_Sum256 l : length (Sum256 l) = 32%nat.
Proof. reflexivity. Qed.

Lemma length_sha_hex l : String.length (sha_hex l) = 64%nat.
Proof. unfold sha_hex. by rewrite EncodeToString_length, length_Sum256. Qed.

Lemma sha_hex_not_empty l : sha_hex l ≠ "".
Proof. intros E. pose proof (length_sha_hex l). by rewrite E in *. Qed.

Example Sum256_empty :
  sha_hex [] = "e3b0c44298fc1c149afbf4c8996fb92427ae41e4649b934ca495991b7852b855".
Proof. vm_compute. reflexivity. Qed.

Example Sum256_abc :
  sha_hex (bytes_of_string "abc")
  = "ba7816bf8f01cfea414140de5dae2223b00361a396177a9cb410ff61f20015ad".
Proof. vm_compute. reflexivity. Qed.

Example Sum256_two_blocks :
  sha_hex (bytes_of_string "abcdbcdecdefdefgefghfghighijhijkijkljklmklmnlmnomnopnopq")
  = "248d6a61d20638b8e5c026930c3e6039a33ce45964ff2167f6ecedd419db06c1".
Proof. vm_compute. reflexivity. Qed.

#[global] Arguments be_bytes : simpl never.
#[global] Opaque Sum256.
