(* ===== verification/Float64.v ===== *)
(** * float64 arithmetic

    Go's [float64] is IEEE 754 binary64 with rounding to nearest even: the
    specification of the Standard Library ([SpecFloat]) at precision 53 and
    exponent bound 1024, with the conversions the node uses.  The operations
    are those of one rounding each (no fused multiply-add). *)

From S2P Require Import Prelude Runtime.
Open Scope Z_scope.
Open Scope go_scope.

Definition float64 : Type := spec_float.

Definition prec64 : Z := 53.
Definition emax64 : Z := 1024.

Definition f64_add : float64 → float64 → float64 := SFadd prec64 emax64.
Definition f64_sub : float64 → float64 → float64 := SFsub prec64 emax64.
Definition f64_mul : float64 → float64 → float64 := SFmul prec64 emax64.
Definition f64_div : float64 → float64 → float64 := SFdiv prec64 emax64.
Definition f64_lt : float64 → float64 → bool := SFltb.
Definition f64_eqb : float64 → float64 → bool := SFeqb.
Definition f64_abs : float64 → float64 := SFabs.

(** [float64(x)] of an integer. *)
Definition f64_of_Z (x : Z) : float64 := binary_normalize prec64 emax64 x 0 false.

(** A decimal literal [a / b], rounded once. *)
Definition f64_lit (a b : Z) : float64 := f64_div (f64_of_Z a) (f64_of_Z b).

(** The integer part of a finite value, towards zero. *)
Definition f64_trunc (m : positive) (e : Z) : Z :=
  if 0 <=? e then Z.pos m * 2 ^ e else Z.pos m `div` 2 ^ (- e).

(** [uint64(f)]: a value whose integer part is no [uint64] converts to what
    the implementation chooses. *)
Definition u64_of_f64 `{Runtime} (f : float64) : Z :=
  match f with
  | S754_zero _ => 0
  | S754_finite s m e =>
      let t := f64_trunc m e in
      let t := if s then - t else t in
      if (0 <=? t) && (t <? max_u64) then t else float_overflow f
  | _ => float_overflow f
  end.

(** [math.Ceil] and [math.Floor] as integers, for the finite values they are
    converted from. *)
Definition Z_ceil (f : float64) : option Z :=
  match f with
  | S754_zero _ => Some 0
  | S754_finite s m e =>
      Some (if 0 <=? e then (if s then - (Z.pos m * 2 ^ e) else Z.pos m * 2 ^ e)
            else let x := if s then Z.neg m else Z.pos m in - ((- x) `div` 2 ^ (- e)))
  | _ => None
  end.

Definition f64_ceil (f : float64) : float64 :=
  match Z_ceil f with Some z => f64_of_Z z | None => f end.

Definition Z_floor (f : float64) : option Z :=
  match f with
  | S754_zero _ => Some 0
  | S754_finite s m e =>
      Some (if 0 <=? e then (if s then - (Z.pos m * 2 ^ e) else Z.pos m * 2 ^ e)
            else let x := if s then Z.neg m else Z.pos m in x `div` 2 ^ (- e))
  | _ => None
  end.

Definition f64_floor (f : float64) : float64 :=
  match Z_floor f with Some z => f64_of_Z z | None => f end.

(** [math.Max(x, y)]: NaN when either is, except that an infinity wins. *)
Definition f64_max (x y : float64) : float64 :=
  match x, y with
  | S754_infinity false, _ | _, S754_infinity false => S754_infinity false
  | S754_nan, _ | _, S754_nan => S754_nan
  | S754_zero sx, S754_zero sy => if sx then y else x
  | _, _ => if f64_lt y x then x else y
  end.

(** [math.Min(x, y)] *)
Definition f64_min (x y : float64) : float64 :=
  match x, y with
  | S754_infinity true, _ | _, S754_infinity true => S754_infinity true
  | S754_nan, _ | _, S754_nan => S754_nan
  | S754_zero sx, S754_zero sy => if sx then x else y
  | _, _ => if f64_lt x y then x else y
  end.

(** ** Facts *)

Lemma u64_of_f64_range `{Runtime} f : is_u64 (u64_of_f64 f).
Proof.
  destruct f as [s|s| |s m e]; cbn [u64_of_f64]; try apply float_overflow_u64.
  - u64_lia.
  - cbv zeta. destruct (_ && _) eqn:E; [|apply float_overflow_u64]. prop_bools. by split.
Qed.

(** The usual rounding: 0.1 + 0.2 is 0.30000000000000004. *)
Example f64_tenths :
  f64_add (f64_lit 1 10) (f64_lit 2 10) = S754_finite false 5404319552844596 (-54).
Proof. vm_compute. reflexivity. Qed.

Example f64_third : f64_div (f64_of_Z 1) (f64_of_Z 3) = S754_finite false 6004799503160661 (-54).
Proof. vm_compute. reflexivity. Qed.
