(* ===== verification/Domain.v ===== *)
(** * The data model (go-chain/blockchain/domain.go)

    The records of [domain.go] with the source's field names behind a prefix
    per type, its constants, the validator key rotation, the amount printer
    and parser, and the transaction signature: [CanonicalSigningBytes],
    [Wallet.Sign] and [VerifyTransaction].

    [uint64], [int64], [uint32] and [int] fields are [Z]; the operations that
    write them wrap.  A transaction type is a string, as in the source. *)

From S2P Require Import Prelude Runtime Text Sha256.
Open Scope Z_scope.
Open Scope go_scope.

(** ** Transaction types *)

Definition TransactionType : Type := string.

Definition Transfer : TransactionType := "TRANSFER".
Definition RegisterModel : TransactionType := "REGISTER_MODEL".
Definition UpdateModel : TransactionType := "UPDATE_MODEL".
Definition PurchaseApiKey : TransactionType := "PURCHASE_API_KEY".
Definition RequestReversal : TransactionType := "REQUEST_REVERSAL".
Definition ConfirmReversal : TransactionType := "CONFIRM_REVERSAL".
Definition CommitReversal : TransactionType := "COMMIT_REVERSAL".

(** The case a [switch tx.TxType] takes. *)
Inductive tx_case :=
| CaseTransfer | CaseRegisterModel | CaseUpdateModel | CasePurchaseApiKey
| CaseRequestReversal | CaseConfirmReversal | CaseCommitReversal | CaseDefault.

Definition switch_tx (t : TransactionType) : tx_case :=
  if bool_decide (t = Transfer) then CaseTransfer
  else if bool_decide (t = RegisterModel) then CaseRegisterModel
  else if bool_decide (t = UpdateModel) then CaseUpdateModel
  else if bool_decide (t = PurchaseApiKey) then CasePurchaseApiKey
  else if bool_decide (t = RequestReversal) then CaseRequestReversal
  else if bool_decide (t = ConfirmReversal) then CaseConfirmReversal
  else if bool_decide (t = CommitReversal) then CaseCommitReversal
  else CaseDefault.

(** ** Records *)

Record Transaction := mkTransaction {
  tx_ID : string; tx_From : string; tx_FromPubKey : string; tx_To : string;
  tx_Amount : Z; tx_Fee : Z; tx_Nonce : Z; tx_TxType : TransactionType;
  tx_Payload : string; tx_Signature : string; tx_Timestamp : Z; tx_ChainID : string }.

#[export] Instance Transaction_rebuild : Rebuild Transaction := λ r,
  mkTransaction (tx_ID r) (tx_From r) (tx_FromPubKey r) (tx_To r) (tx_Amount r)
  (tx_Fee r) (tx_Nonce r) (tx_TxType r) (tx_Payload r) (tx_Signature r) (tx_Timestamp r)
  (tx_ChainID r).

(** The slice [Transactions] is kept as [blk_slice], [None] for [nil]: the two
    slices without elements have different JSON, so a block with one and a block
    with the other have different hashes. *)
Record Block := mkBlock_slice {
  blk_Index : Z; blk_Author : string; blk_MinerAddress : string;
  blk_PreviousHash : string; blk_Timestamp : Z; blk_slice : option (list Transaction);
  blk_Nonce : Z; blk_BlockHash : string; blk_TxMerkleRoot : string }.

#[export] Instance Block_rebuild : Rebuild Block := λ r,
  mkBlock_slice (blk_Index r) (blk_Author r) (blk_MinerAddress r) (blk_PreviousHash r)
  (blk_Timestamp r) (blk_slice r) (blk_Nonce r) (blk_BlockHash r)
  (blk_TxMerkleRoot r).

(** What [range], [len] and [append] see of it. *)
Definition blk_Transactions (b : Block) : list Transaction :=
  match blk_slice b with Some txs => txs | None => [] end.

(** The block with a slice that is not [nil]. *)
Definition not_nil (b : Block) : Block := b <| blk_slice := Some (blk_Transactions b) |>.

(** A block literal with a slice that is not [nil], as the program makes them. *)
Notation mkBlock i author miner prev t txs nonce hash root :=
  (mkBlock_slice i author miner prev t (Some txs) nonce hash root).

Record Account := mkAccount {
  acc_Address : string; acc_Balance : Z; acc_Staked : Z; acc_IsAgent : bool }.

#[export] Instance Account_rebuild : Rebuild Account := λ r,
  mkAccount (acc_Address r) (acc_Balance r) (acc_Staked r) (acc_IsAgent r).

Record MinerStats := mkMinerStats {
  ms_Address : string; ms_BlocksSubmitted : Z; ms_LastSubmissionTime : Z;
  ms_SubmittedLastHour : Z; ms_PersonalDifficulty : Z; ms_AcceleratorCount : Z;
  ms_LastRewardBlock : Z; ms_CurrentMonth : Z; ms_CurrentYear : Z;
  ms_MonthlyRewards : Z; ms_YearlyRewards : Z; ms_YearlyPauseUntil : Z }.

#[export] Instance MinerStats_rebuild : Rebuild MinerStats := λ r,
  mkMinerStats (ms_Address r) (ms_BlocksSubmitted r) (ms_LastSubmissionTime r)
  (ms_SubmittedLastHour r) (ms_PersonalDifficulty r) (ms_AcceleratorCount r)
  (ms_LastRewardBlock r) (ms_CurrentMonth r) (ms_CurrentYear r) (ms_MonthlyRewards r)
  (ms_YearlyRewards r) (ms_YearlyPauseUntil r).

Record ModelRef := mkModelRef {
  mdl_ID : string; mdl_Owner : string; mdl_CID : string; mdl_Active : bool;
  mdl_PricePerCall : Z }.

#[export] Instance ModelRef_rebuild : Rebuild ModelRef := λ r,
  mkModelRef (mdl_ID r) (mdl_Owner r) (mdl_CID r) (mdl_Active r) (mdl_PricePerCall r).

Record Escrow := mkEscrow {
  esc_ID : string; esc_From : string; esc_To : string; esc_Amount : Z;
  esc_ServiceID : string; esc_Status : string; esc_Irreversible : bool }.

#[export] Instance Escrow_rebuild : Rebuild Escrow := λ r,
  mkEscrow (esc_ID r) (esc_From r) (esc_To r) (esc_Amount r) (esc_ServiceID r)
  (esc_Status r) (esc_Irreversible r).

Record PendingReversal := mkPendingReversal {
  rev_ID : string; rev_OriginalTxID : string; rev_From : string; rev_To : string;
  rev_Amount : Z; rev_Requester : string; rev_Confirmer : string; rev_Status : string;
  rev_Irreversible : bool }.

#[export] Instance PendingReversal_rebuild : Rebuild PendingReversal := λ r,
  mkPendingReversal (rev_ID r) (rev_OriginalTxID r) (rev_From r) (rev_To r)
  (rev_Amount r) (rev_Requester r) (rev_Confirmer r) (rev_Status r) (rev_Irreversible r).

Record GovernanceProposal := mkGovernanceProposal {
  prop_ID : string; prop_Title : string; prop_Description : string;
  prop_Votes : gmap string bool; prop_Status : string }.

#[export] Instance GovernanceProposal_rebuild : Rebuild GovernanceProposal := λ r,
  mkGovernanceProposal (prop_ID r) (prop_Title r) (prop_Description r) (prop_Votes r)
  (prop_Status r).

Record ServiceAgreement := mkServiceAgreement {
  agr_ID : string; agr_Provider : string; agr_Consumer : string; agr_ModelID : string;
  agr_PricePerCall : Z; agr_MaxCalls : Z; agr_Status : string }.

#[export] Instance ServiceAgreement_rebuild : Rebuild ServiceAgreement := λ r,
  mkServiceAgreement (agr_ID r) (agr_Provider r) (agr_Consumer r) (agr_ModelID r)
  (agr_PricePerCall r) (agr_MaxCalls r) (agr_Status r).

Record UsageMeter := mkUsageMeter {
  met_AgreementID : string; met_UsageCount : Z; met_TotalCost : Z }.

#[export] Instance UsageMeter_rebuild : Rebuild UsageMeter := λ r,
  mkUsageMeter (met_AgreementID r) (met_UsageCount r) (met_TotalCost r).

Record AuditEntry := mkAuditEntry {
  aud_Timestamp : Z; aud_Event : string; aud_Actor : string; aud_Details : string }.

#[export] Instance AuditEntry_rebuild : Rebuild AuditEntry := λ r,
  mkAuditEntry (aud_Timestamp r) (aud_Event r) (aud_Actor r) (aud_Details r).

Record ManagedWallet := mkManagedWallet {
  mw_ID : string; mw_Address : string; mw_PublicKey : string; mw_Label : string;
  mw_IsAgent : bool }.

#[export] Instance ManagedWallet_rebuild : Rebuild ManagedWallet := λ r,
  mkManagedWallet (mw_ID r) (mw_Address r) (mw_PublicKey r) (mw_Label r) (mw_IsAgent r).

Record UniversalWallet := mkUniversalWallet {
  uw_Name : string; uw_Address : string; uw_Label : string; uw_Currency : string }.

#[export] Instance UniversalWallet_rebuild : Rebuild UniversalWallet := λ r,
  mkUniversalWallet (uw_Name r) (uw_Address r) (uw_Label r) (uw_Currency r).

Record FinalityVoteSignature := mkFinalityVoteSignature {
  fvs_BlockHash : string; fvs_Voter : string; fvs_Vote : string;
  fvs_Signature : list byte }.

#[export] Instance FinalityVoteSignature_rebuild : Rebuild FinalityVoteSignature := λ r,
  mkFinalityVoteSignature (fvs_BlockHash r) (fvs_Voter r) (fvs_Vote r) (fvs_Signature r).

Record Vote := mkVote {
  vote_ValidatorAddress : string; vote_PubKey : string; vote_BlockHash : string;
  vote_Height : Z; vote_Round : Z; vote_Type : string; vote_Timestamp : Z;
  vote_Signature : list byte }.

#[export] Instance Vote_rebuild : Rebuild Vote := λ r,
  mkVote (vote_ValidatorAddress r) (vote_PubKey r) (vote_BlockHash r) (vote_Height r)
  (vote_Round r) (vote_Type r) (vote_Timestamp r) (vote_Signature r).

Record Proposal := mkProposal {
  prp_BlockHash : string; prp_Height : Z; prp_Round : Z; prp_Block : option Block;
  prp_PolRound : Z; prp_Timestamp : Z; prp_Signature : list byte }.

#[export] Instance Proposal_rebuild : Rebuild Proposal := λ r,
  mkProposal (prp_BlockHash r) (prp_Height r) (prp_Round r) (prp_Block r)
  (prp_PolRound r) (prp_Timestamp r) (prp_Signature r).

Record Evidence := mkEvidence {
  ev_Type : string; ev_ValidatorAddr : string; ev_Height : Z; ev_Round : Z;
  ev_BlockHash : string; ev_Timestamp : Z }.

#[export] Instance Evidence_rebuild : Rebuild Evidence := λ r,
  mkEvidence (ev_Type r) (ev_ValidatorAddr r) (ev_Height r) (ev_Round r) (ev_BlockHash r)
  (ev_Timestamp r).

Record Validator := mkValidator {
  val_PublicKey : string; val_Address : string; val_Stake : Z; val_Active : bool;
  val_JoinedAt : Z; val_Performance : Z; val_PublicKeyVersion : Z;
  val_KeyRotatedAt : Z; val_NextRotationAt : Z }.

#[export] Instance Validator_rebuild : Rebuild Validator := λ r,
  mkValidator (val_PublicKey r) (val_Address r) (val_Stake r) (val_Active r)
  (val_JoinedAt r) (val_Performance r) (val_PublicKeyVersion r) (val_KeyRotatedAt r)
  (val_NextRotationAt r).

Inductive ConsensusType := ProofOfStake | ProofOfAuthority | ProofOfWork.

#[export] Instance ConsensusType_eq_dec : EqDecision ConsensusType.
Proof. solve_decision. Defined.

#[export] Instance Transaction_eq_dec : EqDecision Transaction.
Proof. solve_decision. Defined.

#[export] Instance Block_eq_dec : EqDecision Block.
Proof. solve_decision. Defined.

(** ** Constants *)

Definition HogohogoPerTender : Z := 10000000.
Definition BaseFee : Z := 5 * HogohogoPerTender.
Definition FeeMultiplier : Z := 2.
Definition BurnRatePercent : Z := 1.
Definition AIBurnScaling : Z := 20.
Definition RewardRatePercent : Z := 4.
Definition MinStake : Z := 100 * HogohogoPerTender.
Definition AIModelStake : Z := 50 * HogohogoPerTender.
Definition AgentMinBalance : Z := 10 * HogohogoPerTender.
Definition SlashPercent : Z := 10.
Definition CurrencySubunit : string := "HOGOHOGO".
Definition CurrencyName : string := "TENDER".
Definition MaxSupply : Z := 18446744073709551615.
Definition CommunityFundAddress : string :=
  "tdr-community-fund-000000000000000000000000000000000000".

(** The zero values Go hands out for a missing map entry. *)
Definition zero_Validator : Validator := mkValidator "" "" 0 false 0 0 0 0 0.
Definition zero_ModelRef : ModelRef := mkModelRef "" "" "" false 0.
Definition zero_UsageMeter : UsageMeter := mkUsageMeter "" 0 0.
Definition zero_Vote : Vote := mkVote "" "" "" 0 0 "" 0 [].
Definition zero_Proposal : Proposal := mkProposal "" 0 0 None 0 0 [].

(** ** Validator keys *)

Definition NeedsRotation (v : Validator) (now : Z) : bool :=
  if val_NextRotationAt v =? 0 then true else val_NextRotationAt v <=? now.

Definition RotateKey (v : Validator) (newPubKey : string) (now : Z) : Validator :=
  v <| val_PublicKey := newPubKey |>
    <| val_PublicKeyVersion ::= λ n, n +! 1 |>
    <| val_KeyRotatedAt := now |>
    <| val_NextRotationAt := i64 (now + 30 * 24 * 60 * 60) |>.

(** ** Names *)

Definition ConsensusName (consensus : ConsensusType) : string :=
  if bool_decide (consensus = ProofOfAuthority) then "poa" else "pos".

Definition CurrencySymbol : string := CurrencyName.

(** ** Amounts *)

Definition FormatAmount (amount : Z) : string :=
  let tender := amount `div` HogohogoPerTender in
  let hogohogo := amount mod HogohogoPerTender in
  FormatInt tender +:+ " TENDER " +:+ pad_zeros 6 (FormatInt hogohogo) +:+ " HOGOHOGO".

Definition ParseAmount `{Runtime} (text : string) : outcome Z :=
  match Fields (TrimSpace text) with
  | [] => Err "empty amount"
  | p0 :: rest =>
      match ParseUint p0 with
      | (_, Some e) => Err e
      | (tender, None) =>
          let hogohogo :=
            match rest with
            | [] => 0
            | p1 :: _ =>
                match ParseUint p1 with
                | (v, None) => if v <? HogohogoPerTender then v else 0
                | (_, Some _) => 0
                end
            end in
          Ok (tender *! HogohogoPerTender +! hogohogo)
      end
  end.

(** ** Signatures *)

Definition nul : string := String (Ascii.ascii_of_nat 0) "".

Definition CanonicalSigningBytes (tx : Transaction) : list byte :=
  bytes_of_string
    (tx_ChainID tx +:+ nul +:+ tx_From tx +:+ nul +:+ tx_FromPubKey tx +:+ nul +:+
     tx_To tx +:+ nul +:+ FormatInt (tx_Amount tx) +:+ nul +:+
     FormatInt (tx_Fee tx) +:+ nul +:+ FormatInt (tx_Nonce tx) +:+ nul +:+
     tx_TxType tx +:+ nul +:+ tx_Payload tx +:+ nul +:+ FormatInt (tx_Timestamp tx)).

Record Wallet := mkWallet { w_PublicKey : list byte; w_PrivateKey : list byte }.

Definition WalletAddress (w : Wallet) : string := sha_hex (w_PublicKey w).

Section signatures.
Context `{Ed25519}.

(** [NewWallet()], the [k]-th key generation. *)
Definition NewWallet (k : nat) : Wallet :=
  mkWallet (GenerateKey k).1 (GenerateKey k).2.

(** [w.Sign(tx)] at Unix time [now]. *)
Definition Sign (w : Wallet) (now : Z) (tx : Transaction) : Transaction :=
  let tx := tx <| tx_FromPubKey := EncodeToString (w_PublicKey w) |>
               <| tx_Timestamp := now |> in
  let payload := CanonicalSigningBytes tx in
  tx <| tx_ID := sha_hex payload |>
     <| tx_Signature := EncodeToString (ed_Sign (w_PrivateKey w) payload) |>.

Definition VerifyTransaction (tx : Transaction) : bool :=
  if bool_decide (tx_ChainID tx = "") then false else
  match DecodeString (tx_FromPubKey tx) with
  | Ok pubKey =>
      if negb (length pubKey =? PublicKeySize)%nat then false else
      if negb (bool_decide (tx_From tx = sha_hex pubKey)) then false else
      match DecodeString (tx_Signature tx) with
      | Ok sig =>
          if negb (length sig =? SignatureSize)%nat then false else
          ed_Verify pubKey (CanonicalSigningBytes tx) sig
      | _ => false
      end
  | _ => false
  end.
End signatures.

(** ** Amounts: lemmas *)

(** The printed amount is split at its spaces: the unit name lands in the
    second field. *)
Lemma Fields_FormatAmount `{Runtime} amount :
  is_u64 amount →
  ∃ rest, Fields (TrimSpace (FormatAmount amount))
    = FormatInt (amount `div` HogohogoPerTender) :: "TENDER" :: rest.
Proof.
  intros Ha. unfold FormatAmount.
  set (t := FormatInt (amount `div` HogohogoPerTender)).
  set (h := pad_zeros 6 (FormatInt (amount mod HogohogoPerTender))).
  assert (0 ≤ amount `div` HogohogoPerTender) by (apply Z.div_pos; [u64_lia|done]).
  assert (string_all is_digit t = true) as Ht by by apply FormatInt_digits.
  assert (string_all is_digit h = true) as Hh.
  { unfold h, pad_zeros. rewrite string_all_app.
    rewrite FormatInt_digits by by apply Z.mod_pos_bound.
    rewrite andb_true_r. generalize (6 - String.length (FormatInt (amount mod HogohogoPerTender)))%nat.
    intros n. induction n as [|n IH]; [done|]. simpl. by rewrite IH. }
  assert (t ≠ "") as Hne by by apply FormatInt_nonempty.
  assert (is_ascii (t +:+ " TENDER " +:+ h +:+ " HOGOHOGO") = true) as Hasc.
  { by rewrite !is_ascii_app, (digits_ascii t), (digits_ascii h). }
  assert (trim_left (t +:+ " TENDER " +:+ h +:+ " HOGOHOGO")
          = t +:+ " TENDER " +:+ h +:+ " HOGOHOGO") as Htrim.
  { pose proof (digits_visible _ Ht) as Hv. destruct t as [|c t']; [done|]. simpl in Hv.
    apply andb_prop in Hv as [Hv _]. apply trim_left_visible. by apply negb_true_iff. }
  unfold TrimSpace. rewrite Hasc, Htrim.
  replace (t +:+ " TENDER " +:+ h +:+ " HOGOHOGO")
    with ((t +:+ " TENDER " +:+ h) +:+ " HOGOHOGO") in * by by rewrite !string_app_assoc.
  rewrite trim_right_app by done. simpl trim_right.
  unfold Fields. rewrite Hasc, !string_app_assoc.
  eexists. simpl ((" TENDER " : string) +:+ _).
  rewrite (fields_word "" t) by (auto using digits_visible).
  simpl. f_equal.
Qed.

(** ** Signatures: lemmas *)

(** A field that cannot be confused with its separator. *)
Definition nul_free (s : string) : Prop := x00 ∉ bytes_of_string s.

(** The text fields of a transaction hold no NUL byte. *)
Definition nul_free_tx (tx : Transaction) : Prop :=
  nul_free (tx_ChainID tx) ∧ nul_free (tx_From tx) ∧ nul_free (tx_FromPubKey tx) ∧
  nul_free (tx_To tx) ∧ nul_free (tx_TxType tx) ∧ nul_free (tx_Payload tx) ∧
  0 ≤ tx_Amount tx ∧ 0 ≤ tx_Fee tx ∧ 0 ≤ tx_Nonce tx.

Lemma nul_split (l1 l2 r1 r2 : list byte) :
  x00 ∉ l1 → x00 ∉ l2 → l1 ++ x00 :: r1 = l2 ++ x00 :: r2 → l1 = l2 ∧ r1 = r2.
Proof.
  revert l2. induction l1 as [|b l1 IH]; intros [|c l2] H1 H2 E; simplify_eq/=.
  - done.
  - set_solver.
  - set_solver.
  - destruct (IH l2); [set_solver..|]. by subst.
Qed.

Lemma nul_free_FormatInt x : 0 ≤ x → nul_free (FormatInt x).
Proof.
  intros Hx. pose proof (FormatInt_digits x Hx) as Hd. unfold nul_free.
  induction (FormatInt x) as [|c s IH]; [set_solver|].
  simpl in Hd. apply andb_prop in Hd as [Hc Hs].
  apply not_elem_of_cons. split; [|by apply IH].
  intros E. apply (f_equal Ascii.ascii_of_byte) in E.
  rewrite Ascii.ascii_of_byte_of_ascii in E. by subst.
Qed.

Lemma canonical_fields_inj s1 s2 t1 t2 :
  nul_free s1 → nul_free s2 →
  bytes_of_string (s1 +:+ nul +:+ t1) = bytes_of_string (s2 +:+ nul +:+ t2) →
  s1 = s2 ∧ bytes_of_string t1 = bytes_of_string t2.
Proof.
  rewrite !bytes_of_string_app. intros ?? E.
  apply nul_split in E as [E1 E2]; [|done..]. split; [by apply (inj bytes_of_string)|done].
Qed.

Lemma CanonicalSigningBytes_fields tx1 tx2 :
  nul_free_tx tx1 → nul_free_tx tx2 →
  CanonicalSigningBytes tx1 = CanonicalSigningBytes tx2 →
  tx2 = tx1 <| tx_ID := tx_ID tx2 |> <| tx_Signature := tx_Signature tx2 |>.
Proof.
  intros (?&?&?&?&?&?&?&?&?) (?&?&?&?&?&?&?&?&?) E. unfold CanonicalSigningBytes in E.
  do 9 (apply canonical_fields_inj in E as [? E]; [|by auto using nul_free_FormatInt..]).
  apply (inj bytes_of_string), (inj FormatInt) in E.
  repeat match goal with H : FormatInt _ = FormatInt _ |- _ => apply (inj FormatInt) in H end.
  destruct tx1, tx2; simpl in *. by subst.
Qed.

Lemma VerifyTransaction_Sign `{Ed25519} k now tx :
  tx_ChainID tx ≠ "" → tx_From tx = WalletAddress (NewWallet k) →
  VerifyTransaction (Sign (NewWallet k) now tx) = true.
Proof.
  intros Hc Hf. unfold VerifyTransaction, Sign. cbn.
  rewrite bool_decide_eq_false_2 by done.
  rewrite !DecodeString_EncodeToString, GenerateKey_len, ed_Sign_len. cbn.
  rewrite Hf, bool_decide_eq_true_2 by done. cbn. apply ed_Verify_Sign.
Qed.

(** ** Properties *)

(** Parsing a printed amount succeeds and returns the whole
    TENDER part only: the subunits printed after the unit name are dropped. *)
Theorem ParseAmount_FormatAmount `{Runtime} amount :
  is_u64 amount →
  ParseAmount (FormatAmount amount) = Ok (amount - amount mod HogohogoPerTender).
Proof.
  intros Ha. destruct (Fields_FormatAmount amount Ha) as [rest E].
  unfold ParseAmount. rewrite E.
  assert (HogohogoPerTender * (amount `div` HogohogoPerTender)
          = amount - amount mod HogohogoPerTender) as Hd
    by (pose proof (Z.div_mod amount HogohogoPerTender ltac:(done)); lia).
  pose proof (Z.mod_pos_bound amount HogohogoPerTender ltac:(done)).
  assert (0 ≤ amount `div` HogohogoPerTender) by (apply Z.div_pos; [u64_lia|done]).
  unfold HogohogoPerTender in *.
  rewrite ParseUint_FormatInt by u64_lia.
  change (ParseUint "TENDER") with (0, Some "invalid syntax"). cbn.
  rewrite Z.add_0_r, u64_idemp, u64_small by u64_lia. f_equal. lia.
Qed.

Lemma ParseAmount_FormatAmount_witness :
  @ParseAmount demo_runtime (FormatAmount 12345678) = Ok (12345678 - 12345678 mod HogohogoPerTender).
Proof.
  apply (@ParseAmount_FormatAmount demo_runtime 12345678). split; vm_compute; congruence.
Defined.

(** A transaction signed by a generated wallet for its own address,
    on a named chain, passes [VerifyTransaction]. *)
Theorem sign_then_verify `{Ed25519} k now tx :
  tx_ChainID tx ≠ "" → tx_From tx = WalletAddress (NewWallet k) →
  VerifyTransaction (Sign (NewWallet k) now tx) = true.
Proof. apply VerifyTransaction_Sign. Qed.

Definition demo_transfer : Transaction :=
  mkTransaction "" (WalletAddress (@NewWallet demo_ed25519 7)) "" "bob" 5 50000002 1
    Transfer "" "" 0 "tender".

Lemma sign_then_verify_witness :
  @VerifyTransaction demo_ed25519
    (@Sign demo_ed25519 (@NewWallet demo_ed25519 7) 1700000000 demo_transfer) = true.
Proof. apply (@sign_then_verify demo_ed25519 7); [done|reflexivity]. Defined.

(** The signed bytes determine every signed field: two transactions
    with NUL-free text and the same canonical bytes differ at most in their
    identifier and signature. *)
Theorem canonical_bytes_injective tx1 tx2 :
  nul_free_tx tx1 → nul_free_tx tx2 →
  CanonicalSigningBytes tx1 = CanonicalSigningBytes tx2 →
  tx2 = tx1 <| tx_ID := tx_ID tx2 |> <| tx_Signature := tx_Signature tx2 |>.
Proof. apply CanonicalSigningBytes_fields. Qed.

(** A transaction for the examples: [demo_transfer] signed by its sender. *)
Definition demo_signed : Transaction :=
  @Sign demo_ed25519 (@NewWallet demo_ed25519 7) 1700000000 demo_transfer.

Lemma nul_free_dec_ok s : forallb (λ b, negb (bool_decide (b = x00))) (bytes_of_string s) = true → nul_free s.
Proof.
  intros Hf Hin. rewrite List.forallb_forall in Hf.
  apply list_elem_of_In, Hf in Hin. by rewrite bool_decide_eq_true_2 in Hin.
Qed.

Lemma canonical_bytes_injective_witness :
  let tx2 := demo_signed <| tx_ID := "other" |> in
  tx2 = demo_signed <| tx_ID := tx_ID tx2 |> <| tx_Signature := tx_Signature tx2 |>.
Proof.
  apply canonical_bytes_injective; [..|reflexivity];
    (split_and!; try (vm_compute; congruence); apply nul_free_dec_ok; vm_compute; reflexivity).
Defined.

(** The identifier of a transaction is not covered by its signature. *)
Lemma VerifyTransaction_ignores_ID `{Ed25519} tx id :
  VerifyTransaction (tx <| tx_ID := id |>) = VerifyTransaction tx.
Proof. reflexivity. Qed.

(** Without the NUL-free hypothesis two different payments have the same
    signed bytes: the recipient and the amount of the second are read from
    the payload of the first. *)
Example canonical_bytes_collision :
  let base := mkTransaction "" "alice" "pk" "" 0 0 0 Transfer "" "" 9 "tender" in
  let tx1 := base <| tx_To := "bob" |> <| tx_Amount := 5 |> <| tx_Fee := 1 |> <| tx_Nonce := 1 |>
                  <| tx_Payload := "900" +:+ nul +:+ "1" +:+ nul +:+ "1" +:+ nul +:+ Transfer +:+ nul +:+ "p" |> in
  let tx2 := base <| tx_To := "bob" +:+ nul +:+ "5" +:+ nul +:+ "1" +:+ nul +:+ "1" +:+ nul +:+ Transfer |>
                  <| tx_Amount := 900 |> <| tx_Fee := 1 |> <| tx_Nonce := 1 |> <| tx_Payload := "p" |> in
  CanonicalSigningBytes tx1 = CanonicalSigningBytes tx2 ∧ tx_Amount tx1 ≠ tx_Amount tx2.
Proof. split; [vm_compute; reflexivity|done]. Qed.
