(* ===== verification/Json.v ===== *)
(** * Block hashes (encoding/json and go-chain/blockchain/domain.go)

    [calculateHash] hashes the JSON text of a block, so [json.Marshal] is
    modelled for the two types it is applied to: the fields in declaration
    order, [omitempty] fields left out at their zero value, strings escaped as
    [encoding/json] does (HTML characters, control characters, the two line
    separators, and U+FFFD for bytes that are not UTF-8). *)

From S2P Require Import Prelude Runtime Text Sha256 Domain.
Open Scope Z_scope.
Open Scope go_scope.

(** ** Strings *)

Definition hex2 (n : Z) : string :=
  String (hex_digit (n `div` 16)) (String (hex_digit (n mod 16)) "").

Definition backslash : string := String (Ascii.ascii_of_nat 92) "".
Definition quote : string := String (Ascii.ascii_of_nat 34) "".

(** The escape of a byte below 0x80. *)
Definition escape_ascii (n : Z) : string :=
  if n =? 92 then backslash +:+ backslash
  else if n =? 34 then backslash +:+ quote
  else if n =? 8 then backslash +:+ "b"
  else if n =? 12 then backslash +:+ "f"
  else if n =? 10 then backslash +:+ "n"
  else if n =? 13 then backslash +:+ "r"
  else if n =? 9 then backslash +:+ "t"
  else if (n <? 32) || (n =? 60) || (n =? 62) || (n =? 38)
  then backslash +:+ "u00" +:+ hex2 n
  else String (Ascii.ascii_of_nat (Z.to_nat n)) "".

Definition between (lo n hi : Z) : bool := (lo <=? n) && (n <=? hi).
Definition continuation (n : Z) : bool := between 0x80 n 0xBF.

(** Is the byte [n1] a legal second byte after [n0] in UTF-8, and how many
    continuation bytes follow it? *)
Definition utf8_lead (n0 n1 : Z) : option nat :=
  if between 0xC2 n0 0xDF then if continuation n1 then Some 0%nat else None
  else if n0 =? 0xE0 then if between 0xA0 n1 0xBF then Some 1%nat else None
  else if n0 =? 0xED then if between 0x80 n1 0x9F then Some 1%nat else None
  else if between 0xE1 n0 0xEF then if continuation n1 then Some 1%nat else None
  else if n0 =? 0xF0 then if between 0x90 n1 0xBF then Some 2%nat else None
  else if between 0xF1 n0 0xF3 then if continuation n1 then Some 2%nat else None
  else if n0 =? 0xF4 then if between 0x80 n1 0x8F then Some 2%nat else None
  else None.

Definition replacement : string := backslash +:+ "ufffd".

Definition raw (l : list byte) : string := string_of_bytes l.

(** The three-byte sequences of U+2028 and U+2029 are escaped. *)
Definition escape3 (b0 b1 b2 : byte) : string :=
  if (Z_of_byte b0 =? 0xE2) && (Z_of_byte b1 =? 0x80) && (Z.land (Z_of_byte b2) 0xFE =? 0xA8)
  then backslash +:+ "u202" +:+ String (hex_digit (Z_of_byte b2 mod 16)) ""
  else raw [b0; b1; b2].

Fixpoint escape (l : list byte) : string :=
  match l with
  | [] => ""
  | b0 :: t0 =>
      if Z_of_byte b0 <? 128 then escape_ascii (Z_of_byte b0) +:+ escape t0 else
      match t0 with
      | [] => replacement
      | b1 :: t1 =>
          match utf8_lead (Z_of_byte b0) (Z_of_byte b1) with
          | None => replacement +:+ escape t0
          | Some O => raw [b0; b1] +:+ escape t1
          | Some (S n) =>
              match t1 with
              | [] => replacement +:+ escape t0
              | b2 :: t2 =>
                  if negb (continuation (Z_of_byte b2)) then replacement +:+ escape t0 else
                  match n with
                  | O => escape3 b0 b1 b2 +:+ escape t2
                  | S _ =>
                      match t2 with
                      | [] => replacement +:+ escape t0
                      | b3 :: t3 =>
                          if negb (continuation (Z_of_byte b3)) then replacement +:+ escape t0
                          else raw [b0; b1; b2; b3] +:+ escape t3
                      end
                  end
              end
          end
      end
  end.

Definition json_string (s : string) : string := quote +:+ escape (bytes_of_string s) +:+ quote.

(** ** Structs *)

(** A field of a struct: its JSON key and its text, or [None] when
    [omitempty] drops it. *)
Definition json_field : Type := string * option string.

Definition str_field (key s : string) : json_field := (key, Some (json_string s)).
Definition int_field (key : string) (x : Z) : json_field := (key, Some (FormatInt x)).
Definition str_omitempty (key s : string) : json_field :=
  (key, if bool_decide (s = "") then None else Some (json_string s)).
Definition int_omitempty (key : string) (x : Z) : json_field :=
  (key, if x =? 0 then None else Some (FormatInt x)).

Fixpoint join (sep : string) (l : list string) : string :=
  match l with
  | [] => ""
  | [s] => s
  | s :: l => s +:+ sep +:+ join sep l
  end.

Definition json_object (fields : list json_field) : string :=
  "{" +:+ join "," (omap (λ f : json_field, t ← f.2; Some (json_string f.1 +:+ ":" +:+ t)) fields) +:+ "}".

Definition json_array (l : list string) : string := "[" +:+ join "," l +:+ "]".

(** A slice: [nil] is [null]. *)
Definition json_slice {A} (f : A → string) (l : option (list A)) : string :=
  match l with Some l => json_array (map f l) | None => "null" end.

(** [json.Marshal(tx)] *)
Definition marshal_Transaction (tx : Transaction) : string :=
  json_object
    [str_omitempty "id" (tx_ID tx); str_field "from" (tx_From tx);
     str_field "from_pubkey" (tx_FromPubKey tx); str_field "to" (tx_To tx);
     int_field "amount" (tx_Amount tx); int_omitempty "fee" (tx_Fee tx);
     int_omitempty "nonce" (tx_Nonce tx); str_field "tx_type" (tx_TxType tx);
     str_omitempty "payload" (tx_Payload tx); str_omitempty "signature" (tx_Signature tx);
     int_field "timestamp" (tx_Timestamp tx); str_omitempty "chain_id" (tx_ChainID tx)].

(** [json.Marshal(block)] *)
Definition marshal_Block (b : Block) : string :=
  json_object
    [int_field "index" (blk_Index b); str_field "author" (blk_Author b);
     str_field "miner_address" (blk_MinerAddress b);
     str_field "previous_hash" (blk_PreviousHash b);
     int_field "timestamp" (blk_Timestamp b);
     ("transactions", Some (json_slice marshal_Transaction (blk_slice b)));
     int_field "nonce" (blk_Nonce b); str_field "block_hash" (blk_BlockHash b);
     str_omitempty "tx_merkle_root" (blk_TxMerkleRoot b)].

(** [sha256Hasher.Hash] and [calculateHash] *)
Definition calculateHash (block : Block) : string :=
  let clone := block <| blk_BlockHash := "" |> in
  sha_hex (bytes_of_string (marshal_Block clone)).

(** ** Lemmas *)

Lemma calculateHash_BlockHash b h :
  calculateHash (b <| blk_BlockHash := h |>) = calculateHash b.
Proof. reflexivity. Qed.

Lemma calculateHash_not_empty b : calculateHash b ≠ "".
Proof. apply sha_hex_not_empty. Qed.

Example marshal_empty_block :
  marshal_Block (mkBlock 1 "a<b" "" "0" 7 [] 2 "" "")
  = string_of_bytes (bytes_of_string (String.concat quote
      ["{"; "index"; ":1,"; "author"; ":"; "a\u003cb"; ","; "miner_address"; ":"; ""; ",";
       "previous_hash"; ":"; "0"; ","; "timestamp"; ":7,"; "transactions"; ":[],";
       "nonce"; ":2,"; "block_hash"; ":"; ""; "}"])).
Proof. vm_compute. reflexivity. Qed.

Example nil_transactions_hash_apart :
  calculateHash (mkBlock_slice 1 "" "" "" 0 None 0 "" "") ≠ calculateHash (mkBlock 1 "" "" "" 0 [] 0 "" "").
Proof. vm_compute. discriminate. Qed.

#[global] Opaque calculateHash.
