(* ===== verification/JsonText.v ===== *)
(** * What survives a JSON text (encoding/json)

    [json.Marshal] replaces every byte that is not part of a UTF-8 sequence by
    U+FFFD, in strings and in the keys of maps, so the value [json.Unmarshal] reads
    from the text of a value is not always that value.  [JsonData] gives, for the
    types of the state file, the value that is read back and the strings it
    depends on; a value whose strings are all valid UTF-8 is read back as it is.

    A map is written with its keys in order and read entry by entry, a later entry
    replacing an earlier one of the same key: two keys may become one. *)

From S2P Require Import Prelude Runtime Text Sha256 Domain Json.
Open Scope Z_scope.
Open Scope go_scope.

(** ** Strings *)

Definition replacement_rune : list byte := [Byte.xef; Byte.xbf; Byte.xbd].

(** [utf8.DecodeRune]: the length of the sequence at the front, 0 when there is
    none. *)
Definition rune_len (l : list byte) : nat :=
  match l with
  | [] => 0
  | b0 :: t0 =>
      if Z_of_byte b0 <? 128 then 1 else
      match t0 with
      | [] => 0
      | b1 :: t1 =>
          match utf8_lead (Z_of_byte b0) (Z_of_byte b1), t1 with
          | None, _ => 0
          | Some 0%nat, _ => 2
          | Some 1%nat, b2 :: _ => if continuation (Z_of_byte b2) then 3 else 0
          | Some _, b2 :: b3 :: _ =>
              if continuation (Z_of_byte b2) && continuation (Z_of_byte b3) then 4 else 0
          | Some _, _ => 0
          end
      end
  end.

(** A byte outside of every sequence becomes the replacement; [skip] counts the
    bytes of the current sequence that are still to be copied. *)
Fixpoint to_valid (skip : nat) (l : list byte) : list byte :=
  match l with
  | [] => []
  | b :: t =>
      match skip with
      | S n => b :: to_valid n t
      | O => match rune_len l with
             | O => replacement_rune ++ to_valid 0 t
             | S n => b :: to_valid n t
             end
      end
  end.

Fixpoint valid_bytes (skip : nat) (l : list byte) : bool :=
  match l with
  | [] => true
  | _ :: t =>
      match skip with
      | S n => valid_bytes n t
      | O => match rune_len l with O => false | S n => valid_bytes n t end
      end
  end.

Definition ToValidUTF8 (s : string) : string := string_of_bytes (to_valid 0 (bytes_of_string s)).
Definition ValidString (s : string) : bool := valid_bytes 0 (bytes_of_string s).

Lemma to_valid_id l : ∀ skip, valid_bytes skip l = true → to_valid skip l = l.
Proof.
  induction l as [|b t IH]; intros [|n] Hv; [done..| |]; cbn [to_valid valid_bytes] in *.
  - destruct (rune_len (b :: t)) as [|n]; [done|]. by rewrite IH.
  - by rewrite IH.
Qed.

Lemma ToValidUTF8_id s : ValidString s = true → ToValidUTF8 s = s.
Proof. intros Hv. unfold ToValidUTF8. rewrite to_valid_id by done. apply string_of_bytes_of_string. Qed.

(** The writer of [Json] and the reader agree on what is a sequence. *)
Example utf8_vectors :
  map ToValidUTF8 ["abc"; string_of_bytes [Byte.xc3; Byte.xa9]; string_of_bytes [Byte.x61; Byte.xff; Byte.x62];
                   string_of_bytes [Byte.xed; Byte.xa0; Byte.x80]; string_of_bytes [Byte.xf0; Byte.x9f; Byte.x98; Byte.x80]]
  = ["abc"; string_of_bytes [Byte.xc3; Byte.xa9]; string_of_bytes ([Byte.x61] ++ replacement_rune ++ [Byte.x62]);
     string_of_bytes (replacement_rune ++ replacement_rune ++ replacement_rune);
     string_of_bytes [Byte.xf0; Byte.x9f; Byte.x98; Byte.x80]].
Proof. vm_compute. reflexivity. Qed.

(** ** Values *)

Class JsonData (A : Type) := {
  json_value : A → A;
  json_strings : A → list string;
  json_value_valid a : Forall (λ s, ValidString s = true) (json_strings a) → json_value a = a;
}.
#[global] Hint Mode JsonData ! : typeclass_instances.
#[global] Arguments json_value : simpl never.
#[global] Arguments json_strings : simpl never.

(** A type whose text holds no string. *)
Definition json_scalar (A : Type) : JsonData A := {| json_value a := a; json_strings _ := []; json_value_valid a _ := eq_refl |}.

#[export] Instance json_Z : JsonData Z := json_scalar Z.
#[export] Instance json_bool : JsonData bool := json_scalar bool.
#[export] Instance json_byte : JsonData byte := json_scalar byte.
#[export] Instance json_gset_Z : JsonData (gset Z) := json_scalar (gset Z).

#[export, refine] Instance json_str : JsonData string :=
  {| json_value := ToValidUTF8; json_strings s := [s] |}.
Proof. intros s. rewrite Forall_singleton. apply ToValidUTF8_id. Defined.

#[export, refine] Instance json_list {A} `{JsonData A} : JsonData (list A) :=
  {| json_value := map json_value; json_strings l := concat (map json_strings l) |}.
Proof.
  intros l. induction l as [|a l IH]; [done|]. cbn [map concat]. rewrite Forall_app. intros [Ha Hl].
  by rewrite json_value_valid, IH.
Defined.

#[export, refine] Instance json_option {A} `{JsonData A} : JsonData (option A) :=
  {| json_value := fmap json_value; json_strings o := from_option json_strings [] o |}.
Proof. intros [a|] Ha; [|done]. cbn in *. by rewrite json_value_valid. Defined.

#[export, refine] Instance json_gset : JsonData (gset string) :=
  {| json_value := set_map ToValidUTF8; json_strings X := elements X |}.
Proof.
  intros X HX. apply set_eq. intros s. rewrite elem_of_map. rewrite Forall_forall in HX. split.
  - intros (y & -> & Hy). by rewrite ToValidUTF8_id by (apply HX; by apply elem_of_elements).
  - intros Hs. exists s. split; [|done]. by rewrite ToValidUTF8_id by (apply HX; by apply elem_of_elements).
Defined.

(** *** Maps *)

Definition put_entry {A} (m : gmap string A) (kv : string * A) : gmap string A := <[kv.1 := kv.2]> m.

(** The entries in the order of their keys. *)
Definition sorted_entries {A} (m : gmap string A) : list (string * A) :=
  merge_sort (not_after (λ p q : string * A, string_lt p.1 q.1)) (map_to_list m).

Lemma foldl_put_entry {A} (l : list (string * A)) : ∀ m : gmap string A,
  NoDup l.*1 → (∀ k, k ∈ l.*1 → m !! k = None) → foldl put_entry m l = list_to_map l ∪ m.
Proof.
  induction l as [|[k a] l IH]; intros m Hnd Hm; cbn [foldl list_to_map foldr]; [by rewrite map_empty_union|].
  cbn [fmap list_fmap fst] in *. apply NoDup_cons in Hnd as [Hk Hnd]. rewrite IH; [|done|].
  - unfold put_entry. cbn [fst snd]. rewrite <- insert_union_r; [|by apply not_elem_of_list_to_map_1].
    by rewrite <- insert_union_l.
  - intros k' Hk'. unfold put_entry. cbn [fst snd]. rewrite lookup_insert_ne by congruence.
    apply Hm. by right.
Qed.

Lemma put_sorted_entries {A} (m : gmap string A) : foldl put_entry ∅ (sorted_entries m) = m.
Proof.
  assert (sorted_entries m ≡ₚ map_to_list m) as Hp by apply merge_sort_Permutation.
  assert (NoDup (sorted_entries m).*1) as Hnd by (rewrite Hp; apply NoDup_fst_map_to_list).
  rewrite foldl_put_entry, map_union_empty; [|done|intros k _; apply lookup_empty].
  rewrite <- (list_to_map_to_list m) at 2. by apply list_to_map_proper.
Qed.

#[export, refine] Instance json_gmap {A} `{JsonData A} : JsonData (gmap string A) :=
  {| json_value m := foldl put_entry ∅ (map (λ kv, (ToValidUTF8 kv.1, json_value kv.2)) (sorted_entries m));
     json_strings m := concat (map (λ kv, kv.1 :: json_strings kv.2) (map_to_list m)) |}.
Proof.
  intros m Hm. rewrite <- (put_sorted_entries m) at 2. f_equal.
  rewrite <- (map_id (sorted_entries m)) at 2. apply map_ext_in. intros [k a] Hin. cbn [fst snd].
  apply list_elem_of_In in Hin. unfold sorted_entries in Hin. rewrite merge_sort_Permutation in Hin.
  rewrite Forall_concat, Forall_map, Forall_forall in Hm. specialize (Hm _ Hin). cbn [fst snd] in Hm.
  apply Forall_cons in Hm as [Hk Ha]. by rewrite ToValidUTF8_id, json_value_valid.
Defined.

#[export, refine] Instance json_gmap_Z {A} `{JsonData A} : JsonData (gmap Z A) :=
  {| json_value m := json_value <$> m;
     json_strings m := concat (map (λ kv, json_strings kv.2) (map_to_list m)) |}.
Proof.
  intros m Hm. apply map_eq. intros k. rewrite lookup_fmap. destruct (m !! k) as [a|] eqn:E; [|done].
  apply elem_of_map_to_list in E. rewrite Forall_concat, Forall_map, Forall_forall in Hm.
  specialize (Hm _ E). cbn in *. by rewrite json_value_valid.
Defined.

(** *** Records *)

(** Field by field. *)
Ltac json_fields :=
  let r := fresh "r" in intros r; destruct r; cbn;
  rewrite ?Forall_app; intros ?; destruct_and?; rewrite !json_value_valid by done; reflexivity.

#[export, refine] Instance json_Transaction : JsonData Transaction :=
  {| json_value t := mkTransaction (json_value (tx_ID t)) (json_value (tx_From t)) (json_value (tx_FromPubKey t))
       (json_value (tx_To t)) (tx_Amount t) (tx_Fee t) (tx_Nonce t) (json_value (tx_TxType t))
       (json_value (tx_Payload t)) (json_value (tx_Signature t)) (tx_Timestamp t) (json_value
       (tx_ChainID t));
     json_strings t := json_strings (tx_ID t) ++ json_strings (tx_From t) ++ json_strings (tx_FromPubKey t) ++
       json_strings (tx_To t) ++ json_strings (tx_TxType t) ++ json_strings (tx_Payload t) ++
       json_strings (tx_Signature t) ++ json_strings (tx_ChainID t) |}.
Proof. json_fields. Defined.

#[export, refine] Instance json_Block : JsonData Block :=
  {| json_value b := mkBlock_slice (blk_Index b) (json_value (blk_Author b)) (json_value (blk_MinerAddress b))
       (json_value (blk_PreviousHash b)) (blk_Timestamp b) (json_value (blk_slice b)) (blk_Nonce b)
       (json_value (blk_BlockHash b)) (json_value (blk_TxMerkleRoot b));
     json_strings b := json_strings (blk_Author b) ++ json_strings (blk_MinerAddress b) ++ json_strings
       (blk_PreviousHash b) ++ json_strings (blk_slice b) ++ json_strings (blk_BlockHash b) ++
       json_strings (blk_TxMerkleRoot b) |}.
Proof. json_fields. Defined.

#[export, refine] Instance json_Account : JsonData Account :=
  {| json_value a := mkAccount (json_value (acc_Address a)) (acc_Balance a) (acc_Staked a) (acc_IsAgent a);
     json_strings a := json_strings (acc_Address a) |}.
Proof. json_fields. Defined.

#[export, refine] Instance json_ModelRef : JsonData ModelRef :=
  {| json_value m := mkModelRef (json_value (mdl_ID m)) (json_value (mdl_Owner m)) (json_value (mdl_CID m))
       (mdl_Active m) (mdl_PricePerCall m);
     json_strings m := json_strings (mdl_ID m) ++ json_strings (mdl_Owner m) ++ json_strings (mdl_CID m) |}.
Proof. json_fields. Defined.

#[export, refine] Instance json_Escrow : JsonData Escrow :=
  {| json_value e := mkEscrow (json_value (esc_ID e)) (json_value (esc_From e)) (json_value (esc_To e))
       (esc_Amount e) (json_value (esc_ServiceID e)) (json_value (esc_Status e)) (esc_Irreversible
       e);
     json_strings e := json_strings (esc_ID e) ++ json_strings (esc_From e) ++ json_strings (esc_To e) ++
       json_strings (esc_ServiceID e) ++ json_strings (esc_Status e) |}.
Proof. json_fields. Defined.

#[export, refine] Instance json_PendingReversal : JsonData PendingReversal :=
  {| json_value p := mkPendingReversal (json_value (rev_ID p)) (json_value (rev_OriginalTxID p)) (json_value
       (rev_From p)) (json_value (rev_To p)) (rev_Amount p) (json_value (rev_Requester p))
       (json_value (rev_Confirmer p)) (json_value (rev_Status p)) (rev_Irreversible p);
     json_strings p := json_strings (rev_ID p) ++ json_strings (rev_OriginalTxID p) ++ json_strings (rev_From p) ++
       json_strings (rev_To p) ++ json_strings (rev_Requester p) ++ json_strings (rev_Confirmer p)
       ++ json_strings (rev_Status p) |}.
Proof. json_fields. Defined.

#[export, refine] Instance json_GovernanceProposal : JsonData GovernanceProposal :=
  {| json_value p := mkGovernanceProposal (json_value (prop_ID p)) (json_value (prop_Title p)) (json_value
       (prop_Description p)) (json_value (prop_Votes p)) (json_value (prop_Status p));
     json_strings p := json_strings (prop_ID p) ++ json_strings (prop_Title p) ++ json_strings (prop_Description p)
       ++ json_strings (prop_Votes p) ++ json_strings (prop_Status p) |}.
Proof. json_fields. Defined.

#[export, refine] Instance json_ServiceAgreement : JsonData ServiceAgreement :=
  {| json_value a := mkServiceAgreement (json_value (agr_ID a)) (json_value (agr_Provider a)) (json_value
       (agr_Consumer a)) (json_value (agr_ModelID a)) (agr_PricePerCall a) (agr_MaxCalls a)
       (json_value (agr_Status a));
     json_strings a := json_strings (agr_ID a) ++ json_strings (agr_Provider a) ++ json_strings (agr_Consumer a) ++
       json_strings (agr_ModelID a) ++ json_strings (agr_Status a) |}.
Proof. json_fields. Defined.

#[export, refine] Instance json_UsageMeter : JsonData UsageMeter :=
  {| json_value u := mkUsageMeter (json_value (met_AgreementID u)) (met_UsageCount u) (met_TotalCost u);
     json_strings u := json_strings (met_AgreementID u) |}.
Proof. json_fields. Defined.

#[export, refine] Instance json_AuditEntry : JsonData AuditEntry :=
  {| json_value a := mkAuditEntry (aud_Timestamp a) (json_value (aud_Event a)) (json_value (aud_Actor a))
       (json_value (aud_Details a));
     json_strings a := json_strings (aud_Event a) ++ json_strings (aud_Actor a) ++ json_strings (aud_Details a) |}.
Proof. json_fields. Defined.

#[export, refine] Instance json_UniversalWallet : JsonData UniversalWallet :=
  {| json_value w := mkUniversalWallet (json_value (uw_Name w)) (json_value (uw_Address w)) (json_value (uw_Label
       w)) (json_value (uw_Currency w));
     json_strings w := json_strings (uw_Name w) ++ json_strings (uw_Address w) ++ json_strings (uw_Label w) ++
       json_strings (uw_Currency w) |}.
Proof. json_fields. Defined.

#[export, refine] Instance json_FinalityVoteSignature : JsonData FinalityVoteSignature :=
  {| json_value f := mkFinalityVoteSignature (json_value (fvs_BlockHash f)) (json_value (fvs_Voter f)) (json_value
       (fvs_Vote f)) (fvs_Signature f);
     json_strings f := json_strings (fvs_BlockHash f) ++ json_strings (fvs_Voter f) ++ json_strings (fvs_Vote f) |}.
Proof. json_fields. Defined.
