(* ===== verification/Encoding.v ===== *)
(** * The binary codec (go-chain/blockchain/encoding.go)

    Transactions and blocks as length-prefixed big-endian byte strings.  The
    pop functions return the value read and the remaining bytes, an error, or
    the panic of an out-of-range slice expression.  [Codec] is the contract
    between a pair append/pop: what was appended is read back, a strict prefix
    of it is an error, and what is read is a value of the type that was
    appended; the record decoders are proved against it. *)

From S2P Require Import Prelude Runtime Text Sha256 Domain.
Open Scope Z_scope.
Open Scope go_scope.

(** ** Writers *)

Definition appendUint64 (b : list byte) (v : Z) : list byte := b ++ be_bytes 8 v.

(** [uint64(v)] of an [int64] is its value modulo 2^64. *)
Definition appendInt64 (b : list byte) (v : Z) : list byte := b ++ be_bytes 8 (u64 v).

Definition appendBytes (b data : list byte) : list byte :=
  appendUint64 b (blen data) ++ data.

Definition appendString (b : list byte) (s : string) : list byte :=
  appendUint64 b (slen s) ++ bytes_of_string s.

(** ** Readers *)

Definition popUint64 (data : list byte) : outcome (Z * list byte) :=
  if blen data <? 8 then Err "insufficient data for uint64"
  else Ok (be_value (take 8 data), drop 8 data).

Definition popInt64 (data : list byte) : outcome (Z * list byte) :=
  '(v, rest) ← popUint64 data; Ok (i64 v, rest).

(** [data[8:8+length]] panics when the [uint64] sum [8+length] wrapped below
    8; the check before it compares the wrapped sum. *)
Definition popBytes (data : list byte) : outcome (list byte * list byte) :=
  if blen data <? 8 then Err "insufficient data for length prefix" else
  let length := be_value (take 8 data) in
  if blen data <? 8 +! length then Err "insufficient data for payload" else
  let rest := drop (Z.to_nat (8 +! length)) data in
  if 8 +! length <? 8 then Panic "slice bounds out of range" else
  Ok (take (Z.to_nat (8 +! length - 8)) (drop 8 data), rest).

Definition popString (data : list byte) : outcome (string * list byte) :=
  '(s, rest) ← popBytes data; Ok (string_of_bytes s, rest).

(** ** Transactions *)

Definition EncodeTransactionBinary (tx : Transaction) : list byte :=
  let b := appendString [] (tx_ID tx) in
  let b := appendString b (tx_From tx) in
  let b := appendString b (tx_FromPubKey tx) in
  let b := appendString b (tx_To tx) in
  let b := appendUint64 b (tx_Amount tx) in
  let b := appendUint64 b (tx_Fee tx) in
  let b := appendUint64 b (tx_Nonce tx) in
  let b := appendString b (tx_TxType tx) in
  let b := appendString b (tx_Payload tx) in
  let b := appendString b (tx_Signature tx) in
  let b := appendInt64 b (tx_Timestamp tx) in
  appendString b (tx_ChainID tx).

Definition DecodeTransactionBinary (data : list byte) : outcome Transaction :=
  '(id, data) ← popString data;
  '(from, data) ← popString data;
  '(fromPubKey, data) ← popString data;
  '(to, data) ← popString data;
  '(amount, data) ← popUint64 data;
  '(fee, data) ← popUint64 data;
  '(nonce, data) ← popUint64 data;
  '(txType, data) ← popString data;
  '(payload, data) ← popString data;
  '(signature, data) ← popString data;
  '(timestamp, data) ← popInt64 data;
  '(chainID, _) ← popString data;
  Ok (mkTransaction id from fromPubKey to amount fee nonce txType payload signature
        timestamp chainID).

(** ** Blocks *)

(** The loop that appends the transactions of a block. *)
Definition appendTransactions (b : list byte) (txs : list Transaction) : list byte :=
  foldl (λ b tx, appendBytes b (EncodeTransactionBinary tx)) b txs.

Definition EncodeBlockBinary (block : Block) : list byte :=
  let b := appendUint64 [] (blk_Index block) in
  let b := appendString b (blk_Author block) in
  let b := appendString b (blk_MinerAddress block) in
  let b := appendString b (blk_PreviousHash block) in
  let b := appendInt64 b (blk_Timestamp block) in
  let b := appendBytes b (bytes_of_string (blk_BlockHash block)) in
  let b := if bool_decide (blk_TxMerkleRoot block ≠ "")
           then appendBytes b (bytes_of_string (blk_TxMerkleRoot block))
           else appendBytes b [] in
  let b := appendUint64 b (blen (blk_Transactions block)) in
  let b := appendTransactions b (blk_Transactions block) in
  appendUint64 b (blk_Nonce block).

(** The loop that reads [count] transactions.  A turn reads a length prefix
    of eight bytes, so [length data] turns are enough ([decodeTransactions_fuel]);
    with no data left the next turn is the error of [popBytes]. *)
Fixpoint decodeTransactions (fuel : nat) (count : Z) (data : list byte)
    : outcome (list Transaction * list byte) :=
  if count <=? 0 then Ok ([], data) else
  match fuel with
  | O => Err "insufficient data for length prefix"
  | S fuel =>
      '(txBytes, rest) ← popBytes data;
      tx ← DecodeTransactionBinary txBytes;
      '(txs, rest) ← decodeTransactions fuel (count - 1) rest;
      Ok (tx :: txs, rest)
  end.

Definition DecodeBlockBinary `{Runtime} (data : list byte) : outcome Block :=
  '(index, data) ← popUint64 data;
  '(author, data) ← popString data;
  '(minerAddress, data) ← popString data;
  '(previousHash, data) ← popString data;
  '(timestamp, data) ← popInt64 data;
  '(hashBytes, data) ← popBytes data;
  '(merkleBytes, data) ← popBytes data;
  '(txCount, data) ← popUint64 data;
  if make_limit <? txCount then Panic "makeslice: len out of range" else
  '(txs, data) ← decodeTransactions (length data) txCount data;
  '(nonce, _) ← popUint64 data;
  Ok (mkBlock index author minerAddress previousHash timestamp txs nonce
        (string_of_bytes hashBytes) (string_of_bytes merkleBytes)).

(** ** Well-formed values: the ranges of the Go types *)

Definition wf_len (n : Z) : Prop := n + 8 < max_u64.
Definition wf_string (s : string) : Prop := wf_len (slen s).
Definition wf_bytes (l : list byte) : Prop := wf_len (blen l).

Definition wf_tx (tx : Transaction) : Prop :=
  (wf_string (tx_ID tx) ∧ wf_string (tx_From tx) ∧ wf_string (tx_FromPubKey tx) ∧
   wf_string (tx_To tx)) ∧
  (is_u64 (tx_Amount tx) ∧ is_u64 (tx_Fee tx) ∧ is_u64 (tx_Nonce tx)) ∧
  (wf_string (tx_TxType tx) ∧ wf_string (tx_Payload tx) ∧ wf_string (tx_Signature tx)) ∧
  is_i64 (tx_Timestamp tx) ∧ wf_string (tx_ChainID tx) ∧
  wf_bytes (EncodeTransactionBinary tx).

Definition wf_block (b : Block) : Prop :=
  is_u64 (blk_Index b) ∧ wf_string (blk_Author b) ∧ wf_string (blk_MinerAddress b) ∧
  wf_string (blk_PreviousHash b) ∧ is_i64 (blk_Timestamp b) ∧ wf_string (blk_BlockHash b) ∧
  wf_string (blk_TxMerkleRoot b) ∧ is_u64 (blen (blk_Transactions b)) ∧
  Forall wf_tx (blk_Transactions b) ∧ is_u64 (blk_Nonce b).

(** ** The codec contract *)

Class Codec {A} (enc : A → list byte) (pop : list byte → outcome (A * list byte))
    (wf : A → Prop) : Prop := {
  codec_pop : ∀ a rest, wf a → pop (enc a ++ rest) = Ok (a, rest);
  codec_prefix : ∀ a n, wf a → (n < length (enc a))%nat → ∃ e, pop (take n (enc a)) = Err e;
  codec_sound : ∀ data a rest, pop data = Ok (a, rest) → wf a ∧ data = enc a ++ rest;
}.

Definition enc_bytes (l : list byte) : list byte := be_bytes 8 (blen l) ++ l.
Definition enc_string (s : string) : list byte := enc_bytes (bytes_of_string s).
Definition enc_int64 (v : Z) : list byte := be_bytes 8 (u64 v).

Lemma blen_lt_take {A} (n : nat) (l : list A) k :
  Z.of_nat n < k → (blen (take n l) <? k) = true.
Proof. intros. apply Z.ltb_lt. unfold blen. rewrite length_take. lia. Qed.

Lemma take8_be v rest : take 8 (be_bytes 8 v ++ rest) = be_bytes 8 v.
Proof. by rewrite take_app_length' by (by rewrite length_be_bytes). Qed.

Lemma drop8_be v rest : drop 8 (be_bytes 8 v ++ rest) = rest.
Proof. by rewrite drop_app_length' by (by rewrite length_be_bytes). Qed.

Lemma blen8_be v rest : (blen (be_bytes 8 v ++ rest) <? 8) = false.
Proof.
  apply Z.ltb_ge. rewrite blen_app. unfold blen at 1. rewrite length_be_bytes.
  pose proof (blen_nonneg rest). lia.
Qed.

Lemma be8 v : be_value (be_bytes 8 v) = u64 v.
Proof. rewrite be_value_be_bytes. done. Qed.

Lemma length_take8 (data : list byte) : 8 ≤ blen data → length (take 8 data) = 8%nat.
Proof. intros. rewrite length_take. unfold blen in *. lia. Qed.

Lemma be_value_take8 data : 8 ≤ blen data → is_u64 (be_value (take 8 data)).
Proof.
  intros Hl. pose proof (be_value_range (take 8 data)) as Hb.
  unfold blen in Hb at 1. rewrite length_take8 in Hb by done. exact Hb.
Qed.

Lemma be_bytes_take8 data : 8 ≤ blen data → be_bytes 8 (be_value (take 8 data)) = take 8 data.
Proof. intros Hl. rewrite <- (length_take8 data Hl) at 1. apply be_bytes_be_value. Qed.

#[export] Instance codec_uint64 : Codec (be_bytes 8) popUint64 is_u64.
Proof.
  split.
  - intros v rest Hv. unfold popUint64.
    rewrite blen8_be, take8_be, drop8_be, be8, u64_small; done.
  - intros v n Hv Hn. rewrite length_be_bytes in Hn. unfold popUint64.
    rewrite blen_lt_take by lia. eauto.
  - intros data v rest E. unfold popUint64 in E.
    destruct (Z.ltb_spec (blen data) 8); [discriminate|]. injection E as <- <-.
    split; [by apply be_value_take8|]. rewrite be_bytes_take8 by done. by rewrite take_drop.
Qed.

#[export] Instance codec_int64 : Codec enc_int64 popInt64 is_i64.
Proof.
  split.
  - intros v rest Hv. unfold popInt64, enc_int64.
    rewrite codec_pop by apply u64_range. cbn. by rewrite i64_u64.
  - intros v n Hv Hn. unfold popInt64, enc_int64.
    destruct (codec_prefix (u64 v) n (u64_range v) Hn) as [e ->]. cbn. eauto.
  - intros data v rest E. unfold popInt64 in E.
    destruct (popUint64 data) as [[u r]| |] eqn:Eu; simplify_eq/=.
    apply codec_sound in Eu as [Hu ->]. split; [apply i64_range|].
    unfold enc_int64. by rewrite u64_i64, u64_small.
Qed.

#[export] Instance codec_bytes : Codec enc_bytes popBytes wf_bytes.
Proof.
  split.
  - intros l rest Hl. unfold enc_bytes, popBytes, wf_bytes, wf_len in *.
    pose proof (blen_nonneg l). pose proof (blen_nonneg rest).
    rewrite <- app_assoc, blen8_be, take8_be, be8.
    rewrite (u64_small (blen l)), (u64_small (8 + _)) by u64_lia.
    rewrite (proj2 (Z.ltb_ge _ _)).
    2:{ rewrite !blen_app. unfold blen at 2. rewrite length_be_bytes. lia. }
    rewrite (proj2 (Z.ltb_ge _ 8)) by lia. rewrite drop8_be.
    replace (Z.to_nat (8 + blen l - 8)) with (length l) by (unfold blen; lia).
    rewrite take_app_length.
    replace (Z.to_nat (8 + blen l)) with (8 + length l)%nat by (unfold blen; lia).
    rewrite <- drop_drop, drop8_be, drop_app_length. done.
  - intros l n Hl Hn. unfold enc_bytes, popBytes, wf_bytes, wf_len in *.
    rewrite length_app, length_be_bytes in Hn.
    destruct (decide (n < 8)%nat) as [|Hge].
    { rewrite blen_lt_take by lia. eauto. }
    rewrite take_app, length_be_bytes, take_ge by (rewrite length_be_bytes; lia).
    rewrite blen8_be, take8_be, be8. pose proof (blen_nonneg l).
    rewrite (u64_small (blen l)), (u64_small (8 + _)) by u64_lia.
    rewrite (proj2 (Z.ltb_lt _ _)); [eauto|].
    rewrite blen_app. unfold blen. rewrite length_be_bytes, length_take. lia.
  - intros data l rest E. unfold popBytes in E. cbv zeta in E.
    destruct (Z.ltb_spec (blen data) 8); [discriminate|].
    destruct (Z.ltb_spec (blen data) (8 +! be_value (take 8 data))); [discriminate|].
    destruct (Z.ltb_spec (8 +! be_value (take 8 data)) 8); [discriminate|]. injection E as <- <-.
    pose proof (be_value_take8 data ltac:(done)) as Hu.
    assert (8 +! be_value (take 8 data) = 8 + be_value (take 8 data)) as Es.
    { destruct (decide (8 + be_value (take 8 data) < max_u64)); [apply u64_small; u64_lia|].
      exfalso. unfold u64 in *.
      rewrite <- (Z.mod_unique_pos _ _ 1 (8 + be_value (take 8 data) - max_u64)) in *; u64_lia. }
    rewrite Es in *. set (n := be_value (take 8 data)) in *.
    replace (8 + n - 8) with n by lia.
    assert (blen (take (Z.to_nat n) (drop 8 data)) = n) as Hn.
    { unfold blen in *. rewrite length_take, length_drop. u64_lia. }
    unfold wf_bytes, wf_len, enc_bytes. rewrite Hn. split.
    { pose proof (u64_range (8 + n)). unfold u64 in *. u64_lia. }
    subst n. rewrite be_bytes_take8 by done. rewrite <- app_assoc.
    replace (Z.to_nat (8 + be_value (take 8 data))) with (8 + Z.to_nat (be_value (take 8 data)))%nat by u64_lia.
    by rewrite <- drop_drop, take_drop, take_drop.
Qed.

#[export] Instance codec_string : Codec enc_string popString wf_string.
Proof.
  assert (∀ s, wf_string s → wf_bytes (bytes_of_string s)) as Hwf.
  { intros s. unfold wf_string, wf_bytes. by rewrite blen_bytes_of_string. }
  split.
  - intros s rest Hs. unfold popString, enc_string.
    rewrite codec_pop by auto. cbn. by rewrite string_of_bytes_of_string.
  - intros s n Hs Hn. unfold popString, enc_string.
    destruct (codec_prefix (bytes_of_string s) n (Hwf s Hs) Hn) as [e ->]. cbn. eauto.
  - intros data s rest E. unfold popString in E.
    destruct (popBytes data) as [[l r]| |] eqn:El; simplify_eq/=.
    apply codec_sound in El as [Hl ->]. unfold wf_string, enc_string.
    by rewrite <- blen_bytes_of_string, bytes_of_string_of_bytes.
Qed.

(** Reading from a truncated concatenation either fails or reads the whole
    first value. *)
Lemma pop_take `{Codec A enc pop wf} a tail n :
  wf a →
  (∃ e, pop (take n (enc a ++ tail)) = Err e) ∨
  ((length (enc a) ≤ n)%nat ∧
   pop (take n (enc a ++ tail)) = Ok (a, take (n - length (enc a)) tail)).
Proof.
  intros Ha. destruct (decide (n < length (enc a))%nat).
  - left. rewrite take_app_le by lia. by apply codec_prefix.
  - right. split; [lia|]. rewrite take_app, take_ge by lia. by rewrite codec_pop.
Qed.

(** ** The encoders as concatenations *)

Lemma appendString_enc b s : appendString b s = b ++ enc_string s.
Proof.
  unfold appendString, appendUint64, enc_string, enc_bytes.
  by rewrite blen_bytes_of_string, app_assoc.
Qed.

Lemma appendBytes_enc b l : appendBytes b l = b ++ enc_bytes l.
Proof. unfold appendBytes, appendUint64, enc_bytes. by rewrite app_assoc. Qed.

Create Rewrite HintDb enc.
#[export] Hint Rewrite appendString_enc appendBytes_enc (@app_nil_l byte) : enc.
#[export] Hint Rewrite <- (@app_assoc byte) : enc.

Lemma EncodeTransactionBinary_app tx :
  EncodeTransactionBinary tx =
  enc_string (tx_ID tx) ++ enc_string (tx_From tx) ++ enc_string (tx_FromPubKey tx) ++
  enc_string (tx_To tx) ++ be_bytes 8 (tx_Amount tx) ++ be_bytes 8 (tx_Fee tx) ++
  be_bytes 8 (tx_Nonce tx) ++ enc_string (tx_TxType tx) ++ enc_string (tx_Payload tx) ++
  enc_string (tx_Signature tx) ++ enc_int64 (tx_Timestamp tx) ++ enc_string (tx_ChainID tx).
Proof.
  unfold EncodeTransactionBinary, appendUint64, appendInt64. by autorewrite with enc.
Qed.

Lemma appendTransactions_app b txs :
  appendTransactions b txs = b ++ concat (map (λ tx, enc_bytes (EncodeTransactionBinary tx)) txs).
Proof.
  unfold appendTransactions. revert b.
  induction txs as [|tx txs IH]; intros b; cbn [foldl map concat]; [by rewrite app_nil_r|].
  rewrite IH, appendBytes_enc. by rewrite <- app_assoc.
Qed.

Lemma EncodeBlockBinary_app block :
  EncodeBlockBinary block =
  be_bytes 8 (blk_Index block) ++ enc_string (blk_Author block) ++
  enc_string (blk_MinerAddress block) ++ enc_string (blk_PreviousHash block) ++
  enc_int64 (blk_Timestamp block) ++ enc_string (blk_BlockHash block) ++
  enc_string (blk_TxMerkleRoot block) ++ be_bytes 8 (blen (blk_Transactions block)) ++
  concat (map (λ tx, enc_bytes (EncodeTransactionBinary tx)) (blk_Transactions block)) ++
  be_bytes 8 (blk_Nonce block).
Proof.
  unfold EncodeBlockBinary. rewrite appendTransactions_app.
  unfold appendUint64, appendInt64.
  case_bool_decide as E; autorewrite with enc; [done|].
  by rewrite E.
Qed.

#[global] Arguments EncodeTransactionBinary : simpl never.
#[global] Arguments DecodeTransactionBinary : simpl never.

(** ** Round trips *)

Lemma DecodeTransactionBinary_app tx rest :
  wf_tx tx → DecodeTransactionBinary (EncodeTransactionBinary tx ++ rest) = Ok tx.
Proof.
  intros ((?&?&?&?)&(?&?&?)&(?&?&?)&?&?&?). rewrite EncodeTransactionBinary_app, <- !app_assoc.
  unfold DecodeTransactionBinary.
  repeat (rewrite codec_pop by done; cbn). by destruct tx.
Qed.

Lemma decodeTransactions_app txs rest fuel :
  Forall wf_tx txs → (length txs ≤ fuel)%nat →
  decodeTransactions fuel (blen txs)
    (concat (map (λ tx, enc_bytes (EncodeTransactionBinary tx)) txs) ++ rest) = Ok (txs, rest).
Proof.
  intros Hwf. revert fuel. induction Hwf as [|tx txs Htx Hwf IH]; intros fuel Hf.
  { by destruct fuel. }
  destruct fuel as [|fuel]; [simpl in Hf; lia|]. cbn [decodeTransactions map concat].
  pose proof (blen_nonneg txs). rewrite blen_cons.
  rewrite (proj2 (Z.leb_gt _ _)) by lia.
  rewrite <- app_assoc, codec_pop by apply Htx. cbn.
  rewrite <- (app_nil_r (EncodeTransactionBinary tx)), DecodeTransactionBinary_app by done.
  cbn. replace (1 + blen txs - 1) with (blen txs) by lia.
  rewrite IH by (simpl in Hf; lia). done.
Qed.

Lemma length_encoded_transactions txs :
  (length txs ≤ length (concat (map (λ tx, enc_bytes (EncodeTransactionBinary tx)) txs)))%nat.
Proof.
  induction txs as [|tx txs IH]; [done|]. cbn [map concat length].
  unfold enc_bytes at 1. rewrite !length_app, length_be_bytes. lia.
Qed.

Lemma DecodeBlockBinary_app `{Runtime} block rest :
  wf_block block → blen (blk_Transactions block) ≤ make_limit →
  DecodeBlockBinary (EncodeBlockBinary block ++ rest) = Ok (not_nil block).
Proof.
  intros (?&?&?&?&?&?&?&?&?&?) Hlim. rewrite EncodeBlockBinary_app, <- !app_assoc.
  assert (∀ s, wf_string s → wf_bytes (bytes_of_string s)) as Hb.
  { intros s. unfold wf_string, wf_bytes. by rewrite blen_bytes_of_string. }
  unfold DecodeBlockBinary.
  do 5 (rewrite codec_pop by done; cbn).
  do 2 (unfold enc_string at 1; rewrite codec_pop by auto; cbn).
  rewrite codec_pop by done; cbn.
  rewrite (proj2 (Z.ltb_ge _ _)) by lia.
  rewrite decodeTransactions_app; [|done|].
  2:{ rewrite length_app. pose proof (length_encoded_transactions (blk_Transactions block)). lia. }
  cbn. rewrite codec_pop by done. cbn.
  rewrite !string_of_bytes_of_string. by destruct block.
Qed.

(** More fuel than there are bytes does not change what the loop returns. *)
Lemma popBytes_shorter data a rest :
  popBytes data = Ok (a, rest) → (length rest < length data)%nat.
Proof.
  unfold popBytes. intros E. inv_cases E. prop_bools.
  rewrite length_drop. unfold blen in *. lia.
Qed.

Lemma decodeTransactions_fuel f1 f2 count data :
  (length data ≤ f1)%nat → (length data ≤ f2)%nat →
  decodeTransactions f1 count data = decodeTransactions f2 count data.
Proof.
  revert f2 count data. induction f1 as [|f1 IH]; intros [|f2] count data H1 H2; simpl.
  - done.
  - destruct data; [|simpl in H1; lia]. done.
  - destruct data; [|simpl in H2; lia]. done.
  - destruct (popBytes data) as [[a rest]| |] eqn:E; simpl; [|done..].
    apply popBytes_shorter in E.
    destruct (DecodeTransactionBinary a); simpl; [|done..].
    by rewrite (IH f2) by lia.
Qed.

(** ** Truncated input *)

Ltac pop_truncated :=
  match goal with
  | |- ∃ e, (match ?pop (take ?n (?enc ?a ++ ?tail)) with _ => _ end) = Err e =>
      let e := fresh "e" in let E := fresh "E" in let Hle := fresh "Hle" in
      destruct (pop_take (enc:=enc) (pop:=pop) a tail n) as [[e E]|[Hle E]];
        [solve [auto]|rewrite E; cbv beta iota; eauto|rewrite E; cbv beta iota; clear E]
  end.

Lemma DecodeTransactionBinary_prefix tx n :
  wf_tx tx → (n < length (EncodeTransactionBinary tx))%nat →
  ∃ e, DecodeTransactionBinary (take n (EncodeTransactionBinary tx)) = Err e.
Proof.
  intros ((?&?&?&?)&(?&?&?)&(?&?&?)&?&Hc&_) Hn. rewrite EncodeTransactionBinary_app in *.
  rewrite !length_app in Hn.
  unfold DecodeTransactionBinary, mbind, outcome_bind.
  repeat pop_truncated.
  match goal with |- context [take ?k (enc_string ?s)] =>
    destruct (codec_prefix s k Hc) as [e ->]; [lia|simpl; eauto] end.
Qed.

(** ** Panics *)

Lemma popBytes_panic data :
  (∃ m, popBytes data = Panic m) ↔ 8 ≤ blen data ∧ max_u64 - 8 ≤ be_value (take 8 data).
Proof.
  unfold popBytes.
  assert (8 ≤ blen data → 0 ≤ be_value (take 8 data) < max_u64) as Hr.
  { intros. pose proof (be_value_range (take 8 data)) as Hb.
    replace (blen (take 8 data)) with 8 in Hb; [done|].
    unfold blen in *. rewrite length_take. lia. }
  destruct (Z.ltb_spec (blen data) 8).
  { split; [by intros [??]|lia]. }
  specialize (Hr ltac:(done)).
  destruct (decide (max_u64 - 8 ≤ be_value (take 8 data))) as [Hbig|Hsmall].
  - assert (8 +! be_value (take 8 data) = 8 + be_value (take 8 data) - max_u64) as ->.
    { unfold u64. symmetry. apply (Z.mod_unique_pos _ _ 1); u64_lia. }
    rewrite (proj2 (Z.ltb_ge _ _)) by lia. rewrite (proj2 (Z.ltb_lt _ 8)) by lia.
    split; eauto.
  - rewrite u64_small by u64_lia. split; [|lia].
    destruct (_ <? _); [by intros [??]|]. rewrite (proj2 (Z.ltb_ge _ 8)) by lia.
    by intros [??].
Qed.

(** ** What is decoded *)

Ltac pop_sound E :=
  repeat match type of E with
  | (match ?pop ?data with _ => _ end) = Ok _ =>
      let Hp := fresh "Hp" in let Hw := fresh "Hw" in
      destruct (pop data) as [[? ?]| |] eqn:Hp; [|discriminate E..];
      apply codec_sound in Hp as [Hw ->]; cbv beta iota in E
  end.

(** The decoder leaves nothing to the encoder's choice: the input starts with
    the encoding of what was read. *)
Lemma DecodeTransactionBinary_sound data tx :
  DecodeTransactionBinary data = Ok tx → wf_bytes data →
  wf_tx tx ∧ EncodeTransactionBinary tx `prefix_of` data.
Proof.
  unfold DecodeTransactionBinary, mbind, outcome_bind. intros E Hd. pop_sound E.
  injection E as <-. rewrite !app_assoc, <- !app_assoc in Hd |- *.
  match goal with |- wf_tx ?t ∧ _ `prefix_of` ?d =>
    assert (EncodeTransactionBinary t `prefix_of` d) as Hpre
      by (rewrite EncodeTransactionBinary_app; cbn; rewrite !app_assoc; eexists; reflexivity) end.
  split; [|done]. unfold wf_tx. split_and!; try done.
  apply prefix_length in Hpre. unfold wf_bytes, wf_len, blen in *. lia.
Qed.

Lemma decodeTransactions_sound fuel : ∀ count data txs rest,
  decodeTransactions fuel count data = Ok (txs, rest) → 0 ≤ count →
  Forall wf_tx txs ∧ blen txs = count.
Proof.
  induction fuel as [|fuel IH]; intros count data txs rest E Hc; cbn [decodeTransactions] in E;
    destruct (Z.leb_spec count 0).
  1,3: injection E as <- <-; split; [done|]; change (blen []) with 0; lia.
  { discriminate. }
  unfold mbind, outcome_bind in E. pop_sound E.
  destruct (DecodeTransactionBinary _) as [tx| |] eqn:Et; [|discriminate E..].
  destruct (decodeTransactions _ _ _) as [[txs' r]| |] eqn:El; [|discriminate E..].
  injection E as <- <-. apply IH in El as [Hf Hl]; [|lia].
  apply DecodeTransactionBinary_sound in Et as [Ht _]; [|done].
  split; [by constructor|]. rewrite blen_cons. lia.
Qed.

Lemma DecodeBlockBinary_sound `{Runtime} data block :
  DecodeBlockBinary data = Ok block →
  wf_block block ∧ blen (blk_Transactions block) ≤ make_limit ∧ not_nil block = block.
Proof.
  unfold DecodeBlockBinary, mbind, outcome_bind. intros E. pop_sound E.
  destruct (Z.ltb_spec make_limit z1); [discriminate E|].
  destruct (decodeTransactions _ _ _) as [[txs r]| |] eqn:El; [|discriminate E..].
  pop_sound E. injection E as <-.
  apply decodeTransactions_sound in El as [Hf Hl]; [|u64_lia].
  unfold wf_block, wf_string. cbn. rewrite <- !blen_bytes_of_string, !bytes_of_string_of_bytes, Hl.
  rewrite !blen_bytes_of_string. split_and!; done.
Qed.

(** ** Properties *)

(** A decoded block encodes to bytes that decode to it. *)
Theorem decoded_block_typed `{Runtime} data block :
  DecodeBlockBinary data = Ok block →
  wf_block block ∧ DecodeBlockBinary (EncodeBlockBinary block) = Ok block.
Proof.
  intros (Hw & Hl & Hs)%DecodeBlockBinary_sound. split; [done|].
  rewrite <- (app_nil_r (EncodeBlockBinary block)), DecodeBlockBinary_app by done. by rewrite Hs.
Qed.

(** Decoding an encoded transaction, with any bytes after it,
    returns the transaction. *)
Theorem decode_encode_transaction tx rest :
  wf_tx tx → DecodeTransactionBinary (EncodeTransactionBinary tx ++ rest) = Ok tx.
Proof. apply DecodeTransactionBinary_app. Qed.

(** C4. Decoding an encoded block whose fields are in the ranges of their Go types,
    with no more transactions than [make] can allocate and with any bytes after it,
    returns the block; a [nil] slice of transactions comes back as an empty one. *)
Theorem decode_encode_block `{Runtime} block rest :
  wf_block block → blen (blk_Transactions block) ≤ make_limit →
  DecodeBlockBinary (EncodeBlockBinary block ++ rest) = Ok (not_nil block).
Proof. apply DecodeBlockBinary_app. Qed.

(** C30. Every strict prefix of an encoded transaction, whose fields are in the ranges of
    their Go types, is rejected with an error: it is never decoded and never makes the
    decoder panic. *)
Theorem decode_truncated_transaction tx n :
  wf_tx tx → (n < length (EncodeTransactionBinary tx))%nat →
  ∃ e, DecodeTransactionBinary (take n (EncodeTransactionBinary tx)) = Err e.
Proof. apply DecodeTransactionBinary_prefix. Qed.

(** [popBytes] panics on exactly the inputs whose length prefix is
    within eight of 2^64, where the bound check itself overflows. *)
Theorem popBytes_panics_iff data :
  (∃ m, popBytes data = Panic m) ↔ 8 ≤ blen data ∧ max_u64 - 8 ≤ be_value (take 8 data).
Proof. apply popBytes_panic. Qed.

(** Eight bytes from the network are enough to panic the decoder. *)
Example decode_transaction_panics :
  DecodeTransactionBinary (replicate 8 xff) = Panic "slice bounds out of range".
Proof. vm_compute. reflexivity. Qed.

Lemma wf_tx_demo : wf_tx demo_signed.
Proof. vm_compute. repeat split; congruence. Qed.

Lemma decode_encode_transaction_witness :
  DecodeTransactionBinary (EncodeTransactionBinary demo_signed ++ [x01; x02]) = Ok demo_signed.
Proof. apply (decode_encode_transaction demo_signed). exact wf_tx_demo. Defined.

Definition demo_block : Block :=
  mkBlock 1 "alice" "alice" "00" 1700000000 [demo_signed] 0 "ab" "cd".

Lemma wf_block_demo : wf_block demo_block.
Proof.
  assert (Forall wf_tx (blk_Transactions demo_block)).
  { constructor; [exact wf_tx_demo|constructor]. }
  unfold wf_block. do 7 (split; [vm_compute; try split; congruence|]).
  split; [vm_compute; split; congruence|]. split; [done|]. vm_compute. split; congruence.
Qed.

Lemma decode_encode_block_witness :
  @DecodeBlockBinary demo_runtime (EncodeBlockBinary demo_block ++ []) = Ok demo_block.
Proof.
  apply (@decode_encode_block demo_runtime demo_block).
  - exact wf_block_demo.
  - vm_compute. congruence.
Defined.

Lemma decode_truncated_transaction_witness :
  ∃ e, DecodeTransactionBinary (take 100 (EncodeTransactionBinary demo_signed)) = Err e.
Proof.
  apply (decode_truncated_transaction demo_signed 100); [exact wf_tx_demo|].
  vm_compute. repeat constructor.
Defined.

Lemma decoded_block_typed_witness :
  wf_block demo_block ∧ @DecodeBlockBinary demo_runtime (EncodeBlockBinary demo_block) = Ok demo_block.
Proof.
  apply (@decoded_block_typed demo_runtime (EncodeBlockBinary demo_block ++ [x01])). vm_compute. reflexivity.
Defined.
