(* ===== verification/Merkle.v ===== *)
(** * Merkle trees (go-chain/blockchain/merkle.go, CalculateMerkleRoot of domain.go)

    [MerkleNode] is the pointer type of the source: [NilNode] is [nil] and a
    leaf is a node with two nil children.  Both tree builders repeat one
    pairing pass over a level until a single element is left, so the pass and
    the loop are shared definitions, instantiated with the hash of a pair of
    nodes ([BuildMerkleTree]) and of a pair of digests
    ([CalculateMerkleRoot]).

    Soundness theorems have no assumption on SHA-256: they conclude either
    that the claim holds or that a collision is present between two explicit
    lists of hashed byte strings. *)

From Equations Require Import Equations.
From S2P Require Import Prelude Runtime Text Sha256 Domain.
Open Scope Z_scope.
Open Scope go_scope.

(** ** The level loop *)

(** One pass: neighbours are combined, a last odd element is carried over. *)
Fixpoint pair_level {A} (combine : A → A → A) (l : list A) : list A :=
  match l with
  | x :: y :: l => combine x y :: pair_level combine l
  | l => l
  end.

Lemma length_pair_level {A} (combine : A → A → A) l :
  (length (pair_level combine l) ≤ length l ∧
   (2 ≤ length l → length (pair_level combine l) < length l))%nat.
Proof.
  assert (∀ n l, (length l ≤ n)%nat →
    (length (pair_level combine l) ≤ length l ∧
     (2 ≤ length l → length (pair_level combine l) < length l))%nat) as Hg; [|by eapply Hg].
  clear l. induction n as [|n IH]; intros [|x [|y l]] Hn; simpl in *; try lia.
  destruct (IH l); lia.
Qed.

(** [for len(nodes) > 1 { ... }], then the first element. *)
Equations? reduce_levels {A} (combine : A → A → A) (l : list A) : option A
    by wf (length l) lt :=
  reduce_levels combine [] := None;
  reduce_levels combine [x] := Some x;
  reduce_levels combine (x :: y :: l) := reduce_levels combine (pair_level combine (x :: y :: l)).
Proof.
  pose proof (length_pair_level combine l). simpl. lia.
Qed.

(** ** Trees *)

Inductive MerkleNode :=
| NilNode
| mkMerkleNode (Hash : string) (Left Right : MerkleNode).

Definition node_Hash (n : MerkleNode) : string :=
  match n with NilNode => "" | mkMerkleNode h _ _ => h end.

Definition is_nil_node (n : MerkleNode) : bool :=
  match n with NilNode => true | _ => false end.

Definition merkle_leaf (item : list byte) : MerkleNode :=
  mkMerkleNode (sha_hex item) NilNode NilNode.

Definition merkle_combine (left right : MerkleNode) : MerkleNode :=
  let combined := node_Hash left +:+ node_Hash right in
  mkMerkleNode (sha_hex (bytes_of_string combined)) left right.

Definition BuildMerkleTree (items : list (list byte)) : outcome MerkleNode :=
  match reduce_levels merkle_combine (map merkle_leaf items) with
  | None => Err "empty items"
  | Some root => Ok root
  end.

(** ** Proofs *)

(** The closure [findProof]: the siblings it appends, [None] when it returns
    false (it appends nothing then). *)
Fixpoint findProof (targetHex : string) (node : MerkleNode) : option (list (list byte)) :=
  match node with
  | NilNode => None
  | mkMerkleNode hash lft rgt =>
      if bool_decide (hash = targetHex) then Some [] else
      match findProof targetHex lft with
      | Some proof =>
          Some (if is_nil_node rgt then proof
                else proof ++ [x01 :: bytes_of_string (node_Hash rgt)])
      | None =>
          match findProof targetHex rgt with
          | Some proof =>
              Some (if is_nil_node lft then proof
                    else proof ++ [x00 :: bytes_of_string (node_Hash lft)])
          | None => None
          end
      end
  end.

Definition GenerateProof (root : MerkleNode) (target : list byte) : option (list (list byte)) :=
  if is_nil_node root then None else findProof (sha_hex target) root.

(** The bytes hashed for one proof element. *)
Definition verify_input (currentHex : string) (isRight : bool) (siblingHash : string) : list byte :=
  bytes_of_string (if isRight then currentHex +:+ siblingHash else siblingHash +:+ currentHex).

(** The loop of [VerifyMerkleProof]; [None] is its early [return false]. *)
Fixpoint verify_loop (currentHex : string) (proof : list (list byte)) : option string :=
  match proof with
  | [] => Some currentHex
  | [] :: _ => None
  | (dir :: sibling) :: proof =>
      let isRight := bool_decide (dir = x01) in
      verify_loop (sha_hex (verify_input currentHex isRight (string_of_bytes sibling))) proof
  end.

Definition VerifyMerkleProof (rootHash : string) (target : list byte) (proof : list (list byte)) : bool :=
  let currentHex := sha_hex target in
  if bool_decide (currentHex = rootHash) && (length proof =? 0)%nat then true else
  match verify_loop currentHex proof with
  | None => false
  | Some h => bool_decide (h = rootHash)
  end.

(** ** Roots *)

Fixpoint decode_all (l : list string) : option (list (list byte)) :=
  match l with
  | [] => Some []
  | h :: l =>
      match DecodeString h with
      | Ok d => ds ← decode_all l; Some (d :: ds)
      | _ => None
      end
  end.

Definition CalculateMerkleRootFromHashes (txHashes : list string) : string :=
  match txHashes with
  | [] => ""
  | _ =>
      match decode_all txHashes with
      | None => ""
      | Some items =>
          match BuildMerkleTree items with
          | Ok node => node_Hash node
          | _ => ""
          end
      end
  end.

Definition CalculateMerkleRootDeterministic (items : list string) : string :=
  CalculateMerkleRootFromHashes items.

Definition digest_combine (x y : list byte) : list byte := Sum256 (x ++ y).

Definition CalculateMerkleRoot (transactions : list Transaction) : string :=
  match transactions with
  | [] => ""
  | _ =>
      let hashes := map (λ tx, Sum256 (bytes_of_string (tx_ID tx))) transactions in
      from_option EncodeToString "" (reduce_levels digest_combine hashes)
  end.

(** ** Collisions *)

(** Two different byte strings, one of each list, have the same digest. *)
Definition collision (xs ys : list (list byte)) : Prop :=
  ∃ x y, x ∈ xs ∧ y ∈ ys ∧ x ≠ y ∧ Sum256 x = Sum256 y.

(** The byte strings the verifier hashes. *)
Fixpoint verify_inputs (currentHex : string) (proof : list (list byte)) : list (list byte) :=
  match proof with
  | [] => []
  | [] :: _ => []
  | (dir :: sibling) :: proof =>
      let input := verify_input currentHex (bool_decide (dir = x01)) (string_of_bytes sibling) in
      input :: verify_inputs (sha_hex input) proof
  end.

(** The byte strings hashed for the inner nodes of a tree. *)
Fixpoint node_inputs (n : MerkleNode) : list (list byte) :=
  match n with
  | NilNode => []
  | mkMerkleNode _ NilNode NilNode => []
  | mkMerkleNode _ l r =>
      bytes_of_string (node_Hash l +:+ node_Hash r) :: node_inputs l ++ node_inputs r
  end.

(** The byte strings hashed by one pass and by all passes over digests. *)
Fixpoint pair_inputs (l : list (list byte)) : list (list byte) :=
  match l with
  | x :: y :: l => (x ++ y) :: pair_inputs l
  | _ => []
  end.

Equations? all_inputs (l : list (list byte)) : list (list byte) by wf (length l) lt :=
  all_inputs [] := [];
  all_inputs [x] := [];
  all_inputs (x :: y :: l) :=
    pair_inputs (x :: y :: l) ++ all_inputs (pair_level digest_combine (x :: y :: l)).
Proof.
  pose proof (length_pair_level digest_combine l). simpl. lia.
Qed.

(** The byte strings hashed to compute the root of a list of transactions. *)
Definition root_inputs (txs : list Transaction) : list (list byte) :=
  let ids := map (λ tx, bytes_of_string (tx_ID tx)) txs in
  ids ++ all_inputs (map Sum256 ids).

Lemma collision_mono xs ys xs' ys' :
  xs ⊆ xs' → ys ⊆ ys' → collision xs ys → collision xs' ys'.
Proof. intros Hx Hy (x&y&?&?&?&?). exists x, y. auto. Qed.

Lemma sha_hex_inj_Sum256 x y : sha_hex x = sha_hex y → Sum256 x = Sum256 y.
Proof. apply (inj EncodeToString). Qed.

(** ** The trees the builder makes *)

Inductive tree_of : MerkleNode → list (list byte) → Prop :=
| tree_leaf item : tree_of (merkle_leaf item) [item]
| tree_branch l r il ir :
    tree_of l il → tree_of r ir → tree_of (merkle_combine l r) (il ++ ir).

Lemma tree_of_hash_length n items : tree_of n items → String.length (node_Hash n) = 64%nat.
Proof. destruct 1; apply length_sha_hex. Qed.

Lemma tree_of_not_nil n items : tree_of n items → is_nil_node n = false.
Proof. by destruct 1. Qed.

(** A pass over a forest keeps its leaves in order. *)
Lemma tree_of_pair_level nodes groups :
  Forall2 tree_of nodes groups →
  ∃ groups', Forall2 tree_of (pair_level merkle_combine nodes) groups' ∧
    concat groups' = concat groups.
Proof.
  assert (∀ n nodes groups, (length nodes ≤ n)%nat → Forall2 tree_of nodes groups →
    ∃ groups', Forall2 tree_of (pair_level merkle_combine nodes) groups' ∧
      concat groups' = concat groups) as Hg; [|by eapply Hg].
  clear nodes groups. induction n as [|n IH]; intros nodes groups Hn HF.
  { destruct nodes; [|simpl in Hn; lia]. inversion HF; subst. by exists []. }
  destruct HF as [|x gx nodes groups Hx HF]; [by exists []|].
  destruct HF as [|y gy nodes groups Hy HF]; [exists [gx]; by repeat constructor|].
  destruct (IH nodes groups) as (groups' & HF' & E); [simpl in Hn; lia|done|].
  exists ((gx ++ gy) :: groups'). split; [by repeat constructor|].
  simpl. by rewrite E, app_assoc.
Qed.

Lemma reduce_levels_tree nodes groups root :
  Forall2 tree_of nodes groups → reduce_levels merkle_combine nodes = Some root →
  tree_of root (concat groups).
Proof.
  assert (∀ n nodes groups, (length nodes ≤ n)%nat → Forall2 tree_of nodes groups →
    reduce_levels merkle_combine nodes = Some root → tree_of root (concat groups)) as Hg;
    [|by eapply Hg].
  clear nodes groups. induction n as [|n IH]; intros nodes groups Hn HF.
  { destruct nodes; [by simp reduce_levels|simpl in Hn; lia]. }
  destruct nodes as [|x [|y nodes]]; simp reduce_levels; intros E; [done|..].
  - inversion HF as [|? g ? ? ? HF']; subst. inversion HF'; subst.
    simplify_eq. simpl. by rewrite app_nil_r.
  - pose proof (length_pair_level merkle_combine (x :: y :: nodes)) as [_ Hlt].
    destruct (tree_of_pair_level _ _ HF) as (groups' & HF' & <-).
    eapply IH; [|done|done]. specialize (Hlt ltac:(simpl; lia)). lia.
Qed.

Lemma reduce_levels_Some {A} (combine : A → A → A) l :
  l ≠ [] → is_Some (reduce_levels combine l).
Proof.
  assert (∀ n l, (length l ≤ n)%nat → l ≠ [] → is_Some (reduce_levels combine l)) as Hg;
    [|by eapply Hg].
  clear l. induction n as [|n IH]; intros [|x [|y l]] Hn Hne; simpl in Hn;
    simp reduce_levels; eauto; try lia; try done.
  apply IH; [|done].
  pose proof (length_pair_level combine (x :: y :: l)) as [_ Hlt]. simpl in *. lia.
Qed.

Lemma Forall2_leaves items : Forall2 tree_of (map merkle_leaf items) (map (λ i, [i]) items).
Proof. induction items; repeat constructor; done. Qed.

Lemma BuildMerkleTree_tree items root :
  BuildMerkleTree items = Ok root → tree_of root items.
Proof.
  unfold BuildMerkleTree. destruct (reduce_levels _ _) as [r|] eqn:E; [|done].
  intros [= ->]. apply (reduce_levels_tree _ _ _ (Forall2_leaves items)) in E.
  replace (concat (map (λ i, [i]) items)) with items in E; [done|].
  clear. induction items as [|i items IH]; [done|]. simpl. by rewrite <- IH.
Qed.

Lemma BuildMerkleTree_total items :
  items ≠ [] → ∃ root, BuildMerkleTree items = Ok root.
Proof.
  intros Hne. unfold BuildMerkleTree.
  destruct (reduce_levels_Some merkle_combine (map merkle_leaf items)) as [r ->]; [|eauto].
  by destruct items.
Qed.

(** ** Completeness *)

Lemma verify_loop_app cur p q :
  verify_loop cur (p ++ q) = (c ← verify_loop cur p; verify_loop c q).
Proof. revert cur. induction p as [|[|d s] p IH]; intros cur; simpl; [done..|apply IH]. Qed.

Lemma findProof_verifies n items targetHex proof :
  tree_of n items → findProof targetHex n = Some proof →
  verify_loop targetHex proof = Some (node_Hash n).
Proof.
  intros Ht. revert proof. induction Ht as [item|l r il ir Hl IHl Hr IHr]; intros proof; simpl.
  { case_bool_decide; [|done]. by intros [= <-]; simplify_eq/=. }
  case_bool_decide; [by intros [= <-]; simplify_eq/=|].
  rewrite (tree_of_not_nil _ _ Hl), (tree_of_not_nil _ _ Hr).
  destruct (findProof targetHex l) as [p|] eqn:El.
  { intros [= <-]. rewrite verify_loop_app, (IHl p) by done. simpl.
    by rewrite string_of_bytes_of_string. }
  destruct (findProof targetHex r) as [p|] eqn:Er; [|done].
  intros [= <-]. rewrite verify_loop_app, (IHr p) by done. simpl.
  by rewrite string_of_bytes_of_string.
Qed.

Lemma findProof_complete n items target :
  tree_of n items → target ∈ items → is_Some (findProof (sha_hex target) n).
Proof.
  intros Ht. induction Ht as [item|l r il ir Hl IHl Hr IHr]; intros Hin; simpl.
  - apply list_elem_of_singleton in Hin as ->. by rewrite bool_decide_eq_true_2.
  - case_bool_decide; [eauto|].
    destruct (findProof (sha_hex target) l) as [p|] eqn:El; [eauto|].
    apply elem_of_app in Hin as [Hin|Hin]; [by destruct (IHl Hin)|].
    destruct (IHr Hin) as [q ->]. eauto.
Qed.

(** ** Soundness *)

Lemma verify_loop_length target proof c :
  verify_loop (sha_hex target) proof = Some c → String.length c = 64%nat.
Proof.
  assert (∀ cur, String.length cur = 64%nat → verify_loop cur proof = Some c →
    String.length c = 64%nat) as Hg; [|apply Hg, length_sha_hex].
  induction proof as [|[|d s] proof IH]; intros cur Hc E; simplify_eq/=; [done|].
  eapply IH; [|done]. apply length_sha_hex.
Qed.

Lemma verify_inputs_app cur p q c :
  verify_loop cur p = Some c → verify_inputs cur (p ++ q) = verify_inputs cur p ++ verify_inputs c q.
Proof.
  revert cur. induction p as [|[|d s] p IH]; intros cur E; simplify_eq/=; [done|].
  by rewrite (IH _ E).
Qed.

Lemma node_inputs_combine l r il ir :
  tree_of l il → tree_of r ir →
  node_inputs (merkle_combine l r)
  = bytes_of_string (node_Hash l +:+ node_Hash r) :: node_inputs l ++ node_inputs r.
Proof. intros [] []; reflexivity. Qed.

Lemma string_app_inj_64 s1 s2 t1 t2 :
  String.length s1 = String.length s2 → s1 +:+ t1 = s2 +:+ t2 → s1 = s2 ∧ t1 = t2.
Proof.
  revert s2. induction s1 as [|a s1 IH]; intros [|b s2] Hl E; simplify_eq/=; [done|].
  destruct (IH s2) as [-> ->]; done.
Qed.

Lemma string_length_app s t : String.length (s +:+ t) = (String.length s + String.length t)%nat.
Proof. induction s as [|c s IH]; [done|]. simpl. by rewrite IH. Qed.

(** A verifier input that is the input of an inner node reads one of its
    children as the current hash. *)
Lemma verify_input_branch c dir sib hl hr :
  String.length c = 64%nat → String.length hl = 64%nat → String.length hr = 64%nat →
  verify_input c dir sib = bytes_of_string (hl +:+ hr) → c = hl ∨ c = hr.
Proof.
  intros Hc Hl Hr E%(inj bytes_of_string). destruct dir.
  - apply string_app_inj_64 in E as [-> _]; [by left|congruence].
  - assert (String.length sib = 64%nat).
    { apply (f_equal String.length) in E. rewrite !string_length_app in E. lia. }
    apply string_app_inj_64 in E as [_ ->]; [by right|congruence].
Qed.

Definition short (x : list byte) : Prop := (length x < 64)%nat.

Lemma verify_input_long c dir sib x :
  String.length c = 64%nat → short x → verify_input c dir sib ≠ x.
Proof.
  intros Hc Hx <-. unfold short, verify_input in Hx. rewrite length_bytes_of_string in Hx.
  destruct dir; rewrite string_length_app in Hx; lia.
Qed.

(** Membership in concatenations and conses. *)
Ltac solve_in :=
  repeat (rewrite elem_of_app || rewrite elem_of_cons); tauto.

Ltac solve_sub :=
  intros ?; repeat (rewrite elem_of_app || rewrite elem_of_cons); tauto.

(** No proof: the target's digest is the digest of the node. *)
Lemma verify_sound_base target n items :
  tree_of n items → short target → sha_hex target = node_Hash n →
  target ∈ items ∨ collision [target] (items ++ node_inputs n).
Proof.
  intros [item|l r il ir Hl Hr] Htarget Hv; simpl in Hv; apply sha_hex_inj_Sum256 in Hv.
  - destruct (decide (target = item)) as [->|]; [left; solve_in|].
    right. exists target, item. split_and!; [solve_in..|done|done].
  - right. exists target, (bytes_of_string (node_Hash l +:+ node_Hash r)).
    rewrite (node_inputs_combine l r il ir) by done. split_and!; [solve_in..| |done].
    intros ->. unfold short in Htarget.
    rewrite length_bytes_of_string, string_length_app in Htarget.
    rewrite (tree_of_hash_length l il), (tree_of_hash_length r ir) in Htarget by done. lia.
Qed.

(** One proof element: the input it hashes collides with what the node
    hashed, or the current hash was the hash of a child. *)
Lemma verify_sound_step c dir sib n items :
  tree_of n items → Forall short items → String.length c = 64%nat →
  sha_hex (verify_input c dir sib) = node_Hash n →
  collision [verify_input c dir sib] (items ++ node_inputs n) ∨
  (∃ n' items', tree_of n' items' ∧ c = node_Hash n' ∧ items' ⊆ items ∧
     node_inputs n' ⊆ node_inputs n).
Proof.
  intros [item|l r il ir Hl Hr] Hitems Hc Hv; simpl in Hv; apply sha_hex_inj_Sum256 in Hv.
  - left. exists (verify_input c dir sib), item. split_and!; [solve_in..| |done].
    apply verify_input_long; [done|]. by inversion Hitems.
  - rewrite (node_inputs_combine l r il ir) by done.
    destruct (decide (verify_input c dir sib = bytes_of_string (node_Hash l +:+ node_Hash r)))
      as [Ei|Hne].
    2:{ left. exists (verify_input c dir sib), (bytes_of_string (node_Hash l +:+ node_Hash r)).
        split_and!; [solve_in..|done|done]. }
    right. apply verify_input_branch in Ei as [->| ->]; eauto using tree_of_hash_length.
    + exists l, il. split_and!; [done|done|solve_sub..].
    + exists r, ir. split_and!; [done|done|solve_sub..].
Qed.

Lemma verify_sound target proof n items :
  tree_of n items → Forall short items → short target →
  verify_loop (sha_hex target) proof = Some (node_Hash n) →
  target ∈ items ∨
  collision (target :: verify_inputs (sha_hex target) proof) (items ++ node_inputs n).
Proof.
  intros Ht Hitems Htarget. revert n items Ht Hitems.
  induction proof as [|e proof IH] using rev_ind; intros n items Ht Hitems Hv.
  { injection Hv as Hv. by apply verify_sound_base. }
  rewrite verify_loop_app in Hv.
  destruct (verify_loop (sha_hex target) proof) as [c|] eqn:Ec; [|done].
  rewrite (verify_inputs_app _ _ _ c) by done.
  destruct e as [|dir sib]; [done|]. simpl in Hv. injection Hv as Hv.
  destruct (verify_sound_step c (bool_decide (dir = x01)) (string_of_bytes sib) n items)
    as [Hcol|(n' & items' & Ht' & -> & Hi & Hn)]; [done|done|by eapply verify_loop_length|done|..].
  { right. eapply collision_mono; [|done|exact Hcol]. simpl. solve_sub. }
  destruct (IH n' items') as [|Hcol]; [done| |done|left; by apply Hi|].
  { rewrite Forall_forall in *. intros x Hx. apply Hitems, Hi, Hx. }
  right. eapply collision_mono; [| |exact Hcol].
  - solve_sub.
  - intros x. rewrite !elem_of_app. intros [?|?]; [left|right]; auto.
Qed.

(** ** Roots commit to the identifiers *)

Definition digest (x : list byte) : Prop := length x = 32%nat.

Lemma pair_level_digests l :
  Forall digest l → Forall digest (pair_level digest_combine l).
Proof.
  assert (∀ n l, (length l ≤ n)%nat → Forall digest l →
    Forall digest (pair_level digest_combine l)) as Hg; [|by eapply Hg].
  clear l. induction n as [|n IH]; intros [|x [|y l]] Hn Hl; simpl in *; try done; [lia|].
  apply Forall_cons in Hl as [_ Hl]. apply Forall_cons in Hl as [_ Hl].
  constructor; [apply length_Sum256|]. apply IH; [lia|done].
Qed.

(** [injection] would evaluate the hash functions of the heads. *)
Lemma cons_inj {A} (x y : A) l k : x :: l = y :: k → x = y ∧ l = k.
Proof. intros [= -> ->]. done. Qed.

Lemma pair_level_binding l1 l2 :
  Forall digest l1 → Forall digest l2 → length l1 = length l2 →
  pair_level digest_combine l1 = pair_level digest_combine l2 →
  l1 = l2 ∨ collision (pair_inputs l1) (pair_inputs l2).
Proof.
  assert (∀ n l1 l2, (length l1 ≤ n)%nat → Forall digest l1 → Forall digest l2 →
    length l1 = length l2 → pair_level digest_combine l1 = pair_level digest_combine l2 →
    l1 = l2 ∨ collision (pair_inputs l1) (pair_inputs l2)) as Hg; [|by eapply Hg].
  clear l1 l2. induction n as [|n IH];
    intros [|x1 [|y1 l1]] [|x2 [|y2 l2]] Hn H1 H2 Hlen E; simpl in Hn, Hlen; auto; try lia.
  cbn [pair_level] in E. apply cons_inj in E as [Eh E].
  apply Forall_cons in H1 as [Hx1 H1]. apply Forall_cons in H1 as [_ H1].
  apply Forall_cons in H2 as [Hx2 H2]. apply Forall_cons in H2 as [_ H2].
  destruct (decide (x1 ++ y1 = x2 ++ y2)) as [Ee|Hne].
  2:{ right. exists (x1 ++ y1), (x2 ++ y2). split_and!; [cbn [pair_inputs]; solve_in..|done|done]. }
  apply app_inj_1 in Ee as [-> ->]; [|unfold digest in *; congruence].
  destruct (IH l1 l2) as [->|Hcol]; [lia|done|done|lia|done|by left|].
  right. eapply collision_mono; [..|exact Hcol]; simpl; solve_sub.
Qed.

Lemma length_pair_level_eq {A} (f g : A → A → A) l1 l2 :
  length l1 = length l2 → length (pair_level f l1) = length (pair_level g l2).
Proof.
  assert (∀ n l1 l2, (length l1 ≤ n)%nat → length l1 = length l2 →
    length (pair_level f l1) = length (pair_level g l2)) as Hg; [|by eapply Hg].
  clear l1 l2. induction n as [|n IH]; intros [|x1 [|y1 l1]] [|x2 [|y2 l2]] Hn E;
    simplify_eq/=; auto; try lia. f_equal. apply IH; [lia|congruence].
Qed.

Lemma reduce_levels_binding l1 l2 :
  Forall digest l1 → Forall digest l2 → length l1 = length l2 →
  reduce_levels digest_combine l1 = reduce_levels digest_combine l2 →
  l1 = l2 ∨ collision (all_inputs l1) (all_inputs l2).
Proof.
  assert (∀ n l1 l2, (length l1 ≤ n)%nat → Forall digest l1 → Forall digest l2 →
    length l1 = length l2 → reduce_levels digest_combine l1 = reduce_levels digest_combine l2 →
    l1 = l2 ∨ collision (all_inputs l1) (all_inputs l2)) as Hg; [|by eapply Hg].
  clear l1 l2. induction n as [|n IH];
    intros [|x1 [|y1 l1]] [|x2 [|y2 l2]] Hn H1 H2 Hlen E;
    try (by left); try (simpl in *; lia).
  { simp reduce_levels in E. simplify_eq. by left. }
  revert E. simp reduce_levels all_inputs. intros E.
  pose proof (length_pair_level digest_combine (x1 :: y1 :: l1)) as [_ Hlt].
  specialize (Hlt ltac:(simpl; lia)).
  destruct (IH (pair_level digest_combine (x1 :: y1 :: l1)) _ ltac:(lia) (pair_level_digests _ H1) (pair_level_digests _ H2)
              (length_pair_level_eq _ _ _ _ Hlen) E) as [Ep|Hcol].
  - destruct (pair_level_binding _ _ H1 H2 Hlen Ep) as [->|Hcol]; [by left|].
    right. eapply collision_mono; [..|exact Hcol]; solve_sub.
  - right. eapply collision_mono; [..|exact Hcol]; solve_sub.
Qed.

Lemma Sum256_map_binding (l1 l2 : list (list byte)) :
  map Sum256 l1 = map Sum256 l2 → l1 = l2 ∨ collision l1 l2.
Proof.
  revert l2. induction l1 as [|x l1 IH]; intros [|y l2] E; [by left|done|done|].
  cbn [map] in E. apply cons_inj in E as [Eh E].
  destruct (decide (x = y)) as [->|Hne].
  2:{ right. exists x, y. split_and!; [solve_in..|done|done]. }
  destruct (IH l2) as [->|Hcol]; [done|by left|].
  right. eapply collision_mono; [..|exact Hcol]; solve_sub.
Qed.

Lemma CalculateMerkleRoot_binding txs1 txs2 :
  length txs1 = length txs2 → CalculateMerkleRoot txs1 = CalculateMerkleRoot txs2 →
  map tx_ID txs1 = map tx_ID txs2 ∨ collision (root_inputs txs1) (root_inputs txs2).
Proof.
  intros Hlen E. destruct txs1 as [|t1 txs1], txs2 as [|t2 txs2]; [by left|done|done|].
  set (ids1 := bytes_of_string (tx_ID t1) :: map (λ tx, bytes_of_string (tx_ID tx)) txs1).
  set (ids2 := bytes_of_string (tx_ID t2) :: map (λ tx, bytes_of_string (tx_ID tx)) txs2).
  assert (∀ l, Forall digest (map Sum256 l)) as Hdig.
  { intros l. induction l; constructor; [apply length_Sum256|done]. }
  assert (reduce_levels digest_combine (map Sum256 ids1)
          = reduce_levels digest_combine (map Sum256 ids2)) as Er.
  { destruct (reduce_levels_Some digest_combine (map Sum256 ids1)) as [r1 E1]; [done|].
    destruct (reduce_levels_Some digest_combine (map Sum256 ids2)) as [r2 E2]; [done|].
    rewrite E1, E2. f_equal. apply (inj EncodeToString).
    revert E. unfold CalculateMerkleRoot. rewrite <- (map_map (λ tx, bytes_of_string (tx_ID tx)) Sum256).
    rewrite <- (map_map (λ tx, bytes_of_string (tx_ID tx)) Sum256 (t2 :: txs2)).
    simpl map in *. unfold ids1, ids2 in *. by rewrite E1, E2. }
  assert (length (map Sum256 ids1) = length (map Sum256 ids2)) as Hl.
  { unfold ids1, ids2. rewrite !length_map. simpl in *. rewrite !length_map. lia. }
  destruct (reduce_levels_binding _ _ (Hdig ids1) (Hdig ids2) Hl Er) as [Em|Hcol].
  - apply Sum256_map_binding in Em as [Ei|Hcol].
    + left. change (map tx_ID (t1 :: txs1) = map tx_ID (t2 :: txs2)).
      apply (inj (map bytes_of_string)). rewrite !map_map. exact Ei.
    + right. eapply collision_mono; [..|exact Hcol]; intros x Hx; apply elem_of_app; by left.
  - right. eapply collision_mono; [..|exact Hcol]; intros x Hx; apply elem_of_app; by right.
Qed.

(** ** Properties *)

(** Every item of a tree has a proof: building a tree of at least
    one item succeeds, and for each of its items [GenerateProof] returns a
    proof that [VerifyMerkleProof] accepts against the root. *)
Theorem merkle_proof_complete items target :
  target ∈ items →
  ∃ root proof, BuildMerkleTree items = Ok root ∧
    GenerateProof root target = Some proof ∧
    VerifyMerkleProof (node_Hash root) target proof = true.
Proof.
  intros Hin. destruct (BuildMerkleTree_total items) as [root E]; [by intros ->; apply elem_of_nil in Hin|].
  pose proof (BuildMerkleTree_tree _ _ E) as Ht.
  destruct (findProof_complete _ _ _ Ht Hin) as [proof Ep].
  exists root, proof. split_and!; [done|..].
  - unfold GenerateProof. by rewrite (tree_of_not_nil _ _ Ht).
  - unfold VerifyMerkleProof. destruct (_ && _); [done|].
    rewrite (findProof_verifies _ _ _ _ Ht Ep). by apply bool_decide_eq_true_2.
Qed.

Definition demo_items : list (list byte) := [[x01]; [x02]; [x03]].

Lemma merkle_proof_complete_witness :
  ∃ root proof, BuildMerkleTree demo_items = Ok root ∧
    GenerateProof root [x03] = Some proof ∧
    VerifyMerkleProof (node_Hash root) [x03] proof = true.
Proof. apply (merkle_proof_complete demo_items [x03]). by vm_compute; repeat constructor. Defined.

(** C11. For items and a target shorter than 64 bytes (a pair of printed hashes is not
    shorter): a proof that is accepted against the root of the tree of [items] is about
    one of them, or the verifier and the builder hashed two different byte strings to
    the same digest. *)
Theorem merkle_proof_sound items root target proof :
  BuildMerkleTree items = Ok root → Forall short items → short target →
  VerifyMerkleProof (node_Hash root) target proof = true →
  target ∈ items ∨
  collision (target :: verify_inputs (sha_hex target) proof) (items ++ node_inputs root).
Proof.
  intros E Hitems Htarget Hv. apply BuildMerkleTree_tree in E as Ht.
  apply verify_sound; try done.
  unfold VerifyMerkleProof in Hv. destruct (_ && _) eqn:Eb.
  - apply andb_prop in Eb as [Eh El]. apply bool_decide_eq_true_1 in Eh.
    apply Nat.eqb_eq, length_zero_iff_nil in El. by subst; simpl; f_equal.
  - destruct (verify_loop _ _) as [h|]; [|done].
    apply bool_decide_eq_true_1 in Hv. by subst.
Qed.

Definition demo_root : MerkleNode :=
  merkle_combine (merkle_combine (merkle_leaf [x01]) (merkle_leaf [x02])) (merkle_leaf [x03]).

Lemma merkle_proof_sound_witness :
  let proof := from_option id [] (GenerateProof demo_root [x02]) in
  [x02] ∈ demo_items ∨
  collision ([x02] :: verify_inputs (sha_hex [x02]) proof) (demo_items ++ node_inputs demo_root).
Proof.
  apply (merkle_proof_sound demo_items demo_root).
  - reflexivity.
  - repeat constructor.
  - repeat constructor.
  - vm_compute. reflexivity.
Defined.

(** The Merkle root of a block commits to its transaction
    identifiers and their order: two lists of the same length with the same
    root have the same identifiers, or the two computations hashed two
    different byte strings to the same digest. *)
Theorem merkle_root_binding txs1 txs2 :
  length txs1 = length txs2 → CalculateMerkleRoot txs1 = CalculateMerkleRoot txs2 →
  map tx_ID txs1 = map tx_ID txs2 ∨ collision (root_inputs txs1) (root_inputs txs2).
Proof. apply CalculateMerkleRoot_binding. Qed.

Lemma merkle_root_binding_witness :
  let txs1 := [demo_signed; demo_signed; demo_transfer] in
  let txs2 := [demo_signed; demo_signed; demo_transfer <| tx_Amount := 6 |>] in
  map tx_ID txs1 = map tx_ID txs2 ∨ collision (root_inputs txs1) (root_inputs txs2).
Proof. apply merkle_root_binding; [reflexivity|vm_compute; reflexivity]. Defined.

(** Leaves and inner nodes are hashed alike, so the text of an inner node is
    accepted as if it were an item (it is 128 bytes, outside [short]). *)
Example merkle_inner_node_accepted :
  let inner := bytes_of_string (sha_hex [x01] +:+ sha_hex [x02]) in
  ∃ root, BuildMerkleTree [[x01]; [x02]] = Ok root ∧
    VerifyMerkleProof (node_Hash root) inner [] = true ∧ inner ∉ [[x01]; [x02]].
Proof.
  eexists. split; [reflexivity|]. split; [vm_compute; reflexivity|].
  eapply bool_decide_eq_true_1. vm_compute. reflexivity.
Qed.
