(* ===== verification/Tendermint.v ===== *)
(** * The consensus engine (go-chain/blockchain/consensus_tendermint.go)

    [TendermintEngine] as a record and one function per method; a method that
    can fail returns its outcome with the engine, which is unchanged on an
    error.  Readings of [time.Now().Unix()] are arguments.  [event] and
    [run] are the executions of an engine as sequences of method calls, over
    which the invariants are stated. *)

From S2P Require Import Prelude Runtime Text Sha256 Domain Json Merkle.
Open Scope Z_scope.
Open Scope go_scope.

Record TendermintEngine := mkTendermintEngine {
  te_height : Z; te_round : Z; te_step : Z; te_committedRound : Z; te_lockedRound : Z;
  te_lockedBlock : string; te_validators : list string; te_proposerIdx : Z;
  te_evidence : list Evidence; te_lastBlockTime : Z }.

#[export] Instance TendermintEngine_rebuild : Rebuild TendermintEngine := λ r,
  mkTendermintEngine (te_height r) (te_round r) (te_step r) (te_committedRound r)
  (te_lockedRound r) (te_lockedBlock r) (te_validators r) (te_proposerIdx r)
  (te_evidence r) (te_lastBlockTime r).

(** ** Proposers *)

(** [te.validators[te.proposerIdx % len(te.validators)]] *)
Definition proposerLocked (te : TendermintEngine) : string :=
  match te_validators te with
  | [] => ""
  | vs => nth (Z.to_nat (te_proposerIdx te mod blen vs)) vs ""
  end.

Definition Proposer (te : TendermintEngine) : string := proposerLocked te.

Definition selectProposerLocked (te : TendermintEngine) : TendermintEngine :=
  match te_validators te with
  | [] => te
  | vs => te <| te_proposerIdx := te_height te mod blen vs |>
  end.

Definition NewTendermintEngine (validators : list string) (now : Z) : TendermintEngine :=
  selectProposerLocked
    (mkTendermintEngine 1 0 0 0 0 "" validators 0 [] now).

(** [StakeWeightedSelector.Proposer] sorts its argument in place: the result
    is the proposer and the slice as the caller then sees it.  [int(height)]
    is negative from 2^63 on, and so is its remainder. *)
Definition StakeWeightedProposer `{Runtime} (k : nat) (validators : list string) (height : Z)
    : outcome string * list string :=
  match validators with
  | [] => (Ok "", [])
  | _ =>
      let sorted := sort_Slice k string_lt validators in
      let idx := Z.rem (i64 height) (blen sorted) in
      if idx <? 0 then (Panic "index out of range", sorted)
      else (Ok (nth (Z.to_nat idx) sorted ""), sorted)
  end.

(** ** Steps *)

Definition stepString (step : Z) : string :=
  if step =? 0 then "propose"
  else if step =? 1 then "prevote"
  else if step =? 2 then "precommit"
  else "commit".

Definition AddVote (te : TendermintEngine) (v : Vote) (now : Z) : outcome unit * TendermintEngine :=
  if negb (vote_Height v =? te_height te) then
    (Err ("vote height mismatch: " +:+ FormatInt (vote_Height v) +:+ " != " +:+
          FormatInt (te_height te)), te)
  else if (blen (te_validators te) =? 0) then (Err "no validators registered", te)
  else
    let te :=
      if bool_decide (vote_Type v = "prevote") then
        if te_step te =? 1 then te <| te_step := 2 |> else te
      else if bool_decide (vote_Type v = "precommit") then
        if te_step te =? 2 then
          te <| te_step := 3 |> <| te_committedRound := u64 (vote_Round v) |>
             <| te_lastBlockTime := now |>
        else te
      else te in
    (Ok tt, te).

Definition AdvanceRound (te : TendermintEngine) : TendermintEngine :=
  selectProposerLocked (te <| te_round ::= λ r, r +! 1 |> <| te_step := 0 |>).

Definition AdvanceHeight (te : TendermintEngine) : TendermintEngine :=
  selectProposerLocked
    (te <| te_height ::= λ h, h +! 1 |> <| te_round := 0 |> <| te_step := 0 |>
        <| te_committedRound := 0 |> <| te_lockedRound := 0 |> <| te_lockedBlock := "" |>).

Definition AddEvidence (te : TendermintEngine) (ev : Evidence) : TendermintEngine :=
  te <| te_evidence ::= λ l, l ++ [ev] |>.

Definition EvidenceList (te : TendermintEngine) : list Evidence := te_evidence te.

(** ** Proposals and votes *)

Definition not_in_step (what : string) (te : TendermintEngine) : string :=
  what +:+ stepString (te_step te).

Definition ProcessProposal (te : TendermintEngine) (block : Block) (proposer : string) (now : Z)
    : outcome Proposal * TendermintEngine :=
  if negb (te_step te =? 0) then (Err (not_in_step "not in proposal step: " te), te) else
  let payload := Sum256 (bytes_of_string
    (FormatInt (te_height te) +:+ ":" +:+ FormatInt (te_round te) +:+ ":" +:+
     blk_BlockHash block +:+ ":" +:+ proposer)) in
  (Ok (mkProposal (blk_BlockHash block) (te_height te) (i64 (te_round te)) (Some block)
         (i64 (te_round te)) now payload),
   te <| te_step := 1 |>).

(** The vote both vote methods build. *)
Definition make_vote (te : TendermintEngine) (blockHash kind : string) (now : Z) : Vote :=
  let voter := proposerLocked te in
  let payload := Sum256 (bytes_of_string
    (FormatInt (te_height te) +:+ ":" +:+ FormatInt (te_round te) +:+ ":" +:+
     blockHash +:+ ":" +:+ kind +:+ ":" +:+ voter)) in
  mkVote voter (EncodeToString payload) blockHash (te_height te) (i64 (te_round te)) kind now payload.

Definition Prevote (te : TendermintEngine) (blockHash : string) (now : Z) : outcome Vote :=
  if negb (te_step te =? 1) then Err (not_in_step "not in prevote step: " te)
  else Ok (make_vote te blockHash "prevote" now).

Definition Precommit (te : TendermintEngine) (blockHash : string) (now : Z) : outcome Vote :=
  if negb (te_step te =? 2) then Err (not_in_step "not in precommit step: " te)
  else Ok (make_vote te blockHash "precommit" now).

Definition Commit (te : TendermintEngine) (blockHash : string) (now : Z)
    : outcome unit * TendermintEngine :=
  if negb (te_step te =? 3) then (Err (not_in_step "consensus not ready for commit: " te), te) else
  (Ok tt, te <| te_committedRound := te_round te |> <| te_lockedBlock := blockHash |>
             <| te_step := 4 |> <| te_lastBlockTime := now |>).

Definition FinalizeBlock (te : TendermintEngine) (block : Block) (now : Z)
    : outcome unit * TendermintEngine :=
  if negb (te_step te =? 3) then (Err (not_in_step "consensus not ready for commit: " te), te) else
  (Ok tt, te <| te_committedRound := te_round te |> <| te_lockedBlock := blk_BlockHash block |>
             <| te_step := 4 |> <| te_lastBlockTime := now |>).

Definition VerifyVote (v : Vote) : bool :=
  if bool_decide (vote_BlockHash v = "") || (blen (vote_Signature v) =? 0) then false else true.

(** [EvidenceType] is an [int]; [reason] is its value. *)
Definition te_Slash (te : TendermintEngine) (validator : string) (reason now : Z) : TendermintEngine :=
  AddEvidence te (mkEvidence ("evidence:" +:+ FormatInt reason) validator (te_height te)
                    (i64 (te_round te)) (te_lockedBlock te) now).

Definition ProposeBlock (te : TendermintEngine) (transactions : option (list Transaction))
    (proposer : string) (now : Z) : Block :=
  let block := mkBlock_slice (te_height te) proposer proposer (sha_hex []) now transactions 0 "" "" in
  let block := block <| blk_TxMerkleRoot := CalculateMerkleRoot (blk_Transactions block) |> in
  block <| blk_BlockHash := calculateHash block |>.

Definition ValidatorSet (te : TendermintEngine) : list string := te_validators te.

Definition UpdateValidatorSet (te : TendermintEngine) (validators : list string) : TendermintEngine :=
  selectProposerLocked (te <| te_validators := validators |>).

Definition te_IsFinalized (te : TendermintEngine) (blockHash : string) : bool :=
  (te_step te =? 4) && bool_decide (te_lockedBlock te = blockHash).

Definition CurrentState (te : TendermintEngine) : string :=
  "height=" +:+ FormatInt (te_height te) +:+ " round=" +:+ FormatInt (te_round te) +:+
  " step=" +:+ stepString (te_step te) +:+ " proposer=" +:+ proposerLocked te.

(** ** Executions *)

Inductive event :=
| EvAddVote (v : Vote) (now : Z)
| EvAdvanceRound
| EvAdvanceHeight
| EvProcessProposal (block : Block) (proposer : string) (now : Z)
| EvCommit (blockHash : string) (now : Z)
| EvFinalizeBlock (block : Block) (now : Z)
| EvSlash (validator : string) (reason now : Z)
| EvUpdateValidatorSet (validators : list string).

Definition exec (te : TendermintEngine) (e : event) : TendermintEngine :=
  match e with
  | EvAddVote v now => (AddVote te v now).2
  | EvAdvanceRound => AdvanceRound te
  | EvAdvanceHeight => AdvanceHeight te
  | EvProcessProposal block proposer now => (ProcessProposal te block proposer now).2
  | EvCommit h now => (Commit te h now).2
  | EvFinalizeBlock block now => (FinalizeBlock te block now).2
  | EvSlash v r now => te_Slash te v r now
  | EvUpdateValidatorSet vs => UpdateValidatorSet te vs
  end.

Definition run (te : TendermintEngine) (es : list event) : TendermintEngine := foldl exec te es.

Inductive engine_step : TendermintEngine → TendermintEngine → Prop :=
| step_exec te e : engine_step te (exec te e).

(** The engines a program can reach from a new one. *)
Definition reachable (te : TendermintEngine) : Prop :=
  ∃ validators now, rtc engine_step (NewTendermintEngine validators now) te.

(** ** Invariants *)

Record engine_inv (te : TendermintEngine) : Prop := {
  inv_step : 0 ≤ te_step te ≤ 4;
  inv_height : is_u64 (te_height te);
  inv_proposer : te_validators te ≠ [] →
    te_proposerIdx te = te_height te mod blen (te_validators te);
}.

Lemma selectProposerLocked_frame te :
  te_height (selectProposerLocked te) = te_height te ∧
  te_step (selectProposerLocked te) = te_step te ∧
  te_validators (selectProposerLocked te) = te_validators te ∧
  te_lockedBlock (selectProposerLocked te) = te_lockedBlock te.
Proof. unfold selectProposerLocked. by destruct (te_validators te) eqn:E. Qed.

Lemma selectProposerLocked_inv te :
  0 ≤ te_step te ≤ 4 → is_u64 (te_height te) → engine_inv (selectProposerLocked te).
Proof.
  intros Hs Hh. destruct (selectProposerLocked_frame te) as (E1 & E2 & E3 & _).
  split; rewrite ?E1, ?E2, ?E3; try done.
  intros Hne. unfold selectProposerLocked. by destruct (te_validators te) eqn:E.
Qed.

(** An update that keeps height, validators and proposer keeps the
    invariant. *)
Lemma engine_inv_same te te' :
  engine_inv te → te_height te' = te_height te → te_validators te' = te_validators te →
  te_proposerIdx te' = te_proposerIdx te → 0 ≤ te_step te' ≤ 4 → engine_inv te'.
Proof. intros [? ? ?] E1 E2 E3 Hs. split; rewrite ?E1, ?E2, ?E3; done. Qed.

Lemma exec_inv te e : engine_inv te → engine_inv (exec te e).
Proof.
  intros Hi. pose proof (inv_step te Hi) as Hs.
  destruct e; cbn [exec];
    try (apply selectProposerLocked_inv; cbn; [lia|first [apply u64_range|apply Hi]]).
  - unfold AddVote. repeat case_match; cbn; try done;
      (eapply engine_inv_same; [exact Hi|done..|cbn; lia]).
  - unfold ProcessProposal. repeat case_match; cbn; try done.
    eapply engine_inv_same; [exact Hi|done..|cbn; lia].
  - unfold Commit. repeat case_match; cbn; try done.
    eapply engine_inv_same; [exact Hi|done..|cbn; lia].
  - unfold FinalizeBlock. repeat case_match; cbn; try done.
    eapply engine_inv_same; [exact Hi|done..|cbn; lia].
  - eapply engine_inv_same; [exact Hi|done..|cbn; lia].
Qed.

Lemma reachable_inv te : reachable te → engine_inv te.
Proof.
  intros (vs & now & Hr).
  assert (engine_inv (NewTendermintEngine vs now)) as H0
    by (apply selectProposerLocked_inv; cbn; u64_lia).
  induction Hr as [|x y z [te e] _ IH]; [done|]. by apply IH, exec_inv.
Qed.

Lemma proposerLocked_height te :
  engine_inv te → te_validators te ≠ [] →
  te_validators te !! Z.to_nat (te_height te mod blen (te_validators te)) = Some (proposerLocked te).
Proof.
  intros Hi Hne. pose proof (inv_proposer te Hi Hne) as Hp.
  assert (0 < blen (te_validators te)) as Hl.
  { unfold blen. destruct (te_validators te); [done|simpl; lia]. }
  pose proof (Z.mod_pos_bound (te_height te) _ Hl) as Hb.
  unfold proposerLocked. destruct (te_validators te) as [|v vs] eqn:E; [done|].
  rewrite Hp, Z.mod_mod by lia. rewrite <- E in *.
  rewrite nth_lookup.
  destruct (lookup_lt_is_Some_2 (te_validators te)
    (Z.to_nat (te_height te mod blen (te_validators te)))) as [x ->]; [|done].
  unfold blen in *. lia.
Qed.

(** ** Rotation *)

Fixpoint advance (k : nat) (te : TendermintEngine) : TendermintEngine :=
  match k with O => te | S k => advance k (AdvanceHeight te) end.

Lemma AdvanceHeight_inv te : engine_inv te → engine_inv (AdvanceHeight te).
Proof. apply (exec_inv te EvAdvanceHeight). Qed.

Lemma AdvanceHeight_frame te :
  te_height (AdvanceHeight te) = te_height te +! 1 ∧
  te_validators (AdvanceHeight te) = te_validators te ∧ te_step (AdvanceHeight te) = 0 ∧
  te_lockedBlock (AdvanceHeight te) = "".
Proof.
  unfold AdvanceHeight.
  match goal with |- context [selectProposerLocked ?x] =>
    destruct (selectProposerLocked_frame x) as (E1 & E2 & E3 & E4) end.
  by rewrite E1, E2, E3, E4.
Qed.

Lemma advance_frame k te :
  engine_inv te → te_height te + Z.of_nat k < max_u64 →
  engine_inv (advance k te) ∧ te_height (advance k te) = te_height te + Z.of_nat k ∧
  te_validators (advance k te) = te_validators te.
Proof.
  revert te. induction k as [|k IH]; intros te Hi Hk; cbn [advance].
  { split_and!; [done|lia|done]. }
  destruct (AdvanceHeight_frame te) as (Eh & Ev & _ & _).
  pose proof (inv_height te Hi). rewrite u64_small in Eh by u64_lia.
  destruct (IH (AdvanceHeight te)) as (? & E1 & E2);
    [by apply AdvanceHeight_inv|rewrite Eh; lia|].
  split_and!; [done|rewrite E1, Eh; lia|congruence].
Qed.

(** The residues of [n] consecutive numbers are the numbers below [n]. *)
Lemma consecutive_mod (h : Z) (n : nat) :
  0 ≤ h → (0 < n)%nat →
  map (λ k, Z.to_nat ((h + Z.of_nat k) mod Z.of_nat n)) (seq 0 n) ≡ₚ seq 0 n.
Proof.
  intros Hh Hn. apply NoDup_Permutation_bis; [..|].
  - apply NoDup_ListNoDup, NoDup_fmap_2_strong; [|apply NoDup_seq]. intros i j Hi Hj E.
    apply elem_of_seq in Hi, Hj.
    pose proof (Z.mod_pos_bound (h + Z.of_nat i) (Z.of_nat n) ltac:(lia)).
    pose proof (Z.mod_pos_bound (h + Z.of_nat j) (Z.of_nat n) ltac:(lia)).
    assert ((h + Z.of_nat i) mod Z.of_nat n = (h + Z.of_nat j) mod Z.of_nat n) as Em by lia.
    pose proof (Z.div_mod (h + Z.of_nat i) (Z.of_nat n) ltac:(lia)).
    pose proof (Z.div_mod (h + Z.of_nat j) (Z.of_nat n) ltac:(lia)).
    set (qi := (h + Z.of_nat i) `div` Z.of_nat n) in *.
    set (qj := (h + Z.of_nat j) `div` Z.of_nat n) in *.
    assert (Z.of_nat i - Z.of_nat j = Z.of_nat n * (qi - qj)) by lia.
    assert (qi - qj = 0) by nia. lia.
  - rewrite length_map, !length_seq. lia.
  - intros x (k & -> & Hk)%list_elem_of_In%list_elem_of_fmap. apply list_elem_of_In, elem_of_seq.
    pose proof (Z.mod_pos_bound (h + Z.of_nat k) (Z.of_nat n) ltac:(lia)). lia.
Qed.

Lemma proposer_rotation te :
  engine_inv te → te_height te + blen (te_validators te) < max_u64 →
  map (λ k, Proposer (advance k te)) (seq 0 (length (te_validators te))) ≡ₚ te_validators te.
Proof.
  intros Hi Hh. set (vs := te_validators te) in *. set (n := length vs).
  destruct (decide (vs = [])) as [E|Hne]; [unfold n; by rewrite E|].
  assert (0 < n)%nat as Hn by (unfold n; destruct vs; [done|simpl; lia]).
  pose proof (inv_height te Hi).
  assert (map (λ k, Proposer (advance k te)) (seq 0 n)
    = omap (λ i, vs !! i) (map (λ k, Z.to_nat ((te_height te + Z.of_nat k) mod Z.of_nat n)) (seq 0 n)))
    as ->.
  { assert (∀ l, Forall (λ k, k < n)%nat l →
      map (λ k, Proposer (advance k te)) l
      = omap (λ i, vs !! i) (map (λ k, Z.to_nat ((te_height te + Z.of_nat k) mod Z.of_nat n)) l)) as Hl.
    2:{ apply Hl, Forall_forall. intros k Hk%elem_of_seq. lia. }
    induction l as [|k l IH]; [done|]. intros [Hk Hl]%Forall_cons. simpl.
    destruct (advance_frame k te) as (Hk1 & Hk2 & Hk3); [done|unfold blen in *; fold n in Hh; lia|].
    pose proof (proposerLocked_height (advance k te) Hk1) as Hp.
    rewrite Hk2, Hk3 in Hp. fold vs in Hp. unfold blen in Hp. fold n in Hp.
    rewrite Hp by done. f_equal. by apply IH. }
  rewrite consecutive_mod by u64_lia. apply (reorder_Permutation (seq 0 n) vs). done.
Qed.

(** ** What finality requires *)

(** The accepted calls that move an engine towards a commit. *)
Inductive label := LPrevote | LPrecommit | LCommit (blockHash : string).

Definition label_of (te : TendermintEngine) (e : event) : list label :=
  match e with
  | EvAddVote v _ =>
      if (vote_Height v =? te_height te) && negb (blen (te_validators te) =? 0) then
        if bool_decide (vote_Type v = "prevote") then [LPrevote]
        else if bool_decide (vote_Type v = "precommit") then [LPrecommit]
        else []
      else []
  | EvCommit h _ => [LCommit h]
  | EvFinalizeBlock b _ => [LCommit (blk_BlockHash b)]
  | _ => []
  end.

(** The labels of an execution. *)
Fixpoint labels (te : TendermintEngine) (es : list event) : list label :=
  match es with
  | [] => []
  | e :: es => label_of te e ++ labels (exec te e) es
  end.

(** The labels that must have been seen at each step of the protocol. *)
Definition required (te : TendermintEngine) : list label :=
  if te_step te <=? 1 then []
  else if te_step te =? 2 then [LPrevote]
  else if te_step te =? 3 then [LPrevote; LPrecommit]
  else [LPrevote; LPrecommit; LCommit (te_lockedBlock te)].

Lemma required_low te : te_step te ≤ 1 → required te = [].
Proof. intros. unfold required. by rewrite (proj2 (Z.leb_le _ _)) by done. Qed.

Lemma required_same te te' :
  te_step te' = te_step te → te_lockedBlock te' = te_lockedBlock te → required te' = required te.
Proof. intros E1 E2. unfold required. by rewrite E1, E2. Qed.

Lemma required_step te :
  (te_step te = 2 → required te = [LPrevote]) ∧
  (te_step te = 3 → required te = [LPrevote; LPrecommit]) ∧
  (te_step te = 4 → required te = [LPrevote; LPrecommit; LCommit (te_lockedBlock te)]).
Proof. unfold required. split_and!; intros ->; done. Qed.

(** One call adds at most the label it produces to what is required. *)
Section exec_required.
Context (te : TendermintEngine) (seen : list label).
Hypothesis Hr : required te `sublist_of` seen.

Lemma required_unchanged te' ls :
  te_step te' = te_step te → te_lockedBlock te' = te_lockedBlock te →
  required te' `sublist_of` seen ++ ls.
Proof.
  intros E1 E2. rewrite (required_same te te') by done.
  etrans; [exact Hr|]. by apply sublist_inserts_r.
Qed.

Lemma required_reset te' ls : te_step te' ≤ 1 → required te' `sublist_of` seen ++ ls.
Proof. intros Hs. rewrite required_low by done. apply sublist_nil_l. Qed.

Lemma required_advance te' ls :
  required te' = required te ++ ls → required te' `sublist_of` seen ++ ls.
Proof. intros ->. by apply sublist_app. Qed.

Lemma AddVote_required v now :
  required (AddVote te v now).2 `sublist_of` seen ++ label_of te (EvAddVote v now).
Proof.
  unfold AddVote. cbn [label_of].
  destruct (vote_Height v =? te_height te); [|by apply required_unchanged].
  destruct (blen (te_validators te) =? 0); [by apply required_unchanged|]. cbn.
  case_bool_decide; [|case_bool_decide; [|by apply required_unchanged]].
  - destruct (Z.eqb_spec (te_step te) 1) as [E|]; [|by apply required_unchanged].
    apply required_advance. by rewrite (required_low te) by lia.
  - destruct (Z.eqb_spec (te_step te) 2) as [E|]; [|by apply required_unchanged].
    apply required_advance. by rewrite (proj1 (required_step te)) by done.
Qed.

Lemma Commit_required te' h :
  te_step te = 3 → te_step te' = 4 → te_lockedBlock te' = h →
  required te' `sublist_of` seen ++ [LCommit h].
Proof.
  intros E E' <-. apply required_advance.
  destruct (required_step te') as (_ & _ & E4). rewrite (E4 E').
  destruct (required_step te) as (_ & E3 & _). by rewrite (E3 E).
Qed.

Lemma exec_required e : required (exec te e) `sublist_of` seen ++ label_of te e.
Proof.
  destruct e; cbn [exec label_of].
  - apply AddVote_required.
  - apply required_reset. unfold AdvanceRound.
    match goal with |- context [selectProposerLocked ?x] =>
      destruct (selectProposerLocked_frame x) as (_ & -> & _) end. cbn. lia.
  - apply required_reset. destruct (AdvanceHeight_frame te) as (_ & _ & -> & _). lia.
  - unfold ProcessProposal. destruct (Z.eqb_spec (te_step te) 0); cbn -[required];
      [by apply required_reset|by apply required_unchanged].
  - unfold Commit. destruct (Z.eqb_spec (te_step te) 3); cbn -[required];
      [by apply Commit_required|by apply required_unchanged].
  - unfold FinalizeBlock. destruct (Z.eqb_spec (te_step te) 3); cbn -[required];
      [by apply Commit_required|by apply required_unchanged].
  - by apply required_unchanged.
  - destruct (selectProposerLocked_frame (te <| te_validators := validators |>))
      as (_ & E1 & _ & E2).
    by apply required_unchanged.
Qed.
End exec_required.

Lemma run_required te es seen :
  required te `sublist_of` seen → required (run te es) `sublist_of` seen ++ labels te es.
Proof.
  revert te seen. induction es as [|e es IH]; intros te seen Hr; cbn.
  { by rewrite app_nil_r. }
  rewrite app_assoc. apply IH, exec_required, Hr.
Qed.

(** ** Properties *)

(** In every reachable engine the step is one of the five, and
    with a non-empty validator set the proposer is the validator at the
    height modulo their number. *)
Theorem reachable_proposer te :
  reachable te →
  0 ≤ te_step te ≤ 4 ∧
  (te_validators te ≠ [] →
   te_validators te !! Z.to_nat (te_height te mod blen (te_validators te)) = Some (Proposer te)).
Proof.
  intros Hi%reachable_inv. split; [apply Hi|]. by apply proposerLocked_height.
Qed.

(** Over as many consecutive heights as there are validators,
    each validator is the proposer once: the proposers are a permutation of
    the validator set. *)
Theorem proposers_rotate te :
  reachable te → te_height te + blen (te_validators te) < max_u64 →
  map (λ k, Proposer (advance k te)) (seq 0 (length (te_validators te))) ≡ₚ te_validators te.
Proof. intros Hi%reachable_inv. by apply proposer_rotation. Qed.

(** An engine that starts without votes reports a block as final
    only after it accepted a prevote, then a precommit, then the commit of
    that very block, in this order. *)
Theorem finalized_needs_votes te es blockHash :
  te_step te ≤ 1 → te_IsFinalized (run te es) blockHash = true →
  [LPrevote; LPrecommit; LCommit blockHash] `sublist_of` labels te es.
Proof.
  intros Hs [E4%Z.eqb_eq <-%bool_decide_eq_true_1]%andb_prop.
  pose proof (run_required te es []) as Hr. rewrite (required_low te) in Hr by done.
  destruct (required_step (run te es)) as (_ & _ & Er).
  rewrite (Er E4) in Hr. by apply Hr.
Qed.

(** One proposal, one prevote and one precommit of anybody, and the decision. *)
Definition decide_on (te : TendermintEngine) (voter : string) (block : Block) (now : Z) : list event :=
  let vote kind := mkVote voter "" (blk_BlockHash block) (te_height te) 0 kind now [] in
  [EvProcessProposal block voter now; EvAddVote (vote "prevote") now; EvAddVote (vote "precommit") now;
   EvFinalizeBlock block now].

Lemma decide_on_run te voter block now :
  te_step te = 0 → te_validators te ≠ [] →
  let te' := run te (decide_on te voter block now) in
  te_IsFinalized te' (blk_BlockHash block) = true ∧ te_height te' = te_height te ∧
  te_validators te' = te_validators te.
Proof.
  intros Hs Hv. assert ((blen (te_validators te) =? 0) = false) as Hb.
  { apply Z.eqb_neq. unfold blen. destruct (te_validators te); [done|]. cbn. lia. }
  assert (∀ t kind, te_height t = te_height te → te_validators t = te_validators te →
    AddVote t (mkVote voter "" (blk_BlockHash block) (te_height te) 0 kind now []) now =
    (Ok tt, if bool_decide (kind = "prevote") then (if te_step t =? 1 then t <| te_step := 2 |> else t)
      else if bool_decide (kind = "precommit") then
        (if te_step t =? 2 then t <| te_step := 3 |> <| te_committedRound := u64 0 |> <| te_lastBlockTime := now |>
         else t) else t)) as Hvote.
  { intros t kind Eh Ev. unfold AddVote. cbn [vote_Height vote_Type vote_Round].
    by rewrite Eh, Ev, Z.eqb_refl, Hb. }
  unfold run, decide_on. cbn [foldl exec]. unfold ProcessProposal. rewrite Hs. cbn [Z.eqb negb snd].
  rewrite (Hvote (te <| te_step := 1 |>)) by done. cbn [snd]. rewrite bool_decide_true by done.
  change (te_step (te <| te_step := 1 |>) =? 1) with true. cbv iota.
  rewrite Hvote by done. cbn [snd]. rewrite bool_decide_false, bool_decide_true by done.
  match goal with |- context [te_step ?t =? 2] => change (te_step t =? 2) with true; cbv iota end.
  unfold FinalizeBlock, te_IsFinalized. cbn. by rewrite bool_decide_true.
Qed.

(** C37. A vote is neither counted nor checked: whoever sends one prevote and one
    precommit has the engine finalize a block, and after the next round the same
    engine finalizes any other block at the same height. *)
Theorem conflicting_finality te voter b1 b2 now :
  te_step te = 0 → te_validators te ≠ [] →
  let te1 := run te (decide_on te voter b1 now) in
  let te2 := run te1 (EvAdvanceRound :: decide_on te voter b2 now) in
  te_IsFinalized te1 (blk_BlockHash b1) = true ∧ te_IsFinalized te2 (blk_BlockHash b2) = true ∧
  te_height te1 = te_height te ∧ te_height te2 = te_height te.
Proof.
  intros Hs Hv te1 te2. destruct (decide_on_run te voter b1 now Hs Hv) as (H1 & H2 & H3).
  fold te1 in H1, H2, H3. set (te1' := AdvanceRound te1).
  assert (te_step te1' = 0 ∧ te_validators te1' = te_validators te ∧ te_height te1' = te_height te) as (E1 & E2 & E3).
  { unfold te1', AdvanceRound.
    destruct (selectProposerLocked_frame (te1 <| te_round ::= λ r, r +! 1 |> <| te_step := 0 |>)) as (F1 & F2 & F3 & _).
    rewrite F1, F2, F3. done. }
  assert (te2 = run te1' (decide_on te1' voter b2 now)) as ->.
  { unfold te2, decide_on. rewrite E3. reflexivity. }
  destruct (decide_on_run te1' voter b2 now) as (G1 & G2 & _); [done|by rewrite E2|].
  split_and!; [done|done|done|]. by rewrite G2.
Qed.

Definition demo_engine : TendermintEngine := NewTendermintEngine ["v1"; "v2"; "v3"; "v4"] 0.

Lemma demo_reachable : reachable demo_engine.
Proof. exists ["v1"; "v2"; "v3"; "v4"], 0. apply rtc_refl. Qed.

Definition demo_engine2 : TendermintEngine := exec demo_engine EvAdvanceHeight.

Lemma demo_reachable2 : reachable demo_engine2.
Proof. exists ["v1"; "v2"; "v3"; "v4"], 0. apply rtc_once. apply step_exec. Qed.

Lemma reachable_proposer_witness :
  0 ≤ te_step demo_engine2 ≤ 4 ∧
  (te_validators demo_engine2 ≠ [] →
   te_validators demo_engine2 !! Z.to_nat (te_height demo_engine2 mod blen (te_validators demo_engine2))
   = Some (Proposer demo_engine2)).
Proof. apply (reachable_proposer demo_engine2). exact demo_reachable2. Defined.

Lemma proposers_rotate_witness :
  map (λ k, Proposer (advance k demo_engine)) (seq 0 (length (te_validators demo_engine)))
  ≡ₚ te_validators demo_engine.
Proof.
  apply (proposers_rotate demo_engine); [exact demo_reachable|].
  change (1 + 4 < 18446744073709551616). lia.
Defined.

Definition stranger_vote (kind : string) : Vote := mkVote "stranger" "" "" 1 0 kind 0 [].

(** A proposal, two votes and a commit: one vote of each kind, from an
    address outside the validator set, is a quorum for this engine. *)
Definition demo_events : list event :=
  [EvProcessProposal (mkBlock 1 "" "" "" 0 [] 0 "h1" "") "v1" 0;
   EvAddVote (stranger_vote "prevote") 0; EvAddVote (stranger_vote "precommit") 0; EvCommit "h1" 0].

Lemma finalized_needs_votes_witness :
  [LPrevote; LPrecommit; LCommit "h1"] `sublist_of` labels demo_engine demo_events.
Proof. apply finalized_needs_votes; vm_compute; [congruence|reflexivity]. Defined.

Example strangers_finalize :
  te_IsFinalized (run demo_engine demo_events) "h1" = true ∧ "stranger" ∉ te_validators demo_engine.
Proof. split; [vm_compute; reflexivity|]. eapply bool_decide_eq_true_1. vm_compute. reflexivity. Qed.

Lemma conflicting_finality_witness :
  let te := NewTendermintEngine ["alice"; "bob"] 0 in
  let b1 := mkBlock 1 "" "" "" 0 [] 0 "h1" "" in let b2 := mkBlock 1 "" "" "" 0 [] 0 "h2" "" in
  let te1 := run te (decide_on te "mallory" b1 5) in
  te_IsFinalized te1 "h1" = true ∧
  te_IsFinalized (run te1 (EvAdvanceRound :: decide_on te "mallory" b2 5)) "h2" = true ∧
  te_height te1 = te_height te ∧
  te_height (run te1 (EvAdvanceRound :: decide_on te "mallory" b2 5)) = te_height te.
Proof.
  apply (conflicting_finality (NewTendermintEngine ["alice"; "bob"] 0) "mallory"
    (mkBlock 1 "" "" "" 0 [] 0 "h1" "") (mkBlock 1 "" "" "" 0 [] 0 "h2" "") 5); [reflexivity|discriminate].
Defined.
