(* ===== verification/State.v ===== *)
(** * The chain state (go-chain/blockchain/blockchain.go)

    The [Blockchain] struct as one record, the audit trail, the accounts it
    is seeded with, the genesis block, and the copy on disk.

    Two fields are not of the source: [bc_ticks] counts what was read from the
    runtime (clock readings, unordered traversals, file writes), so that the
    [k]-th reading is [clock k]; [bc_disk] is the file [chain.json], kept as
    the [nodeState] value that is read back from its text ([JsonText]).  The ledger maps an
    address to the account its pointer refers to: an account is only ever
    reached through the map, so an update through the pointer is an update of
    the entry.  Methods hold the lock for their whole body, so each is one
    function on states. *)

From S2P Require Import Prelude Runtime Text Sha256 Domain Json JsonText Tendermint.
Open Scope Z_scope.
Open Scope go_scope.

(** ** Records *)

Record serverMetrics := mkserverMetrics {
  sm_requestCount : Z; sm_errorCount : Z; sm_lastRequestAt : Z; sm_blocksMined : Z;
  sm_peersSeen : Z; sm_txAccepted : Z; sm_txRejected : Z }.

#[export] Instance serverMetrics_rebuild : Rebuild serverMetrics := λ r,
  mkserverMetrics (sm_requestCount r) (sm_errorCount r) (sm_lastRequestAt r)
  (sm_blocksMined r) (sm_peersSeen r) (sm_txAccepted r) (sm_txRejected r).

(** [nodeState], what [SaveToDisk] writes. *)
Record nodeState := mknodeState {
  ns_Chain : list Block; ns_Pending : list Transaction; ns_Ledger : gmap string Account;
  ns_Registry : gmap string ModelRef; ns_Consensus : string; ns_Authorities : list string;
  ns_TokenSupply : Z; ns_Escrows : gmap string Escrow;
  ns_Proposals : gmap string GovernanceProposal;
  ns_Agreements : gmap string ServiceAgreement; ns_UsageMeters : gmap string UsageMeter;
  ns_UsedNonces : gmap string (gset Z); ns_SeenTxIDs : gset string;
  ns_AuditTrail : list AuditEntry; ns_NextNonce : gmap string Z;
  ns_FinalizedBlocks : gset Z; ns_LastFinalized : Z; ns_AgentTxCount : Z;
  ns_MintPaused : bool; ns_MintPauseUntil : Z;
  ns_UniversalWallets : gmap string UniversalWallet;
  ns_FinalitySignatures : gmap Z (list FinalityVoteSignature);
  ns_PendingReversals : gmap string PendingReversal; ns_IrreversibleTxs : gset string }.

#[export] Instance nodeState_rebuild : Rebuild nodeState := λ r,
  mknodeState (ns_Chain r) (ns_Pending r) (ns_Ledger r) (ns_Registry r) (ns_Consensus r)
  (ns_Authorities r) (ns_TokenSupply r) (ns_Escrows r) (ns_Proposals r) (ns_Agreements r)
  (ns_UsageMeters r) (ns_UsedNonces r) (ns_SeenTxIDs r) (ns_AuditTrail r) (ns_NextNonce r)
  (ns_FinalizedBlocks r) (ns_LastFinalized r) (ns_AgentTxCount r) (ns_MintPaused r)
  (ns_MintPauseUntil r) (ns_UniversalWallets r) (ns_FinalitySignatures r)
  (ns_PendingReversals r) (ns_IrreversibleTxs r).

(** The state that is read back from the file. *)
#[export, refine] Instance json_nodeState : JsonData nodeState :=
  {| json_value s := mknodeState (json_value (ns_Chain s)) (json_value (ns_Pending s)) (json_value (ns_Ledger s))
       (json_value (ns_Registry s)) (json_value (ns_Consensus s)) (json_value (ns_Authorities s))
       (ns_TokenSupply s) (json_value (ns_Escrows s)) (json_value (ns_Proposals s)) (json_value
       (ns_Agreements s)) (json_value (ns_UsageMeters s)) (json_value (ns_UsedNonces s)) (json_value
       (ns_SeenTxIDs s)) (json_value (ns_AuditTrail s)) (json_value (ns_NextNonce s))
       (ns_FinalizedBlocks s) (ns_LastFinalized s) (ns_AgentTxCount s) (ns_MintPaused s)
       (ns_MintPauseUntil s) (json_value (ns_UniversalWallets s)) (json_value (ns_FinalitySignatures
       s)) (json_value (ns_PendingReversals s)) (json_value (ns_IrreversibleTxs s));
     json_strings s := json_strings (ns_Chain s) ++ json_strings (ns_Pending s) ++ json_strings (ns_Ledger s) ++
       json_strings (ns_Registry s) ++ json_strings (ns_Consensus s) ++ json_strings (ns_Authorities
       s) ++ json_strings (ns_Escrows s) ++ json_strings (ns_Proposals s) ++ json_strings
       (ns_Agreements s) ++ json_strings (ns_UsageMeters s) ++ json_strings (ns_UsedNonces s) ++
       json_strings (ns_SeenTxIDs s) ++ json_strings (ns_AuditTrail s) ++ json_strings (ns_NextNonce
       s) ++ json_strings (ns_UniversalWallets s) ++ json_strings (ns_FinalitySignatures s) ++
       json_strings (ns_PendingReversals s) ++ json_strings (ns_IrreversibleTxs s) |}.
Proof. json_fields. Defined.

Record Blockchain := mkBlockchain {
  bc_Chain : list Block; bc_Pending : list Transaction; bc_Ledger : gmap string Account;
  bc_Registry : gmap string ModelRef; bc_Consensus : ConsensusType;
  bc_Authorities : list string; bc_validatorIdx : Z; bc_DataDir : string;
  bc_TokenSupply : Z; bc_Escrows : gmap string Escrow;
  bc_Proposals : gmap string GovernanceProposal;
  bc_Agreements : gmap string ServiceAgreement; bc_UsageMeters : gmap string UsageMeter;
  bc_UsedNonces : gmap string (gset Z); bc_NextNonce : gmap string Z;
  bc_SeenTxIDs : gset string; bc_AuditTrail : list AuditEntry;
  bc_Wallets : gmap string ManagedWallet; bc_Validators : gmap string Validator;
  bc_GenesisHash : string; bc_ChainID : string; bc_BlockTime : Z; bc_Difficulty : Z;
  bc_FinalizedBlocks : gset Z; bc_LastFinalized : Z; bc_AgentTxCount : Z;
  bc_MintPaused : bool; bc_MintPauseUntil : Z; bc_FinalityVotes : gmap Z (gset string);
  bc_FinalitySignatures : gmap Z (list FinalityVoteSignature);
  bc_MinerStats : gmap string MinerStats;
  bc_UniversalWallets : gmap string UniversalWallet;
  bc_PendingReversals : gmap string PendingReversal; bc_IrreversibleTxs : gset string;
  bc_tendermintEngine : option TendermintEngine; bc_metrics : serverMetrics;
  bc_ticks : nat; bc_disk : option nodeState }.

#[export] Instance Blockchain_rebuild : Rebuild Blockchain := λ r,
  mkBlockchain (bc_Chain r) (bc_Pending r) (bc_Ledger r) (bc_Registry r) (bc_Consensus r)
  (bc_Authorities r) (bc_validatorIdx r) (bc_DataDir r) (bc_TokenSupply r) (bc_Escrows r)
  (bc_Proposals r) (bc_Agreements r) (bc_UsageMeters r) (bc_UsedNonces r) (bc_NextNonce r)
  (bc_SeenTxIDs r) (bc_AuditTrail r) (bc_Wallets r) (bc_Validators r) (bc_GenesisHash r)
  (bc_ChainID r) (bc_BlockTime r) (bc_Difficulty r) (bc_FinalizedBlocks r)
  (bc_LastFinalized r) (bc_AgentTxCount r) (bc_MintPaused r) (bc_MintPauseUntil r)
  (bc_FinalityVotes r) (bc_FinalitySignatures r) (bc_MinerStats r) (bc_UniversalWallets r)
  (bc_PendingReversals r) (bc_IrreversibleTxs r) (bc_tendermintEngine r) (bc_metrics r)
  (bc_ticks r) (bc_disk r).

Section state.
Context `{Runtime}.

(** ** Clock *)

Definition tick (bc : Blockchain) : Blockchain := bc <| bc_ticks ::= S |>.

(** [time.Now().UnixNano()] *)
Definition UnixNano (bc : Blockchain) : Z * Blockchain := (clock (bc_ticks bc), tick bc).

(** [time.Now().Unix()] *)
Definition Unix (bc : Blockchain) : Z * Blockchain :=
  (clock (bc_ticks bc) `div` 10 ^ 9, tick bc).

(** ** Audit trail *)

Definition appendAuditEntry (bc : Blockchain) (event actor details : string) : Blockchain :=
  let '(now, bc) := Unix bc in
  bc <| bc_AuditTrail ::= λ l, l ++ [mkAuditEntry now event actor details] |>.

(** ** Accounts *)

Definition addAccountLocked (bc : Blockchain) (address : string) (balance : Z) (isAgent : bool)
    : Blockchain :=
  let bc := bc <| bc_Ledger ::= <[address := mkAccount address balance 0 isAgent]> |> in
  appendAuditEntry bc "account_created" address
    ("balance=" +:+ FormatInt balance +:+ " agent=" +:+ FormatBool isAgent).

Definition AddAccount (bc : Blockchain) (address : string) (balance : Z) (isAgent : bool)
    : Blockchain :=
  addAccountLocked bc address balance isAgent.

(** [account.Balance += amount] and [account.Balance -= amount]. *)
Definition credit (amount : Z) (a : Account) : Account :=
  a <| acc_Balance ::= λ b, b +! amount |>.
Definition debit (amount : Z) (a : Account) : Account :=
  a <| acc_Balance ::= λ b, b -! amount |>.

(** [account.Balance -= stake; account.Staked += stake] *)
Definition lock_stake (stake : Z) (a : Account) : Account :=
  (debit stake a) <| acc_Staked ::= λ s, s +! stake |>.

(** The update of an account through its pointer. *)
Definition on_account (f : Account → Account) (address : string) (bc : Blockchain) : Blockchain :=
  bc <| bc_Ledger ::= alter f address |>.

Definition Stake (bc : Blockchain) (address : string) (amount : Z) : Blockchain :=
  match bc_Ledger bc !! address with
  | None => bc
  | Some account =>
      if acc_Balance account <? amount then bc else
      let bc := on_account (lock_stake amount) address bc in
      appendAuditEntry bc "stake" address ("amount=" +:+ FormatInt amount)
  end.

Definition AddAuthority (bc : Blockchain) (address : string) : Blockchain :=
  bc <| bc_Authorities ::= λ l, l ++ [address] |>.

Definition seedDemoState (bc : Blockchain) : Blockchain :=
  let bc := AddAccount bc "human1" 1000000 false in
  let bc := AddAccount bc "agentA" 100000 true in
  let bc := AddAccount bc "agentB" 50000 true in
  let bc := Stake bc "agentA" 10000 in
  AddAuthority bc "agentA".

(** ** Genesis *)

(** The JSON object of a Go map: its keys in sorted order. *)
Definition genesisPayload (bc : Blockchain) (timestamp : Z) : string :=
  json_object
    [str_field "chain_id" (bc_ChainID bc);
     str_field "consensus" (ConsensusName (bc_Consensus bc));
     int_field "initial_supply" (bc_TokenSupply bc);
     int_field "timestamp" timestamp].

Definition createGenesisBlock (bc : Blockchain) : Blockchain :=
  let '(t1, bc) := Unix bc in
  let genesisHash := sha_hex (bytes_of_string (genesisPayload bc t1)) in
  let '(t2, bc) := Unix bc in
  let genesis := mkBlock 0 "genesis" "" "0" t2 [] 0 genesisHash "" in
  bc <| bc_Chain ::= λ l, l ++ [genesis] |> <| bc_GenesisHash := blk_BlockHash genesis |>.

(** ** Disk *)

Definition to_nodeState (bc : Blockchain) : nodeState :=
  mknodeState (bc_Chain bc) (bc_Pending bc) (bc_Ledger bc) (bc_Registry bc)
    (ConsensusName (bc_Consensus bc)) (bc_Authorities bc) (bc_TokenSupply bc) (bc_Escrows bc)
    (bc_Proposals bc) (bc_Agreements bc) (bc_UsageMeters bc) (bc_UsedNonces bc)
    (bc_SeenTxIDs bc) (bc_AuditTrail bc) (bc_NextNonce bc) (bc_FinalizedBlocks bc)
    (bc_LastFinalized bc) (bc_AgentTxCount bc) (bc_MintPaused bc) (bc_MintPauseUntil bc)
    (bc_UniversalWallets bc) (bc_FinalitySignatures bc) (bc_PendingReversals bc)
    (bc_IrreversibleTxs bc).

(** [os.WriteFile] of the temporary file, then [os.Rename] over the old one:
    a failure of either leaves the old file. *)
Definition SaveToDisk (bc : Blockchain) : outcome unit * Blockchain :=
  let state := to_nodeState bc in
  let written := disk_write (bc_ticks bc) in
  let bc := tick bc in
  if negb written then (Err "write failed", bc) else
  let renamed := disk_write (bc_ticks bc) in
  let bc := tick bc in
  if negb renamed then (Err "rename failed", bc) else
  (Ok tt, bc <| bc_disk := Some (json_value state) |>).

(** [maxNonce] of one address. *)
Definition max_nonce (nonces : gset Z) : Z := set_fold Z.max 0 nonces.

(** The loop that rebuilds [NextNonce] from [UsedNonces]. *)
Definition rebuildNextNonce (used : gmap string (gset Z)) (next : gmap string Z) : gmap string Z :=
  map_fold (λ from nonces next,
    let maxNonce := max_nonce nonces in
    if 0 <? maxNonce then <[from := maxNonce +! 1]> next else next) next used.

Definition LoadFromDisk (bc : Blockchain) : outcome unit * Blockchain :=
  match bc_disk bc with
  | None => (Err "open chain.json: no such file", bc)
  | Some state =>
      let bc := bc
        <| bc_Chain := ns_Chain state |> <| bc_Pending := ns_Pending state |>
        <| bc_Ledger := ns_Ledger state |> <| bc_Registry := ns_Registry state |>
        <| bc_Authorities := ns_Authorities state |> <| bc_TokenSupply := ns_TokenSupply state |>
        <| bc_Escrows := ns_Escrows state |> <| bc_Proposals := ns_Proposals state |>
        <| bc_Agreements := ns_Agreements state |> <| bc_UsageMeters := ns_UsageMeters state |>
        <| bc_UsedNonces := ns_UsedNonces state |> <| bc_SeenTxIDs := ns_SeenTxIDs state |>
        <| bc_AuditTrail := ns_AuditTrail state |> <| bc_NextNonce := ns_NextNonce state |>
        <| bc_FinalizedBlocks := ns_FinalizedBlocks state |>
        <| bc_LastFinalized := ns_LastFinalized state |>
        <| bc_AgentTxCount := ns_AgentTxCount state |> <| bc_MintPaused := ns_MintPaused state |>
        <| bc_MintPauseUntil := ns_MintPauseUntil state |>
        <| bc_UniversalWallets := ns_UniversalWallets state |>
        <| bc_FinalitySignatures := ns_FinalitySignatures state |>
        <| bc_PendingReversals := ns_PendingReversals state |>
        <| bc_IrreversibleTxs := ns_IrreversibleTxs state |> in
      let bc := bc <| bc_NextNonce ::= rebuildNextNonce (bc_UsedNonces bc) |> in
      let bc := match bc_Chain bc with
                | [] => bc
                | b :: _ => bc <| bc_GenesisHash := blk_BlockHash b |>
                end in
      let bc := bc <| bc_Consensus := if bool_decide (ns_Consensus state = "poa")
                                      then ProofOfAuthority else ProofOfStake |> in
      let bc := match bc_Chain bc with [] => createGenesisBlock bc | _ => bc end in
      (Ok tt, bc)
  end.

(** ** Construction *)

Definition new_metrics : serverMetrics := mkserverMetrics 0 0 0 0 0 0 0.

(** The literal of [NewBlockchain], before the genesis block. *)
Definition empty_blockchain (consensus : ConsensusType) (dataDir chainID : string)
    (file : option nodeState) : Blockchain :=
  mkBlockchain [] [] ∅ ∅ consensus [] 0 dataDir 1000000000 ∅ ∅ ∅ ∅ ∅ ∅ ∅ [] ∅ ∅ "" chainID
    (5 * 10 ^ 9) 16 ∅ 0 0 false 0 ∅ ∅ ∅ ∅ ∅ ∅ None new_metrics 0 file.

(** [file] is what [chain.json] holds when the node starts. *)
Definition NewBlockchain (consensus : ConsensusType) (dataDir chainID : string)
    (file : option nodeState) : Blockchain :=
  let bc := createGenesisBlock (empty_blockchain consensus dataDir chainID file) in
  match LoadFromDisk bc with
  | (Ok _, bc) => bc
  | (_, bc) => (SaveToDisk (seedDemoState bc)).2
  end.

(** ** Metrics *)

Definition on_metrics (f : serverMetrics → serverMetrics) (bc : Blockchain) : Blockchain :=
  bc <| bc_metrics ::= f |>.

Definition RecordRequest (bc : Blockchain) (ok : bool) : Blockchain :=
  let bc := on_metrics (λ m, m <| sm_requestCount ::= λ n, i64 (n + 1) |>) bc in
  let bc := if ok then bc else on_metrics (λ m, m <| sm_errorCount ::= λ n, i64 (n + 1) |>) bc in
  let '(now, bc) := UnixNano bc in
  on_metrics (λ m, m <| sm_lastRequestAt := now |>) bc.
End state.
