(* ===== verification/Accounts.v ===== *)
(** * Accounts, models, escrows, governance and the supply
    (go-chain/blockchain/blockchain.go)

    The methods of [Blockchain] that change the ledger, the model registry,
    the wallet directory, escrows, proposals, agreements and usage meters
    outside of blocks.  The methods [RegisterModel], [UpdateModel] and
    [PurchaseApiKey] carry the names of transaction types in the source and a
    [bc_] prefix here.

    [wf_ledger] is the type invariant of the ledger (every amount is a
    [uint64]) and [total_holdings] the sum of all balances and stakes, the
    quantity the conservation theorems speak of. *)

From S2P Require Import Prelude Runtime Text Sha256 Domain Json Tendermint State.
Open Scope Z_scope.
Open Scope go_scope.

Section accounts.
Context `{Runtime}.

(** ** Funding and wallets *)

Definition FundAccount (bc : Blockchain) (address : string) (amount : Z) : Blockchain :=
  let bc :=
    match bc_Ledger bc !! address with
    | None =>
        let bc := bc <| bc_Ledger ::= <[address := mkAccount address amount 0 false]> |> in
        appendAuditEntry bc "account_created" address
          ("balance=" +:+ FormatInt amount +:+ " funded=true")
    | Some _ =>
        let bc := on_account (credit amount) address bc in
        appendAuditEntry bc "account_funded" address ("amount=" +:+ FormatInt amount)
    end in
  let bc := bc <| bc_TokenSupply ::= λ s, s +! amount |> in
  (SaveToDisk bc).2.

Definition CreateManagedWallet `{Ed25519} (bc : Blockchain) (label : string) (isAgent : bool)
    : outcome ManagedWallet * Blockchain :=
  let wallet := NewWallet (bc_ticks bc) in
  let bc := tick bc in
  let address := WalletAddress wallet in
  let bc := addAccountLocked bc address 1000 isAgent in
  let '(now, bc) := UnixNano bc in
  let managed := mkManagedWallet ("wallet-" +:+ FormatInt now) address
                   (EncodeToString (w_PublicKey wallet)) label isAgent in
  let bc := bc <| bc_Wallets ::= <[mw_ID managed := managed]> |> in
  let bc := appendAuditEntry bc "wallet_created" address
              ("label=" +:+ label +:+ " agent=" +:+ FormatBool isAgent) in
  (Ok managed, bc).

(** The loop over the directory: the first clash it meets. *)
Fixpoint directory_clash (name address : string) (l : list (string * UniversalWallet))
    : option string :=
  match l with
  | [] => None
  | (_, uw) :: l =>
      if bool_decide (uw_Name uw = name) then Some "name taken"
      else if bool_decide (uw_Address uw = address) then Some "address registered"
      else directory_clash name address l
  end.

Definition RegisterUniversalWallet (bc : Blockchain) (name address label currency : string)
    : outcome UniversalWallet * Blockchain :=
  let name := ToLower (TrimSpace name) in
  if bool_decide (name = "") || bool_decide (address = "") then
    (Err "name and address required", bc)
  else if 1024 <? Z.of_nat (size (bc_UniversalWallets bc)) then (Err "directory full", bc)
  else
    let clash := directory_clash name address (range_map (bc_ticks bc) (bc_UniversalWallets bc)) in
    let bc := tick bc in
    match clash with
    | Some e => (Err e, bc)
    | None =>
        let entry := mkUniversalWallet name address label currency in
        let bc := bc <| bc_UniversalWallets ::= <[name := entry]> |> in
        (Ok entry, appendAuditEntry bc "universal_wallet_registered" address ("name=" +:+ name))
    end.

Definition LookupWallet (bc : Blockchain) (name : string) : outcome UniversalWallet :=
  match bc_UniversalWallets bc !! ToLower (TrimSpace name) with
  | None => Err "wallet not found"
  | Some uw => Ok uw
  end.

Definition TailHash (bc : Blockchain) : string :=
  match last (bc_Chain bc) with
  | None => "0"
  | Some b => blk_BlockHash b
  end.

(** ** Slashing, rewards, burning *)

Definition slashLocked (bc : Blockchain) (address : string) (amount : Z) : Blockchain :=
  match bc_Ledger bc !! address with
  | None => bc
  | Some account =>
      if acc_Staked account <? amount then bc else
      let penalty := (amount *! SlashPercent) `div` 100 in
      let penalty := if penalty =? 0 then 1 else penalty in
      let bc := on_account (λ a, debit penalty (a <| acc_Staked ::= λ s, s -! amount |>)) address bc in
      appendAuditEntry bc "slash" address
        ("amount=" +:+ FormatInt amount +:+ " penalty=" +:+ FormatInt penalty)
  end.

Definition Slash (bc : Blockchain) (address : string) (amount : Z) : Blockchain :=
  slashLocked bc address amount.

Definition MarkIrreversible (bc : Blockchain) (txID : string) : Blockchain :=
  bc <| bc_IrreversibleTxs ::= union {[txID]} |>.

(** One round of the loop of [DistributeRewards]. *)
Definition reward_account (bc : Blockchain) (entry : string * Account) : Blockchain :=
  let '(address, account) := entry in
  if 0 <? acc_Staked account then
    let reward := (acc_Staked account *! RewardRatePercent) `div` 100 in
    let bc := on_account (credit reward) address bc in
    bc <| bc_TokenSupply ::= λ s, s +! reward |>
  else bc.

Definition DistributeRewards (bc : Blockchain) : Blockchain :=
  let entries := range_map (bc_ticks bc) (bc_Ledger bc) in
  foldl reward_account (tick bc) entries.

Definition Burn (bc : Blockchain) (amount : Z) : Blockchain :=
  let amount := if bc_TokenSupply bc <? amount then bc_TokenSupply bc else amount in
  bc <| bc_TokenSupply ::= λ s, s -! amount |>.

Definition treasuryBuybackLocked (bc : Blockchain) : Blockchain :=
  if bc_TokenSupply bc <=? 0 then bc else
  match bc_Ledger bc !! CommunityFundAddress with
  | None => bc
  | Some cfAcct =>
      if acc_Balance cfAcct =? 0 then bc else
      let burn := acc_Balance cfAcct `div` 10 in
      let cap := bc_TokenSupply bc `div` 100 in
      let burn := if cap <? burn then cap else burn in
      if 0 <? burn then
        let bc := on_account (debit burn) CommunityFundAddress bc in
        let bc := bc <| bc_TokenSupply ::= λ s, s -! burn |> in
        appendAuditEntry bc "treasury_buyback" CommunityFundAddress ("amount=" +:+ FormatInt burn)
      else bc
  end.

(** ** Models *)

Definition model_cid (id owner version : string) : string :=
  id +:+ ":" +:+ owner +:+ ":" +:+ version.

Definition count_agent_tx (bc : Blockchain) : Blockchain :=
  bc <| bc_AgentTxCount ::= λ n, n +! 1 |>.

(** The [metadata] argument of the source is not used by its body. *)
Definition bc_RegisterModel (bc : Blockchain) (owner id version metadata : string)
    (pricePerCall : Z) (active : bool) : Blockchain :=
  match bc_Ledger bc !! owner with
  | None => bc
  | Some account =>
      if acc_Balance account <? AIModelStake then bc else
      let bc := on_account (lock_stake AIModelStake) owner bc in
      let cid := model_cid id owner version in
      let bc := bc <| bc_Registry ::= <[id := mkModelRef id owner cid active pricePerCall]> |> in
      let bc := appendAuditEntry bc "model_registered" owner
        ("model_id=" +:+ id +:+ " cid=" +:+ cid +:+ " price=" +:+ FormatInt pricePerCall +:+
         " stake=" +:+ FormatInt AIModelStake) in
      count_agent_tx bc
  end.

Definition bc_UpdateModel (bc : Blockchain) (owner id version metadata : string)
    (pricePerCall : Z) : Blockchain :=
  match bc_Registry bc !! id with
  | None => bc
  | Some entry =>
      match bc_Ledger bc !! owner with
      | None => bc
      | Some account =>
          if acc_Staked account <? AIModelStake then bc else
          let cid := model_cid id owner version in
          let entry := entry <| mdl_CID := cid |> <| mdl_PricePerCall := pricePerCall |> in
          let bc := bc <| bc_Registry ::= <[id := entry]> |> in
          let bc := appendAuditEntry bc "model_updated" owner
            ("model_id=" +:+ id +:+ " cid=" +:+ cid +:+ " price=" +:+ FormatInt pricePerCall) in
          count_agent_tx bc
      end
  end.

(** [sender.Balance -= amount; receiver.Balance += amount]: when both are the
    same account the two updates fall on the same entry. *)
Definition move (from to : string) (amount : Z) (bc : Blockchain) : Blockchain :=
  on_account (credit amount) to (on_account (debit amount) from bc).

(** The test both transfers make before they move an amount. *)
Definition can_pay (bc : Blockchain) (from to : string) (amount : Z) : bool :=
  match bc_Ledger bc !! from, bc_Ledger bc !! to with
  | Some sender, Some _ => amount <=? acc_Balance sender
  | _, _ => false
  end.

Definition bc_PurchaseApiKey (bc : Blockchain) (buyer modelID : string) (amount : Z) : Blockchain :=
  match bc_Registry bc !! modelID with
  | None => bc
  | Some entry =>
      if can_pay bc buyer (mdl_Owner entry) amount then
        let bc := move buyer (mdl_Owner entry) amount bc in
        let bc := appendAuditEntry bc "api_key_purchased" buyer
          ("model_id=" +:+ modelID +:+ " amount=" +:+ FormatInt amount) in
        count_agent_tx bc
      else bc
  end.

(** ** Escrows, proposals, agreements *)

Definition CreateEscrow (bc : Blockchain) (from to : string) (amount : Z) (serviceID : string)
    : outcome Escrow * Blockchain :=
  match bc_Ledger bc !! from with
  | None => (Err "insufficient funds", bc)
  | Some fromAccount =>
      if acc_Balance fromAccount <? amount then (Err "insufficient funds", bc) else
      let bc := on_account (debit amount) from bc in
      let '(now, bc) := UnixNano bc in
      let id := "escrow-" +:+ FormatInt now in
      let escrow := mkEscrow id from to amount serviceID "active" true in
      let bc := bc <| bc_Escrows ::= <[id := escrow]> |> in
      let bc := bc <| bc_IrreversibleTxs ::= union {[id]} |> in
      let bc := appendAuditEntry bc "escrow_created" from
        ("to=" +:+ to +:+ " amount=" +:+ FormatInt amount +:+ " service_id=" +:+ serviceID +:+
         " irreversible=true") in
      (Ok escrow, bc)
  end.

Definition CreateProposal (bc : Blockchain) (title description : string)
    : GovernanceProposal * Blockchain :=
  let '(now, bc) := UnixNano bc in
  let id := "proposal-" +:+ FormatInt now in
  let proposal := mkGovernanceProposal id title description ∅ "open" in
  let bc := bc <| bc_Proposals ::= <[id := proposal]> |> in
  let bc := appendAuditEntry bc "proposal_created" "governance"
              ("id=" +:+ id +:+ " title=" +:+ title) in
  (proposal, bc).

Definition VoteProposal (bc : Blockchain) (id voter : string) : Blockchain :=
  match bc_Proposals bc !! id with
  | None => bc
  | Some proposal =>
      if bool_decide (prop_ID proposal = "") then bc else
      let proposal := proposal <| prop_Votes ::= <[voter := true]> |> in
      let bc := bc <| bc_Proposals ::= <[id := proposal]> |> in
      appendAuditEntry bc "proposal_voted" voter ("proposal_id=" +:+ id)
  end.

Definition CreateServiceAgreement (bc : Blockchain) (provider consumer modelID : string)
    (pricePerCall maxCalls : Z) : outcome ServiceAgreement * Blockchain :=
  match bc_Agreements bc !! modelID with
  | Some _ => (Err "agreement already exists", bc)
  | None =>
      let '(now, bc) := UnixNano bc in
      let agreement := mkServiceAgreement ("agreement-" +:+ FormatInt now) provider consumer
                         modelID pricePerCall maxCalls "active" in
      (Ok agreement, bc <| bc_Agreements ::= <[agr_ID agreement := agreement]> |>)
  end.

Definition RecordUsage (bc : Blockchain) (agreementID : string) (usageCount : Z)
    : outcome UsageMeter * Blockchain :=
  match bc_Agreements bc !! agreementID with
  | None => (Err "agreement not found", bc)
  | Some agreement =>
      let bc :=
        if (0 <? agr_MaxCalls agreement) && (agr_MaxCalls agreement <? usageCount) then
          bc <| bc_Agreements ::= <[agreementID := agreement <| agr_Status := "over_limit" |>]> |>
        else bc in
      let meter := default zero_UsageMeter (bc_UsageMeters bc !! agreementID) in
      let meter := meter <| met_AgreementID := agreementID |>
                         <| met_UsageCount ::= λ n, n +! usageCount |>
                         <| met_TotalCost ::= λ c, c +! (usageCount *! agr_PricePerCall agreement) |> in
      (Ok meter, bc <| bc_UsageMeters ::= <[agreementID := meter]> |>)
  end.

(** ** Validators *)

(** A month in seconds, as the source writes it. *)
Definition month_seconds : Z := 30 * 24 * 60 * 60.

Definition RegisterValidator (bc : Blockchain) (address : string) (stake : Z) (pubKey : string)
    : outcome unit * Blockchain :=
  let refused := Err "insufficient funds or stake below minimum" in
  match bc_Ledger bc !! address with
  | None => (refused, bc)
  | Some account =>
      if (acc_Balance account <? stake) || (stake <? MinStake) then (refused, bc) else
      let bc := on_account (lock_stake stake) address bc in
      let '(joined, bc) := Unix bc in
      let '(rotated, bc) := Unix bc in
      let '(now, bc) := Unix bc in
      let v := mkValidator pubKey address stake true joined 100 0 rotated
                 (i64 (now + month_seconds)) in
      let bc := bc <| bc_Validators ::= <[address := v]> |> in
      let bc := appendAuditEntry bc "validator_registered" address ("stake=" +:+ FormatInt stake) in
      match bc_tendermintEngine bc with
      | None => (Ok tt, bc)
      | Some te =>
          let vals := map fst (range_map (bc_ticks bc) (bc_Validators bc)) in
          let bc := tick bc in
          (Ok tt, bc <| bc_tendermintEngine := Some (UpdateValidatorSet te vals) |>)
      end
  end.

Definition isAuthority (bc : Blockchain) (address : string) : bool :=
  existsb (λ a, bool_decide (a = address)) (bc_Authorities bc).

(** [v.Active && v.Stake > 0] *)
Definition staked_validator (v : Validator) : bool := val_Active v && (0 <? val_Stake v).

Definition activeValidatorCount (bc : Blockchain) : Z :=
  blen (bc_Authorities bc) +
  blen (filter (λ p, staked_validator p.2 = true) (map_to_list (bc_Validators bc))).

Definition IsActiveValidatorPubKey (bc : Blockchain) (pubKey : string) : bool :=
  existsb (λ p, staked_validator p.2 && bool_decide (val_PublicKey p.2 = pubKey))
    (map_to_list (bc_Validators bc)).

(** One round of the rotation loop. *)
Definition rotate_one (now : Z) (bc : Blockchain) (entry : string * Validator) : Blockchain :=
  let '(addr, v) := entry in
  if staked_validator v && NeedsRotation v now then
    let newPubKey := sha_hex (bytes_of_string
      (val_PublicKey v +:+ "v" +:+ FormatInt (val_PublicKeyVersion v +! 1))) in
    let updated := RotateKey v newPubKey now in
    let bc := bc <| bc_Validators ::= <[addr := updated]> |> in
    appendAuditEntry bc "validator_key_rotated" addr
      ("version=" +:+ FormatInt (val_PublicKeyVersion updated))
  else bc.

Definition rotateValidatorKeysLocked (bc : Blockchain) (now : Z) : Blockchain :=
  let entries := range_map (bc_ticks bc) (bc_Validators bc) in
  foldl (rotate_one now) (tick bc) entries.

Definition RotateValidatorKeys (bc : Blockchain) (now : Z) : Blockchain :=
  rotateValidatorKeysLocked bc now.

(** ** Pausing, finality marks, snapshots *)

(** [duration] in nanoseconds. *)
Definition PauseMinting (bc : Blockchain) (duration : Z) : Blockchain :=
  let bc := bc <| bc_MintPaused := true |> in
  let '(now, bc) := UnixNano bc in
  let bc := bc <| bc_MintPauseUntil := (now + duration) `div` 10 ^ 9 |> in
  appendAuditEntry bc "minting_paused" "system" ("until=" +:+ FormatInt (bc_MintPauseUntil bc)).

Definition ResumeMinting (bc : Blockchain) : Blockchain :=
  let bc := bc <| bc_MintPaused := false |> <| bc_MintPauseUntil := 0 |> in
  appendAuditEntry bc "minting_resumed" "system" "resumed".

Definition IsMintingPaused (bc : Blockchain) : bool * Blockchain :=
  if negb (bc_MintPaused bc) then (false, bc) else
  let until := bc_MintPauseUntil bc in
  let '(expired, bc) :=
    if until =? 0 then (true, bc) else let '(now, bc) := Unix bc in (until <=? now, bc) in
  if expired : bool then (false, bc <| bc_MintPaused := false |> <| bc_MintPauseUntil := 0 |>)
  else (true, bc).

Definition FinalizeBlocksAt (bc : Blockchain) (index : Z) : outcome unit * Blockchain :=
  if u64 (blen (bc_Chain bc)) <=? index then (Err "invalid block index", bc) else
  (Ok tt, bc <| bc_LastFinalized := index |> <| bc_FinalizedBlocks ::= union {[index]} |>).

Definition IsFinalized (bc : Blockchain) (index : Z) : bool :=
  bool_decide (index ∈ bc_FinalizedBlocks bc).

(** The fields the literal of [Snapshot] leaves out are zero. *)
Definition Snapshot (bc : Blockchain) : nodeState :=
  mknodeState (bc_Chain bc) (bc_Pending bc) (bc_Ledger bc) (bc_Registry bc)
    (ConsensusName (bc_Consensus bc)) (bc_Authorities bc) (bc_TokenSupply bc) (bc_Escrows bc)
    (bc_Proposals bc) (bc_Agreements bc) (bc_UsageMeters bc) ∅ ∅ [] (bc_NextNonce bc)
    ∅ 0 0 false 0 ∅ ∅ ∅ ∅.

(** ** Genesis files *)

Record genesisAllocation := mkgenesisAllocation {
  ga_Address : string; ga_PublicKey : string; ga_Amount : Z }.

Record genesisValidator := mkgenesisValidator {
  gv_Address : string; gv_PublicKey : string; gv_Stake : Z }.

Record genesisFile := mkgenesisFile {
  gf_ChainID : string; gf_InitialSupply : Z; gf_MaxSupply : Z;
  gf_Allocations : list genesisAllocation; gf_Validators : list genesisValidator }.

(** The loops of [LoadGenesis] stop at the first error and leave what they
    have done. *)
Fixpoint load_allocations (bc : Blockchain) (l : list genesisAllocation)
    : outcome unit * Blockchain :=
  match l with
  | [] => (Ok tt, bc)
  | alloc :: l =>
      if bool_decide (ga_Address alloc = "") then (Err "genesis allocation missing address", bc)
      else if MaxSupply <? ga_Amount alloc then (Err "genesis allocation exceeds max supply", bc)
      else
        let bc := addAccountLocked bc (ga_Address alloc) (ga_Amount alloc) false in
        load_allocations (bc <| bc_TokenSupply ::= λ s, s +! ga_Amount alloc |>) l
  end.

Definition load_validator (bc : Blockchain) (val : genesisValidator) : Blockchain :=
  let bc := bc <| bc_TokenSupply ::= λ s, s +! gv_Stake val |> in
  let bc :=
    match bc_Ledger bc !! gv_Address val with
    | Some _ =>
        on_account (λ a, debit (gv_Stake val)
          (a <| acc_IsAgent := false |> <| acc_Staked := gv_Stake val |>)) (gv_Address val) bc
    | None =>
        let bc := addAccountLocked bc (gv_Address val) (gv_Stake val) false in
        on_account (λ a, a <| acc_Staked := gv_Stake val |>) (gv_Address val) bc
    end in
  let '(joined, bc) := Unix bc in
  let '(rotated, bc) := Unix bc in
  let '(now, bc) := Unix bc in
  let v := mkValidator (gv_PublicKey val) (gv_Address val) (gv_Stake val) true joined 100 0
             rotated (i64 (now + month_seconds)) in
  let bc := bc <| bc_Validators ::= <[gv_Address val := v]> |> in
  AddAuthority bc (gv_Address val).

Fixpoint load_validators (bc : Blockchain) (l : list genesisValidator) : outcome unit * Blockchain :=
  match l with
  | [] => (Ok tt, bc)
  | val :: l =>
      if bool_decide (gv_Address val = "") then (Err "genesis validator missing address", bc)
      else if gv_Stake val <? MinStake then (Err "genesis validator stake below minimum", bc)
      else load_validators (load_validator bc val) l
  end.

(** [file] is the outcome of reading and decoding the file. *)
Definition LoadGenesis (bc : Blockchain) (file : outcome genesisFile) : outcome unit * Blockchain :=
  match file with
  | Err e => (Err e, bc)
  | Panic e => (Panic e, bc)
  | Ok genesis =>
      let bc := if bool_decide (gf_ChainID genesis = "") then bc
                else bc <| bc_ChainID := gf_ChainID genesis |> in
      let bc := bc <| bc_TokenSupply := 0 |> in
      match load_allocations bc (gf_Allocations genesis) with
      | (Ok _, bc) =>
          match load_validators bc (gf_Validators genesis) with
          | (Ok _, bc) =>
              if MaxSupply <? bc_TokenSupply bc then
                (Err ("genesis total supply exceeds max supply: " +:+
                      FormatInt (bc_TokenSupply bc) +:+ " > " +:+ FormatInt MaxSupply), bc)
              else
                (Ok tt, appendAuditEntry bc "genesis_loaded" "system"
                  ("chain_id=" +:+ bc_ChainID bc +:+ " supply=" +:+ FormatInt (bc_TokenSupply bc) +:+
                   " allocations=" +:+ FormatInt (blen (gf_Allocations genesis)) +:+
                   " validators=" +:+ FormatInt (blen (gf_Validators genesis))))
          | (e, bc) => (e, bc)
          end
      | (e, bc) => (e, bc)
      end
  end.
End accounts.

(** ** Holdings *)

Implicit Types (m : gmap string Account) (bc : Blockchain).

Definition holding (a : Account) : Z := acc_Balance a + acc_Staked a.

Definition holdings (m : gmap string Account) : Z := map_sum holding m.

(** All tokens the accounts hold, free or staked. *)
Definition total_holdings (bc : Blockchain) : Z := holdings (bc_Ledger bc).

Definition wf_account (a : Account) : Prop := 0 ≤ acc_Balance a ∧ 0 ≤ acc_Staked a.

(** A ledger whose amounts are [uint64]s and add up to a [uint64]. *)
Definition sound_ledger (m : gmap string Account) : Prop :=
  (∀ k a, m !! k = Some a → wf_account a) ∧ holdings m < max_u64.

Lemma alter_Some {A} (f : A → A) (m : gmap string A) k a :
  m !! k = Some a → alter f k m = <[k := f a]> m.
Proof.
  intros E. apply map_eq. intros j. destruct (decide (j = k)) as [->|Hne].
  - by rewrite lookup_alter_eq, lookup_insert_eq, E.
  - by rewrite lookup_alter_ne, lookup_insert_ne.
Qed.

Lemma holding_nonneg m :
  (∀ k a, m !! k = Some a → wf_account a) → ∀ k a, m !! k = Some a → 0 ≤ holding a.
Proof. intros Hm k a E. destruct (Hm k a E). unfold holding. lia. Qed.

Lemma holdings_nonneg m : sound_ledger m → 0 ≤ holdings m.
Proof. intros [Hm _]. eapply map_sum_nonneg, holding_nonneg, Hm. Qed.

Lemma sound_account m k a :
  sound_ledger m → m !! k = Some a → wf_account a ∧ holding a ≤ holdings m < max_u64.
Proof.
  intros [Hm Ht] E. split; [by eapply Hm|]. split; [|done].
  eapply map_sum_ge; [|done]. by apply holding_nonneg.
Qed.

(** A change of one account. *)
Lemma sound_insert m k a :
  sound_ledger m → wf_account a →
  holdings m + holding a - from_option holding 0 (m !! k) < max_u64 →
  sound_ledger (<[k := a]> m).
Proof.
  intros [Hm Ht] Ha Hlt. split.
  - intros j b. rewrite lookup_insert_Some. intros [[_ <-]|[_ E]]; eauto.
  - unfold holdings in *. rewrite map_sum_insert. lia.
Qed.

Lemma holdings_alter f m k a :
  m !! k = Some a → holdings (alter f k m) = holdings m + (holding (f a) - holding a).
Proof. intros E. rewrite (alter_Some f m k a E). by apply map_sum_insert_Some. Qed.

Lemma sound_alter f m k a :
  sound_ledger m → m !! k = Some a → wf_account (f a) →
  holdings m + (holding (f a) - holding a) < max_u64 → sound_ledger (alter f k m).
Proof.
  intros Hm E Hf Hlt. rewrite (alter_Some f m k a E). apply sound_insert; [done..|].
  rewrite E. simpl. lia.
Qed.

(** An update that keeps the holding of the account keeps the ledger. *)
Lemma sound_alter_same f m k a :
  sound_ledger m → m !! k = Some a → wf_account (f a) → holding (f a) = holding a →
  sound_ledger (alter f k m) ∧ holdings (alter f k m) = holdings m.
Proof.
  intros Hm E Hf Hh. pose proof (sound_account _ _ _ Hm E) as [_ ?].
  rewrite (holdings_alter f m k a E). split; [|lia].
  eapply sound_alter; [done..|lia].
Qed.

Lemma lock_stake_holding m k a n :
  sound_ledger m → m !! k = Some a → 0 ≤ n ≤ acc_Balance a →
  acc_Balance (lock_stake n a) = acc_Balance a - n ∧
  acc_Staked (lock_stake n a) = acc_Staked a + n.
Proof.
  intros Hm E Hn. destruct (sound_account _ _ _ Hm E) as [[??] ?]. unfold holding in *.
  cbn. rewrite !u64_small by u64_lia. done.
Qed.

Lemma sound_lock_stake m k a n :
  sound_ledger m → m !! k = Some a → 0 ≤ n ≤ acc_Balance a →
  sound_ledger (alter (lock_stake n) k m) ∧ holdings (alter (lock_stake n) k m) = holdings m.
Proof.
  intros Hm E Hn. destruct (lock_stake_holding _ _ _ _ Hm E Hn) as [E1 E2].
  destruct (sound_account _ _ _ Hm E) as [[??] ?].
  eapply sound_alter_same; [done..| |]; unfold wf_account, holding; rewrite E1, E2; lia.
Qed.

Lemma debit_holding m k a n :
  sound_ledger m → m !! k = Some a → 0 ≤ n ≤ acc_Balance a →
  acc_Balance (debit n a) = acc_Balance a - n.
Proof.
  intros Hm E Hn. destruct (sound_account _ _ _ Hm E) as [[??] ?]. unfold holding in *.
  cbn. by rewrite u64_small by u64_lia.
Qed.

Lemma sound_debit m k a n :
  sound_ledger m → m !! k = Some a → 0 ≤ n ≤ acc_Balance a →
  sound_ledger (alter (debit n) k m) ∧ holdings (alter (debit n) k m) = holdings m - n.
Proof.
  intros Hm E Hn. pose proof (debit_holding _ _ _ _ Hm E Hn) as E1.
  destruct (sound_account _ _ _ Hm E) as [[??] ?].
  assert (holding (debit n a) = holding a - n) as E2
    by (unfold holding; rewrite E1; cbn; lia).
  rewrite (holdings_alter _ _ _ _ E). split; [|lia].
  eapply sound_alter; [done..| |lia]. split; [rewrite E1; lia|done].
Qed.

Lemma credit_holding m k a n :
  sound_ledger m → m !! k = Some a → 0 ≤ n → holdings m + n < max_u64 →
  acc_Balance (credit n a) = acc_Balance a + n.
Proof.
  intros Hm E Hn Hlt. destruct (sound_account _ _ _ Hm E) as [[??] ?]. unfold holding in *.
  cbn. by rewrite u64_small by u64_lia.
Qed.

Lemma sound_credit m k a n :
  sound_ledger m → m !! k = Some a → 0 ≤ n → holdings m + n < max_u64 →
  sound_ledger (alter (credit n) k m) ∧ holdings (alter (credit n) k m) = holdings m + n.
Proof.
  intros Hm E Hn Hlt. pose proof (credit_holding _ _ _ _ Hm E Hn Hlt) as E1.
  destruct (sound_account _ _ _ Hm E) as [[??] ?].
  assert (holding (credit n a) = holding a + n) as E2
    by (unfold holding; rewrite E1; cbn; lia).
  rewrite (holdings_alter _ _ _ _ E). split; [|lia].
  eapply sound_alter; [done..| |lia]. split; [rewrite E1; lia|done].
Qed.

Lemma lookup_alter_is_Some {A} (f : A → A) (m : gmap string A) k j :
  is_Some (m !! j) → ∃ a, alter f k m !! j = Some a.
Proof.
  intros [a E]. destruct (decide (k = j)) as [->|Hne].
  - exists (f a). by rewrite lookup_alter_eq, E.
  - exists a. by rewrite lookup_alter_ne.
Qed.

(** The two updates of a transfer, with one account or two. *)
Lemma sound_ledger_move m from to amount a :
  sound_ledger m → m !! from = Some a → is_Some (m !! to) → 0 ≤ amount ≤ acc_Balance a →
  sound_ledger (alter (credit amount) to (alter (debit amount) from m)) ∧
  holdings (alter (credit amount) to (alter (debit amount) from m)) = holdings m.
Proof.
  intros Hm Ea Hto Hn. pose proof (sound_account _ _ _ Hm Ea) as [_ [_ ?]].
  destruct (sound_debit _ _ _ amount Hm Ea ltac:(lia)) as [Hd Ed].
  destruct (lookup_alter_is_Some (debit amount) m from to Hto) as [b Eb].
  destruct (sound_credit _ _ _ amount Hd Eb ltac:(lia)) as [Hc Ec]; [lia|].
  split; [done|]. rewrite Ec, Ed. lia.
Qed.

Lemma sound_move bc from to amount :
  sound_ledger (bc_Ledger bc) → 0 ≤ amount → can_pay bc from to amount = true →
  sound_ledger (bc_Ledger (move from to amount bc)) ∧
  total_holdings (move from to amount bc) = total_holdings bc.
Proof.
  intros Hm Hn Hpay. unfold can_pay in Hpay. inv_cases Hpay. prop_bools.
  eapply sound_ledger_move; [done..| |]; eauto.
Qed.

(** ** Operations that mint nothing *)

Section operations.
Context `{Runtime}.

Inductive account_op :=
| OpStake (address : string) (amount : Z)
| OpRegisterModel (owner id version metadata : string) (price : Z) (active : bool)
| OpUpdateModel (owner id version metadata : string) (price : Z)
| OpPurchaseApiKey (buyer modelID : string) (amount : Z)
| OpCreateEscrow (from to : string) (amount : Z) (serviceID : string)
| OpRegisterValidator (address : string) (stake : Z) (pubKey : string)
| OpAddAuthority (address : string)
| OpRegisterUniversalWallet (name address label currency : string)
| OpCreateProposal (title description : string)
| OpVoteProposal (id voter : string)
| OpCreateServiceAgreement (provider consumer modelID : string) (price maxCalls : Z)
| OpRecordUsage (agreementID : string) (count : Z)
| OpRotateValidatorKeys (now : Z)
| OpPauseMinting (duration : Z)
| OpResumeMinting
| OpIsMintingPaused
| OpFinalizeBlocksAt (index : Z)
| OpMarkIrreversible (txID : string)
| OpBurn (amount : Z).

Definition exec_op (bc : Blockchain) (op : account_op) : Blockchain :=
  match op with
  | OpStake a n => Stake bc a n
  | OpRegisterModel o i v m p a => bc_RegisterModel bc o i v m p a
  | OpUpdateModel o i v m p => bc_UpdateModel bc o i v m p
  | OpPurchaseApiKey b m n => bc_PurchaseApiKey bc b m n
  | OpCreateEscrow f t n i => (CreateEscrow bc f t n i).2
  | OpRegisterValidator a n k => (RegisterValidator bc a n k).2
  | OpAddAuthority a => AddAuthority bc a
  | OpRegisterUniversalWallet n a l c => (RegisterUniversalWallet bc n a l c).2
  | OpCreateProposal t d => (CreateProposal bc t d).2
  | OpVoteProposal i v => VoteProposal bc i v
  | OpCreateServiceAgreement p c m n x => (CreateServiceAgreement bc p c m n x).2
  | OpRecordUsage a n => (RecordUsage bc a n).2
  | OpRotateValidatorKeys now => RotateValidatorKeys bc now
  | OpPauseMinting d => PauseMinting bc d
  | OpResumeMinting => ResumeMinting bc
  | OpIsMintingPaused => (IsMintingPaused bc).2
  | OpFinalizeBlocksAt i => (FinalizeBlocksAt bc i).2
  | OpMarkIrreversible t => MarkIrreversible bc t
  | OpBurn n => Burn bc n
  end.

(** Amounts are [uint64]s. *)
Definition op_ok (op : account_op) : Prop :=
  match op with
  | OpStake _ n | OpPurchaseApiKey _ _ n | OpRegisterValidator _ n _ | OpBurn n
  | OpCreateEscrow _ _ n _ => is_u64 n
  | _ => True
  end.

(** The amount of the escrow an operation returns: it leaves the ledger. *)
Definition into_escrow (bc : Blockchain) (op : account_op) : Z :=
  match op with
  | OpCreateEscrow f t n i => match (CreateEscrow bc f t n i).1 with Ok e => esc_Amount e | _ => 0 end
  | _ => 0
  end.

Fixpoint escrowed (bc : Blockchain) (ops : list account_op) : Z :=
  match ops with
  | [] => 0
  | op :: ops => into_escrow bc op + escrowed (exec_op bc op) ops
  end.

Definition moves_nothing (m m' : gmap string Account) : Prop :=
  sound_ledger m' ∧ holdings m' = holdings m.

Lemma moves_nothing_refl m : sound_ledger m → moves_nothing m m.
Proof. by split. Qed.

Lemma moves_nothing_lock m k a n :
  sound_ledger m → m !! k = Some a → 0 ≤ n ≤ acc_Balance a →
  moves_nothing m (alter (lock_stake n) k m).
Proof. apply sound_lock_stake. Qed.

Lemma rotate_ledger bc now : bc_Ledger (rotateValidatorKeysLocked bc now) = bc_Ledger bc.
Proof.
  unfold rotateValidatorKeysLocked. rewrite (foldl_frame bc_Ledger); [done|].
  intros s [addr v]. unfold rotate_one. by case_match.
Qed.

Lemma Stake_moves_nothing bc address amount :
  sound_ledger (bc_Ledger bc) → 0 ≤ amount →
  moves_nothing (bc_Ledger bc) (bc_Ledger (Stake bc address amount)).
Proof.
  intros Hm Hn. unfold Stake. destruct (_ !! address) eqn:E; [|by apply moves_nothing_refl].
  case_match; prop_bools; [by apply moves_nothing_refl|].
  eapply moves_nothing_lock; [done..|lia].
Qed.

Lemma RegisterModel_moves_nothing bc owner id version metadata price active :
  sound_ledger (bc_Ledger bc) →
  moves_nothing (bc_Ledger bc)
    (bc_Ledger (bc_RegisterModel bc owner id version metadata price active)).
Proof.
  intros Hm. unfold bc_RegisterModel.
  destruct (_ !! owner) eqn:E; [|by apply moves_nothing_refl].
  case_match; prop_bools; [by apply moves_nothing_refl|].
  eapply moves_nothing_lock; [done..|]. change AIModelStake with 500000000 in *. lia.
Qed.

Lemma PurchaseApiKey_moves_nothing bc buyer modelID amount :
  sound_ledger (bc_Ledger bc) → 0 ≤ amount →
  moves_nothing (bc_Ledger bc) (bc_Ledger (bc_PurchaseApiKey bc buyer modelID amount)).
Proof.
  intros Hm Hn. unfold bc_PurchaseApiKey.
  destruct (_ !! modelID); [|by apply moves_nothing_refl].
  destruct (can_pay _ _ _ _) eqn:E; [|by apply moves_nothing_refl].
  change (moves_nothing (bc_Ledger bc) (bc_Ledger (move buyer (mdl_Owner m) amount bc))).
  by apply sound_move.
Qed.

Lemma RegisterValidator_moves_nothing bc address stake pubKey :
  sound_ledger (bc_Ledger bc) → 0 ≤ stake →
  moves_nothing (bc_Ledger bc) (bc_Ledger (RegisterValidator bc address stake pubKey).2).
Proof.
  intros Hm Hn. unfold RegisterValidator. cbv beta iota zeta delta [Unix].
  destruct (_ !! address) as [a|] eqn:E; [|by apply moves_nothing_refl].
  destruct (_ || _) eqn:Ho; [by apply moves_nothing_refl|]. prop_bools.
  destruct (bc_tendermintEngine _); (eapply moves_nothing_lock; [done..|lia]).
Qed.

(** An escrow takes its amount from the payer, or changes nothing. *)
Lemma CreateEscrow_takes bc from to amount serviceID :
  sound_ledger (bc_Ledger bc) → 0 ≤ amount →
  let r := CreateEscrow bc from to amount serviceID in
  sound_ledger (bc_Ledger r.2) ∧
  holdings (bc_Ledger r.2) + into_escrow bc (OpCreateEscrow from to amount serviceID) = holdings (bc_Ledger bc).
Proof.
  intros Hm Hn. cbn [into_escrow]. unfold CreateEscrow. cbv beta iota zeta delta [UnixNano].
  destruct (bc_Ledger bc !! from) as [a|] eqn:E; [|split; [done|cbn; lia]].
  destruct (_ <? _) eqn:Eb; prop_bools; [split; [done|cbn; lia]|].
  destruct (sound_debit (bc_Ledger bc) from a amount Hm E) as [Hs Hd]; [lia|].
  split; [exact Hs|]. cbn -[holdings]. rewrite Hd. lia.
Qed.

(** The operations that leave the ledger as it is. *)
Lemma exec_op_ledger bc op :
  match op with
  | OpStake _ _ | OpRegisterModel _ _ _ _ _ _ | OpPurchaseApiKey _ _ _
  | OpCreateEscrow _ _ _ _ | OpRegisterValidator _ _ _ => True
  | _ => bc_Ledger (exec_op bc op) = bc_Ledger bc
  end.
Proof.
  destruct op; cbn [exec_op]; try done;
    unfold bc_UpdateModel, RegisterUniversalWallet, VoteProposal, CreateServiceAgreement,
      RecordUsage, RotateValidatorKeys, IsMintingPaused, FinalizeBlocksAt;
    cbv beta iota zeta delta [Unix UnixNano];
    rewrite ?rotate_ledger; repeat case_match; by simplify_eq.
Qed.

Lemma exec_op_conserves bc op :
  sound_ledger (bc_Ledger bc) → op_ok op →
  sound_ledger (bc_Ledger (exec_op bc op)) ∧
  holdings (bc_Ledger (exec_op bc op)) + into_escrow bc op = holdings (bc_Ledger bc).
Proof.
  intros Hm Hop. pose proof (exec_op_ledger bc op) as E.
  assert (∀ n, moves_nothing (bc_Ledger bc) n →
    sound_ledger n ∧ holdings n + 0 = holdings (bc_Ledger bc)) as Hn.
  { intros n [? ->]. split; [done|lia]. }
  destruct op; try (rewrite E; cbn [into_escrow]; apply Hn; by apply moves_nothing_refl); destruct Hop.
  - by apply Hn, Stake_moves_nothing.
  - by apply Hn, RegisterModel_moves_nothing.
  - by apply Hn, PurchaseApiKey_moves_nothing.
  - by apply CreateEscrow_takes.
  - by apply Hn, RegisterValidator_moves_nothing.
Qed.


(** ** Operations that change the supply *)

(** What [DistributeRewards] pays one account. *)
Definition reward_of (a : Account) : Z :=
  if 0 <? acc_Staked a then (acc_Staked a *! RewardRatePercent) `div` 100 else 0.

Definition rewards (m : gmap string Account) : Z := map_sum reward_of m.

Definition rewarded (a : Account) : Account := credit (reward_of a) a.

Lemma reward_account_ledger bc k a :
  wf_account a → acc_Balance a < max_u64 → bc_Ledger bc !! k = Some a →
  bc_Ledger (reward_account bc (k, a)) = <[k := rewarded a]> (bc_Ledger bc).
Proof.
  intros [??] ? E. unfold reward_account, rewarded, reward_of. case_match; simpl.
  - by apply alter_Some.
  - rewrite insert_id; [done|]. rewrite E. f_equal. unfold credit. destruct a; simpl in *.
    f_equal. rewrite u64_small; [lia|u64_lia].
Qed.

Lemma reward_account_supply bc k a :
  is_u64 (bc_TokenSupply bc) →
  bc_TokenSupply (reward_account bc (k, a)) = bc_TokenSupply bc +! reward_of a.
Proof.
  intros Hs. unfold reward_account, reward_of. case_match; [done|].
  rewrite Z.add_0_r. by rewrite u64_small.
Qed.

(** The loop: every visited account is paid once and the others are left. *)
Lemma reward_loop bc l :
  NoDup l.*1 → is_u64 (bc_TokenSupply bc) →
  (∀ k a, (k, a) ∈ l → bc_Ledger bc !! k = Some a ∧ wf_account a ∧ acc_Balance a < max_u64) →
  let bc' := foldl reward_account bc l in
  bc_TokenSupply bc' = bc_TokenSupply bc +! sum_over (λ p, reward_of p.2) l ∧
  (∀ k a, (k, a) ∈ l → bc_Ledger bc' !! k = Some (rewarded a)) ∧
  (∀ k, k ∉ l.*1 → bc_Ledger bc' !! k = bc_Ledger bc !! k).
Proof.
  revert bc. induction l as [|[k0 a0] l IH]; intros bc Hnd Hs Hl.
  { simpl. split; [|set_solver]. by rewrite Z.add_0_r, u64_small. }
  apply NoDup_cons in Hnd as [Hk0 Hnd].
  destruct (Hl k0 a0) as (E0 & Hwf & Hlt); [set_solver|].
  pose proof (reward_account_ledger bc k0 a0 Hwf Hlt E0) as EL.
  pose proof (reward_account_supply bc k0 a0 Hs) as ES.
  change (foldl reward_account bc ((k0, a0) :: l))
    with (foldl reward_account (reward_account bc (k0, a0)) l).
  destruct (IH (reward_account bc (k0, a0)) Hnd) as (I1 & I2 & I3).
  { rewrite ES. apply u64_range. }
  { intros k a Hin. rewrite EL. destruct (Hl k a) as (E & ?); [set_solver|]. split; [|done].
    rewrite lookup_insert_ne; [done|]. intros ->. apply Hk0. by apply (list_elem_of_fmap_2 fst l (k, a)). }
  cbv zeta. split; [|split].
  - rewrite I1, ES, u64_add_l. unfold sum_over. simpl. f_equal. lia.
  - intros k a [[= -> ->]|Hin]%elem_of_cons; [|eauto].
    rewrite I3 by done. rewrite EL. apply lookup_insert_eq.
  - intros k Hk. rewrite I3 by set_solver. rewrite EL. apply lookup_insert_ne. set_solver.
Qed.

Lemma reward_of_range a : wf_account a → 0 ≤ reward_of a.
Proof.
  intros [_ ?]. unfold reward_of. case_match; [|done]. apply Z.div_pos; [apply u64_range|lia].
Qed.

(** The loop over a whole ledger, whatever its order. *)
Lemma DistributeRewards_spec bc :
  sound_ledger (bc_Ledger bc) → is_u64 (bc_TokenSupply bc) →
  bc_Ledger (DistributeRewards bc) = rewarded <$> bc_Ledger bc ∧
  bc_TokenSupply (DistributeRewards bc) = bc_TokenSupply bc +! rewards (bc_Ledger bc).
Proof.
  intros Hm Hs. unfold DistributeRewards.
  set (l := range_map (bc_ticks bc) (bc_Ledger bc)).
  assert (l ≡ₚ map_to_list (bc_Ledger bc)) as Hl by apply range_map_Permutation.
  destruct (reward_loop (tick bc) l) as (E1 & E2 & E3).
  - rewrite Hl. apply NoDup_fst_map_to_list.
  - done.
  - intros k a Hin. apply elem_of_range_map in Hin.
    destruct (sound_account _ _ _ Hm Hin) as [[??] ?]. unfold holding in *.
    repeat split; [done..|lia].
  - split.
    + apply map_eq. intros k. rewrite lookup_fmap.
      destruct (bc_Ledger bc !! k) as [a|] eqn:E; simpl.
      * apply E2. by apply elem_of_range_map.
      * rewrite E3; [done|]. rewrite Hl. intros ([k' a] & -> & Hin)%list_elem_of_fmap_1.
        apply elem_of_map_to_list in Hin. simpl in *. congruence.
    + rewrite E1, Hl. unfold rewards. by rewrite map_sum_over.
Qed.

Lemma holdings_rewarded m :
  sound_ledger m → holdings m + rewards m < max_u64 →
  holdings (rewarded <$> m) = holdings m + rewards m.
Proof.
  intros Hm Hlt. unfold holdings, rewards. rewrite map_sum_fmap, <- map_sum_add.
  apply map_sum_ext. intros k a E.
  destruct (sound_account _ _ _ Hm E) as [[? ?] ?].
  assert (reward_of a ≤ rewards m) as Hr.
  { apply map_sum_ge with (k := k); [|done].
    intros j b Ej. eapply reward_of_range, Hm, Ej. }
  pose proof (reward_of_range a ltac:(done)). unfold holding in *.
  cbn. rewrite u64_small by u64_lia. lia.
Qed.

(** [DistributeRewards] pays every staker once, whatever order the
    map traversal takes: each balance grows by 4% of the stake (in [uint64]
    arithmetic), stakes stay, and as long as neither sum overflows the token
    supply and the sum of all holdings grow by the same amount. *)
Theorem distribute_rewards_exact bc :
  sound_ledger (bc_Ledger bc) → is_u64 (bc_TokenSupply bc) →
  total_holdings bc + rewards (bc_Ledger bc) < max_u64 →
  bc_TokenSupply bc + rewards (bc_Ledger bc) < max_u64 →
  let bc' := DistributeRewards bc in
  (∀ k, bc_Ledger bc' !! k = rewarded <$> bc_Ledger bc !! k) ∧
  total_holdings bc' = total_holdings bc + rewards (bc_Ledger bc) ∧
  bc_TokenSupply bc' = bc_TokenSupply bc + rewards (bc_Ledger bc).
Proof.
  intros Hm Hs Ht Hts. destruct (DistributeRewards_spec bc Hm Hs) as [E1 E2].
  assert (0 ≤ rewards (bc_Ledger bc)).
  { apply map_sum_nonneg. intros k a E. eapply reward_of_range, Hm, E. }
  cbv zeta. split; [|split].
  - intros k. by rewrite E1, lookup_fmap.
  - unfold total_holdings. rewrite E1. by apply holdings_rewarded.
  - rewrite E2. apply u64_small. u64_lia.
Qed.

Lemma SaveToDisk_frame bc :
  bc_Ledger (SaveToDisk bc).2 = bc_Ledger bc ∧
  bc_TokenSupply (SaveToDisk bc).2 = bc_TokenSupply bc ∧
  bc_Chain (SaveToDisk bc).2 = bc_Chain bc ∧
  bc_Pending (SaveToDisk bc).2 = bc_Pending bc.
Proof. unfold SaveToDisk. by repeat case_match. Qed.

Lemma FundAccount_spec bc address amount :
  sound_ledger (bc_Ledger bc) → is_u64 (bc_TokenSupply bc) → 0 ≤ amount →
  total_holdings bc + amount < max_u64 → bc_TokenSupply bc + amount < max_u64 →
  sound_ledger (bc_Ledger (FundAccount bc address amount)) ∧
  total_holdings (FundAccount bc address amount) = total_holdings bc + amount ∧
  bc_TokenSupply (FundAccount bc address amount) = bc_TokenSupply bc + amount.
Proof.
  intros Hm Hs Hn Ht Hts. unfold FundAccount, total_holdings in *. cbv zeta.
  destruct (bc_Ledger bc !! address) as [a|] eqn:E.
  - destruct (SaveToDisk_frame ((appendAuditEntry (on_account (credit amount) address bc)
      "account_funded" address ("amount=" +:+ FormatInt amount))
      <| bc_TokenSupply ::= λ s, s +! amount |>)) as (-> & -> & _).
    destruct (sound_credit _ _ _ amount Hm E) as [??]; [lia..|].
    split; [done|]. split; [done|]. apply u64_small. u64_lia.
  - set (a := mkAccount address amount 0 false).
    destruct (SaveToDisk_frame ((appendAuditEntry (bc <| bc_Ledger ::= <[address := a]> |>)
      "account_created" address ("balance=" +:+ FormatInt amount +:+ " funded=true"))
      <| bc_TokenSupply ::= λ s, s +! amount |>)) as (-> & -> & _).
    cbn [bc_Ledger bc_TokenSupply update appendAuditEntry Unix tick].
    assert (holdings (<[address := a]> (bc_Ledger bc)) = holdings (bc_Ledger bc) + amount) as Eh.
    { unfold holdings. rewrite map_sum_insert_None by done. unfold holding. simpl. lia. }
    split; [|split; [done|apply u64_small; u64_lia]].
    apply sound_insert; [done|done|]. rewrite E. unfold holding. simpl. lia.
Qed.

Lemma treasuryBuyback_spec bc :
  sound_ledger (bc_Ledger bc) → is_u64 (bc_TokenSupply bc) →
  let bc' := treasuryBuybackLocked bc in
  sound_ledger (bc_Ledger bc') ∧ is_u64 (bc_TokenSupply bc') ∧
  bc_TokenSupply bc' - total_holdings bc' = bc_TokenSupply bc - total_holdings bc ∧
  bc_TokenSupply bc - bc_TokenSupply bc `div` 100 ≤ bc_TokenSupply bc' ≤ bc_TokenSupply bc.
Proof.
  intros Hm Hs. unfold treasuryBuybackLocked.
  assert (0 ≤ bc_TokenSupply bc `div` 100) by (apply Z.div_pos; u64_lia).
  case_match; [split; [done|split; [done|lia]]|]. prop_bools.
  destruct (_ !! CommunityFundAddress) as [a|] eqn:E; [|split; [done|split; [done|lia]]].
  case_match; [split; [done|split; [done|lia]]|].
  set (burn := if bc_TokenSupply bc `div` 100 <? acc_Balance a `div` 10 then _ else _).
  destruct (0 <? burn) eqn:Eb; [|split; [done|split; [done|lia]]]. prop_bools.
  destruct (sound_account _ _ _ Hm E) as [[??] _].
  assert (burn ≤ acc_Balance a ∧ burn ≤ bc_TokenSupply bc `div` 100) as [Hb1 Hb2].
  { assert (acc_Balance a `div` 10 ≤ acc_Balance a) by (apply Z.div_le_upper_bound; lia).
    subst burn. case_match; prop_bools; lia. }
  assert (bc_TokenSupply bc `div` 100 ≤ bc_TokenSupply bc)
    by (apply Z.div_le_upper_bound; u64_lia).
  destruct (sound_debit _ _ _ burn Hm E) as [Hd Ed]; [lia|].
  cbv zeta. unfold total_holdings.
  cbn [bc_Ledger bc_TokenSupply update appendAuditEntry Unix tick on_account].
  rewrite Ed, u64_small by u64_lia. split; [done|]. u64_lia.
Qed.

(** The operations that mint or burn against an account. *)
Inductive supply_op :=
| SupplyFund (address : string) (amount : Z)
| SupplyRewards
| SupplyBuyback.

Definition exec_supply_op (bc : Blockchain) (op : supply_op) : Blockchain :=
  match op with
  | SupplyFund a n => FundAccount bc a n
  | SupplyRewards => DistributeRewards bc
  | SupplyBuyback => treasuryBuybackLocked bc
  end.

(** What the operation mints. *)
Definition minted (bc : Blockchain) (op : supply_op) : Z :=
  match op with
  | SupplyFund _ n => n
  | SupplyRewards => rewards (bc_Ledger bc)
  | SupplyBuyback => 0
  end.

(** Funding an account, paying staking rewards and the treasury
    buyback move [TokenSupply] and the sum of all holdings by the same amount,
    as long as what is minted does not take either past 2^64; the buyback
    never underflows and burns at most one percent of the supply. *)
Theorem supply_follows_holdings bc op :
  sound_ledger (bc_Ledger bc) → is_u64 (bc_TokenSupply bc) → 0 ≤ minted bc op →
  total_holdings bc + minted bc op < max_u64 → bc_TokenSupply bc + minted bc op < max_u64 →
  let bc' := exec_supply_op bc op in
  bc_TokenSupply bc' - total_holdings bc' = bc_TokenSupply bc - total_holdings bc ∧
  bc_TokenSupply bc - bc_TokenSupply bc `div` 100 ≤ bc_TokenSupply bc' ≤
    bc_TokenSupply bc + minted bc op.
Proof.
  intros Hm Hs Hn Ht Hts.
  assert (0 ≤ bc_TokenSupply bc `div` 100) by (apply Z.div_pos; u64_lia).
  destruct op as [address amount| |]; cbn [exec_supply_op minted] in *; cbv zeta.
  - destruct (FundAccount_spec bc address amount) as (_ & -> & ->); [done..|lia].
  - destruct (DistributeRewards_spec bc Hm Hs) as [E1 E2].
    unfold total_holdings in *. rewrite E1, E2, holdings_rewarded, u64_small by (done || u64_lia).
    lia.
  - destruct (treasuryBuyback_spec bc Hm Hs) as (_ & _ & -> & ?). lia.
Qed.

(** ** Slashing *)

Definition slash_penalty (amount : Z) : Z :=
  let p := (amount *! SlashPercent) `div` 100 in if p =? 0 then 1 else p.

(** A slash with [amount] no larger than the stake takes [amount]
    from the stake and the penalty from the free balance; the balance is not
    checked, so it wraps around exactly when it is below the penalty, and the
    slashed account then owns 2^64 - penalty more than before. *)
Theorem slash_exact bc address amount a :
  sound_ledger (bc_Ledger bc) → bc_Ledger bc !! address = Some a →
  0 ≤ amount ≤ acc_Staked a →
  ∃ a', bc_Ledger (Slash bc address amount) = <[address := a']> (bc_Ledger bc) ∧
    acc_Staked a' = acc_Staked a - amount ∧
    acc_Balance a' = acc_Balance a - slash_penalty amount +
      (if acc_Balance a <? slash_penalty amount then max_u64 else 0) ∧
    acc_IsAgent a' = acc_IsAgent a.
Proof.
  intros Hm E Hn. unfold Slash, slashLocked. rewrite E.
  destruct (acc_Staked a <? amount) eqn:El; prop_bools; [lia|].
  fold (slash_penalty amount).
  destruct (sound_account _ _ _ Hm E) as [[??] ?]. unfold holding in *.
  assert (0 ≤ slash_penalty amount < max_u64) as [??].
  { unfold slash_penalty, SlashPercent. pose proof (u64_range (amount * 10)) as [??].
    assert ((amount *! 10) `div` 100 ≤ amount *! 10) by (apply Z.div_le_upper_bound; lia).
    assert (0 ≤ (amount *! 10) `div` 100) by (apply Z.div_pos; lia).
    case_match; [u64_lia|lia]. }
  eexists. split; [|split; [|split]].
  - cbn [bc_Ledger update appendAuditEntry Unix tick on_account]. by apply alter_Some.
  - cbn. apply u64_small. u64_lia.
  - cbn. destruct (acc_Balance a <? slash_penalty amount) eqn:Eb; prop_bools.
    + symmetry. apply (Z.mod_unique_pos _ _ (-1)); u64_lia.
    + rewrite Z.add_0_r. apply u64_small. u64_lia.
  - done.
Qed.

(** ** The wallet directory *)

(** Names are their own keys and no address is registered twice. *)
Definition directory_ok (m : gmap string UniversalWallet) : Prop :=
  (∀ k uw, m !! k = Some uw → uw_Name uw = k) ∧
  (∀ k k' uw uw', m !! k = Some uw → m !! k' = Some uw' →
     uw_Address uw = uw_Address uw' → k = k').

Lemma directory_clash_None name address l :
  directory_clash name address l = None ↔
  ∀ k uw, (k, uw) ∈ l → uw_Name uw ≠ name ∧ uw_Address uw ≠ address.
Proof.
  induction l as [|[k uw] l IH]; simpl; [set_solver|].
  repeat case_bool_decide; [naive_solver set_solver..|].
  rewrite IH. split; [|set_solver]. intros Hl k' uw' [[= -> ->]|?]%elem_of_cons; eauto.
Qed.

Lemma RegisterUniversalWallet_Ok bc name address label currency e bc' :
  RegisterUniversalWallet bc name address label currency = (Ok e, bc') →
  let key := ToLower (TrimSpace name) in
  e = mkUniversalWallet key address label currency ∧ key ≠ "" ∧ address ≠ "" ∧
  bc_UniversalWallets bc' = <[key := e]> (bc_UniversalWallets bc) ∧
  (∀ k uw, bc_UniversalWallets bc !! k = Some uw → uw_Name uw ≠ key ∧ uw_Address uw ≠ address) ∧
  (size (bc_UniversalWallets bc) ≤ 1024)%nat.
Proof.
  unfold RegisterUniversalWallet. cbv zeta. generalize (ToLower (TrimSpace name)). intros key.
  destruct (_ || _) eqn:E1; [done|]. destruct (1024 <? _) eqn:E2; [done|].
  destruct (directory_clash _ _ _) eqn:E3; [done|]. intros [= <- <-]. prop_bools.
  repeat split; [done..| | |lia]; eapply directory_clash_None; [done| |done|]; by apply elem_of_range_map.
Qed.

(** Registering a wallet keeps the directory one-to-one (a name
    has one address and an address one name) and within 1025 entries, adds
    exactly the new entry, and the entry is then found under every spelling
    of the name that trims and lowers to the same key. *)
Theorem register_then_lookup bc name address label currency e bc' :
  directory_ok (bc_UniversalWallets bc) →
  RegisterUniversalWallet bc name address label currency = (Ok e, bc') →
  directory_ok (bc_UniversalWallets bc') ∧
  (size (bc_UniversalWallets bc') ≤ 1025)%nat ∧
  (∀ spelling, ToLower (TrimSpace spelling) = ToLower (TrimSpace name) →
     LookupWallet bc' spelling = Ok e) ∧
  (∀ other uw, LookupWallet bc other = Ok uw → LookupWallet bc' other = Ok uw).
Proof.
  intros [Hname Haddr] Hreg.
  destruct (RegisterUniversalWallet_Ok _ _ _ _ _ _ _ Hreg) as (-> & _ & _ & E & Hfresh & Hsz).
  clear Hreg. revert E Hfresh. generalize (ToLower (TrimSpace name)). intros key E Hfresh.
  assert (bc_UniversalWallets bc !! key = None) as Hnone.
  { destruct (_ !! key) as [uw|] eqn:El; [|done]. destruct (Hfresh _ _ El). by apply Hname in El. }
  unfold LookupWallet. rewrite E. repeat split.
  - intros k uw. rewrite lookup_insert_Some. intros [[<- <-]|[_ ?]]; [done|eauto].
  - intros k k' uw uw'. rewrite !lookup_insert_Some. naive_solver.
  - rewrite map_size_insert_None by done. lia.
  - intros spelling ->. by rewrite lookup_insert_eq.
  - intros other uw. destruct (decide (key = ToLower (TrimSpace other))) as [<-|Hne].
    + by rewrite Hnone.
    + by rewrite lookup_insert_ne.
Qed.

(** ** Genesis files *)

Definition genesis_ok (g : genesisFile) : Prop :=
  Forall (λ a, ga_Address a ≠ "" ∧ is_u64 (ga_Amount a)) (gf_Allocations g) ∧
  Forall (λ v, gv_Address v ≠ "" ∧ MinStake ≤ gv_Stake v < max_u64) (gf_Validators g).

Lemma load_allocations_ok bc l :
  Forall (λ a, ga_Address a ≠ "" ∧ is_u64 (ga_Amount a)) l → is_u64 (bc_TokenSupply bc) →
  ∃ bc', load_allocations bc l = (Ok tt, bc') ∧
    bc_TokenSupply bc' = bc_TokenSupply bc +! sum_over ga_Amount l.
Proof.
  intros Hl. revert bc. induction Hl as [|a l [Ha Hn] _ IH]; intros bc Hs; cbn [load_allocations].
  { exists bc. by rewrite Z.add_0_r, u64_small. }
  rewrite bool_decide_false by done.
  destruct (MaxSupply <? ga_Amount a) eqn:E; prop_bools; [unfold MaxSupply in *; u64_lia|].
  destruct (IH ((addAccountLocked bc (ga_Address a) (ga_Amount a) false)
    <| bc_TokenSupply ::= λ s, s +! ga_Amount a |>)) as (bc' & -> & E'); [apply u64_range|].
  exists bc'. split; [done|]. rewrite E'. cbn [bc_TokenSupply update addAccountLocked
    appendAuditEntry Unix tick]. rewrite u64_add_l. unfold sum_over. simpl. f_equal. lia.
Qed.

Lemma load_validator_supply bc v :
  bc_TokenSupply (load_validator bc v) = bc_TokenSupply bc +! gv_Stake v.
Proof. unfold load_validator. cbv beta iota zeta delta [Unix]. by case_match. Qed.

Lemma load_validators_ok bc l :
  Forall (λ v, gv_Address v ≠ "" ∧ MinStake ≤ gv_Stake v < max_u64) l →
  is_u64 (bc_TokenSupply bc) →
  ∃ bc', load_validators bc l = (Ok tt, bc') ∧
    bc_TokenSupply bc' = bc_TokenSupply bc +! sum_over gv_Stake l.
Proof.
  intros Hl. revert bc. induction Hl as [|v l [Ha Hn] _ IH]; intros bc Hs; cbn [load_validators].
  { exists bc. by rewrite Z.add_0_r, u64_small. }
  rewrite bool_decide_false by done.
  destruct (gv_Stake v <? MinStake) eqn:E; prop_bools; [lia|].
  destruct (IH (load_validator bc v)) as (bc' & -> & E').
  { rewrite load_validator_supply. apply u64_range. }
  exists bc'. split; [done|]. rewrite E', load_validator_supply, u64_add_l.
  unfold sum_over. simpl. f_equal. lia.
Qed.

(** A genesis file whose entries have addresses and whose stakes
    reach the minimum is always accepted, and the supply becomes the sum of
    its allocations and stakes modulo 2^64: since [MaxSupply] is the largest
    [uint64], the check of the total against it never fires. *)
Theorem genesis_accepted bc g :
  genesis_ok g →
  ∃ bc', LoadGenesis bc (Ok g) = (Ok tt, bc') ∧
    bc_TokenSupply bc' = u64 (sum_over ga_Amount (gf_Allocations g) +
                              sum_over gv_Stake (gf_Validators g)).
Proof.
  intros [Ha Hv]. unfold LoadGenesis.
  set (bc0 := (if bool_decide (gf_ChainID g = "") then _ else _) <| bc_TokenSupply := 0 |>).
  destruct (load_allocations_ok bc0 _ Ha) as (bc1 & -> & E1); [done|].
  destruct (load_validators_ok bc1 _ Hv) as (bc2 & -> & E2); [rewrite E1; apply u64_range|].
  assert (bc_TokenSupply bc2 = u64 (sum_over ga_Amount (gf_Allocations g) +
                                    sum_over gv_Stake (gf_Validators g))) as E.
  { rewrite E2, E1, u64_add_l. f_equal. }
  destruct (MaxSupply <? bc_TokenSupply bc2) eqn:Em; prop_bools.
  { pose proof (u64_range (sum_over ga_Amount (gf_Allocations g) +
      sum_over gv_Stake (gf_Validators g))). unfold MaxSupply in *. u64_lia. }
  eexists. split; [reflexivity|]. exact E.
Qed.
End operations.

(** ** Examples *)

(** A sound ledger, as a computation. *)
Definition sound_ledger_b (m : gmap string Account) : bool :=
  forallb (λ p, (0 <=? acc_Balance p.2) && (0 <=? acc_Staked p.2)) (map_to_list m) &&
  (holdings m <? max_u64).

Lemma sound_ledger_b_true m : sound_ledger_b m = true → sound_ledger m.
Proof.
  unfold sound_ledger_b. intros Hb. apply andb_prop in Hb as [Hf Hs]. prop_bools.
  split; [|done]. intros k a E. apply elem_of_map_to_list in E.
  rewrite forallb_forall in Hf. apply list_elem_of_In, Hf in E. simpl in E.
  prop_bools. by split.
Qed.

(** The state of a new node before its genesis block. *)
Definition demo_state : Blockchain :=
  seedDemoState (H := demo_runtime) (empty_blockchain ProofOfStake "data" "hogo" None).

Definition demo_ops : list account_op :=
  [OpStake "human1" 500; OpStake "nobody" 3; OpBurn 12;
   OpRegisterModel "agentA" "m1" "v1" "" 7 true; OpPurchaseApiKey "human1" "m1" 10;
   OpCreateEscrow "human1" "agentA" 40 "s"; OpCreateEscrow "nobody" "agentA" 5 "s"].

Example demo_ops_escrowed : escrowed (H := demo_runtime) demo_state demo_ops = 40.
Proof. vm_compute. reflexivity. Qed.

Lemma demo_state_sound : sound_ledger (bc_Ledger demo_state).
Proof. apply sound_ledger_b_true. vm_compute. reflexivity. Qed.

Lemma demo_ops_ok : Forall op_ok demo_ops.
Proof. repeat constructor; vm_compute; congruence. Qed.


Lemma demo_rewards : rewards (bc_Ledger demo_state) = 400.
Proof. vm_compute. reflexivity. Qed.

Lemma demo_totals : total_holdings demo_state = 1150000 ∧ bc_TokenSupply demo_state = 1000000000.
Proof. vm_compute. done. Qed.

Lemma demo_supply_u64 : is_u64 (bc_TokenSupply demo_state).
Proof. vm_compute. split; congruence. Qed.

Lemma demo_rewards_fit :
  total_holdings demo_state + rewards (bc_Ledger demo_state) < max_u64 ∧
  bc_TokenSupply demo_state + rewards (bc_Ledger demo_state) < max_u64.
Proof. rewrite demo_rewards. destruct demo_totals as [-> ->]. by vm_compute. Qed.

Lemma distribute_rewards_exact_witness :
  let bc' := DistributeRewards (H := demo_runtime) demo_state in
  (∀ k, bc_Ledger bc' !! k = rewarded <$> bc_Ledger demo_state !! k) ∧
  total_holdings bc' = total_holdings demo_state + rewards (bc_Ledger demo_state) ∧
  bc_TokenSupply bc' = bc_TokenSupply demo_state + rewards (bc_Ledger demo_state).
Proof.
  exact (distribute_rewards_exact demo_state demo_state_sound demo_supply_u64
           (proj1 demo_rewards_fit) (proj2 demo_rewards_fit)).
Defined.

Lemma demo_rewards_nonneg : 0 ≤ minted demo_state SupplyRewards.
Proof. vm_compute. congruence. Qed.

Lemma supply_follows_holdings_witness :
  let bc' := exec_supply_op (H := demo_runtime) demo_state SupplyRewards in
  bc_TokenSupply bc' - total_holdings bc'
  = bc_TokenSupply demo_state - total_holdings demo_state ∧
  bc_TokenSupply demo_state - bc_TokenSupply demo_state `div` 100 ≤ bc_TokenSupply bc' ≤
    bc_TokenSupply demo_state + minted demo_state SupplyRewards.
Proof.
  exact (supply_follows_holdings demo_state SupplyRewards demo_state_sound demo_supply_u64
           demo_rewards_nonneg (proj1 demo_rewards_fit) (proj2 demo_rewards_fit)).
Defined.

(** A validator that has staked everything it had. *)
Definition staked_out : Blockchain :=
  demo_state <| bc_Ledger := {["v" := mkAccount "v" 0 100 false]} |>.

Lemma staked_out_sound : sound_ledger (bc_Ledger staked_out).
Proof. apply sound_ledger_b_true. vm_compute. reflexivity. Qed.

(** Slashing it for one token makes it rich. *)
Lemma slash_exact_witness :
  ∃ a', bc_Ledger (Slash (H := demo_runtime) staked_out "v" 1)
        = <["v" := a']> (bc_Ledger staked_out) ∧
    acc_Staked a' = 100 - 1 ∧
    acc_Balance a' = 0 - slash_penalty 1 + (if 0 <? slash_penalty 1 then max_u64 else 0) ∧
    acc_IsAgent a' = false.
Proof.
  apply (slash_exact (H := demo_runtime) staked_out "v" 1 (mkAccount "v" 0 100 false)).
  - exact staked_out_sound.
  - reflexivity.
  - cbn. lia.
Defined.

Example slash_makes_rich :
  acc_Balance <$> bc_Ledger (Slash (H := demo_runtime) staked_out "v" 1) !! "v"
  = Some 18446744073709551615.
Proof. vm_compute. reflexivity. Qed.

Definition demo_registered : Blockchain :=
  (RegisterUniversalWallet (H := demo_runtime) demo_state " Alice " "addr-1" "main" "TENDER").2.

Lemma demo_registration :
  RegisterUniversalWallet (H := demo_runtime) demo_state " Alice " "addr-1" "main" "TENDER"
  = (Ok (mkUniversalWallet "alice" "addr-1" "main" "TENDER"), demo_registered).
Proof. vm_compute. reflexivity. Qed.

Lemma empty_directory_ok : directory_ok (bc_UniversalWallets demo_state).
Proof.
  assert (bc_UniversalWallets demo_state = ∅) as -> by (vm_compute; reflexivity).
  by split; intros *; rewrite lookup_empty.
Qed.

Lemma register_then_lookup_witness :
  directory_ok (bc_UniversalWallets demo_registered) ∧
  (size (bc_UniversalWallets demo_registered) ≤ 1025)%nat ∧
  (∀ spelling, ToLower (H := demo_runtime) (TrimSpace (H := demo_runtime) spelling)
      = ToLower (H := demo_runtime) (TrimSpace (H := demo_runtime) " Alice ") →
     LookupWallet (H := demo_runtime) demo_registered spelling
     = Ok (mkUniversalWallet "alice" "addr-1" "main" "TENDER")) ∧
  (∀ other uw, LookupWallet (H := demo_runtime) demo_state other = Ok uw →
     LookupWallet (H := demo_runtime) demo_registered other = Ok uw).
Proof.
  exact (register_then_lookup (H := demo_runtime) _ _ _ _ _ _ _ empty_directory_ok demo_registration).
Defined.

Definition demo_genesis : genesisFile :=
  mkgenesisFile "hogo" 0 0 [mkgenesisAllocation "a" "" (2 ^ 63); mkgenesisAllocation "b" "" (2 ^ 63)]
    [mkgenesisValidator "v" "" MinStake].

Lemma demo_genesis_ok : genesis_ok demo_genesis.
Proof.
  split; repeat constructor; try done; try (vm_compute; congruence).
Qed.

(** Two allocations of half the range each leave only the stake. *)
Lemma genesis_accepted_witness :
  ∃ bc', LoadGenesis (H := demo_runtime) demo_state (Ok demo_genesis) = (Ok tt, bc') ∧
    bc_TokenSupply bc' = u64 (sum_over ga_Amount (gf_Allocations demo_genesis) +
                              sum_over gv_Stake (gf_Validators demo_genesis)).
Proof. exact (genesis_accepted demo_state demo_genesis demo_genesis_ok). Defined.

Example genesis_supply_wraps :
  bc_TokenSupply (LoadGenesis (H := demo_runtime) demo_state (Ok demo_genesis)).2 = MinStake.
Proof. vm_compute. reflexivity. Qed.
