(* ===== verification/Validation.v ===== *)
(** * Validation of transactions, blocks and chains
    (go-chain/blockchain/blockchain.go)

    The replay test and the two marks behind it, the checks of a transaction
    by type, of a block against its predecessor and of a whole chain, the fee
    estimate, and [ReplaceChain].  Validation reads the state and never writes
    it; [validate_block_spec] and [linked] are the specifications the two
    larger checks are proved equivalent to. *)

From S2P Require Import Prelude Runtime Float64 Text Sha256 Domain Json Merkle Tendermint State Accounts.
Open Scope Z_scope.
Open Scope go_scope.

(** ** Replays *)

(** [bc.NextNonce[from]], zero when missing. *)
Definition next_nonce (bc : Blockchain) (from : string) : Z :=
  default 0 (bc_NextNonce bc !! from).

Definition used_nonces (bc : Blockchain) (from : string) : gset Z :=
  default ∅ (bc_UsedNonces bc !! from).

Definition isReplay (bc : Blockchain) (tx : Transaction) : bool :=
  if tx_Nonce tx =? 0 then false
  else if bool_decide (tx_Nonce tx ∈ used_nonces bc (tx_From tx)) then true
  else if tx_Nonce tx <? next_nonce bc (tx_From tx) then true
  else false.

Definition markTransactionSeen (bc : Blockchain) (tx : Transaction) : Blockchain :=
  if bool_decide (tx_ID tx = "") then bc else bc <| bc_SeenTxIDs ::= union {[tx_ID tx]} |>.

Definition markTransactionUsed (bc : Blockchain) (tx : Transaction) : Blockchain :=
  if 0 <? tx_Nonce tx then
    let used := used_nonces bc (tx_From tx) in
    let bc := bc <| bc_UsedNonces ::= <[tx_From tx := {[tx_Nonce tx]} ∪ used]> |> in
    if next_nonce bc (tx_From tx) <=? tx_Nonce tx then
      bc <| bc_NextNonce ::= <[tx_From tx := tx_Nonce tx +! 1]> |>
    else bc
  else bc.

(** ** Fees *)

Definition isAITransaction (txType : TransactionType) : bool :=
  match switch_tx txType with
  | CaseRegisterModel | CaseUpdateModel | CasePurchaseApiKey => true
  | _ => false
  end.

(** [float64(bc.AgentTxCount) / float64(bc.TokenSupply) * 1_000_000_000] *)
Definition agent_ratio (bc : Blockchain) : float64 :=
  f64_mul (f64_div (f64_of_Z (bc_AgentTxCount bc)) (f64_of_Z (bc_TokenSupply bc)))
    (f64_of_Z 1000000000).

Definition agents_active (bc : Blockchain) : bool :=
  (0 <? bc_AgentTxCount bc) && (0 <? bc_TokenSupply bc).

(** The value the source computes and discards ([agentBaseDemand + ...]) is
    left out. *)
Definition estimateFee `{Runtime} (bc : Blockchain) (tx : Transaction) (congestion : Z) : Z :=
  let baseComplexity :=
    match switch_tx (tx_TxType tx) with
    | CaseRegisterModel => 3
    | CaseUpdateModel | CasePurchaseApiKey => 2
    | _ => 1
    end in
  let congestionFactor := u64 congestion in
  let congestionFactor := if 10 <? congestionFactor then 10 else congestionFactor in
  let demandFactor :=
    if agents_active bc then
      let d := u64_of_f64 (agent_ratio bc) in if 200 <? d then 200 else d
    else 0 in
  let baseFee := BaseFee +! (baseComplexity *! FeeMultiplier) +! congestionFactor +! demandFactor in
  let baseFee :=
    if 0 <? bc_TokenSupply bc then
      if bc_TokenSupply bc <? 1000000 then baseFee +! 2
      else if 10000000 <? bc_TokenSupply bc then baseFee -! 1
      else baseFee
    else baseFee in
  if isAITransaction (tx_TxType tx) && agents_active bc then
    baseFee +! u64_of_f64 (agent_ratio bc)
  else baseFee.

(** ** Reversals *)

Definition findOriginalTransaction (bc : Blockchain) (txID : string) : option Transaction :=
  list_find (λ tx, tx_ID tx = txID) (mjoin (blk_Transactions <$> bc_Chain bc)) ≫= λ p, Some p.2.

Definition validateRequestReversal (bc : Blockchain) (tx : Transaction) : bool :=
  if (tx_Amount tx =? 0) || bool_decide (tx_Payload tx = "") then false else
  if bool_decide (tx_Payload tx ∈ bc_IrreversibleTxs bc) then false else
  match findOriginalTransaction bc (tx_Payload tx) with
  | None => false
  | Some original =>
      if negb (bool_decide (tx_From original = tx_From tx)) ||
         negb (bool_decide (tx_To original = tx_To tx)) ||
         negb (tx_Amount original =? tx_Amount tx) then false else
      if negb (bool_decide (tx_TxType original = Transfer)) then false else
      match bc_Ledger bc !! tx_To tx with
      | None => false
      | Some receiver =>
          if acc_Balance receiver <? tx_Amount tx then false else
          match bc_PendingReversals bc !! tx_Payload tx with
          | Some _ => false
          | None => true
          end
      end
  end.

Definition validateConfirmReversal (bc : Blockchain) (tx : Transaction) : bool :=
  if bool_decide (tx_Payload tx = "") then false else
  match bc_PendingReversals bc !! tx_Payload tx with
  | None => false
  | Some reversal =>
      if negb (bool_decide (rev_Status reversal = "requested")) then false else
      if negb (bool_decide (rev_To reversal = tx_From tx)) then false else true
  end.

Definition validateCommitReversal (bc : Blockchain) (tx : Transaction) : bool :=
  if bool_decide (tx_Payload tx = "") then false else
  match bc_PendingReversals bc !! tx_Payload tx with
  | None => false
  | Some reversal =>
      if negb (bool_decide (rev_Status reversal = "confirmed")) then false else
      if negb (bool_decide (rev_From reversal = tx_From tx)) &&
         negb (bool_decide (rev_To reversal = tx_From tx)) then false else true
  end.

(** ** Transactions and blocks *)

Section validation.
Context `{Ed25519}.

Definition validateTransaction (bc : Blockchain) (tx : Transaction) : bool :=
  if negb (bool_decide (tx_ChainID tx = bc_ChainID bc)) then false else
  if negb (VerifyTransaction tx) then false else
  if isReplay bc tx then false else
  match bc_Ledger bc !! tx_From tx with
  | None => false
  | Some sender =>
      if negb (bool_decide (tx_From tx = tx_To tx)) && (tx_Amount tx =? 0) then false else
      if isAITransaction (tx_TxType tx) && (acc_Balance sender <? AgentMinBalance) then false else
      match switch_tx (tx_TxType tx) with
      | CaseTransfer =>
          match bc_Ledger bc !! tx_To tx with
          | Some _ => tx_Amount tx <=? acc_Balance sender
          | None => false
          end
      | CaseRegisterModel =>
          acc_IsAgent sender && negb (bool_decide (is_Some (bc_Registry bc !! tx_To tx))) &&
          (AIModelStake <=? acc_Staked sender)
      | CaseUpdateModel =>
          match bc_Registry bc !! tx_To tx with
          | Some entry =>
              bool_decide (mdl_Owner entry = tx_From tx) && (AIModelStake <=? acc_Staked sender)
          | None => false
          end
      | CasePurchaseApiKey =>
          match bc_Registry bc !! tx_To tx with
          | Some entry => (tx_Amount tx <=? acc_Balance sender) && mdl_Active entry
          | None => false
          end
      | CaseRequestReversal => validateRequestReversal bc tx
      | CaseConfirmReversal => validateConfirmReversal bc tx
      | CaseCommitReversal => validateCommitReversal bc tx
      | CaseDefault => false
      end
  end.

(** The transaction loop of [validateBlock]. *)
Fixpoint validate_txs (bc : Blockchain) (seen : gset string) (txs : list Transaction)
    : outcome unit :=
  match txs with
  | [] => Ok tt
  | tx :: txs =>
      if bool_decide (tx_ID tx = "") then Err "missing transaction id" else
      if bool_decide (tx_ID tx ∈ seen) then Err "duplicate transaction" else
      if blen (CanonicalSigningBytes tx) =? 0 then Err "missing canonical signing bytes" else
      if negb (validateTransaction bc tx) then Err "invalid transaction" else
      validate_txs bc ({[tx_ID tx]} ∪ seen) txs
  end.

(** The test of the author, for proof of stake only. *)
Definition author_ok (bc : Blockchain) (author : string) : bool :=
  if bool_decide (bc_Consensus bc = ProofOfStake) && negb (bool_decide (author = "")) then
    bool_decide (is_Some (bc_Validators bc !! author)) || isAuthority bc author ||
    bool_decide (is_Some (bc_Ledger bc !! author))
  else true.

Definition validateBlock (bc : Blockchain) (block prev : Block) : outcome unit :=
  if negb (blk_Index block =? blk_Index prev +! 1) then Err "invalid index" else
  if negb (bool_decide (blk_PreviousHash block = blk_BlockHash prev)) then
    Err "invalid previous hash" else
  if bool_decide (blk_BlockHash block = "") then Err "missing block hash" else
  if negb (bool_decide (blk_TxMerkleRoot block = "")) &&
     negb (bool_decide (CalculateMerkleRoot (blk_Transactions block) = blk_TxMerkleRoot block))
  then Err "invalid merkle root" else
  if negb (bool_decide (calculateHash block = blk_BlockHash block)) then
    Err "invalid block hash" else
  _ ← validate_txs bc ∅ (blk_Transactions block);
  if author_ok bc (blk_Author block) then Ok tt
  else Err "block author is not an active validator".

(** ** Chains *)

Fixpoint validate_links (bc : Blockchain) (prev : Block) (chain : list Block) : outcome unit :=
  match chain with
  | [] => Ok tt
  | block :: chain => _ ← validateBlock bc block prev; validate_links bc block chain
  end.

Definition validateChain (bc : Blockchain) (chain : list Block) : outcome unit :=
  match chain with
  | [] => Err "empty chain"
  | genesis :: rest =>
      if negb (blk_Index genesis =? 0) then Err "invalid genesis" else validate_links bc genesis rest
  end.

Definition ReplaceChain `{Runtime} (bc : Blockchain) (newChain : list Block) : bool * Blockchain :=
  match validateChain bc newChain with
  | Ok _ =>
      if blen newChain <=? blen (bc_Chain bc) then (false, bc) else
      let bc := bc <| bc_Chain := newChain |> in
      let bc := appendAuditEntry bc "chain_replaced" "network"
                  ("height=" +:+ FormatInt (blen newChain)) in
      (true, (SaveToDisk bc).2)
  | _ => (false, bc)
  end.
End validation.

(** ** Replay protection *)

Implicit Types (bc : Blockchain) (tx : Transaction) (block prev : Block) (chain : list Block).

Lemma isReplay_used bc tx :
  tx_Nonce tx ≠ 0 → tx_Nonce tx ∈ used_nonces bc (tx_From tx) → isReplay bc tx = true.
Proof.
  intros Hn Hu. unfold isReplay. apply Z.eqb_neq in Hn. rewrite Hn.
  by rewrite bool_decide_true.
Qed.

Lemma isReplay_next bc tx :
  0 < tx_Nonce tx < next_nonce bc (tx_From tx) → isReplay bc tx = true.
Proof.
  intros [Hn Hu]. unfold isReplay. apply Z.ltb_lt in Hu. rewrite Hu.
  destruct (tx_Nonce tx =? 0) eqn:E; prop_bools; [lia|]. by case_match.
Qed.

Lemma used_nonces_mark bc tx from n :
  n ∈ used_nonces (markTransactionUsed bc tx) from ↔
  n ∈ used_nonces bc from ∨ (n = tx_Nonce tx ∧ from = tx_From tx ∧ 0 < tx_Nonce tx).
Proof.
  unfold markTransactionUsed. destruct (0 <? tx_Nonce tx) eqn:E; prop_bools; [|naive_solver lia].
  transitivity (n ∈ default ∅ (<[tx_From tx := {[tx_Nonce tx]} ∪ used_nonces bc (tx_From tx)]>
    (bc_UsedNonces bc) !! from)); [by case_match|].
  destruct (decide (tx_From tx = from)) as [->|Hne].
  - rewrite lookup_insert_eq. simpl. set_solver by lia.
  - rewrite lookup_insert_ne by done. unfold used_nonces. naive_solver.
Qed.

Lemma next_nonce_mark bc tx :
  is_u64 (tx_Nonce tx) → 0 < tx_Nonce tx → tx_Nonce tx + 1 < max_u64 →
  tx_Nonce tx < next_nonce (markTransactionUsed bc tx) (tx_From tx).
Proof.
  intros Hu Hn Hlt. unfold markTransactionUsed. apply Z.ltb_lt in Hn as Hn'. rewrite Hn'.
  case_match; prop_bools.
  - unfold next_nonce. cbn [bc_NextNonce update]. rewrite lookup_insert_eq. simpl.
    rewrite u64_small by u64_lia. lia.
  - done.
Qed.

(** ** What a valid block is *)

Section specifications.
Context `{Ed25519}.

Record block_valid (bc : Blockchain) (block prev : Block) : Prop := {
  bv_index : blk_Index block = blk_Index prev +! 1;
  bv_previous : blk_PreviousHash block = blk_BlockHash prev;
  bv_hash : blk_BlockHash block = calculateHash block;
  bv_merkle : blk_TxMerkleRoot block = "" ∨
              blk_TxMerkleRoot block = CalculateMerkleRoot (blk_Transactions block);
  bv_ids : Forall (λ tx, tx_ID tx ≠ "") (blk_Transactions block);
  bv_unique : NoDup (map tx_ID (blk_Transactions block));
  bv_txs : Forall (λ tx, validateTransaction bc tx = true) (blk_Transactions block);
  bv_author : bc_Consensus bc = ProofOfStake → blk_Author block ≠ "" →
    is_Some (bc_Validators bc !! blk_Author block) ∨ blk_Author block ∈ bc_Authorities bc ∨
    is_Some (bc_Ledger bc !! blk_Author block);
}.

Lemma canonical_not_empty tx : (blen (CanonicalSigningBytes tx) =? 0) = false.
Proof.
  apply Z.eqb_neq. unfold CanonicalSigningBytes.
  rewrite bytes_of_string_app, blen_app.
  rewrite (bytes_of_string_app nul), blen_app.
  pose proof (blen_nonneg (bytes_of_string (tx_ChainID tx))).
  change (blen (bytes_of_string nul)) with 1.
  match goal with |- context [1 + blen ?l] => pose proof (blen_nonneg l) end. lia.
Qed.

Lemma validate_txs_Ok bc seen txs :
  validate_txs bc seen txs = Ok tt ↔
  Forall (λ tx, tx_ID tx ≠ "") txs ∧ NoDup (map tx_ID txs) ∧
  Forall (λ tx, tx_ID tx ∉ seen) txs ∧ Forall (λ tx, validateTransaction bc tx = true) txs.
Proof.
  revert seen. induction txs as [|tx txs IH]; intros seen; cbn [validate_txs map].
  { split; [|done]. intros _. repeat split; constructor. }
  rewrite canonical_not_empty, !Forall_cons, NoDup_cons, list_elem_of_fmap.
  case_bool_decide as H1; [naive_solver|]. case_bool_decide as H2; [naive_solver|].
  destruct (validateTransaction bc tx) eqn:H3; simpl; [|naive_solver].
  rewrite IH, !Forall_forall. split.
  - intros (Hid & Hnd & Hseen & Hv). repeat split; try done.
    + intros (y & Ey & Hy). apply (Hseen y Hy). rewrite Ey. set_solver.
    + intros y Hy. specialize (Hseen y Hy). set_solver.
  - intros ([_ Hid] & [Hni Hnd] & [_ Hseen] & [_ Hv]). repeat split; try done.
    intros y Hy [Ey%elem_of_singleton|Hin]%elem_of_union; [|by eapply Hseen].
    apply Hni. eauto.
Qed.

Lemma isAuthority_true bc a : isAuthority bc a = true ↔ a ∈ bc_Authorities bc.
Proof.
  unfold isAuthority. rewrite existsb_exists. split.
  - intros (x & Hx & E). prop_bools. subst. by apply list_elem_of_In.
  - intros Hx. exists a. split; [by apply list_elem_of_In|]. by apply bool_decide_eq_true_2.
Qed.

Lemma author_ok_true bc author :
  author_ok bc author = true ↔
  (bc_Consensus bc = ProofOfStake → author ≠ "" →
   is_Some (bc_Validators bc !! author) ∨ author ∈ bc_Authorities bc ∨
   is_Some (bc_Ledger bc !! author)).
Proof.
  unfold author_ok. rewrite <- isAuthority_true.
  destruct (_ && _) eqn:E; prop_bools.
  - rewrite !orb_true_iff, !bool_decide_eq_true. naive_solver.
  - split; [|done]. intros _ Hc Ha. rewrite bool_decide_true in E by done.
    rewrite bool_decide_false in E by done. done.
Qed.

Lemma validateBlock_Ok bc block prev :
  validateBlock bc block prev = Ok tt ↔ block_valid bc block prev.
Proof.
  unfold validateBlock. split.
  - destruct (negb (_ =? _)) eqn:E1; [done|]. destruct (negb (bool_decide _)) eqn:E2; [done|].
    destruct (bool_decide (blk_BlockHash block = "")) eqn:E3; [done|].
    destruct (_ && _) eqn:E4; [done|]. destruct (negb (bool_decide _)) eqn:E5 in |- *; [done|].
    destruct (validate_txs _ _ _) as [[]|e|e] eqn:Et; [|done..]. simpl.
    destruct (author_ok _ _) eqn:Ea; [|done]. intros _.
    apply validate_txs_Ok in Et as (? & ? & _ & ?). pose proof (proj1 (author_ok_true bc _) Ea).
    apply andb_false_iff in E4. prop_bools. split; try done.
    destruct E4; prop_bools; auto.
  - intros [Hi Hp Hh Hm Hid Hnd Htx Ha].
    rewrite Hi, Z.eqb_refl, (bool_decide_true (blk_PreviousHash block = _)) by done. simpl.
    rewrite (bool_decide_false (blk_BlockHash block = "")); cycle 1.
    { rewrite Hh. apply calculateHash_not_empty. }
    assert (negb (bool_decide (blk_TxMerkleRoot block = "")) && negb (bool_decide
      (CalculateMerkleRoot (blk_Transactions block) = blk_TxMerkleRoot block)) = false) as ->.
    { apply andb_false_iff. destruct Hm as [->| ->]; [left|right]; by rewrite bool_decide_true. }
    rewrite (bool_decide_true (calculateHash block = _)) by done. simpl.
    rewrite (proj2 (validate_txs_Ok bc ∅ _)); [|repeat split; try done].
    + simpl. by rewrite (proj2 (author_ok_true bc _) Ha).
    + apply Forall_forall. set_solver.
Qed.

(** Consecutive blocks of a list. *)
Definition linked (bc : Blockchain) (chain : list Block) : Prop :=
  ∀ i prev block, chain !! i = Some prev → chain !! S i = Some block → block_valid bc block prev.

Lemma linked_cons bc b0 b1 chain :
  linked bc (b0 :: b1 :: chain) ↔ block_valid bc b1 b0 ∧ linked bc (b1 :: chain).
Proof.
  split.
  - intros Hl. split; [by apply (Hl 0%nat)|]. intros i. apply (Hl (S i)).
  - intros [H1 Hl] [|i] p q; simpl; [congruence|]. apply Hl.
Qed.

Lemma validate_links_Ok bc prev chain :
  validate_links bc prev chain = Ok tt ↔ linked bc (prev :: chain).
Proof.
  revert prev. induction chain as [|b chain IH]; intros prev; simpl.
  { split; [|done]. intros _ [|i]; naive_solver. }
  rewrite linked_cons, <- IH, <- validateBlock_Ok.
  destruct (validateBlock bc b prev) as [[]|e|e]; simpl; naive_solver.
Qed.

Lemma validateChain_Ok bc chain :
  validateChain bc chain = Ok tt ↔
  ∃ genesis, head chain = Some genesis ∧ blk_Index genesis = 0 ∧ linked bc chain.
Proof.
  destruct chain as [|g rest]; simpl; [naive_solver|].
  destruct (blk_Index g =? 0) eqn:E; prop_bools; simpl; [rewrite validate_links_Ok|]; naive_solver.
Qed.

(** [validateBlock] accepts a block exactly when it continues
    its predecessor (index and hash), its hash is its own, its Merkle root is
    empty or right, its transaction IDs are non-empty and pairwise different,
    every transaction validates in the current state, and under proof of stake
    its author is a validator, an authority or an account. *)
Theorem validateBlock_spec bc block prev :
  validateBlock bc block prev = Ok tt ↔ block_valid bc block prev.
Proof. apply validateBlock_Ok. Qed.

Lemma linked_index bc chain genesis i block :
  linked bc chain → head chain = Some genesis → blk_Index genesis = 0 →
  chain !! i = Some block → Z.of_nat i < max_u64 → blk_Index block = Z.of_nat i.
Proof.
  intros Hl Hg H0. revert block. induction i as [|i IH]; intros block Hi Hlt.
  - destruct chain; simplify_eq/=. done.
  - destruct (lookup_lt_is_Some_2 chain i) as [prev Hp].
    { apply lookup_lt_Some in Hi. lia. }
    destruct (Hl i prev block Hp Hi) as [E _ _ _ _ _ _ _].
    rewrite E, (IH prev Hp) by lia. rewrite u64_small by u64_lia. lia.
Qed.

(** C2. In a chain of at most 2^64 blocks accepted by [validateChain] the block at
    position [i] carries index [i], and every block after the first names the hash of
    the block before it, carries its own hash, and has valid transactions with
    different IDs. *)
Theorem validated_chain bc chain i block :
  validateChain bc chain = Ok tt → blen chain ≤ max_u64 → chain !! i = Some block →
  blk_Index block = Z.of_nat i ∧
  ∀ j, i = S j → ∃ prev, chain !! j = Some prev ∧
    blk_PreviousHash block = blk_BlockHash prev ∧
    blk_BlockHash block = calculateHash block ∧
    NoDup (map tx_ID (blk_Transactions block)) ∧
    Forall (λ tx, validateTransaction bc tx = true) (blk_Transactions block).
Proof.
  intros (g & Hg & H0 & Hl)%validateChain_Ok Hlen Hi. split.
  - eapply linked_index; [done..|]. apply lookup_lt_Some in Hi. unfold blen in Hlen. lia.
  - intros j ->. destruct (lookup_lt_is_Some_2 chain j) as [prev Hp].
    { apply lookup_lt_Some in Hi. lia. }
    exists prev. destruct (Hl j prev block Hp Hi). done.
Qed.

(** Two chains with different blocks of the same hash. *)
Definition block_collision (c1 c2 : list Block) : Prop :=
  ∃ b1 b2, b1 ∈ c1 ∧ b2 ∈ c2 ∧ b1 ≠ b2 ∧ calculateHash b1 = calculateHash b2.

Lemma linked_binding bc1 bc2 g1 g2 c1 c2 :
  length c1 = length c2 → linked bc1 (g1 :: c1) → linked bc2 (g2 :: c2) →
  blk_BlockHash <$> last (g1 :: c1) = blk_BlockHash <$> last (g2 :: c2) →
  (c1 = c2 ∧ blk_BlockHash g1 = blk_BlockHash g2) ∨ block_collision c1 c2.
Proof.
  revert g1 g2 c2. induction c1 as [|b1 c1 IH]; intros g1 g2 [|b2 c2]; try done.
  { intros _ _ _ [= E]. by left. }
  intros [= Hlen] [V1 L1]%linked_cons [V2 L2]%linked_cons Hlast.
  destruct (IH b1 b2 c2 Hlen L1 L2) as [[-> E]|(x & y & ? & ? & ?)].
  { exact Hlast. }
  - destruct (decide (b1 = b2)) as [->|Hne].
    + left. split; [done|]. by rewrite <- (bv_previous _ _ _ V1), <- (bv_previous _ _ _ V2).
    + right. exists b1, b2. split; [by left|]. split; [by left|]. split; [done|].
      by rewrite <- (bv_hash _ _ _ V1), <- (bv_hash _ _ _ V2).
  - right. exists x, y. split; [by right|]. split; [by right|]. done.
Qed.

(** A block after genesis that has the hash of the genesis block [g]: the hash of a
    genesis block is the hash of another text, so this too is a collision. *)
Definition meets_genesis (g : Block) (chain : list Block) : Prop :=
  ∃ b, b ∈ chain ∧ calculateHash b = blk_BlockHash g.

Lemma linked_last_hash bc g chain b :
  linked bc (g :: chain) → last chain = Some b → blk_BlockHash b = calculateHash b.
Proof.
  intros Hl Hb. rewrite last_lookup in Hb. destruct chain as [|b' chain]; [done|].
  destruct (lookup_lt_is_Some_2 (g :: b' :: chain) (length chain)) as [prev Hp]; [cbn; lia|].
  exact (bv_hash _ _ _ (Hl _ _ _ Hp Hb)).
Qed.

Lemma linked_last_index bc g chain b :
  linked bc (g :: chain) → blk_Index g = 0 → blen (g :: chain) ≤ max_u64 → last chain = Some b →
  blk_Index b = blen chain.
Proof.
  intros Hl Hg Hn Hb. rewrite last_lookup in Hb. destruct chain as [|b' chain]; [done|].
  rewrite (linked_index bc (g :: b' :: chain) g (S (length chain)) b Hl eq_refl Hg Hb).
  - done.
  - unfold blen in Hn. cbn [length] in Hn. lia.
Qed.

Lemma last_cons_tail {A} (x : A) l : l ≠ [] → last (x :: l) = last l.
Proof. by destruct l. Qed.

(** C5. The hash of the last block commits to the whole history, whatever the lengths:
    two accepted chains of at most 2^64 blocks with one tail hash have the same blocks
    after genesis and the same genesis hash, unless they contain two different blocks
    with the same SHA-256 block hash, or one of them contains a block after genesis
    with the hash of the genesis block of the other, which nothing checks. *)
Theorem tail_hash_binds bc1 bc2 g1 g2 c1 c2 :
  validateChain bc1 (g1 :: c1) = Ok tt → validateChain bc2 (g2 :: c2) = Ok tt →
  blen (g1 :: c1) ≤ max_u64 → blen (g2 :: c2) ≤ max_u64 →
  TailHash (bc1 <| bc_Chain := g1 :: c1 |>) = TailHash (bc2 <| bc_Chain := g2 :: c2 |>) →
  (c1 = c2 ∧ blk_BlockHash g1 = blk_BlockHash g2) ∨ block_collision c1 c2 ∨
  meets_genesis g1 c2 ∨ meets_genesis g2 c1.
Proof.
  intros (? & [= <-] & I1 & L1)%validateChain_Ok (? & [= <-] & I2 & L2)%validateChain_Ok N1 N2 Htail.
  unfold TailHash in Htail. cbn [bc_Chain update] in Htail.
  destruct (last c1) as [b1|] eqn:E1, (last c2) as [b2|] eqn:E2;
    [|apply last_None in E2 as ->|apply last_None in E1 as ->|apply last_None in E1 as ->, E2 as ->].
  - rewrite !last_cons_tail, E1, E2 in Htail by (intros ->; done).
    destruct (decide (b1 = b2)) as [<-|Hne].
    + assert (length c1 = length c2) as Hlen.
      { pose proof (linked_last_index _ _ _ _ L1 I1 N1 E1). pose proof (linked_last_index _ _ _ _ L2 I2 N2 E2).
        unfold blen in *. lia. }
      destruct (linked_binding bc1 bc2 g1 g2 c1 c2 Hlen L1 L2) as [?|?]; [|by left|by right; left].
      by rewrite !last_cons_tail, E1, E2 by (intros ->; done).
    + right. left. exists b1, b2. apply last_Some_elem_of in E1 as Hin1, E2 as Hin2.
      by rewrite <- (linked_last_hash _ _ _ _ L1 E1), <- (linked_last_hash _ _ _ _ L2 E2).
  - do 3 right. exists b1. split; [by apply last_Some_elem_of|].
    rewrite last_cons_tail, E1 in Htail by (intros ->; done).
    by rewrite <- (linked_last_hash _ _ _ _ L1 E1).
  - do 2 right. left. exists b2. split; [by apply last_Some_elem_of|].
    rewrite (last_cons_tail g2), E2 in Htail by (intros ->; done).
    by rewrite <- (linked_last_hash _ _ _ _ L2 E2).
  - left. by split.
Qed.

(** ** Replacing the chain *)

Context `{Runtime}.

(** [ReplaceChain] adopts a chain exactly when it validates in the
    current state and is strictly longer; otherwise nothing changes.  On
    success only the chain and the audit trail change: balances, supply,
    nonces, pending transactions and validators stay those of the chain that
    was replaced. *)
Theorem replace_chain_spec bc newChain :
  let '(ok, bc') := ReplaceChain bc newChain in
  (ok = true ↔ validateChain bc newChain = Ok tt ∧ blen (bc_Chain bc) < blen newChain) ∧
  (ok = false → bc' = bc) ∧
  (ok = true → bc_Chain bc' = newChain ∧ bc_Ledger bc' = bc_Ledger bc ∧
     bc_TokenSupply bc' = bc_TokenSupply bc ∧ bc_UsedNonces bc' = bc_UsedNonces bc ∧
     bc_NextNonce bc' = bc_NextNonce bc ∧ bc_Pending bc' = bc_Pending bc ∧
     bc_Validators bc' = bc_Validators bc ∧ bc_FinalizedBlocks bc' = bc_FinalizedBlocks bc).
Proof.
  unfold ReplaceChain. destruct (validateChain bc newChain) as [[]|e|e]; [|naive_solver..].
  destruct (blen newChain <=? blen (bc_Chain bc)) eqn:E; prop_bools; [naive_solver lia|].
  split; [naive_solver|]. split; [done|]. intros _.
  unfold SaveToDisk. by repeat case_match.
Qed.

Lemma linked_no_replay bc chain i prev block tx :
  linked bc chain → chain !! i = Some prev → chain !! S i = Some block →
  tx ∈ blk_Transactions block → isReplay bc tx = false.
Proof.
  intros Hl Hp Hb Htx. destruct (Hl i prev block Hp Hb) as [_ _ _ _ _ _ Hv _].
  rewrite Forall_forall in Hv. specialize (Hv tx Htx). unfold validateTransaction in Hv.
  destruct (negb (bool_decide (tx_ChainID tx = _))); [done|].
  destruct (negb (VerifyTransaction tx)); [done|]. by destruct (isReplay bc tx).
Qed.

(** A chain that contains, after its first block, a transaction
    whose nonce the node has already applied is never adopted, however long:
    the replay check runs against the current nonces, so a longer chain that
    extends the node's own history of numbered transactions is refused. *)
Theorem applied_history_refused bc newChain i block tx :
  newChain !! S i = Some block → tx ∈ blk_Transactions block →
  tx_Nonce tx ≠ 0 → tx_Nonce tx ∈ used_nonces bc (tx_From tx) →
  ReplaceChain bc newChain = (false, bc).
Proof.
  intros Hb Htx Hn Hu. unfold ReplaceChain.
  destruct (validateChain bc newChain) as [[]|e|e] eqn:Ev; [|done..]. exfalso.
  apply validateChain_Ok in Ev as (g & _ & _ & Hl).
  destruct (lookup_lt_is_Some_2 newChain i) as [prev Hp].
  { apply lookup_lt_Some in Hb. lia. }
  pose proof (linked_no_replay _ _ _ _ _ _ Hl Hp Hb Htx) as Hr.
  by rewrite isReplay_used in Hr.
Qed.

(** ** Fees *)

(** The fee of a transaction that is not an AI transaction lies
    between 50,000,001 and 50,000,214 subunits, whatever the congestion, the
    supply and the agent activity: the floating-point demand term is capped
    and no step wraps. *)
Theorem estimateFee_bounds bc tx congestion :
  isAITransaction (tx_TxType tx) = false →
  50000001 ≤ estimateFee bc tx congestion ≤ 50000214.
Proof.
  intros Hai. unfold estimateFee. rewrite Hai. cbv zeta. simpl andb.
  assert (switch_tx (tx_TxType tx) ≠ CaseRegisterModel ∧
          switch_tx (tx_TxType tx) ≠ CaseUpdateModel ∧
          switch_tx (tx_TxType tx) ≠ CasePurchaseApiKey) as (N1 & N2 & N3).
  { unfold isAITransaction in Hai. by destruct (switch_tx _). }
  set (base := match switch_tx (tx_TxType tx) with CaseRegisterModel => 3 | _ => _ end).
  assert (base = 1) as -> by (subst base; by destruct (switch_tx _)).
  set (cf := if 10 <? u64 congestion then 10 else u64 congestion).
  assert (0 ≤ cf ≤ 10) as Hcf.
  { subst cf. pose proof (u64_range congestion) as [??]. case_match; prop_bools; lia. }
  set (df := if agents_active bc then _ else 0).
  assert (0 ≤ df ≤ 200) as Hdf.
  { subst df. pose proof (u64_of_f64_range (agent_ratio bc)) as [??].
    repeat case_match; prop_bools; lia. }
  change (BaseFee +! (1 *! FeeMultiplier)) with 50000002.
  rewrite (u64_small (50000002 + cf)) by u64_lia.
  rewrite (u64_small (50000002 + cf + df)) by u64_lia.
  rewrite !u64_small by u64_lia.
  repeat case_match; lia.
Qed.
End specifications.

(** ** Examples *)

Definition demo_alice : string := WalletAddress (@NewWallet demo_ed25519 7).

Definition demo_genesis_block : Block := mkBlock 0 "genesis" "" "0" 1700000000 [] 0 "g" "".

(** A node with two accounts and a genesis block. *)
Definition demo_node : Blockchain :=
  (empty_blockchain ProofOfStake "data" "tender" None)
    <| bc_Ledger := {[demo_alice := mkAccount demo_alice 1000000000 0 false;
                      "bob" := mkAccount "bob" 20 0 false]} |>
    <| bc_Chain := [demo_genesis_block] |>.

Definition seal (b : Block) : Block := b <| blk_BlockHash := calculateHash b |>.

Definition demo_block1 : Block :=
  seal (mkBlock 1 demo_alice demo_alice "g" 1700000005 [demo_signed] 0 ""
          (CalculateMerkleRoot [demo_signed])).

Definition demo_chain : list Block := [demo_genesis_block; demo_block1].

Lemma demo_chain_valid : @validateChain demo_ed25519 demo_node demo_chain = Ok tt.
Proof. vm_compute. reflexivity. Qed.

Lemma demo_chain_short : blen demo_chain ≤ max_u64.
Proof. vm_compute. congruence. Qed.

Lemma validated_chain_witness :
  blk_Index demo_block1 = Z.of_nat 1 ∧
  ∀ j, 1%nat = S j → ∃ prev, demo_chain !! j = Some prev ∧
    blk_PreviousHash demo_block1 = blk_BlockHash prev ∧
    blk_BlockHash demo_block1 = calculateHash demo_block1 ∧
    NoDup (map tx_ID (blk_Transactions demo_block1)) ∧
    Forall (λ tx, @validateTransaction demo_ed25519 demo_node tx = true)
      (blk_Transactions demo_block1).
Proof.
  exact (@validated_chain demo_ed25519 demo_node demo_chain 1 demo_block1
           demo_chain_valid demo_chain_short eq_refl).
Defined.

Lemma tail_hash_binds_witness :
  ([demo_block1] = [demo_block1] ∧
   blk_BlockHash demo_genesis_block = blk_BlockHash demo_genesis_block) ∨
  block_collision [demo_block1] [demo_block1] ∨
  meets_genesis demo_genesis_block [demo_block1] ∨ meets_genesis demo_genesis_block [demo_block1].
Proof.
  exact (@tail_hash_binds demo_ed25519 demo_node demo_node demo_genesis_block demo_genesis_block
           [demo_block1] [demo_block1] demo_chain_valid demo_chain_valid demo_chain_short demo_chain_short
           eq_refl).
Defined.

(** The node after it has applied the transfer of [demo_block1]. *)
Definition demo_applied : Blockchain := markTransactionUsed demo_node demo_signed.

Lemma demo_nonce_used : tx_Nonce demo_signed ∈ used_nonces demo_applied (tx_From demo_signed).
Proof. apply used_nonces_mark. right. by vm_compute. Qed.

Lemma demo_signed_in_block : demo_signed ∈ blk_Transactions demo_block1.
Proof. by left. Qed.

(** It refuses the chain it built itself, one block longer. *)
Lemma applied_history_refused_witness :
  @ReplaceChain demo_ed25519 demo_runtime demo_applied demo_chain = (false, demo_applied).
Proof.
  apply (@applied_history_refused demo_ed25519 demo_runtime demo_applied demo_chain 0
           demo_block1 demo_signed).
  - reflexivity.
  - exact demo_signed_in_block.
  - vm_compute. congruence.
  - exact demo_nonce_used.
Defined.

Lemma estimateFee_bounds_witness :
  50000001 ≤ @estimateFee demo_runtime demo_node demo_signed 3 ≤ 50000214.
Proof. apply (@estimateFee_bounds demo_runtime demo_node demo_signed 3). reflexivity. Defined.
