(* ===== verification/Apply.v ===== *)
(** * Applying blocks (go-chain/blockchain/blockchain.go)

    [applyBlock] and [ProcessReversals], the only code through which the
    transactions of a block change the state, and [UniversalTransfer], which
    builds and applies a block of its own.

    [apply_tx] and [process_reversal] are one round of the two loops.  The
    reversal protocol is the state machine requested, confirmed, gone on the
    entries of [PendingReversals]. *)

From S2P Require Import Prelude Runtime Float64 Text Sha256 Domain Json Merkle Tendermint State Accounts Validation.
Open Scope Z_scope.
Open Scope go_scope.

Section apply.
Context `{Runtime}.

Definition apply_tx (bc : Blockchain) (tx : Transaction) : Blockchain :=
  let bc := markTransactionSeen bc tx in
  let bc := markTransactionUsed bc tx in
  match switch_tx (tx_TxType tx) with
  | CaseTransfer =>
      if can_pay bc (tx_From tx) (tx_To tx) (tx_Amount tx)
      then move (tx_From tx) (tx_To tx) (tx_Amount tx) bc else bc
  | CaseRegisterModel =>
      let cid := model_cid (tx_To tx) (tx_From tx) (tx_Payload tx) in
      let entry := mkModelRef (tx_To tx) (tx_From tx) cid true (tx_Amount tx) in
      count_agent_tx (bc <| bc_Registry ::= <[tx_To tx := entry]> |>)
  | CaseUpdateModel =>
      let entry := default zero_ModelRef (bc_Registry bc !! tx_To tx) in
      let cid := model_cid (tx_To tx) (tx_From tx) (tx_Payload tx) in
      let entry := entry <| mdl_CID := cid |> <| mdl_PricePerCall := tx_Amount tx |> in
      count_agent_tx (bc <| bc_Registry ::= <[tx_To tx := entry]> |>)
  | CasePurchaseApiKey =>
      let entry := default zero_ModelRef (bc_Registry bc !! tx_To tx) in
      let bc :=
        if can_pay bc (tx_From tx) (mdl_Owner entry) (tx_Amount tx)
        then move (tx_From tx) (mdl_Owner entry) (tx_Amount tx) bc else bc in
      count_agent_tx bc
  | _ => bc
  end.

Definition process_reversal (bc : Blockchain) (tx : Transaction) : Blockchain :=
  match switch_tx (tx_TxType tx) with
  | CaseRequestReversal =>
      match bc_PendingReversals bc !! tx_Payload tx with
      | Some _ => bc
      | None =>
          let r := mkPendingReversal (tx_ID tx) (tx_Payload tx) (tx_From tx) (tx_To tx)
                     (tx_Amount tx) (tx_From tx) "" "requested" false in
          let bc := bc <| bc_PendingReversals ::= <[tx_Payload tx := r]> |> in
          appendAuditEntry bc "reversal_requested" (tx_From tx)
            ("original_tx=" +:+ tx_Payload tx +:+ " amount=" +:+ FormatInt (tx_Amount tx))
      end
  | CaseConfirmReversal =>
      match bc_PendingReversals bc !! tx_Payload tx with
      | None => bc
      | Some reversal =>
          if bool_decide (rev_Status reversal = "requested") then
            let reversal := reversal <| rev_Status := "confirmed" |>
                                     <| rev_Confirmer := tx_From tx |> in
            let bc := bc <| bc_PendingReversals ::= <[tx_Payload tx := reversal]> |> in
            appendAuditEntry bc "reversal_confirmed" (tx_From tx)
              ("original_tx=" +:+ tx_Payload tx)
          else bc
      end
  | CaseCommitReversal =>
      match bc_PendingReversals bc !! tx_Payload tx with
      | None => bc
      | Some reversal =>
          if bool_decide (rev_Status reversal = "confirmed") then
            if can_pay bc (rev_To reversal) (rev_From reversal) (rev_Amount reversal) then
              let bc := move (rev_To reversal) (rev_From reversal) (rev_Amount reversal) bc in
              let bc := bc <| bc_PendingReversals ::= delete (tx_Payload tx) |> in
              appendAuditEntry bc "reversal_committed" (tx_From tx)
                ("original_tx=" +:+ tx_Payload tx +:+ " amount=" +:+ FormatInt (rev_Amount reversal))
            else bc
          else bc
      end
  | _ => bc
  end.

Definition ProcessReversals (bc : Blockchain) (block : Block) : Blockchain :=
  foldl process_reversal bc (blk_Transactions block).

Definition applyBlock (bc : Blockchain) (block : Block) : Blockchain :=
  ProcessReversals (foldl apply_tx bc (blk_Transactions block)) block.

Definition UniversalTransfer (bc : Blockchain) (fromWallet toName currency : string) (amount : Z)
    : outcome UniversalWallet * Blockchain :=
  if amount =? 0 then (Err "amount must be positive", bc) else
  let toName := ToLower (TrimSpace toName) in
  match bc_UniversalWallets bc !! toName with
  | None => (Err "recipient wallet not found", bc)
  | Some to =>
      match bc_Ledger bc !! fromWallet with
      | None => (Err "insufficient funds", bc)
      | Some fromAcct =>
          if acc_Balance fromAcct <? amount then (Err "insufficient funds", bc) else
          let bc := on_account (debit amount) fromWallet bc in
          let bc :=
            match bc_Ledger bc !! uw_Address to with
            | Some _ => bc
            | None => bc <| bc_Ledger ::=
                        <[uw_Address to := mkAccount (uw_Address to) 0 0 false]> |>
            end in
          let bc := on_account (credit amount) (uw_Address to) bc in
          let '(now, bc) := Unix bc in
          let tx := mkTransaction "" fromWallet "" (uw_Address to) amount 1
                      (next_nonce bc fromWallet) Transfer "" "" now (bc_ChainID bc) in
          let bc := bc <| bc_NextNonce ::= <[fromWallet := tx_Nonce tx +! 1]> |> in
          let bc := markTransactionSeen bc tx in
          let '(now, bc) := Unix bc in
          let block := mkBlock (u64 (blen (bc_Chain bc))) fromWallet "" (TailHash bc) now [tx] 0 "" "" in
          let bc := applyBlock bc block in
          let bc := bc <| bc_Chain ::= λ l, l ++ [block] |> in
          let bc := bc <| bc_Pending := [] |> in
          let bc := appendAuditEntry bc "universal_transfer" fromWallet
            ("to=" +:+ toName +:+ " amount=" +:+ FormatInt amount +:+ " currency=" +:+ currency) in
          (Ok to, bc)
      end
  end.

(** ** Frames *)

Implicit Types (bc : Blockchain) (tx : Transaction) (block : Block).

(** The parts of the state that applying a block leaves alone. *)
Definition chain_part (bc : Blockchain) :=
  (bc_Chain bc, bc_Pending bc, bc_TokenSupply bc, bc_ChainID bc, bc_Consensus bc,
   bc_Validators bc, bc_Authorities bc, bc_IrreversibleTxs bc, bc_Difficulty bc,
   bc_tendermintEngine bc, bc_MinerStats bc).

Lemma mark_frame bc tx :
  chain_part (markTransactionUsed (markTransactionSeen bc tx) tx) = chain_part bc ∧
  bc_Ledger (markTransactionUsed (markTransactionSeen bc tx) tx) = bc_Ledger bc ∧
  bc_Registry (markTransactionUsed (markTransactionSeen bc tx) tx) = bc_Registry bc ∧
  bc_PendingReversals (markTransactionUsed (markTransactionSeen bc tx) tx)
    = bc_PendingReversals bc.
Proof.
  unfold markTransactionUsed, markTransactionSeen. by repeat case_match.
Qed.

Lemma apply_tx_frame bc tx :
  chain_part (apply_tx bc tx) = chain_part bc ∧
  bc_PendingReversals (apply_tx bc tx) = bc_PendingReversals bc.
Proof.
  destruct (mark_frame bc tx) as (E1 & _ & _ & E2). rewrite <- E1, <- E2. unfold apply_tx.
  cbv zeta. by repeat case_match.
Qed.

Lemma process_reversal_frame bc tx :
  chain_part (process_reversal bc tx) = chain_part bc ∧
  bc_UsedNonces (process_reversal bc tx) = bc_UsedNonces bc ∧
  bc_NextNonce (process_reversal bc tx) = bc_NextNonce bc.
Proof. unfold process_reversal. by repeat case_match. Qed.

Lemma applyBlock_frame bc block : chain_part (applyBlock bc block) = chain_part bc.
Proof.
  unfold applyBlock, ProcessReversals.
  rewrite (foldl_frame chain_part process_reversal) by apply process_reversal_frame.
  apply (foldl_frame chain_part). apply apply_tx_frame.
Qed.

(** ** Conservation *)

(** Amounts of transactions and of pending reversals are [uint64]s. *)
Definition amounts_ok (txs : list Transaction) : Prop := Forall (λ tx, is_u64 (tx_Amount tx)) txs.

Definition reversals_ok (bc : Blockchain) : Prop :=
  ∀ k r, bc_PendingReversals bc !! k = Some r → 0 ≤ rev_Amount r.

Lemma can_pay_ledger bc bc' from to amount :
  bc_Ledger bc' = bc_Ledger bc → can_pay bc' from to amount = can_pay bc from to amount.
Proof. unfold can_pay. by intros ->. Qed.

Lemma move_ledger bc bc' from to amount :
  bc_Ledger bc' = bc_Ledger bc →
  bc_Ledger (move from to amount bc') = bc_Ledger (move from to amount bc).
Proof. intros E. unfold move, on_account. cbn [bc_Ledger update]. by rewrite E. Qed.

(** Where the amount of a transaction goes. *)
Definition payee (bc : Blockchain) (tx : Transaction) : option string :=
  match switch_tx (tx_TxType tx) with
  | CaseTransfer => Some (tx_To tx)
  | CasePurchaseApiKey => Some (mdl_Owner (default zero_ModelRef (bc_Registry bc !! tx_To tx)))
  | _ => None
  end.

Lemma apply_tx_ledger bc tx :
  bc_Ledger (apply_tx bc tx) =
  match payee bc tx with
  | Some to =>
      if can_pay bc (tx_From tx) to (tx_Amount tx)
      then bc_Ledger (move (tx_From tx) to (tx_Amount tx) bc) else bc_Ledger bc
  | None => bc_Ledger bc
  end.
Proof.
  destruct (mark_frame bc tx) as (_ & E1 & E2 & _). unfold apply_tx, payee. cbv zeta.
  destruct (switch_tx (tx_TxType tx)); try exact E1.
  - rewrite (can_pay_ledger bc _ _ _ _ E1). destruct (can_pay _ _ _ _); [|exact E1].
    by apply move_ledger.
  - rewrite E2. rewrite (can_pay_ledger bc _ _ _ _ E1).
    destruct (can_pay _ _ _ _); [|exact E1]. by apply (move_ledger bc).
Qed.

Lemma apply_tx_conserves bc tx :
  sound_ledger (bc_Ledger bc) → is_u64 (tx_Amount tx) →
  moves_nothing (bc_Ledger bc) (bc_Ledger (apply_tx bc tx)).
Proof.
  intros Hm [Hn _]. rewrite apply_tx_ledger.
  destruct (payee bc tx) as [to|]; [|by apply moves_nothing_refl].
  destruct (can_pay _ _ _ _) eqn:E; [|by apply moves_nothing_refl].
  by apply sound_move.
Qed.

Lemma process_reversal_conserves bc tx :
  sound_ledger (bc_Ledger bc) → reversals_ok bc →
  moves_nothing (bc_Ledger bc) (bc_Ledger (process_reversal bc tx)).
Proof.
  intros Hm Hr. unfold process_reversal.
  destruct (switch_tx _); try by apply moves_nothing_refl.
  - case_match; by apply moves_nothing_refl.
  - case_match; [|by apply moves_nothing_refl]. case_match; by apply moves_nothing_refl.
  - destruct (_ !! tx_Payload tx) as [r|] eqn:E; [|by apply moves_nothing_refl].
    case_match; [|by apply moves_nothing_refl].
    destruct (can_pay _ _ _ _) eqn:Ep; [|by apply moves_nothing_refl].
    apply (sound_move bc); [done| |done]. by eapply Hr.
Qed.

Lemma process_reversal_reversals bc tx :
  reversals_ok bc → is_u64 (tx_Amount tx) → reversals_ok (process_reversal bc tx).
Proof.
  intros Hr [Hn _]. unfold process_reversal. destruct (switch_tx _); try done.
  - destruct (_ !! tx_Payload tx) eqn:E; [done|]. intros k r.
    cbn [bc_PendingReversals update appendAuditEntry Unix tick].
    rewrite lookup_insert_Some. intros [[_ <-]|[_ ?]]; [done|by eapply Hr].
  - destruct (_ !! tx_Payload tx) as [r0|] eqn:E; [|done]. case_match; [|done]. intros k r.
    cbn [bc_PendingReversals update appendAuditEntry Unix tick].
    rewrite lookup_insert_Some. intros [[_ <-]|[_ ?]]; [by apply (Hr _ _ E)|by eapply Hr].
  - destruct (_ !! tx_Payload tx) as [r0|] eqn:E; [|done]. do 2 (case_match; [|done]). intros k r.
    cbn [bc_PendingReversals update appendAuditEntry Unix tick move on_account].
    rewrite lookup_delete_Some. intros [_ ?]. by eapply Hr.
Qed.

Definition conserved (bc0 bc : Blockchain) : Prop :=
  moves_nothing (bc_Ledger bc0) (bc_Ledger bc) ∧ reversals_ok bc.

Lemma applyBlock_conserves bc block :
  sound_ledger (bc_Ledger bc) → reversals_ok bc → amounts_ok (blk_Transactions block) →
  conserved bc (applyBlock bc block).
Proof.
  intros Hm Hr Htx. unfold amounts_ok in Htx. rewrite Forall_forall in Htx.
  unfold applyBlock, ProcessReversals.
  apply foldl_inv; [|apply foldl_inv].
  - intros s tx Hin [[Hs E] Hr']. split; [|by apply process_reversal_reversals; eauto].
    destruct (process_reversal_conserves s tx Hs Hr') as [? E']. split; [done|]. by rewrite E'.
  - intros s tx Hin [[Hs E] Hr']. split.
    + destruct (apply_tx_conserves s tx Hs) as [? E']; [by eauto|]. split; [done|]. by rewrite E'.
    + intros k r. rewrite (proj2 (apply_tx_frame s tx)). apply Hr'.
  - split; [by apply moves_nothing_refl|done].
Qed.

(** C1. Applying blocks mints and burns nothing: from a ledger whose accounts are in
    range and whose total is below 2^64, with pending reversals of no negative amount
    and transactions of [uint64] amounts, however many blocks are applied, the ledger
    stays so, and the sum of all balances and stakes and the token supply stay what
    they were. *)
Theorem apply_blocks_conserve bc blocks :
  sound_ledger (bc_Ledger bc) → reversals_ok bc →
  Forall (λ b, amounts_ok (blk_Transactions b)) blocks →
  let bc' := foldl applyBlock bc blocks in
  sound_ledger (bc_Ledger bc') ∧ total_holdings bc' = total_holdings bc ∧
  bc_TokenSupply bc' = bc_TokenSupply bc.
Proof.
  intros Hm Hr Hb. cbv zeta.
  assert (conserved bc (foldl applyBlock bc blocks)) as [[? E] _].
  { rewrite Forall_forall in Hb. apply foldl_inv; [|split; [by apply moves_nothing_refl|done]].
    intros s b Hin [[Hs E] Hr']. destruct (applyBlock_conserves s b Hs Hr') as [[? E'] ?]; [by eauto|].
    split; [|done]. split; [done|]. by rewrite E'. }
  split; [done|]. split; [exact E|].
  apply (foldl_frame bc_TokenSupply). intros s b.
  exact (f_equal (λ p, p.1.1.1.1.1.1.1.1.2) (applyBlock_frame s b)).
Qed.

(** ** Replays of applied transactions *)

Lemma apply_tx_used bc tx from :
  used_nonces (apply_tx bc tx) from = used_nonces (markTransactionUsed bc tx) from.
Proof.
  unfold apply_tx, markTransactionSeen, markTransactionUsed. cbv zeta.
  by repeat case_match.
Qed.

Lemma apply_tx_keeps_used bc tx from n :
  n ∈ used_nonces bc from → n ∈ used_nonces (apply_tx bc tx) from.
Proof. rewrite apply_tx_used, used_nonces_mark. auto. Qed.

Lemma process_reversals_used bc txs from :
  used_nonces (foldl process_reversal bc txs) from = used_nonces bc from.
Proof.
  apply (foldl_frame (λ s, used_nonces s from)). intros s tx. unfold used_nonces.
  by rewrite (proj1 (proj2 (process_reversal_frame s tx))).
Qed.

Lemma applyBlock_keeps_used bc block from n :
  n ∈ used_nonces bc from → n ∈ used_nonces (applyBlock bc block) from.
Proof.
  intros Hn. unfold applyBlock, ProcessReversals. rewrite process_reversals_used.
  apply (foldl_inv (λ s, n ∈ used_nonces s from)); [|done].
  intros s tx _. apply apply_tx_keeps_used.
Qed.

Lemma applyBlock_uses bc block tx :
  tx ∈ blk_Transactions block → 0 < tx_Nonce tx →
  tx_Nonce tx ∈ used_nonces (applyBlock bc block) (tx_From tx).
Proof.
  intros Hin Hn. unfold applyBlock, ProcessReversals. rewrite process_reversals_used.
  revert bc Hin. induction (blk_Transactions block) as [|tx' txs IH]; intros bc Hin.
  { by apply not_elem_of_nil in Hin. }
  simpl. apply elem_of_cons in Hin as [<-|Hin]; [|by apply IH].
  apply (foldl_inv (λ s, tx_Nonce tx ∈ used_nonces s (tx_From tx))).
  - intros s tx'' _. apply apply_tx_keeps_used.
  - rewrite apply_tx_used, used_nonces_mark. auto.
Qed.

Lemma replay_not_valid `{Ed25519} bc tx :
  isReplay bc tx = true → validateTransaction bc tx = false.
Proof. intros E. unfold validateTransaction. rewrite E. by repeat case_match. Qed.

(** C3. Once a block with a numbered transaction is applied, no
    transaction of the same sender with the same nonce validates again, after
    any further blocks. *)
Theorem applied_nonce_is_spent `{Ed25519} bc block tx later tx' :
  tx ∈ blk_Transactions block → 0 < tx_Nonce tx →
  tx_From tx' = tx_From tx → tx_Nonce tx' = tx_Nonce tx →
  validateTransaction (foldl applyBlock (applyBlock bc block) later) tx' = false.
Proof.
  intros Hin Hn EF EN. apply replay_not_valid, isReplay_used; [lia|]. rewrite EF, EN.
  apply (foldl_inv (λ s, tx_Nonce tx ∈ used_nonces s (tx_From tx))).
  - intros s b _. apply applyBlock_keeps_used.
  - by apply applyBlock_uses.
Qed.

(** A transaction without a number is never a replay, whatever was applied. *)
Lemma unnumbered_never_replay bc tx : tx_Nonce tx = 0 → isReplay bc tx = false.
Proof. unfold isReplay. by intros ->. Qed.

(** ** Copies under another ID *)

Lemma validateTransaction_ID `{Ed25519} bc tx id :
  validateTransaction bc (tx <| tx_ID := id |>) = validateTransaction bc tx.
Proof. reflexivity. Qed.

(** A transfer the sender can afford takes the amount from it. *)
Lemma apply_tx_transfer bc tx a :
  switch_tx (tx_TxType tx) = CaseTransfer → tx_From tx ≠ tx_To tx →
  bc_Ledger bc !! tx_From tx = Some a → is_Some (bc_Ledger bc !! tx_To tx) →
  0 ≤ tx_Amount tx ≤ acc_Balance a → acc_Balance a < max_u64 →
  ∃ a', bc_Ledger (apply_tx bc tx) !! tx_From tx = Some a' ∧
    acc_Balance a' = acc_Balance a - tx_Amount tx ∧
    is_Some (bc_Ledger (apply_tx bc tx) !! tx_To tx).
Proof.
  intros Hs Hne Ea [b Eb] Hn Hlt. rewrite apply_tx_ledger. unfold payee. rewrite Hs.
  unfold can_pay. rewrite Ea, Eb.
  destruct (tx_Amount tx <=? acc_Balance a) eqn:El; prop_bools; [|lia].
  exists (debit (tx_Amount tx) a). unfold move, on_account. cbn [bc_Ledger update].
  rewrite lookup_alter_ne, lookup_alter_eq, Ea by done. split; [done|]. split.
  - cbn. rewrite u64_small by u64_lia. lia.
  - rewrite lookup_alter_eq, lookup_alter_ne, Eb by done. done.
Qed.

(** The ID is not signed and nonces are marked only when a block is
    applied, so a block may carry the same signed transfer twice under two
    IDs: both copies pass every transaction check of [validateBlock], and
    applying the block pays twice when the sender can afford it. *)
Theorem copied_transfer_pays_twice `{Ed25519} bc tx id a :
  sound_ledger (bc_Ledger bc) → is_u64 (tx_Amount tx) →
  tx_TxType tx = Transfer → tx_From tx ≠ tx_To tx →
  validateTransaction bc tx = true → tx_ID tx ≠ "" → id ≠ "" → id ≠ tx_ID tx →
  bc_Ledger bc !! tx_From tx = Some a → 2 * tx_Amount tx ≤ acc_Balance a →
  let txs := [tx; tx <| tx_ID := id |>] in
  validate_txs bc ∅ txs = Ok tt ∧
  acc_Balance <$> bc_Ledger (foldl apply_tx bc txs) !! tx_From tx
    = Some (acc_Balance a - 2 * tx_Amount tx).
Proof.
  intros Hm Hn Ht Hne Hv Hid Hid0 Hid1 Ea Hb. cbv zeta. split.
  { apply validate_txs_Ok. repeat split.
    - by repeat constructor.
    - cbn [map]. apply NoDup_cons. split; [|apply NoDup_singleton].
      rewrite list_elem_of_singleton. done.
    - repeat constructor; set_solver.
    - constructor; [done|]. constructor; [|constructor]. by rewrite validateTransaction_ID. }
  assert (switch_tx (tx_TxType tx) = CaseTransfer) as Hs by by rewrite Ht.
  assert (∃ b, bc_Ledger bc !! tx_To tx = Some b) as [b Eb].
  { unfold validateTransaction in Hv. rewrite Ea, Hs in Hv. repeat case_match; naive_solver. }
  destruct (sound_account _ _ _ Hm Ea) as [[??] ?]. unfold holding in *.
  destruct (apply_tx_transfer bc tx a) as (a1 & E1 & B1 & T1); [done..|eauto|u64_lia|u64_lia|].
  destruct (apply_tx_transfer (apply_tx bc tx) (tx <| tx_ID := id |>) a1) as (a2 & E2 & B2 & _);
    [done..|cbn; u64_lia|u64_lia|].
  cbn [foldl]. change (tx_From tx) with (tx_From (tx <| tx_ID := id |>)). rewrite E2.
  simpl in *. f_equal. lia.
Qed.

(** ** Transfers by name *)

(** The ledger after the direct transfer of [UniversalTransfer]. *)
Definition direct_transfer (m : gmap string Account) (from to : string) (amount : Z)
    : gmap string Account :=
  let m := alter (debit amount) from m in
  let m := match m !! to with
           | Some _ => m
           | None => <[to := mkAccount to 0 0 false]> m
           end in
  alter (credit amount) to m.

Lemma direct_transfer_spec m from to amount a :
  sound_ledger m → m !! from = Some a → from ≠ to → 0 ≤ amount ≤ acc_Balance a →
  moves_nothing m (direct_transfer m from to amount) ∧
  direct_transfer m from to amount !! from = Some (debit amount a) ∧
  is_Some (direct_transfer m from to amount !! to).
Proof.
  intros Hm Ea Hne Hn. unfold direct_transfer.
  destruct (sound_debit m from a amount Hm Ea Hn) as [Hd Ed].
  set (m1 := alter (debit amount) from m) in *.
  set (m2 := match m1 !! to with Some _ => m1 | None => _ end).
  assert (sound_ledger m2 ∧ holdings m2 = holdings m1 ∧ is_Some (m2 !! to) ∧
          m2 !! from = m1 !! from) as (Hm2 & E2 & [b Eb] & Ef).
  { subst m2. destruct (m1 !! to) eqn:E; [done|].
    rewrite lookup_insert_eq, lookup_insert_ne by done. split; [|split; [|done]].
    - apply sound_insert; [done|done|]. rewrite E. destruct Hd. simpl. unfold holding. simpl. lia.
    - unfold holdings. rewrite map_sum_insert_None by done. done. }
  destruct (sound_account _ _ _ Hm Ea) as [_ [_ ?]].
  destruct (sound_credit m2 to b amount Hm2 Eb) as [Hc Ec]; [lia|lia|].
  split; [split; [done|lia]|]. split.
  - rewrite lookup_alter_ne, Ef by done. subst m1. by rewrite lookup_alter_eq, Ea.
  - rewrite lookup_alter_eq, Eb. done.
Qed.

Lemma applyBlock_transfer bc block tx :
  blk_Transactions block = [tx] → switch_tx (tx_TxType tx) = CaseTransfer →
  applyBlock bc block = apply_tx bc tx.
Proof.
  intros Hb Ht. unfold applyBlock, ProcessReversals. rewrite Hb. cbn [foldl].
  unfold process_reversal. by rewrite Ht.
Qed.

(** The state in which [UniversalTransfer] calls [applyBlock]. *)
Lemma UniversalTransfer_result bc from toName currency amount to a :
  amount ≠ 0 → bc_UniversalWallets bc !! ToLower (TrimSpace toName) = Some to →
  bc_Ledger bc !! from = Some a → amount ≤ acc_Balance a →
  ∃ s tx bc', UniversalTransfer bc from toName currency amount = (Ok to, bc') ∧
    bc_Ledger s = direct_transfer (bc_Ledger bc) from (uw_Address to) amount ∧
    tx_From tx = from ∧ tx_To tx = uw_Address to ∧ tx_Amount tx = amount ∧
    tx_TxType tx = Transfer ∧ bc_Ledger bc' = bc_Ledger (apply_tx s tx) ∧ bc_Pending bc' = [].
Proof.
  intros Hn Hto Ha Hb. unfold UniversalTransfer. apply Z.eqb_neq in Hn. rewrite Hn, Hto, Ha.
  destruct (acc_Balance a <? amount) eqn:E; prop_bools; [lia|].
  cbv beta iota zeta delta [Unix]. unfold direct_transfer.
  change (bc_Ledger (on_account (debit amount) from bc))
    with (alter (debit amount) from (bc_Ledger bc)).
  destruct (alter _ _ _ !! uw_Address to).
  all: match goal with |- context [applyBlock ?x ?b] => set (s := x); set (blk := b) end.
  all: exists s, (List.hd demo_transfer (blk_Transactions blk)); eexists.
  all: split; [reflexivity|]; split; [reflexivity|]; repeat split.
  all: cbn [bc_Ledger update appendAuditEntry Unix tick].
  all: by rewrite (applyBlock_transfer s blk (List.hd demo_transfer (blk_Transactions blk))).
Qed.

(** [UniversalTransfer] moves the amount directly and then
    applies a block with the same transfer: the sender of a transfer it can
    afford twice is charged twice, otherwise once; the sum of all holdings
    does not change. *)
Theorem universal_transfer_charges bc from toName currency amount to a :
  sound_ledger (bc_Ledger bc) → is_u64 amount → amount ≠ 0 →
  bc_UniversalWallets bc !! ToLower (TrimSpace toName) = Some to →
  bc_Ledger bc !! from = Some a → from ≠ uw_Address to → amount ≤ acc_Balance a →
  ∃ bc', UniversalTransfer bc from toName currency amount = (Ok to, bc') ∧
    acc_Balance <$> bc_Ledger bc' !! from =
      Some (acc_Balance a - (if 2 * amount <=? acc_Balance a then 2 * amount else amount)) ∧
    total_holdings bc' = total_holdings bc ∧ bc_Pending bc' = [].
Proof.
  intros Hm [Hn0 Hn] Hnz Hto Ha Hne Hb.
  destruct (UniversalTransfer_result bc from toName currency amount to a Hnz Hto Ha Hb)
    as (s & tx & bc' & E & Es & EF & ET & EA & Ety & El & Ep).
  destruct (direct_transfer_spec (bc_Ledger bc) from (uw_Address to) amount a)
    as ([Hs Eh] & Ef & Et); [done|done|done|lia|].
  rewrite <- Es in Hs, Eh, Ef, Et.
  destruct (apply_tx_conserves s tx Hs) as [_ Eh']; [rewrite EA; u64_lia|].
  destruct (sound_account _ _ _ Hm Ha) as [[??] ?]. unfold holding in *.
  assert (acc_Balance (debit amount a) = acc_Balance a - amount) as Ed.
  { cbn. rewrite u64_small by u64_lia. done. }
  exists bc'. split; [done|]. split; [|split; [|done]].
  2:{ unfold total_holdings. rewrite El, Eh'. exact Eh. }
  rewrite El. destruct (2 * amount <=? acc_Balance a) eqn:Ec; prop_bools.
  - rewrite <- EF, <- ET in *. destruct (apply_tx_transfer s tx (debit amount a))
      as (a' & E1 & E2 & _); [by rewrite Ety|done|done|done|rewrite EA, Ed; lia|rewrite Ed; u64_lia|].
    rewrite E1. cbn [fmap option_fmap option_map]. rewrite E2, EA, Ed. f_equal. lia.
  - rewrite apply_tx_ledger. unfold payee. rewrite Ety. cbn [switch_tx]. unfold can_pay.
    rewrite EF, ET, EA. simpl. rewrite Ef. destruct Et as [c Ec']. rewrite Ec'.
    rewrite Ed. destruct (amount <=? _) eqn:E3; prop_bools; [lia|].
    rewrite Ef. cbn [fmap option_fmap option_map]. rewrite Ed. f_equal.
Qed.
End apply.

(** ** Examples *)

Lemma demo_node_sound : sound_ledger (bc_Ledger demo_node).
Proof. apply sound_ledger_b_true. vm_compute. reflexivity. Qed.

Lemma demo_node_reversals : reversals_ok demo_node.
Proof. intros k r E. by vm_compute in E. Qed.

Lemma demo_amounts : Forall (λ b, amounts_ok (blk_Transactions b)) [demo_block1; demo_block1].
Proof. repeat constructor; vm_compute; congruence. Qed.

Lemma apply_blocks_conserve_witness :
  let bc' := foldl (@applyBlock demo_runtime) demo_node [demo_block1; demo_block1] in
  sound_ledger (bc_Ledger bc') ∧ total_holdings bc' = total_holdings demo_node ∧
  bc_TokenSupply bc' = bc_TokenSupply demo_node.
Proof.
  exact (@apply_blocks_conserve demo_runtime demo_node _ demo_node_sound demo_node_reversals
           demo_amounts).
Defined.

Lemma demo_nonce_positive : 0 < tx_Nonce demo_signed.
Proof. by vm_compute. Qed.

Lemma applied_nonce_is_spent_witness :
  @validateTransaction demo_ed25519
    (foldl (@applyBlock demo_runtime) (@applyBlock demo_runtime demo_node demo_block1)
       [demo_block1]) demo_signed = false.
Proof.
  exact (@applied_nonce_is_spent demo_runtime demo_ed25519 demo_node demo_block1 demo_signed
           [demo_block1] demo_signed demo_signed_in_block demo_nonce_positive eq_refl eq_refl).
Defined.

Lemma demo_signed_facts :
  is_u64 (tx_Amount demo_signed) ∧ tx_TxType demo_signed = Transfer ∧
  tx_From demo_signed ≠ tx_To demo_signed ∧
  @validateTransaction demo_ed25519 demo_node demo_signed = true ∧
  tx_ID demo_signed ≠ "" ∧ "copy" ≠ tx_ID demo_signed ∧
  bc_Ledger demo_node !! tx_From demo_signed = Some (mkAccount demo_alice 1000000000 0 false).
Proof. repeat split; vm_compute; congruence. Qed.

Lemma copied_transfer_pays_twice_witness :
  let txs := [demo_signed; demo_signed <| tx_ID := "copy" |>] in
  @validate_txs demo_ed25519 demo_node ∅ txs = Ok tt ∧
  acc_Balance <$> bc_Ledger (foldl apply_tx demo_node txs) !! tx_From demo_signed
    = Some (1000000000 - 2 * tx_Amount demo_signed).
Proof.
  destruct demo_signed_facts as (H1 & H2 & H3 & H4 & H5 & H6 & H7).
  apply (@copied_transfer_pays_twice demo_ed25519 demo_node demo_signed "copy"
           (mkAccount demo_alice 1000000000 0 false)).
  - exact demo_node_sound.
  - exact H1.
  - exact H2.
  - exact H3.
  - exact H4.
  - exact H5.
  - congruence.
  - exact H6.
  - exact H7.
  - cbn. lia.
Defined.

(** Bob, registered under his own address. *)
Definition demo_directory : Blockchain :=
  demo_node <| bc_UniversalWallets := {["bob" := mkUniversalWallet "bob" "bob" "" ""]} |>.

Lemma demo_directory_facts :
  sound_ledger (bc_Ledger demo_directory) ∧ is_u64 300 ∧
  bc_UniversalWallets demo_directory !!
    @ToLower demo_runtime (@TrimSpace demo_runtime " BOB")
    = Some (mkUniversalWallet "bob" "bob" "" "") ∧
  bc_Ledger demo_directory !! demo_alice = Some (mkAccount demo_alice 1000000000 0 false) ∧
  demo_alice ≠ "bob".
Proof.
  split; [exact demo_node_sound|]. repeat split; vm_compute; congruence.
Qed.

Lemma universal_transfer_charges_witness :
  ∃ bc', @UniversalTransfer demo_runtime demo_directory demo_alice " BOB" "TENDER" 300
         = (Ok (mkUniversalWallet "bob" "bob" "" ""), bc') ∧
    acc_Balance <$> bc_Ledger bc' !! demo_alice =
      Some (1000000000 - (if 2 * 300 <=? 1000000000 then 2 * 300 else 300)) ∧
    total_holdings bc' = total_holdings demo_directory ∧ bc_Pending bc' = [].
Proof.
  destruct demo_directory_facts as (H1 & H2 & H3 & H4 & H5).
  apply (@universal_transfer_charges demo_runtime demo_directory demo_alice " BOB" "TENDER" 300
           (mkUniversalWallet "bob" "bob" "" "") (mkAccount demo_alice 1000000000 0 false)).
  - exact H1.
  - exact H2.
  - congruence.
  - exact H3.
  - exact H4.
  - exact H5.
  - cbn. lia.
Defined.
