(* ===== verification/Reversal.v ===== *)
(** * The reversal protocol (go-chain/blockchain/blockchain.go)

    A transfer is undone in three transactions: the sender requests, the
    receiver confirms, either commits.  The states of one reversal are absent,
    requested and confirmed; [extend] is the way a validated block enters the
    node, and [node_step] the transitions of the state the invariant is kept
    by, the replacement of the chain among them, which keeps the pending
    reversals of the chain that is given up. *)

From S2P Require Import Prelude Runtime Float64 Text Sha256 Domain Json Merkle Tendermint State Accounts Validation Apply.
Open Scope Z_scope.
Open Scope go_scope.

Section reversal.
Context `{Runtime} `{Ed25519}.
Implicit Types (bc : Blockchain) (tx : Transaction) (block : Block).

(** [bc.applyBlock(block); bc.Chain = append(bc.Chain, block)] *)
Definition extend (bc : Blockchain) (block : Block) : Blockchain :=
  (applyBlock bc block) <| bc_Chain ::= λ l, l ++ [block] |>.

(** The operation touches neither the chain nor the pending reversals. *)
Definition same_reversals (bc bc' : Blockchain) : Prop :=
  bc_Chain bc' = bc_Chain bc ∧ bc_PendingReversals bc' = bc_PendingReversals bc.

(** Steps that keep the blocks of the chain: a block that validates against the
    tail and is applied (mined here, or submitted; before it is applied the reward
    is paid), a block of a peer that is appended as it is, and operations that
    touch neither chain nor reversals ([exec_op_same], [MineBlockFor_steps] and
    [SubmitMinedBlock_steps] put the operations of the package in these terms). *)
Inductive grow_step : Blockchain → Blockchain → Prop :=
| step_block bc bc' block prev :
    last (bc_Chain bc) = Some prev → validateBlock bc block prev = Ok tt → same_reversals bc bc' →
    grow_step bc (extend bc' block)
| step_append bc block : grow_step bc (bc <| bc_Chain ::= λ l, l ++ [block] |>)
| step_other bc bc' : same_reversals bc bc' → grow_step bc bc'.

Inductive node_step : Blockchain → Blockchain → Prop :=
| step_grow bc bc' : grow_step bc bc' → node_step bc bc'
| step_replace bc chain bc' : ReplaceChain bc chain = (true, bc') → node_step bc bc'.

(** A transfer with the identifier [k], between the accounts of the reversal and of
    its amount, is on the chain of [bc]. *)
Definition about_transfer (bc : Blockchain) (k : string) (r : PendingReversal) : Prop :=
  ∃ original, findOriginalTransaction bc k = Some original ∧
    tx_TxType original = Transfer ∧ tx_From original = rev_From r ∧
    tx_To original = rev_To r ∧ tx_Amount original = rev_Amount r.

Definition confirmed_by_receiver (r : PendingReversal) : Prop :=
  rev_Status r = "requested" ∨ rev_Status r = "confirmed" ∧ rev_Confirmer r = rev_To r.

(** The reversal is about a transfer that was on the chain in one of the states
    [past]; only its receiver confirmed it. *)
Definition backed (past : Blockchain → Prop) (k : string) (r : PendingReversal) : Prop :=
  (∃ bc, past bc ∧ about_transfer bc k r) ∧ confirmed_by_receiver r.

Definition all_backed (past : Blockchain → Prop) (bc : Blockchain) : Prop :=
  ∀ k r, bc_PendingReversals bc !! k = Some r → backed past k r.

Lemma all_backed_mono (P Q : Blockchain → Prop) bc bc' :
  (∀ x, P x → Q x) → bc_PendingReversals bc' = bc_PendingReversals bc → all_backed P bc → all_backed Q bc'.
Proof.
  intros HPQ E Hb k r. rewrite E. intros Hr. destruct (Hb k r Hr) as [(x & Hx & Ht) Hc]. split; [|done]. eauto.
Qed.

(** ** The chain only grows at its end *)

Lemma list_find_app_Some {A} (P : A → Prop) `{∀ x, Decision (P x)} l k p :
  list_find P l = Some p → list_find P (l ++ k) = Some p.
Proof.
  destruct p as [i x]. rewrite !list_find_Some. intros (Hl & HP & Hmin).
  split; [by apply lookup_app_l_Some|]. split; [done|].
  intros j y Hj Hlt. apply (Hmin j); [|done].
  rewrite lookup_app_l in Hj; [done|]. apply lookup_lt_Some in Hl. lia.
Qed.

Lemma findOriginal_append bc bc' k tx blocks :
  bc_Chain bc' = bc_Chain bc ++ blocks →
  findOriginalTransaction bc k = Some tx → findOriginalTransaction bc' k = Some tx.
Proof.
  intros E. unfold findOriginalTransaction. rewrite E, fmap_app, join_app.
  destruct (list_find _ (mjoin (blk_Transactions <$> bc_Chain bc))) as [p|] eqn:Ef; [|done].
  by rewrite (list_find_app_Some _ _ _ _ Ef).
Qed.

Lemma applyBlock_chain bc block : bc_Chain (applyBlock bc block) = bc_Chain bc.
Proof. exact (f_equal (λ p, p.1.1.1.1.1.1.1.1.1.1) (applyBlock_frame bc block)). Qed.

Lemma process_reversal_chain bc tx : bc_Chain (process_reversal bc tx) = bc_Chain bc.
Proof.
  exact (f_equal (λ p, p.1.1.1.1.1.1.1.1.1.1) (proj1 (process_reversal_frame bc tx))).
Qed.

Lemma grow_chain bc bc' : rtc grow_step bc bc' → bc_Chain bc `prefix_of` bc_Chain bc'.
Proof.
  induction 1 as [bc|bc1 bc2 bc3 Hs _ IH]; [done|]. etrans; [|exact IH].
  destruct Hs as [bc bc' block prev _ _ [E _]|bc block|bc bc' [E _]].
  - unfold extend. cbn [bc_Chain update]. rewrite applyBlock_chain, E. by eexists.
  - by eexists.
  - by rewrite E.
Qed.

Lemma about_transfer_grows bc bc' k r : rtc grow_step bc bc' → about_transfer bc k r → about_transfer bc' k r.
Proof.
  intros [blocks E]%grow_chain (o & Ho & ?). exists o. split; [|done]. by eapply findOriginal_append.
Qed.

Lemma exec_op_same bc op : same_reversals bc (exec_op bc op).
Proof.
  unfold same_reversals.
  destruct op; cbn [exec_op]; try done;
    unfold Stake, bc_RegisterModel, bc_UpdateModel, bc_PurchaseApiKey, RegisterValidator,
      RegisterUniversalWallet, CreateEscrow, VoteProposal, CreateServiceAgreement, RecordUsage,
      IsMintingPaused, FinalizeBlocksAt;
    cbv beta iota zeta delta [Unix UnixNano];
    try (repeat case_match; by simplify_eq).
  unfold RotateValidatorKeys, rotateValidatorKeysLocked.
  apply (foldl_inv (λ s, bc_Chain s = bc_Chain bc ∧ bc_PendingReversals s = bc_PendingReversals bc));
    [|done]. intros s [addr v] _. unfold rotate_one. by case_match.
Qed.

(** ** What validation gives *)

Lemma valid_reversal_tx bc tx :
  validateTransaction bc tx = true →
  match switch_tx (tx_TxType tx) with
  | CaseRequestReversal => validateRequestReversal bc tx = true
  | CaseConfirmReversal => validateConfirmReversal bc tx = true
  | CaseCommitReversal => validateCommitReversal bc tx = true
  | _ => True
  end.
Proof.
  unfold validateTransaction. intros Hv.
  destruct (negb (bool_decide (tx_ChainID tx = _))); [done|].
  destruct (negb (VerifyTransaction tx)); [done|]. destruct (isReplay bc tx); [done|].
  destruct (bc_Ledger bc !! tx_From tx); [|done].
  destruct (negb _ && _); [done|]. destruct (isAITransaction _ && _); [done|].
  by destruct (switch_tx (tx_TxType tx)).
Qed.

Lemma valid_request bc tx :
  validateRequestReversal bc tx = true →
  tx_Amount tx ≠ 0 ∧ tx_Payload tx ≠ "" ∧ tx_Payload tx ∉ bc_IrreversibleTxs bc ∧
  (∃ original, findOriginalTransaction bc (tx_Payload tx) = Some original ∧
     tx_TxType original = Transfer ∧ tx_From original = tx_From tx ∧
     tx_To original = tx_To tx ∧ tx_Amount original = tx_Amount tx) ∧
  (∃ receiver, bc_Ledger bc !! tx_To tx = Some receiver ∧ tx_Amount tx ≤ acc_Balance receiver) ∧
  bc_PendingReversals bc !! tx_Payload tx = None.
Proof.
  unfold validateRequestReversal. intros Hv.
  destruct (_ || _) eqn:E1; [done|]. case_bool_decide as E2; [done|].
  destruct (findOriginalTransaction _ _) as [o|] eqn:E3; [|done].
  destruct (_ || negb (tx_Amount o =? _)) eqn:E4; [done|].
  destruct (negb (bool_decide (tx_TxType o = _))) eqn:E5; [done|].
  destruct (bc_Ledger bc !! tx_To tx) as [a|] eqn:E6; [|done].
  destruct (acc_Balance a <? _) eqn:E7; [done|].
  destruct (bc_PendingReversals bc !! tx_Payload tx) eqn:E8; [done|].
  prop_bools. repeat split; eauto 10.
Qed.

Lemma request_valid bc tx original receiver :
  tx_Amount tx ≠ 0 → tx_Payload tx ≠ "" → tx_Payload tx ∉ bc_IrreversibleTxs bc →
  findOriginalTransaction bc (tx_Payload tx) = Some original →
  tx_TxType original = Transfer → tx_From original = tx_From tx →
  tx_To original = tx_To tx → tx_Amount original = tx_Amount tx →
  bc_Ledger bc !! tx_To tx = Some receiver → tx_Amount tx ≤ acc_Balance receiver →
  bc_PendingReversals bc !! tx_Payload tx = None → validateRequestReversal bc tx = true.
Proof.
  intros H1 H2 H3 H4 H5 H6 H7 H8 H9 H10 H11. unfold validateRequestReversal.
  apply Z.eqb_neq in H1. rewrite H1, bool_decide_false by done. simpl.
  rewrite bool_decide_false by done. rewrite H4, !bool_decide_true by done. simpl.
  rewrite H8, Z.eqb_refl. simpl. rewrite H9.
  destruct (acc_Balance receiver <? tx_Amount tx) eqn:E; prop_bools; [lia|]. by rewrite H11.
Qed.

Lemma valid_confirm bc tx :
  validateConfirmReversal bc tx = true →
  ∃ r, bc_PendingReversals bc !! tx_Payload tx = Some r ∧ rev_To r = tx_From tx.
Proof.
  unfold validateConfirmReversal. intros Hv. case_bool_decide; [done|].
  destruct (_ !! tx_Payload tx) as [r|] eqn:E; [|done].
  destruct (negb _); [done|]. destruct (negb (bool_decide (rev_To r = _))) eqn:E2; [done|].
  prop_bools. eauto.
Qed.

(** ** The loop over one block *)

(** [s] is the state in the middle of a block that validated in [bc]. *)
Record in_block (past : Blockchain → Prop) (bc s : Blockchain) : Prop := {
  ib_past : past bc;
  ib_backed : all_backed past s;
  ib_receiver : ∀ k r0 r, bc_PendingReversals bc !! k = Some r0 →
    bc_PendingReversals s !! k = Some r → rev_To r = rev_To r0;
}.

Lemma in_block_request P bc s tx r :
  in_block P bc s → validateRequestReversal bc tx = true →
  rev_From r = tx_From tx → rev_To r = tx_To tx → rev_Amount r = tx_Amount tx →
  rev_Status r = "requested" →
  in_block P bc (s <| bc_PendingReversals ::= <[tx_Payload tx := r]> |>).
Proof.
  intros [Hc Hb Hr] (_ & _ & _ & (o & Ho & ? & ? & ? & ?) & _ & Hnone)%valid_request E1 E2 E3 E4.
  split; [done|unfold all_backed|]; cbn [bc_PendingReversals update].
  - intros k r'. rewrite lookup_insert_Some. intros [[<- <-]|[_ ?]]; [|eauto].
    split; [|by left]. exists bc. split; [done|]. exists o. repeat split; congruence.
  - intros k r0 r' E0. rewrite lookup_insert_Some. intros [[<- <-]|[_ ?]]; [|eauto]. congruence.
Qed.

Lemma in_block_confirm P bc s tx r :
  in_block P bc s → validateConfirmReversal bc tx = true →
  bc_PendingReversals s !! tx_Payload tx = Some r →
  in_block P bc (s <| bc_PendingReversals ::= <[tx_Payload tx :=
    r <| rev_Status := "confirmed" |> <| rev_Confirmer := tx_From tx |>]> |>).
Proof.
  intros [Hc Hb Hr] (r0 & E0 & Hto)%valid_confirm Er.
  split; [done|unfold all_backed|]; cbn [bc_PendingReversals update].
  - intros k r'. rewrite lookup_insert_Some. intros [[<- <-]|[_ ?]]; [|eauto].
    destruct (Hb _ _ Er) as [Ho _]. split; [exact Ho|]. right. split; [done|].
    cbn. rewrite (Hr _ _ _ E0 Er). done.
  - intros k r1 r' E1. rewrite lookup_insert_Some. intros [[<- <-]|[_ ?]]; [|eauto].
    exact (Hr _ _ _ E1 Er).
Qed.

Lemma in_block_same P bc s s' :
  in_block P bc s →
  (∀ k r, bc_PendingReversals s' !! k = Some r → bc_PendingReversals s !! k = Some r) →
  in_block P bc s'.
Proof. intros [Hc Hb Hr] E. split; [done|intros k r; eauto|eauto]. Qed.

Lemma in_block_step P bc s tx :
  in_block P bc s → validateTransaction bc tx = true → in_block P bc (process_reversal s tx).
Proof.
  intros Hs Hv. apply valid_reversal_tx in Hv. unfold process_reversal.
  destruct (switch_tx _); try done.
  - destruct (_ !! tx_Payload tx) eqn:E; [done|].
    apply (in_block_same P bc (s <| bc_PendingReversals ::= <[tx_Payload tx :=
      mkPendingReversal (tx_ID tx) (tx_Payload tx) (tx_From tx) (tx_To tx)
        (tx_Amount tx) (tx_From tx) "" "requested" false]> |>)); [|done].
    by apply in_block_request.
  - destruct (_ !! tx_Payload tx) as [r|] eqn:E; [|done]. case_match; [|done].
    eapply in_block_same; [by apply (in_block_confirm P bc s tx r)|done].
  - destruct (_ !! tx_Payload tx) as [r|] eqn:E; [|done]. do 2 (case_match; [|done]).
    eapply in_block_same; [done|]. intros k r'.
    cbn [bc_PendingReversals update appendAuditEntry Unix tick move on_account].
    rewrite lookup_delete_Some. by intros [_ ?].
Qed.

Lemma extend_backed P bc bc' block prev :
  P bc → all_backed P bc → validateBlock bc block prev = Ok tt → same_reversals bc bc' →
  all_backed P (extend bc' block).
Proof.
  intros HP Hb Hv [_ Ep]. apply validateBlock_Ok, bv_txs in Hv. rewrite Forall_forall in Hv.
  assert (in_block P bc (applyBlock bc' block)) as [_ Hb' _]; [|exact Hb'].
  unfold applyBlock, ProcessReversals. apply foldl_inv.
  - intros s tx Hin Hs. by apply in_block_step; [|apply Hv].
  - apply (foldl_inv (in_block P bc)).
    + intros s tx _ Hs. eapply in_block_same; [done|]. intros k r. by rewrite (proj2 (apply_tx_frame s tx)).
    + split; [done|intros k r; rewrite Ep; apply Hb|]. intros k r0 r. rewrite Ep. congruence.
Qed.

Lemma ReplaceChain_pending bc chain bc' :
  ReplaceChain bc chain = (true, bc') → bc_PendingReversals bc' = bc_PendingReversals bc.
Proof.
  unfold ReplaceChain, SaveToDisk. destruct (validateChain bc chain) as [[]|?|?]; [|done..].
  destruct (_ <=? _); [done|]. intros [= <-]. by repeat case_match.
Qed.

Lemma node_step_backed P bc bc' : P bc → all_backed P bc → node_step bc bc' → all_backed P bc'.
Proof.
  intros HP Hb Hstep. revert HP Hb.
  destruct Hstep as [x y [bc1 bc2 block prev _ Hv Hs|bc1 block|bc1 bc2 [_ E]]|x chain y E]; intros HP Hb.
  - by apply (extend_backed P bc1 bc2 block prev).
  - by apply (all_backed_mono P P bc1).
  - by apply (all_backed_mono P P bc1).
  - eapply (all_backed_mono P P); [done|by eapply ReplaceChain_pending|exact Hb].
Qed.


(** ** One complete reversal *)

Lemma apply_tx_reversal bc tx :
  payee bc tx = None →
  bc_Ledger (apply_tx bc tx) = bc_Ledger bc ∧
  bc_PendingReversals (apply_tx bc tx) = bc_PendingReversals bc ∧
  bc_IrreversibleTxs (apply_tx bc tx) = bc_IrreversibleTxs bc.
Proof.
  intros Hp. split; [by rewrite apply_tx_ledger, Hp|]. split; [apply apply_tx_frame|].
  exact (f_equal (λ p, p.1.1.1.2) (proj1 (apply_tx_frame bc tx))).
Qed.

(** What the reversal protocol reads and writes. *)
Definition reversal_view (bc : Blockchain) :=
  (bc_Ledger bc, bc_PendingReversals bc, bc_IrreversibleTxs bc).

Lemma reversal_view_eq bc l p i :
  reversal_view bc = (l, p, i) →
  bc_Ledger bc = l ∧ bc_PendingReversals bc = p ∧ bc_IrreversibleTxs bc = i.
Proof. unfold reversal_view. intros E. by simplify_eq. Qed.

Lemma extend_request bc b tx :
  blk_Transactions b = [tx] → switch_tx (tx_TxType tx) = CaseRequestReversal →
  bc_PendingReversals bc !! tx_Payload tx = None →
  reversal_view (extend bc b) =
    (bc_Ledger bc,
     <[tx_Payload tx := mkPendingReversal (tx_ID tx) (tx_Payload tx) (tx_From tx) (tx_To tx)
         (tx_Amount tx) (tx_From tx) "" "requested" false]> (bc_PendingReversals bc),
     bc_IrreversibleTxs bc).
Proof.
  intros Hb Ht Hn. unfold extend, applyBlock, ProcessReversals. rewrite Hb. cbn [foldl].
  destruct (apply_tx_reversal bc tx) as (E1 & E2 & E3); [unfold payee; by rewrite Ht|].
  unfold process_reversal. rewrite Ht, E2, Hn. unfold reversal_view.
  cbn [bc_Ledger bc_PendingReversals bc_IrreversibleTxs update appendAuditEntry Unix tick].
  by rewrite E1, E2, E3.
Qed.

Lemma extend_confirm bc b tx r :
  blk_Transactions b = [tx] → switch_tx (tx_TxType tx) = CaseConfirmReversal →
  bc_PendingReversals bc !! tx_Payload tx = Some r → rev_Status r = "requested" →
  reversal_view (extend bc b) =
    (bc_Ledger bc,
     <[tx_Payload tx := r <| rev_Status := "confirmed" |> <| rev_Confirmer := tx_From tx |>]>
       (bc_PendingReversals bc),
     bc_IrreversibleTxs bc).
Proof.
  intros Hb Ht Hn Hs. unfold extend, applyBlock, ProcessReversals. rewrite Hb. cbn [foldl].
  destruct (apply_tx_reversal bc tx) as (E1 & E2 & E3); [unfold payee; by rewrite Ht|].
  unfold process_reversal. rewrite Ht, E2, Hn, bool_decide_true by done. unfold reversal_view.
  cbn [bc_Ledger bc_PendingReversals bc_IrreversibleTxs update appendAuditEntry Unix tick].
  by rewrite E1, E2, E3.
Qed.

Lemma extend_commit bc b tx r :
  blk_Transactions b = [tx] → switch_tx (tx_TxType tx) = CaseCommitReversal →
  bc_PendingReversals bc !! tx_Payload tx = Some r → rev_Status r = "confirmed" →
  can_pay bc (rev_To r) (rev_From r) (rev_Amount r) = true →
  reversal_view (extend bc b) =
    (bc_Ledger (move (rev_To r) (rev_From r) (rev_Amount r) bc),
     delete (tx_Payload tx) (bc_PendingReversals bc), bc_IrreversibleTxs bc).
Proof.
  intros Hb Ht Hn Hs Hp. unfold extend, applyBlock, ProcessReversals. rewrite Hb. cbn [foldl].
  destruct (apply_tx_reversal bc tx) as (E1 & E2 & E3); [unfold payee; by rewrite Ht|].
  unfold process_reversal. rewrite Ht, E2, Hn, bool_decide_true by done.
  rewrite (can_pay_ledger bc) by done. rewrite Hp. unfold reversal_view.
  cbn [bc_Ledger bc_PendingReversals bc_IrreversibleTxs update appendAuditEntry Unix tick
       move on_account].
  by rewrite E1, E2, E3.
Qed.

Lemma extend_chain bc b : bc_Chain (extend bc b) = bc_Chain bc ++ [b].
Proof. unfold extend. cbn [bc_Chain update]. by rewrite applyBlock_chain. Qed.

(** The three blocks of a reversal. *)
Record reversal_blocks (b1 b2 b3 : Block) (req conf com : Transaction) : Prop := {
  rb_request : blk_Transactions b1 = [req];
  rb_confirm : blk_Transactions b2 = [conf];
  rb_commit : blk_Transactions b3 = [com];
  rb_request_type : tx_TxType req = RequestReversal;
  rb_confirm_type : tx_TxType conf = ConfirmReversal;
  rb_commit_type : tx_TxType com = CommitReversal;
  rb_confirm_payload : tx_Payload conf = tx_Payload req;
  rb_commit_payload : tx_Payload com = tx_Payload req;
}.

Lemma full_reversal bc b1 b2 b3 req conf com :
  reversal_blocks b1 b2 b3 req conf com →
  bc_PendingReversals bc !! tx_Payload req = None →
  can_pay bc (tx_To req) (tx_From req) (tx_Amount req) = true →
  reversal_view (foldl extend bc [b1; b2; b3]) =
    (bc_Ledger (move (tx_To req) (tx_From req) (tx_Amount req) bc),
     bc_PendingReversals bc, bc_IrreversibleTxs bc).
Proof.
  intros [B1 B2 B3 T1 T2 T3 P2 P3] Hn Hp. cbn [foldl].
  pose proof (extend_request bc b1 req B1 ltac:(by rewrite T1) Hn)
    as (L1 & V1 & I1)%reversal_view_eq.
  pose proof (extend_confirm (extend bc b1) b2 conf _ B2 ltac:(by rewrite T2)
    ltac:(rewrite V1, P2; apply lookup_insert_eq) eq_refl)
    as (L2 & V2 & I2)%reversal_view_eq.
  rewrite (extend_commit (extend (extend bc b1) b2) b3 com _ B3 ltac:(by rewrite T3)
    ltac:(rewrite V2, P2, P3; apply lookup_insert_eq) eq_refl).
  - cbn [rev_To rev_From rev_Amount update].
    rewrite I2, I1, V2, V1, P2, P3, insert_insert_eq, delete_insert_id by done.
    by rewrite (move_ledger bc) by congruence.
  - cbn [rev_To rev_From rev_Amount update]. by rewrite (can_pay_ledger bc) by congruence.
Qed.

(** A complete reversal moves the amount back exactly once, but
    leaves no mark on the reversed transfer: whenever the receiver still holds
    the amount, the very same request validates again, so one transfer can be
    refunded repeatedly. *)
Theorem refund_can_repeat bc b1 b2 b3 req conf com sender receiver :
  reversal_blocks b1 b2 b3 req conf com → validateRequestReversal bc req = true →
  sound_ledger (bc_Ledger bc) → is_u64 (tx_Amount req) → tx_From req ≠ tx_To req →
  bc_Ledger bc !! tx_From req = Some sender → bc_Ledger bc !! tx_To req = Some receiver →
  2 * tx_Amount req ≤ acc_Balance receiver →
  let bc' := foldl extend bc [b1; b2; b3] in
  acc_Balance <$> bc_Ledger bc' !! tx_From req = Some (acc_Balance sender + tx_Amount req) ∧
  acc_Balance <$> bc_Ledger bc' !! tx_To req = Some (acc_Balance receiver - tx_Amount req) ∧
  validateRequestReversal bc' req = true.
Proof.
  intros Hrb Hv Hm [Hn0 Hn] Hne Es Er Hbal.
  apply valid_request in Hv as (V1 & V2 & V3 & (o & O1 & O2 & O3 & O4 & O5) & _ & V5).
  destruct (sound_account _ _ _ Hm Es) as [[??] _], (sound_account _ _ _ Hm Er) as [[??] ?].
  assert (holding sender + holding receiver ≤ holdings (bc_Ledger bc)) as Htot.
  { eapply map_sum_ge2; [|exact Hne|done..]. apply holding_nonneg, Hm. }
  unfold holding in *.
  assert (can_pay bc (tx_To req) (tx_From req) (tx_Amount req) = true) as Hp.
  { unfold can_pay. rewrite Er, Es. apply Z.leb_le. lia. }
  pose proof (full_reversal bc b1 b2 b3 req conf com Hrb V5 Hp) as (L & P & I)%reversal_view_eq.
  cbv zeta. set (bc' := foldl extend bc [b1; b2; b3]) in *.
  assert (bc_Ledger bc' !! tx_From req = Some (credit (tx_Amount req) sender)) as Es'.
  { rewrite L. unfold move, on_account. cbn [bc_Ledger update].
    by rewrite lookup_alter_eq, lookup_alter_ne, Es. }
  assert (bc_Ledger bc' !! tx_To req = Some (debit (tx_Amount req) receiver)) as Er'.
  { rewrite L. unfold move, on_account. cbn [bc_Ledger update].
    by rewrite lookup_alter_ne, lookup_alter_eq, Er. }
  assert (acc_Balance (debit (tx_Amount req) receiver) = acc_Balance receiver - tx_Amount req) as Ed.
  { cbn. apply u64_small. u64_lia. }
  rewrite Es', Er'. cbn [fmap option_fmap option_map]. rewrite Ed. split; [|split; [done|]].
  - cbn. by rewrite u64_small by u64_lia.
  - apply (request_valid bc' req o (debit (tx_Amount req) receiver)); try done.
    + by rewrite I.
    + eapply findOriginal_append; [|done]. unfold bc'. cbn [foldl].
      by rewrite !extend_chain, <- !app_assoc.
    + lia.
    + by rewrite P.
Qed.
End reversal.

(** ** Examples *)

(** The node once [demo_block1] is on its chain. *)
Definition demo_grown : Blockchain := demo_node <| bc_Chain := demo_chain |>.

(** Alice asks for her transfer to Bob back. *)
Definition demo_request : Transaction :=
  @Sign demo_ed25519 (@NewWallet demo_ed25519 7) 1700000010
    (mkTransaction "" demo_alice "" "bob" 5 50000002 2 RequestReversal (tx_ID demo_signed)
       "" 0 "tender").

Definition demo_confirm : Transaction :=
  mkTransaction "c" "bob" "" demo_alice 5 0 1 ConfirmReversal (tx_ID demo_signed) "" 0 "tender".

Definition demo_commit : Transaction := demo_confirm <| tx_TxType := CommitReversal |>.

Definition demo_block2 : Block :=
  seal (mkBlock 2 demo_alice demo_alice (blk_BlockHash demo_block1) 1700000010 [demo_request] 0 "" "").

Definition block_of (tx : Transaction) : Block := mkBlock 3 "" "" "" 0 [tx] 0 "" "".

Lemma demo_block2_valid : @validateBlock demo_ed25519 demo_grown demo_block2 demo_block1 = Ok tt.
Proof. vm_compute. reflexivity. Qed.

Lemma demo_reversal_run :
  rtc (@node_step demo_runtime demo_ed25519) demo_grown (@extend demo_runtime demo_grown demo_block2).
Proof. apply rtc_once, step_grow. by eapply step_block; [|apply demo_block2_valid|]. Qed.

Definition demo_reversal : PendingReversal :=
  mkPendingReversal (tx_ID demo_request) (tx_ID demo_signed) demo_alice "bob" 5 demo_alice ""
    "requested" false.

Lemma demo_reversal_pending :
  bc_PendingReversals (@extend demo_runtime demo_grown demo_block2) !! tx_ID demo_signed
  = Some demo_reversal.
Proof. vm_compute. reflexivity. Qed.


Lemma demo_reversal_blocks :
  reversal_blocks (block_of demo_request) (block_of demo_confirm) (block_of demo_commit)
    demo_request demo_confirm demo_commit.
Proof. by split. Qed.

Lemma demo_refund_facts :
  validateRequestReversal demo_grown demo_request = true ∧ is_u64 (tx_Amount demo_request) ∧
  tx_From demo_request ≠ tx_To demo_request ∧
  bc_Ledger demo_grown !! tx_From demo_request = Some (mkAccount demo_alice 1000000000 0 false) ∧
  bc_Ledger demo_grown !! tx_To demo_request = Some (mkAccount "bob" 20 0 false).
Proof. repeat split; vm_compute; congruence. Qed.

Lemma refund_can_repeat_witness :
  let bc' := foldl (@extend demo_runtime) demo_grown
    [block_of demo_request; block_of demo_confirm; block_of demo_commit] in
  acc_Balance <$> bc_Ledger bc' !! tx_From demo_request
    = Some (1000000000 + tx_Amount demo_request) ∧
  acc_Balance <$> bc_Ledger bc' !! tx_To demo_request = Some (20 - tx_Amount demo_request) ∧
  validateRequestReversal bc' demo_request = true.
Proof.
  destruct demo_refund_facts as (H1 & H2 & H3 & H4 & H5).
  apply (@refund_can_repeat demo_runtime demo_grown (block_of demo_request)
    (block_of demo_confirm) (block_of demo_commit) demo_request demo_confirm demo_commit
    (mkAccount demo_alice 1000000000 0 false) (mkAccount "bob" 20 0 false)).
  - exact demo_reversal_blocks.
  - exact H1.
  - exact demo_node_sound.
  - exact H2.
  - exact H3.
  - exact H4.
  - exact H5.
  - cbn. lia.
Defined.
