(* ===== verification/Mempool.v ===== *)
(** * The transaction pool (go-chain/blockchain/blockchain.go)

    [SubmitTransaction] and [EnqueueTransaction], the two ways a transaction
    enters [Pending].  [pool_ok] is what [EnqueueTransaction] keeps: at most
    5000 entries, no two with the same ID, nonce and sender. *)

From S2P Require Import Prelude Runtime Float64 Text Sha256 Domain Json Merkle Tendermint State Accounts Validation.
Open Scope Z_scope.
Open Scope go_scope.

Section mempool.
Context `{Runtime}.
Implicit Types (bc : Blockchain) (tx : Transaction) (l : list Transaction).

Definition SubmitTransaction (bc : Blockchain) (tx : Transaction) : Blockchain :=
  let next := next_nonce bc (tx_From tx) in
  if tx_Nonce tx <? next then
    appendAuditEntry bc "transaction_rejected" (tx_From tx)
      ("tx_id=" +:+ tx_ID tx +:+ " nonce=" +:+ FormatInt (tx_Nonce tx) +:+
       " expected=" +:+ FormatInt next)
  else
    let bc := bc <| bc_Pending ::= λ l, l ++ [tx] |> in
    appendAuditEntry bc "transaction_submitted" (tx_From tx)
      ("tx_id=" +:+ tx_ID tx +:+ " nonce=" +:+ FormatInt (tx_Nonce tx)).

(** The loop that looks for the same transaction in the pool. *)
Definition same_pending (tx pending : Transaction) : Prop :=
  tx_ID pending = tx_ID tx ∧ tx_Nonce pending = tx_Nonce tx ∧ tx_From pending = tx_From tx.

#[export] Instance same_pending_dec tx pending : Decision (same_pending tx pending).
Proof. unfold same_pending. apply _. Defined.

(** [i] is the position of the head of [l], [best] the lowest fee so far and
    its position. *)
Fixpoint lowest_fee (l : list Transaction) (i : nat) (best : nat * Z) : nat :=
  match l with
  | [] => best.1
  | p :: l => lowest_fee l (S i) (if tx_Fee p <? best.2 then (i, tx_Fee p) else best)
  end.

Definition lowestFeeIdx (l : list Transaction) : nat :=
  match l with
  | [] => 0%nat
  | p :: _ => lowest_fee l 0 (0%nat, tx_Fee p)
  end.

Definition pool_limit : Z := 5000.

(** The defaults an incoming transaction gets. *)
Definition with_ID (bc : Blockchain) (tx : Transaction) : Transaction * Blockchain :=
  if bool_decide (tx_ID tx = "") then
    let '(now, bc) := UnixNano bc in (tx <| tx_ID := "tx-" +:+ FormatInt now |>, bc)
  else (tx, bc).

Definition with_nonce (bc : Blockchain) (tx : Transaction) : Transaction :=
  if tx_Nonce tx =? 0 then tx <| tx_Nonce := next_nonce bc (tx_From tx) |> else tx.

(** The body after the defaults. *)
Definition enqueue (bc : Blockchain) (tx : Transaction) : Blockchain :=
  match list_find (same_pending tx) (bc_Pending bc) with
  | Some (i, pending) =>
      if tx_Fee pending <? tx_Fee tx then
        let bc := bc <| bc_Pending ::= <[i := tx]> |> in
        appendAuditEntry bc "transaction_replaced" (tx_From tx) ("tx_id=" +:+ tx_ID tx)
      else bc
  | None =>
      if isReplay bc tx then
        appendAuditEntry bc "transaction_rejected" (tx_From tx)
          ("tx_id=" +:+ tx_ID tx +:+ " nonce=" +:+ FormatInt (tx_Nonce tx))
      else
        let queued bc :=
          let bc := markTransactionSeen bc tx in
          appendAuditEntry bc "transaction_queued" (tx_From tx)
            ("tx_id=" +:+ tx_ID tx +:+ " fee=" +:+ FormatInt (tx_Fee tx)) in
        if pool_limit <=? u64 (blen (bc_Pending bc)) then
          let i := lowestFeeIdx (bc_Pending bc) in
          match bc_Pending bc !! i with
          | Some lowest =>
              if tx_Fee tx <=? tx_Fee lowest then bc
              else queued (bc <| bc_Pending ::= <[i := tx]> |>)
          | None => bc
          end
        else queued (bc <| bc_Pending ::= λ l, l ++ [tx] |>)
  end.

Definition EnqueueTransaction (bc : Blockchain) (tx : Transaction) : Blockchain :=
  let '(tx, bc) := with_ID bc tx in
  let tx := with_nonce bc tx in
  enqueue bc tx.

(** ** The cheapest entry *)

Lemma lowest_fee_spec l l0 j p :
  l0 !! j = Some p → (∀ q, q ∈ l0 → tx_Fee p ≤ tx_Fee q) →
  ∃ p', (l0 ++ l) !! lowest_fee l (length l0) (j, tx_Fee p) = Some p' ∧
    ∀ q, q ∈ l0 ++ l → tx_Fee p' ≤ tx_Fee q.
Proof.
  revert l0 j p. induction l as [|x l IH]; intros l0 j p Ej Hmin.
  { exists p. by rewrite app_nil_r. }
  cbn [lowest_fee snd]. replace (l0 ++ x :: l) with ((l0 ++ [x]) ++ l) by by rewrite <- app_assoc.
  replace (S (length l0)) with (length (l0 ++ [x])) by (rewrite length_app; simpl; lia).
  destruct (tx_Fee x <? tx_Fee p) eqn:E; prop_bools; apply IH.
  - by apply list_lookup_middle.
  - intros q [Hq| ->%list_elem_of_singleton]%elem_of_app; [|lia]. specialize (Hmin q Hq). lia.
  - by apply lookup_app_l_Some.
  - intros q [Hq| ->%list_elem_of_singleton]%elem_of_app; [by apply Hmin|lia].
Qed.

Lemma lowestFeeIdx_spec l :
  l ≠ [] → ∃ p, l !! lowestFeeIdx l = Some p ∧ ∀ q, q ∈ l → tx_Fee p ≤ tx_Fee q.
Proof.
  destruct l as [|p l]; [done|]. intros _. unfold lowestFeeIdx. cbn [lowest_fee snd].
  rewrite Z.ltb_irrefl. apply (lowest_fee_spec l [p] 0 p); [done|].
  intros q ->%list_elem_of_singleton. lia.
Qed.

(** ** What the pool keeps *)

Definition pool_key (tx : Transaction) : string * Z * string := (tx_ID tx, tx_Nonce tx, tx_From tx).

Definition pool_ok (bc : Blockchain) : Prop :=
  NoDup (map pool_key (bc_Pending bc)) ∧ blen (bc_Pending bc) ≤ pool_limit.

Lemma same_pending_key tx p : same_pending tx p ↔ pool_key p = pool_key tx.
Proof. unfold same_pending, pool_key. split; [intros (-> & -> & ->)|intros [=]]; done. Qed.

Lemma NoDup_map_insert {A B} (f : A → B) (l : list A) i x y :
  NoDup (map f l) → l !! i = Some y → (f x = f y ∨ f x ∉ map f l) → NoDup (map f (<[i := x]> l)).
Proof.
  intros Hnd Hi Hx. change (map f) with (fmap (M := list) f) in *. rewrite list_fmap_insert.
  destruct Hx as [E|Hx].
  - rewrite list_insert_id; [done|]. by rewrite list_lookup_fmap, Hi, E.
  - apply NoDup_alt. intros j k z Hj Hk.
    rewrite NoDup_alt in Hnd.
    apply list_lookup_insert_Some in Hj, Hk.
    destruct Hj as [(<- & <- & ?)|[? Hj]], Hk as [(<- & Ek & ?)|[? Hk]]; try done.
    + by apply list_elem_of_lookup_2 in Hk.
    + subst. by apply list_elem_of_lookup_2 in Hj.
    + by eapply Hnd.
Qed.

Lemma not_pending tx l :
  list_find (same_pending tx) l = None → pool_key tx ∉ map pool_key l.
Proof.
  intros Hf%list_find_None. rewrite Forall_forall in Hf.
  intros (p & E & Hp)%list_elem_of_fmap. apply (Hf p Hp). by apply same_pending_key.
Qed.

Lemma markSeen_pending bc tx : bc_Pending (markTransactionSeen bc tx) = bc_Pending bc.
Proof. unfold markTransactionSeen. by case_match. Qed.

(** The pool after [enqueue]. *)
Lemma enqueue_pending bc tx :
  bc_Pending (enqueue bc tx) =
  match list_find (same_pending tx) (bc_Pending bc) with
  | Some (i, p) => if tx_Fee p <? tx_Fee tx then <[i := tx]> (bc_Pending bc) else bc_Pending bc
  | None =>
      if isReplay bc tx then bc_Pending bc
      else if pool_limit <=? u64 (blen (bc_Pending bc)) then
        match bc_Pending bc !! lowestFeeIdx (bc_Pending bc) with
        | Some lowest => if tx_Fee tx <=? tx_Fee lowest then bc_Pending bc
                         else <[lowestFeeIdx (bc_Pending bc) := tx]> (bc_Pending bc)
        | None => bc_Pending bc
        end
      else bc_Pending bc ++ [tx]
  end.
Proof.
  unfold enqueue. destruct (list_find _ _) as [[i p]|]; [by case_match|].
  destruct (isReplay bc tx); [done|]. cbv zeta.
  destruct (pool_limit <=? _).
  - destruct (_ !! _); [|done]. case_match; [done|].
    cbn [bc_Pending update appendAuditEntry Unix tick]. by rewrite markSeen_pending.
  - cbn [bc_Pending update appendAuditEntry Unix tick]. by rewrite markSeen_pending.
Qed.

Lemma enqueue_ok bc tx : pool_ok bc → pool_ok (enqueue bc tx).
Proof.
  intros [Hnd Hlen]. unfold pool_ok. rewrite enqueue_pending.
  destruct (list_find _ _) as [[i p]|] eqn:Ef.
  - apply list_find_Some in Ef as (Hi & Hk%same_pending_key & _). case_match; [|done].
    split; [by eapply NoDup_map_insert; eauto|]. unfold blen. by rewrite length_insert.
  - apply not_pending in Ef. destruct (isReplay bc tx); [done|].
    destruct (pool_limit <=? _) eqn:El; prop_bools.
    + destruct (bc_Pending bc !! _) as [p|] eqn:Ei; [|done]. case_match; [done|].
      split; [by eapply NoDup_map_insert; eauto|]. unfold blen. by rewrite length_insert.
    + rewrite u64_small in El by (pose proof (blen_nonneg (bc_Pending bc));
        unfold pool_limit in *; u64_lia).
      rewrite blen_app, map_app. change (blen [tx]) with 1. split; [|lia].
      apply NoDup_app. split; [done|]. split; [|apply NoDup_singleton].
      intros k Hk ->%list_elem_of_singleton. done.
Qed.

Lemma EnqueueTransaction_ok bc tx : pool_ok bc → pool_ok (EnqueueTransaction bc tx).
Proof.
  intros Hok. unfold EnqueueTransaction, with_ID. case_bool_decide.
  - cbv beta iota zeta delta [UnixNano]. apply enqueue_ok. exact Hok.
  - by apply enqueue_ok.
Qed.

(** C14. From a pool of at most 5000 transactions with different IDs, nonces or
    senders, whatever transactions are enqueued, in whatever order, the pool never
    holds more than 5000 of them nor two with the same ID, nonce and sender. *)
Theorem pool_invariant bc txs :
  pool_ok bc → pool_ok (foldl EnqueueTransaction bc txs).
Proof. intros Hok. apply foldl_inv; [|done]. intros s tx _. apply EnqueueTransaction_ok. Qed.

(** Enqueueing into a full pool a new transaction with an ID and a
    fresh nonce: the entry with the lowest fee, the first of them, makes room
    exactly when the newcomer pays strictly more; otherwise the state does not
    change.  Every entry but the cheapest keeps its place. *)
Theorem full_pool_evicts_cheapest bc tx :
  blen (bc_Pending bc) = pool_limit → tx_ID tx ≠ "" → tx_Nonce tx ≠ 0 →
  list_find (same_pending tx) (bc_Pending bc) = None → isReplay bc tx = false →
  ∃ i lowest, bc_Pending bc !! i = Some lowest ∧
    (∀ p, p ∈ bc_Pending bc → tx_Fee lowest ≤ tx_Fee p) ∧
    (tx_Fee tx ≤ tx_Fee lowest → EnqueueTransaction bc tx = bc) ∧
    (tx_Fee lowest < tx_Fee tx →
     bc_Pending (EnqueueTransaction bc tx) = <[i := tx]> (bc_Pending bc)).
Proof.
  intros Hlen Hid Hn Hf Hr. destruct (lowestFeeIdx_spec (bc_Pending bc)) as (lowest & Ei & Hmin).
  { intros E. by rewrite E in Hlen. }
  exists (lowestFeeIdx (bc_Pending bc)), lowest. split; [done|]. split; [done|].
  assert (EnqueueTransaction bc tx = enqueue bc tx) as ->.
  { unfold EnqueueTransaction, with_ID. rewrite bool_decide_false by done.
    unfold with_nonce. apply Z.eqb_neq in Hn. by rewrite Hn. }
  assert ((pool_limit <=? u64 (blen (bc_Pending bc))) = true) as El by by rewrite Hlen.
  split; intros Hfee.
  - unfold enqueue. rewrite Hf, Hr, El, Ei. apply Z.leb_le in Hfee. by rewrite Hfee.
  - rewrite enqueue_pending, Hf, Hr, El, Ei. apply Z.leb_gt in Hfee. by rewrite Hfee.
Qed.

(** [SubmitTransaction] appends without looking at the pool. *)
Lemma SubmitTransaction_unbounded bc tx :
  next_nonce bc (tx_From tx) ≤ tx_Nonce tx →
  bc_Pending (SubmitTransaction bc tx) = bc_Pending bc ++ [tx].
Proof. intros Hn. unfold SubmitTransaction. apply Z.ltb_ge in Hn. by rewrite Hn. Qed.
End mempool.

(** ** Examples *)

Lemma demo_pool_ok : pool_ok demo_node.
Proof. split; [constructor|by vm_compute]. Qed.

Lemma pool_invariant_witness :
  pool_ok (foldl (@EnqueueTransaction demo_runtime) demo_node
             [demo_signed; demo_transfer; demo_signed]).
Proof. exact (@pool_invariant demo_runtime demo_node _ demo_pool_ok). Defined.

(** A pool of 5000 transactions with fees 10, 11, 12, ... *)
Definition full_pool : list Transaction :=
  (λ i, demo_transfer <| tx_ID := FormatInt (Z.of_nat i) |>
                      <| tx_Fee := 10 + Z.of_nat i |>) <$> seq 0 5000.

Definition demo_full : Blockchain := demo_node <| bc_Pending := full_pool |>.

Definition rich_tx : Transaction := demo_transfer <| tx_ID := "rich" |> <| tx_Fee := 99 |>.

Lemma demo_full_facts :
  blen (bc_Pending demo_full) = pool_limit ∧
  list_find (same_pending rich_tx) (bc_Pending demo_full) = None ∧
  isReplay demo_full rich_tx = false.
Proof.
  split; [vm_compute; reflexivity|]. split; vm_compute; reflexivity.
Qed.

Lemma full_pool_evicts_cheapest_witness :
  ∃ i lowest, bc_Pending demo_full !! i = Some lowest ∧
    (∀ p, p ∈ bc_Pending demo_full → tx_Fee lowest ≤ tx_Fee p) ∧
    (tx_Fee rich_tx ≤ tx_Fee lowest →
     @EnqueueTransaction demo_runtime demo_full rich_tx = demo_full) ∧
    (tx_Fee lowest < tx_Fee rich_tx →
     bc_Pending (@EnqueueTransaction demo_runtime demo_full rich_tx)
     = <[i := rich_tx]> (bc_Pending demo_full)).
Proof.
  destruct demo_full_facts as (H1 & H2 & H3).
  apply (@full_pool_evicts_cheapest demo_runtime demo_full rich_tx).
  - exact H1.
  - cbn. congruence.
  - cbn. congruence.
  - exact H2.
  - exact H3.
Defined.
