(* ===== verification/Rewards.v ===== *)
(** * Mining rewards (go-chain/blockchain/blockchain.go)

    The calendar behind [monthIdentifier], [yearIdentifier] and
    [yearEndTimestamp] (the proleptic Gregorian calendar of package [time], in
    UTC), [MineRewardFor] with the statistics it keeps per miner,
    [RecordMinerSubmission], [NoteMinedBlock] and [minerDifficulty].  The reward of
    a block that was mined elsewhere ([submission_reward]) is paid outside of this
    schedule.

    [mine_reward] is the body of [MineRewardFor] on one entry of [MinerStats];
    the method finds the entry, reads the clock and writes it back. *)

From S2P Require Import Prelude Runtime Float64 Text Sha256 Domain Json Tendermint State.
Open Scope Z_scope.
Open Scope go_scope.

(** ** The calendar *)

Definition day_seconds : Z := 86400.

(** Days from 1 January of the year 1 to 1 January 1970. *)
Definition epoch_day : Z := 719162.

(** Days from 1 January of the year 1 to 1 January of the year [y]. *)
Definition days_before_year (y : Z) : Z :=
  let p := y - 1 in 365 * p + p `div` 4 - p `div` 100 + p `div` 400.

Definition day_of (ts : Z) : Z := ts `div` day_seconds + epoch_day.

(** The year day [n] falls in: 400 years have 146097 days, so the guess is off
    by one at most. *)
Definition year_of_day (n : Z) : Z :=
  let guess := (n * 400) `div` 146097 + 1 in
  if n <? days_before_year guess then guess - 1
  else if days_before_year (guess + 1) <=? n then guess + 1
  else guess.

Definition is_leap (y : Z) : bool :=
  (y mod 4 =? 0) && (negb (y mod 100 =? 0) || (y mod 400 =? 0)).

(** Days before each month of a year that is not leap. *)
Definition month_starts : list Z := [0; 31; 59; 90; 120; 151; 181; 212; 243; 273; 304; 334].

Definition month_of_day (n : Z) : Z :=
  let y := year_of_day n in
  let d := n - days_before_year y in
  let start s := if is_leap y && (59 <=? s) then s + 1 else s in
  blen (filter (λ s, start s ≤ d) month_starts).

Definition yearIdentifier (ts : Z) : Z := year_of_day (day_of ts).

Definition monthIdentifier (ts : Z) : Z :=
  i64 (yearIdentifier ts * 12 + month_of_day (day_of ts)).

Definition yearEndTimestamp (ts : Z) : Z :=
  (days_before_year (yearIdentifier ts + 1) - epoch_day) * day_seconds.

(** ** Rewards *)

Definition oneWeekSeconds : Z := 604800.
Definition twoWeekSeconds : Z := 1209600.

(** [blockReward := uint64(100)] of [SubmitMinedBlock] *)
Definition submission_reward : Z := 100.

Definition fresh_stats (miner : string) : MinerStats := mkMinerStats miner 0 0 0 0 0 0 0 0 0 0 0.

(** The resets at a new year and a new month. *)
Definition roll_over (difficulty now : Z) (st : MinerStats) : MinerStats :=
  let currentMonth := monthIdentifier now in
  let currentYear := yearIdentifier now in
  let st := if ms_CurrentYear st =? 0 then st <| ms_CurrentYear := currentYear |> else st in
  let st := if ms_CurrentMonth st =? 0 then st <| ms_CurrentMonth := currentMonth |> else st in
  let st :=
    if negb (ms_CurrentYear st =? currentYear) then
      st <| ms_CurrentYear := currentYear |> <| ms_YearlyRewards := 0 |>
         <| ms_YearlyPauseUntil := 0 |> <| ms_MonthlyRewards := 0 |>
         <| ms_PersonalDifficulty := difficulty |>
    else st in
  if negb (ms_CurrentMonth st =? currentMonth) then
    st <| ms_CurrentMonth := currentMonth |> <| ms_MonthlyRewards := 0 |>
       <| ms_PersonalDifficulty := difficulty |>
  else st.

(** The [switch] on the rewards of the month: [None] when it returns 0. *)
Definition month_step (difficulty elapsed : Z) (st : MinerStats) : option MinerStats :=
  let grant monthly extra :=
    Some (st <| ms_MonthlyRewards := monthly |> <| ms_YearlyRewards ::= λ n, u32 (n + 1) |>
             <| ms_PersonalDifficulty := u32 (difficulty + extra) |>) in
  if ms_MonthlyRewards st =? 0 then
    if elapsed <? oneWeekSeconds then None else grant 1 8
  else if ms_MonthlyRewards st =? 1 then
    if elapsed <? twoWeekSeconds then None else grant 2 16
  else if ms_MonthlyRewards st =? 2 then
    if ms_CurrentMonth st =? monthIdentifier (ms_LastSubmissionTime st) then None
    else if elapsed <? oneWeekSeconds then None else grant 1 0
  else None.

Definition mine_reward (difficulty now : Z) (st : MinerStats) : Z * MinerStats :=
  let st := roll_over difficulty now st in
  if (0 <? ms_YearlyPauseUntil st) && (now <? ms_YearlyPauseUntil st) then (0, st) else
  if ms_LastRewardBlock st =? 0 then
    (1, st <| ms_MonthlyRewards := 1 |> <| ms_YearlyRewards := 1 |>
           <| ms_LastRewardBlock := u64 now |> <| ms_LastSubmissionTime := now |>
           <| ms_BlocksSubmitted ::= λ n, n +! 1 |>
           <| ms_PersonalDifficulty := u32 (difficulty + 8) |>)
  else
    let elapsed := i64 (now - ms_LastSubmissionTime st) in
    let elapsed := if elapsed <? 0 then 0 else elapsed in
    match month_step difficulty elapsed st with
    | None => (0, st)
    | Some st =>
        let st := if 3 <=? ms_YearlyRewards st
                  then st <| ms_YearlyPauseUntil := yearEndTimestamp now |> else st in
        if 3 <? ms_YearlyRewards st then (0, st) else
        let st := if (0 <? ms_BlocksSubmitted st) && (0 <? ms_AcceleratorCount st)
                  then st <| ms_AcceleratorCount := 0 |> else st in
        (1, st <| ms_LastSubmissionTime := now |> <| ms_BlocksSubmitted ::= λ n, n +! 1 |>
               <| ms_LastRewardBlock := u64 now |>)
    end.

(** [RecordMinerSubmission] and [NoteMinedBlock] on one entry. *)
Definition record_submission (now : Z) (st : MinerStats) : MinerStats :=
  let st := st <| ms_BlocksSubmitted ::= λ n, n +! 1 |> <| ms_LastSubmissionTime := now |> in
  if 24 * 7 <? ms_SubmittedLastHour st then st <| ms_PersonalDifficulty := 32 |>
  else st <| ms_SubmittedLastHour ::= λ n, n +! 1 |>.

Definition note_mined (st : MinerStats) : MinerStats := st <| ms_SubmittedLastHour := 0 |>.

Section rewards.
Context `{Runtime}.

(** The entry of a miner, created when missing. *)
Definition stats_of (bc : Blockchain) (miner : string) : MinerStats :=
  default (fresh_stats miner) (bc_MinerStats bc !! miner).

Definition MineRewardFor (bc : Blockchain) (miner : string) : Z * Blockchain :=
  let stats := stats_of bc miner in
  let '(now, bc) := Unix bc in
  let '(reward, stats) := mine_reward (bc_Difficulty bc) now stats in
  (reward, bc <| bc_MinerStats ::= <[miner := stats]> |>).

Definition RecordMinerSubmission (bc : Blockchain) (miner : string) : Blockchain :=
  let stats := stats_of bc miner in
  let '(now, bc) := Unix bc in
  bc <| bc_MinerStats ::= <[miner := record_submission now stats]> |>.

Definition NoteMinedBlock (bc : Blockchain) (miner : string) : Blockchain :=
  bc <| bc_MinerStats ::= <[miner := note_mined (stats_of bc miner)]> |>.

Definition minerDifficulty (bc : Blockchain) (miner : string) : Z :=
  match bc_MinerStats bc !! miner with
  | None => bc_Difficulty bc
  | Some stats =>
      if bc_Difficulty bc <? ms_PersonalDifficulty stats then ms_PersonalDifficulty stats
      else bc_Difficulty bc
  end.
End rewards.

(** ** The calendar: facts *)

(** The leap days before year [p + 1], as nested quotients. *)
Lemma days_before_year_nested p :
  days_before_year (p + 1) = 365 * p + p `div` 4 - p `div` 4 `div` 25 + p `div` 4 `div` 25 `div` 4.
Proof.
  unfold days_before_year. cbv zeta. replace (p + 1 - 1) with p by lia.
  by rewrite !Z.div_div by lia.
Qed.

Lemma days_before_year_step y :
  365 ≤ days_before_year (y + 1) - days_before_year y ≤ 366.
Proof.
  pose proof (days_before_year_nested (y - 1)) as E. replace (y - 1 + 1) with y in E by lia.
  rewrite (days_before_year_nested y), E. clear E.
  assert (y `div` 4 = (y - 1) `div` 4 ∨ y `div` 4 = (y - 1) `div` 4 + 1) as [-> | ->]
    by (Z.to_euclidean_division_equations; lia); [lia|].
  generalize ((y - 1) `div` 4). intros a.
  assert ((a + 1) `div` 25 = a `div` 25 ∨ (a + 1) `div` 25 = a `div` 25 + 1) as [-> | ->]
    by (Z.to_euclidean_division_equations; lia); [lia|].
  generalize (a `div` 25). intros b. Z.to_euclidean_division_equations. lia.
Qed.

(** A year has 365.2425 days on average. *)
Lemma days_before_year_bounds p :
  146097 * p - 600 ≤ 400 * days_before_year (p + 1) ≤ 146097 * p + 300.
Proof. rewrite days_before_year_nested. Z.to_euclidean_division_equations. lia. Qed.

Lemma year_of_day_spec n :
  days_before_year (year_of_day n) ≤ n < days_before_year (year_of_day n + 1).
Proof.
  unfold year_of_day. cbv zeta.
  assert (days_before_year ((n * 400) `div` 146097) ≤ n <
          days_before_year ((n * 400) `div` 146097 + 3)) as [Hlo Hhi].
  { pose proof (days_before_year_bounds ((n * 400) `div` 146097 - 1)) as Hl.
    pose proof (days_before_year_bounds ((n * 400) `div` 146097 + 2)) as Hh.
    replace ((n * 400) `div` 146097 - 1 + 1) with ((n * 400) `div` 146097) in Hl by lia.
    replace ((n * 400) `div` 146097 + 2 + 1) with ((n * 400) `div` 146097 + 3) in Hh by lia.
    pose proof (Z.div_mod (n * 400) 146097 ltac:(lia)).
    pose proof (Z.mod_pos_bound (n * 400) 146097 ltac:(lia)). lia. }
  set (g := (n * 400) `div` 146097 + 1) in *.
  destruct (n <? days_before_year g) eqn:E1; prop_bools.
  - replace (g - 1 + 1) with g by lia. replace (g - 1) with ((n * 400) `div` 146097) by lia. lia.
  - destruct (days_before_year (g + 1) <=? n) eqn:E2; prop_bools; [|lia].
    split; [done|]. replace (g + 1 + 1) with ((n * 400) `div` 146097 + 3) by lia. done.
Qed.

Lemma days_before_year_mono y y' : y ≤ y' → days_before_year y ≤ days_before_year y'.
Proof.
  intros Hle. replace y' with (y + (y' - y)) by lia.
  generalize (Z.to_nat (y' - y)), (Z2Nat.id (y' - y) ltac:(lia)). intros k <-.
  induction k as [|k IH]; [by rewrite Z.add_0_r|].
  pose proof (days_before_year_step (y + Z.of_nat k)).
  replace (y + Z.of_nat (S k)) with (y + Z.of_nat k + 1) by lia. lia.
Qed.

Lemma year_of_day_unique n y :
  days_before_year y ≤ n < days_before_year (y + 1) → year_of_day n = y.
Proof.
  intros Hy. pose proof (year_of_day_spec n) as Hs.
  destruct (Z.lt_trichotomy (year_of_day n) y) as [Hlt|[?|Hgt]]; [|done|].
  - pose proof (days_before_year_mono (year_of_day n + 1) y ltac:(lia)). lia.
  - pose proof (days_before_year_mono (y + 1) (year_of_day n) ltac:(lia)). lia.
Qed.

Lemma yearIdentifier_bounds ts y :
  yearIdentifier ts = y ↔
  (days_before_year y - epoch_day) * day_seconds ≤ ts <
  (days_before_year (y + 1) - epoch_day) * day_seconds.
Proof.
  unfold yearIdentifier, day_of.
  assert (days_before_year y ≤ ts `div` day_seconds + epoch_day < days_before_year (y + 1) ↔
    (days_before_year y - epoch_day) * day_seconds ≤ ts <
    (days_before_year (y + 1) - epoch_day) * day_seconds) as <-.
  { unfold day_seconds. Z.to_euclidean_division_equations. lia. }
  split; [intros <-; apply year_of_day_spec|apply year_of_day_unique].
Qed.

(** The pause of a miner ends with the calendar year. *)
Lemma year_end_after ts t :
  ts ≤ t → t < yearEndTimestamp ts ↔ yearIdentifier t = yearIdentifier ts.
Proof.
  intros Hle. pose proof (proj1 (yearIdentifier_bounds ts _) eq_refl) as Hts.
  unfold yearEndTimestamp. rewrite (yearIdentifier_bounds t). lia.
Qed.

Example calendar_vectors :
  map (λ ts, (yearIdentifier ts, monthIdentifier ts - 12 * yearIdentifier ts))
    [0; -1; 1709164800; 1709251199; 1709251200; 1735689599; 1735689600; 951782400; 4107542399]
  = [(1970, 1); (1969, 12); (2024, 2); (2024, 2); (2024, 3); (2024, 12); (2025, 1);
     (2000, 2); (2100, 2)].
Proof. vm_compute. reflexivity. Qed.

Example year_end_vector : yearEndTimestamp 1709164800 = 1735689600.
Proof. vm_compute. reflexivity. Qed.

(** ** The yearly cap *)

(** What a miner can do, with the time it happens at: a block mined by the node
    ([EvReward]) and the two methods called after it ([EvRecord], [EvNote]), and a
    block mined elsewhere that the node accepts ([EvSubmit]), which leaves the
    entry of the miner alone. *)
Inductive miner_event :=
| EvReward (difficulty now : Z)
| EvRecord (now : Z)
| EvNote (now : Z)
| EvSubmit (now : Z).

Definition event_time (e : miner_event) : Z :=
  match e with EvReward _ now | EvRecord now | EvNote now | EvSubmit now => now end.

(** The entry after the event and what it paid. *)
Definition run_event (st : MinerStats) (e : miner_event) : Z * MinerStats :=
  match e with
  | EvReward d now => mine_reward d now st
  | EvRecord now => (0, record_submission now st)
  | EvNote _ => (0, note_mined st)
  | EvSubmit _ => (submission_reward, st)
  end.

(** The submissions accepted in the year [y]. *)
Fixpoint submissions_in (y : Z) (es : list miner_event) : Z :=
  match es with
  | [] => 0
  | EvSubmit now :: es => (if yearIdentifier now =? y then 1 else 0) + submissions_in y es
  | _ :: es => submissions_in y es
  end.

(** What was paid in the year [y]. *)
Fixpoint paid_in (y : Z) (st : MinerStats) (es : list miner_event) : Z :=
  match es with
  | [] => 0
  | e :: es =>
      let '(reward, st) := run_event st e in
      (if yearIdentifier (event_time e) =? y then reward else 0) + paid_in y st es
  end.

(** Times are in order, after the epoch and within [int64]. *)
Fixpoint in_order (last : Z) (es : list miner_event) : Prop :=
  match es with
  | [] => True
  | e :: es => last ≤ event_time e ∧ 0 < event_time e < 2 ^ 63 ∧ in_order (event_time e) es
  end.

(** The entry of a miner last touched at [last]: the counter of its year is at
    most three, at three the miner is paused until the end of that year, and a
    miner that was never paid has an empty counter. *)
Record stats_inv (last : Z) (st : MinerStats) : Prop := {
  si_range : 0 ≤ ms_YearlyRewards st ≤ 3;
  si_new : ms_LastRewardBlock st = 0 → ms_YearlyRewards st = 0 ∧ ms_YearlyPauseUntil st = 0;
  si_pause : ms_YearlyRewards st = 3 →
    ∃ t, 0 < t ≤ last ∧ yearIdentifier t = ms_CurrentYear st ∧ ms_YearlyPauseUntil st = yearEndTimestamp t;
  si_year : ms_YearlyRewards st ≠ 0 →
    ∃ t, 0 < t ≤ last ∧ yearIdentifier t = ms_CurrentYear st;
}.

(** The counter of the year of [now], before anything is paid. *)
Definition counter_at (now : Z) (st : MinerStats) : Z :=
  if ms_CurrentYear st =? yearIdentifier now then ms_YearlyRewards st else 0.

Lemma year_positive t : 0 < t → 0 < yearIdentifier t.
Proof.
  intros Ht. pose proof (proj1 (yearIdentifier_bounds t _) eq_refl) as [_ Hb].
  destruct (Z.lt_ge_cases 0 (yearIdentifier t)) as [|Hle]; [done|]. exfalso.
  pose proof (days_before_year_mono (yearIdentifier t + 1) 1 ltac:(lia)) as Hm.
  change (days_before_year 1) with 0 in Hm. unfold epoch_day, day_seconds in Hb. lia.
Qed.

Lemma stats_inv_later last now st : stats_inv last st → last ≤ now → stats_inv now st.
Proof.
  intros [H1 H2 H3 H4] Hle. split; [done|done| |].
  - intros E. destruct (H3 E) as (t & ? & ?). exists t. split; [lia|done].
  - intros E. destruct (H4 E) as (t & ? & ?). exists t. split; [lia|done].
Qed.

(** The fields [roll_over] decides, as one case distinction. *)
Lemma roll_over_fields d now st :
  let st' := roll_over d now st in
  let same := (ms_CurrentYear st =? 0) || (ms_CurrentYear st =? yearIdentifier now) in
  ms_CurrentYear st' = yearIdentifier now ∧
  ms_YearlyRewards st' = (if same then ms_YearlyRewards st else 0) ∧
  ms_YearlyPauseUntil st' = (if same then ms_YearlyPauseUntil st else 0) ∧
  ms_LastRewardBlock st' = ms_LastRewardBlock st.
Proof.
  unfold roll_over. cbv zeta.
  generalize (monthIdentifier now), (yearIdentifier now). intros m y.
  destruct st as [addr bs lst slh pd ac lrb cm cy mr yr yp]. cbn -[Z.eqb].
  destruct (cy =? 0) eqn:E1; cbn -[Z.eqb]; destruct (cm =? 0) eqn:E3; cbn -[Z.eqb];
    rewrite ?Z.eqb_refl; cbn -[Z.eqb]; destruct (cy =? y) eqn:E2; cbn -[Z.eqb];
    rewrite ?Z.eqb_refl; cbn -[Z.eqb];
    repeat match goal with |- context [negb (?x =? ?z)] => destruct (x =? z) end;
    cbn -[Z.eqb]; prop_bools; done.
Qed.

Lemma roll_over_inv d last now st :
  stats_inv last st → last ≤ now → 0 < now →
  stats_inv now (roll_over d now st) ∧
  ms_CurrentYear (roll_over d now st) = yearIdentifier now ∧
  ms_YearlyRewards (roll_over d now st) = counter_at now st.
Proof.
  intros [H1 H2 H3 H4] Hle Hnow. destruct (roll_over_fields d now st) as (E1 & E2 & E3 & E4).
  assert (ms_YearlyRewards (roll_over d now st) = counter_at now st) as Ec.
  { rewrite E2. unfold counter_at. destruct (ms_CurrentYear st =? 0) eqn:E0; cbn [orb]; [|done].
    prop_bools. destruct (Z.eq_dec (ms_YearlyRewards st) 0) as [E|Hne];
      [rewrite E; by destruct (_ =? _)|].
    destruct (H4 Hne) as (t & Ht & Ey). pose proof (year_positive t ltac:(lia)). lia. }
  split; [|done]. split.
  - rewrite Ec. unfold counter_at. destruct (ms_CurrentYear st =? yearIdentifier now); [done|]. lia.
  - rewrite E4. intros E. rewrite E2, E3. destruct (H2 E) as [-> ->]. by destruct (_ || _).
  - intros E. rewrite Ec in E. unfold counter_at in E.
    destruct (ms_CurrentYear st =? yearIdentifier now) eqn:Ey; [|done]. prop_bools.
    destruct (H3 E) as (t & Ht & Eyt & Ep). exists t. rewrite E1, E3, Ey, orb_true_r.
    split; [lia|]. split; [congruence|done].
  - intros _. exists now. rewrite E1. split; [lia|done].
Qed.

Lemma month_step_fields d elapsed st st' :
  month_step d elapsed st = Some st' →
  ms_YearlyRewards st' = u32 (ms_YearlyRewards st + 1) ∧
  ms_CurrentYear st' = ms_CurrentYear st ∧ ms_YearlyPauseUntil st' = ms_YearlyPauseUntil st ∧
  ms_LastRewardBlock st' = ms_LastRewardBlock st.
Proof. unfold month_step. intros E. repeat case_match; by simplify_eq. Qed.

(** The outcome of a call: [r] paid, counted in the year of the call. *)
Definition reward_outcome (now : Z) (st : MinerStats) (res : Z * MinerStats) : Prop :=
  stats_inv now res.2 ∧ 0 ≤ res.1 ≤ 1 ∧ ms_CurrentYear res.2 = yearIdentifier now ∧
  ms_YearlyRewards res.2 = counter_at now st + res.1.

(** A miner that is not paused has had at most two rewards this year. *)
Lemma not_paused_room now st :
  stats_inv now st → ms_CurrentYear st = yearIdentifier now →
  (0 <? ms_YearlyPauseUntil st) && (now <? ms_YearlyPauseUntil st) = false →
  ms_YearlyRewards st ≤ 2.
Proof.
  intros [R1 _ R3 _] Ey Ep. destruct (Z.eq_dec (ms_YearlyRewards st) 3) as [E3|]; [|lia].
  destruct (R3 E3) as (t & Ht & Eyt & Epause).
  assert (now < yearEndTimestamp t) as Hlt by (apply year_end_after; [lia|congruence]).
  rewrite Epause in Ep. apply andb_false_iff in Ep as [?|?]; prop_bools; lia.
Qed.

Lemma mine_reward_outcome d last now st :
  stats_inv last st → last ≤ now → 0 < now < 2 ^ 63 →
  reward_outcome now st (mine_reward d now st).
Proof.
  intros Hinv Hle Hnow.
  destruct (roll_over_inv d last now st Hinv Hle ltac:(lia)) as (Hr & Ey & Ec).
  unfold mine_reward. cbv zeta. set (st1 := roll_over d now st) in *.
  assert (reward_outcome now st (0, st1)) as Hnone.
  { split; [done|]. cbn [fst snd]. split; [lia|]. split; [done|]. rewrite Ec. lia. }
  destruct (_ && _) eqn:Ep; [done|].
  destruct (ms_LastRewardBlock st1 =? 0) eqn:El; prop_bools.
  { destruct (si_new _ _ Hr El) as [E0 _]. split; [|cbn; split; [lia|split; [done|lia]]].
    split; cbn; [lia| |lia|].
    - rewrite u64_small by u64_lia. lia.
    - intros _. exists now. split; [lia|done]. }
  destruct (month_step _ _ _) as [st2|] eqn:Em; [|done].
  destruct (month_step_fields _ _ _ _ Em) as (F1 & F2 & F3 & F4).
  pose proof (not_paused_room now st1 Hr Ey Ep) as H2. pose proof (si_range _ _ Hr).
  rewrite u32_small in F1 by u64_lia.
  assert (∀ st3, ms_YearlyRewards st3 = ms_YearlyRewards st2 →
    ms_CurrentYear st3 = yearIdentifier now →
    (ms_YearlyRewards st3 = 3 → ms_YearlyPauseUntil st3 = yearEndTimestamp now) →
    reward_outcome now st (1, st3 <| ms_LastSubmissionTime := now |>
      <| ms_BlocksSubmitted ::= λ n, n +! 1 |> <| ms_LastRewardBlock := u64 now |>)) as Hpaid.
  { intros st3 G1 G2 G3. split; [|cbn; split; [lia|split; [done|lia]]].
    split; cbn; [lia| | |].
    - rewrite u64_small by u64_lia. lia.
    - intros E. exists now. split; [lia|]. split; [done|by apply G3].
    - intros _. exists now. split; [lia|done]. }
  destruct (3 <=? ms_YearlyRewards st2) eqn:E3; prop_bools.
  - assert ((3 <? ms_YearlyRewards (st2 <| ms_YearlyPauseUntil := yearEndTimestamp now |>)) = false)
      as -> by (apply Z.ltb_ge; cbn; lia).
    apply Hpaid; cbn; destruct ((0 <? ms_BlocksSubmitted st2) && _); cbn; first [done|congruence|lia].
  - assert ((3 <? ms_YearlyRewards st2) = false) as -> by (apply Z.ltb_ge; lia).
    apply Hpaid; cbn; destruct ((0 <? ms_BlocksSubmitted st2) && _); cbn; first [done|congruence|lia].
Qed.

Lemma yearIdentifier_mono t t' : t ≤ t' → yearIdentifier t ≤ yearIdentifier t'.
Proof.
  intros Hle. pose proof (proj1 (yearIdentifier_bounds t _) eq_refl).
  pose proof (proj1 (yearIdentifier_bounds t' _) eq_refl).
  destruct (Z.le_gt_cases (yearIdentifier t) (yearIdentifier t')) as [|Hgt]; [done|].
  pose proof (days_before_year_mono (yearIdentifier t' + 1) (yearIdentifier t) ltac:(lia)).
  unfold day_seconds in *. lia.
Qed.

Lemma record_submission_inv last now st :
  stats_inv last st → last ≤ now →
  stats_inv now (record_submission now st) ∧
  ms_CurrentYear (record_submission now st) = ms_CurrentYear st ∧
  ms_YearlyRewards (record_submission now st) = ms_YearlyRewards st.
Proof.
  intros Hinv Hle. apply (stats_inv_later _ now) in Hinv; [|done].
  unfold record_submission. cbv zeta. destruct Hinv.
  destruct (24 * 7 <? _); (split; [split; cbn; assumption|done]).
Qed.

(** What is paid apart from the submissions. *)
Definition schedule_in (y : Z) (st : MinerStats) (es : list miner_event) : Z :=
  paid_in y st es - submission_reward * submissions_in y es.

Lemma schedule_in_cons y st e es :
  schedule_in y st (e :: es) =
  (if yearIdentifier (event_time e) =? y
   then match e with EvSubmit _ => 0 | _ => (run_event st e).1 end else 0) +
  schedule_in y (run_event st e).2 es.
Proof.
  unfold schedule_in. cbn [paid_in]. rewrite (surjective_pairing (run_event st e)) at 1.
  destruct e; cbn [submissions_in event_time run_event fst snd]; destruct (_ =? y); lia.
Qed.

(** Once the clock has left a year, nothing more is paid in it. *)
Lemma schedule_in_past y last es : ∀ st,
  in_order last es → y < yearIdentifier last → schedule_in y st es = 0.
Proof.
  revert last. induction es as [|e es IH]; intros last st; [done|].
  intros (Hle & _ & Ho) Hy. pose proof (yearIdentifier_mono last (event_time e) Hle).
  rewrite schedule_in_cons, (IH (event_time e)); [|done|lia].
  destruct (yearIdentifier (event_time e) =? y) eqn:E; prop_bools; lia.
Qed.

(** What one event does to the counter of the entry's year. *)
Lemma run_event_inv last st e :
  stats_inv last st → last ≤ event_time e → 0 < event_time e < 2 ^ 63 →
  let st' := (run_event st e).2 in
  let r := match e with EvSubmit _ => 0 | _ => (run_event st e).1 end in
  stats_inv (event_time e) st' ∧ 0 ≤ r ≤ 1 ∧
  ((ms_CurrentYear st' = yearIdentifier (event_time e) ∧
    ms_YearlyRewards st' = counter_at (event_time e) st + r) ∨
   (r = 0 ∧ ms_CurrentYear st' = ms_CurrentYear st ∧ ms_YearlyRewards st' = ms_YearlyRewards st)).
Proof.
  intros Hinv Hle Ht. destruct e as [d now|now|now|now]; cbn [run_event event_time fst snd] in *.
  - destruct (mine_reward_outcome d last now st Hinv Hle Ht) as (? & ? & ? & ?).
    destruct (mine_reward d now st) as [r st']. cbn in *. auto.
  - destruct (record_submission_inv last now st Hinv Hle) as (? & ? & ?). split; [done|]. split; [lia|auto].
  - split; [|split; [lia|auto]]. apply (stats_inv_later last); [|done]. destruct Hinv. by split.
  - split; [by apply (stats_inv_later last)|]. split; [lia|auto].
Qed.

Lemma schedule_in_bound y last st es :
  stats_inv last st → in_order last es →
  schedule_in y st es ≤ 3 - (if ms_CurrentYear st =? y then ms_YearlyRewards st else 0).
Proof.
  revert last st. induction es as [|e es IH]; intros last st Hinv Ho; cbn [in_order] in *.
  { pose proof (si_range _ _ Hinv). unfold schedule_in. cbn. destruct (_ =? y); lia. }
  destruct Ho as (Hle & Ht & Ho). pose proof (run_event_inv last st e Hinv Hle Ht) as He. cbv zeta in He.
  rewrite schedule_in_cons. revert He. generalize (match e with EvSubmit _ => 0 | _ => (run_event st e).1 end).
  generalize (run_event st e).2. intros st' r (Hinv' & Hr & Hc).
  pose proof (IH _ _ Hinv' Ho) as Hb. pose proof (si_range _ _ Hinv).
  destruct Hc as [[Ey Ec]|(-> & Ey & Ec)].
  - unfold counter_at in Ec. rewrite Ey in Hb.
    destruct (yearIdentifier (event_time e) =? y) eqn:E1; prop_bools.
    + rewrite E1 in Ec. destruct (ms_CurrentYear st =? y); lia.
    + destruct (ms_CurrentYear st =? y) eqn:E2; prop_bools; [|lia].
      destruct (Z.eq_dec (ms_YearlyRewards st) 0) as [->|Hne]; [lia|].
      destruct (si_year _ _ Hinv Hne) as (t & Htl & Eyt).
      pose proof (yearIdentifier_mono t (event_time e) ltac:(lia)).
      rewrite (schedule_in_past y (event_time e)); [lia|done|lia].
  - rewrite Ey, Ec in Hb. destruct (yearIdentifier (event_time e) =? y); lia.
Qed.

Lemma fresh_stats_inv miner : stats_inv 0 (fresh_stats miner).
Proof. split; cbn; [lia|done|lia|lia]. Qed.


(** Five months of 2024, a call per month after the first. *)
Definition demo_year : list miner_event :=
  [EvReward 16 1704067200; EvRecord 1704067200; EvReward 16 1706745600; EvSubmit 1706745600;
   EvReward 16 1709251200; EvNote 1709251200; EvReward 16 1711929600; EvReward 16 1714521600].

Example demo_year_paid : paid_in 2024 (fresh_stats "m") demo_year = 103.
Proof. vm_compute. reflexivity. Qed.

Lemma demo_year_in_order : in_order 0 demo_year.
Proof. cbn. lia. Qed.

