(* ===== verification/Mining.v ===== *)
(** * Block production (go-chain/blockchain/blockchain.go)

    The choice of the author ([SelectValidator]), the selection and pricing of
    pending transactions, proof of work, the difficulty, [MineBlockFor] and
    [SubmitMinedBlock].

    [MineBlockFor] is the source's method from its first line to the write of
    the chain file; the notification of the bridge relayer that follows is an
    HTTP request whose result the source ignores (see [Wiring]).  The search for a nonce has
    no bound in the source: it takes fuel here, and [MineBlockFor] is [None]
    when the fuel ran out, which is a block that is not yet found. *)

From S2P Require Import Prelude Runtime Float64 Text Sha256 Domain Json Merkle Tendermint State Accounts Validation Apply Reversal Mempool Rewards.
Open Scope Z_scope.
Open Scope go_scope.

Section mining.
Context `{Runtime} `{Ed25519}.

(** ** The author *)

(** [bc.Validators[address]], the zero value when missing. *)
Definition validator_at (bc : Blockchain) (address : string) : Validator :=
  default zero_Validator (bc_Validators bc !! address).

Definition pubkey_less (bc : Blockchain) (x y : string) : bool :=
  let left := validator_at bc x in
  let right := validator_at bc y in
  if val_Stake left =? val_Stake right then string_lt x y
  else val_Stake right <? val_Stake left.

(** [k] is the number of the map traversal; the sort is the next one. *)
Definition SelectValidatorPubKey (k : nat) (bc : Blockchain) : string :=
  let candidates := map fst (filter (λ p, staked_validator p.2 = true)
                               (range_map k (bc_Validators bc))) in
  match sort_Slice (S k) (pubkey_less bc) candidates with
  | [] => ""
  | c :: _ => val_PublicKey (validator_at bc c)
  end.

Definition candidate_less (bc : Blockchain) (x y : string) : bool :=
  let left := validator_at bc x in
  let right := validator_at bc y in
  if val_Stake left =? val_Stake right then
    if val_Performance left =? val_Performance right then string_lt x y
    else val_Performance right <? val_Performance left
  else val_Stake right <? val_Stake left.

(** The three attempts to find candidates, each a traversal of a map. *)
Definition candidates (bc : Blockchain) : list string * Blockchain :=
  let c := map fst (filter (λ p, staked_validator p.2 = true)
                      (range_map (bc_ticks bc) (bc_Validators bc))) in
  let bc := tick bc in
  match c with
  | _ :: _ => (c, bc)
  | [] =>
      let c := map fst (filter (λ p, 0 < acc_Staked p.2) (range_map (bc_ticks bc) (bc_Ledger bc))) in
      let bc := tick bc in
      match c with
      | _ :: _ => (c, bc)
      | [] => (map fst (range_map (bc_ticks bc) (bc_Ledger bc)), tick bc)
      end
  end.

Definition SelectValidator (bc : Blockchain) : string * Blockchain :=
  let round_robin (l : list string) (bc : Blockchain) :=
    let idx := (bc_validatorIdx bc + 1) mod blen l in
    (nth (Z.to_nat idx) l "", bc <| bc_validatorIdx := idx |>) in
  if bool_decide (bc_Consensus bc = ProofOfAuthority) then
    match bc_Authorities bc with
    | [] => ("authority", bc)
    | l => round_robin l bc
    end
  else
    match bc_tendermintEngine bc, bool_decide (bc_Consensus bc = ProofOfStake) with
    | Some te, true => (Proposer te, bc)
    | _, _ =>
        let '(c, bc) := candidates bc in
        match c with
        | [] => ("validator", bc)
        | _ =>
            let sorted := sort_Slice (bc_ticks bc) (candidate_less bc) c in
            round_robin sorted (tick bc)
        end
    end.

(** ** Difficulty and proof of work *)

(** The saturation of [time.Duration] at 2^63 nanoseconds does not change the
    comparisons with the block time. *)
Definition adjustDifficulty (bc : Blockchain) : Blockchain :=
  if bool_decide (bc_Consensus bc = ProofOfStake) then bc else
  if blen (bc_Chain bc) <? 2 then bc else
  match bc_Chain bc !! pred (length (bc_Chain bc)),
        bc_Chain bc !! pred (pred (length (bc_Chain bc))) with
  | Some last, Some prev =>
      let actualTime := (blk_Timestamp last - blk_Timestamp prev) * 10 ^ 9 in
      if (actualTime <? bc_BlockTime bc) && (bc_Difficulty bc <? 64) then
        bc <| bc_Difficulty ::= λ d, u32 (d + 1) |>
      else if (bc_BlockTime bc * 2 <? actualTime) && (0 <? bc_Difficulty bc) then
        bc <| bc_Difficulty ::= λ d, u32 (d - 1) |>
      else bc
  | _, _ => bc
  end.

(** [hashVal.SetString(hash, 16)] *)
Definition hash_value (hash : string) : Z :=
  match DecodeString hash with Ok bytes => be_value bytes | _ => 0 end.

(** [Lsh(1, 256 - difficulty)]: the shift of a difficulty past 256 wraps to a
    count no machine can shift by. *)
Definition pow_target (difficulty : Z) : option Z :=
  if difficulty <=? 256 then Some (2 ^ (256 - difficulty)) else None.

Fixpoint pow_search (fuel : nat) (target : Z) (block : Block) : option Block :=
  match fuel with
  | O => None
  | S fuel =>
      let hash := calculateHash block in
      if hash_value hash <? target then Some (block <| blk_BlockHash := hash |>)
      else pow_search fuel target (block <| blk_Nonce ::= λ n, n +! 1 |>)
  end.

Definition proofOfWork (fuel : nat) (bc : Blockchain) (block : Block) : option Block :=
  let block := block <| blk_TxMerkleRoot := CalculateMerkleRoot (blk_Transactions block) |> in
  target ← pow_target (minerDifficulty bc (blk_MinerAddress block));
  pow_search fuel target block.

(** ** Selection of transactions *)

Definition pending_less (x y : Transaction) : bool :=
  if tx_Fee x =? tx_Fee y then tx_Timestamp x <? tx_Timestamp y else tx_Fee y <? tx_Fee x.

(** [cfAcct.Balance += communityFund], or a new account. *)
Definition credit_community (amount : Z) (bc : Blockchain) : Blockchain :=
  match bc_Ledger bc !! CommunityFundAddress with
  | Some _ => on_account (credit amount) CommunityFundAddress bc
  | None => bc <| bc_Ledger ::= <[CommunityFundAddress :=
                   mkAccount CommunityFundAddress amount 0 false]> |>
  end.

(** The fee of an accepted transaction: a part is burned, a part goes to the
    community fund. *)
Definition burn_rate (bc : Blockchain) (tx : Transaction) : Z :=
  if isAITransaction (tx_TxType tx) && agents_active bc
  then BurnRatePercent +! AIBurnScaling else BurnRatePercent.

Definition charge_fee (bc : Blockchain) (tx : Transaction) : Blockchain :=
  if 0 <? tx_Fee tx then
    let totalBurn := (tx_Fee tx *! burn_rate bc tx) `div` 100 in
    let permanentBurn := (totalBurn *! 70) `div` 100 in
    let communityFund := totalBurn -! permanentBurn in
    let permanentBurn := if bc_TokenSupply bc <? permanentBurn then bc_TokenSupply bc
                         else permanentBurn in
    let bc := bc <| bc_TokenSupply ::= λ s, s -! permanentBurn |> in
    credit_community communityFund bc
  else bc.

(** One round of the loop over the pending transactions. *)
Definition include_tx (n : Z) (acc : Blockchain * list Transaction) (tx : Transaction)
    : Blockchain * list Transaction :=
  let '(bc, txs) := acc in
  if validateTransaction bc tx then
    if tx_Fee tx <? estimateFee bc tx n then
      (on_metrics (λ m, m <| sm_txRejected ::= λ c, i64 (c + 1) |>) bc, txs)
    else
      let bc := charge_fee bc tx in
      let bc := markTransactionSeen bc tx in
      (on_metrics (λ m, m <| sm_txAccepted ::= λ c, i64 (c + 1) |>) bc, txs ++ [tx])
  else (bc, txs).

Definition select_txs (bc : Blockchain) : Blockchain * list Transaction :=
  let pending := sort_Slice (bc_ticks bc) pending_less (bc_Pending bc) in
  foldl (include_tx (blen pending)) (tick bc, []) pending.

(** ** Mining *)

(** The engine calls of [MineBlockFor]; [now] stands for the clock readings
    the methods store.  The prevote it also asks for is discarded and changes
    nothing. *)
Definition vote_of (o : outcome Vote) : Vote :=
  match o with Ok v => v | _ => zero_Vote end.

Definition mine_consensus (te : TendermintEngine) (block : Block) (author : string) (now : Z)
    : TendermintEngine :=
  let te := (ProcessProposal te block author now).2 in
  let vote := vote_of (Precommit te (blk_BlockHash block) now) in
  let te :=
    if bool_decide (vote_BlockHash vote = "") then te
    else
      let te := (Commit te (vote_BlockHash vote) now).2 in
      (FinalizeBlock te block now).2 in
  AdvanceHeight te.

(** [account.Balance += reward; bc.TokenSupply += reward] for a known
    account. *)
Definition pay_author (author : string) (reward : Z) (bc : Blockchain) : Blockchain :=
  match bc_Ledger bc !! author with
  | Some _ => (on_account (credit reward) author bc) <| bc_TokenSupply ::= λ s, s +! reward |>
  | None => bc
  end.

Definition count_mined (bc : Blockchain) : Blockchain :=
  on_metrics (λ m, m <| sm_blocksMined ::= λ c, i64 (c + 1) |>) bc.

(** From a valid block to the end. *)
Definition commit_mined (bc : Blockchain) (block : Block) (author : string)
    : outcome Block * Blockchain :=
  let '(blockReward, bc) := MineRewardFor bc author in
  let bc := pay_author author blockReward bc in
  let bc := extend bc block in
  let '(now, bc) := Unix bc in
  let bc := rotateValidatorKeysLocked bc now in
  let bc :=
    match bc_tendermintEngine bc with
    | Some te =>
        if bool_decide (bc_Consensus bc = ProofOfWork) then bc else
        let '(now, bc) := Unix bc in
        bc <| bc_tendermintEngine := Some (mine_consensus te block author now) |>
    | None => bc
    end in
  let bc := if 0 <? bc_AgentTxCount bc then treasuryBuybackLocked bc else bc in
  let bc := bc <| bc_Pending := [] |> in
  let bc := adjustDifficulty bc in
  let bc := RecordMinerSubmission bc author in
  let bc := NoteMinedBlock bc author in
  let bc := appendAuditEntry bc "block_mined" author
    ("index=" +:+ FormatInt (blk_Index block) +:+ " txs=" +:+
     FormatInt (blen (blk_Transactions block)) +:+ " miner=" +:+ author +:+
     " reward=" +:+ FormatInt blockReward) in
  let bc := count_mined bc in
  match SaveToDisk bc with
  | (Ok _, bc) => (Ok block, bc)
  | (Err e, bc) => (Err e, bc)
  | (Panic e, bc) => (Panic e, bc)
  end.

(** The hash of the assembled block, by consensus. *)
Definition seal_block (fuel : nat) (bc : Blockchain) (block : Block) : option Block :=
  if bool_decide (bc_Consensus bc = ProofOfWork) then proofOfWork fuel bc block
  else
    let block := block <| blk_TxMerkleRoot := CalculateMerkleRoot (blk_Transactions block) |> in
    Some (block <| blk_BlockHash := calculateHash block |>).

Definition minting_paused (bc : Blockchain) : bool * Blockchain :=
  if bc_MintPaused bc && (0 <? bc_MintPauseUntil bc) then
    let '(now, bc) := Unix bc in (now <? bc_MintPauseUntil bc, bc)
  else (false, bc).

(** The block before it is sealed, and its author. *)
Definition assemble (bc : Blockchain) (minerAddress : string) : Blockchain * Block :=
  let prevHash := TailHash bc in
  let '(author, bc) := SelectValidator bc in
  let author := if bool_decide (minerAddress = "") then author else minerAddress in
  let '(now, bc) := Unix bc in
  let '(bc, txs) := select_txs bc in
  (bc, mkBlock (u64 (blen (bc_Chain bc))) author author prevHash now txs 0 "" "").

Definition MineBlockFor (fuel : nat) (bc : Blockchain) (minerAddress : string)
    : option (outcome Block * Blockchain) :=
  let '(paused, bc) := minting_paused bc in
  if paused : bool then Some (Err "minting is currently paused", bc) else
  let bc := match bc_Chain bc with [] => createGenesisBlock bc | _ => bc end in
  let '(bc, block) := assemble bc minerAddress in
  block ← seal_block fuel bc block;
  match last (bc_Chain bc) with
  | None => Some (Panic "index out of range", bc)
  | Some prev =>
      match validateBlock bc block prev with
      | Ok _ => Some (commit_mined bc block (blk_Author block))
      | Err e => Some (Err e, bc)
      | Panic e => Some (Panic e, bc)
      end
  end.

Definition MineBlock (fuel : nat) (bc : Blockchain) : option (outcome Block * Blockchain) :=
  MineBlockFor fuel bc "".

(** ** Blocks mined elsewhere *)

Definition SubmitMinedBlock (bc : Blockchain) (block : Block) : outcome unit * Blockchain :=
  match last (bc_Chain bc) with
  | None => (Err "invalid block index", bc)
  | Some prev =>
      if negb (blk_Index block =? u64 (blen (bc_Chain bc))) then (Err "invalid block index", bc) else
      if negb (bool_decide (blk_PreviousHash block = blk_BlockHash prev)) then
        (Err "invalid previous hash", bc) else
      if negb (bool_decide (calculateHash block = blk_BlockHash block)) then
        (Err "invalid block hash", bc) else
      match validateBlock bc block prev with
      | Err e | Panic e => (Err ("invalid block transactions: " +:+ e), bc)
      | Ok _ =>
          let author := if bool_decide (blk_Author block = "") then blk_MinerAddress block
                        else blk_Author block in
          if bool_decide (author = "") then (Err "missing miner address", bc) else
          let bc := pay_author author submission_reward bc in
          let bc := extend bc block in
          let bc := bc <| bc_Pending := [] |> in
          let bc := adjustDifficulty bc in
          let bc := appendAuditEntry bc "block_submitted" author
            ("index=" +:+ FormatInt (blk_Index block) +:+ " txs=" +:+
             FormatInt (blen (blk_Transactions block))) in
          let bc := count_mined bc in
          SaveToDisk bc
      end
  end.

(** ** Proof of work *)

Implicit Types (bc : Blockchain) (tx : Transaction) (block : Block) (te : TendermintEngine).

(** The block with its nonce advanced [i] times. *)
Definition nonce_after (i : Z) (block : Block) : Block :=
  block <| blk_Nonce := blk_Nonce block +! i |>.

Definition solves (target : Z) (block : Block) : Prop := hash_value (calculateHash block) < target.

Lemma nonce_after_S i block :
  nonce_after (i + 1) block = nonce_after i (block <| blk_Nonce ::= λ n, n +! 1 |>).
Proof.
  unfold nonce_after. destruct block. cbn. f_equal. rewrite u64_add_l. f_equal. lia.
Qed.

Lemma pow_search_found fuel target block i :
  is_u64 (blk_Nonce block) → (i < fuel)%nat → solves target (nonce_after (Z.of_nat i) block) →
  (∀ j, (j < i)%nat → ¬ solves target (nonce_after (Z.of_nat j) block)) →
  pow_search fuel target block =
    Some ((nonce_after (Z.of_nat i) block)
            <| blk_BlockHash := calculateHash (nonce_after (Z.of_nat i) block) |>).
Proof.
  revert block i. induction fuel as [|fuel IH]; intros block i Hn Hi Hs Hmin; [lia|].
  assert (nonce_after (Z.of_nat 0) block = block) as E0.
  { unfold nonce_after. change (Z.of_nat 0) with 0. rewrite Z.add_0_r, u64_small by done. by destruct block. }
  cbn [pow_search]. destruct (hash_value (calculateHash block) <? target) eqn:E; prop_bools.
  - destruct i as [|i]; [by rewrite E0|]. exfalso. apply (Hmin 0%nat); [lia|]. by rewrite E0.
  - destruct i as [|i]; [rewrite E0 in Hs; unfold solves in Hs; lia|].
    replace (Z.of_nat (S i)) with (Z.of_nat i + 1) in * by lia. rewrite nonce_after_S in *.
    apply IH; [apply u64_range|lia|done|].
    intros j Hj. specialize (Hmin (S j) ltac:(lia)).
    replace (Z.of_nat (S j)) with (Z.of_nat j + 1) in Hmin by lia. by rewrite nonce_after_S in Hmin.
Qed.

(** The block [proofOfWork] searches from. *)
Definition pow_start (block : Block) : Block :=
  block <| blk_TxMerkleRoot := CalculateMerkleRoot (blk_Transactions block) |>.

(** C12. When some nonce solves the block at the miner's difficulty, the
    search with enough fuel ends at the first one, and what it returns carries
    its own hash, below the target, and the Merkle root of its transactions. *)
Theorem proof_of_work_finds fuel bc block i :
  let target := 2 ^ (256 - minerDifficulty bc (blk_MinerAddress block)) in
  minerDifficulty bc (blk_MinerAddress block) ≤ 256 → is_u64 (blk_Nonce block) →
  (i < fuel)%nat → solves target (nonce_after (Z.of_nat i) (pow_start block)) →
  (∀ j, (j < i)%nat → ¬ solves target (nonce_after (Z.of_nat j) (pow_start block))) →
  ∃ mined, proofOfWork fuel bc block = Some mined ∧
    blk_BlockHash mined = calculateHash mined ∧ solves target mined ∧
    blk_Nonce mined = blk_Nonce block +! Z.of_nat i ∧
    blk_TxMerkleRoot mined = CalculateMerkleRoot (blk_Transactions mined) ∧
    blk_Transactions mined = blk_Transactions block.
Proof.
  intros target Hd Hn Hi Hs Hmin. unfold proofOfWork, pow_target.
  change (block <| blk_TxMerkleRoot := _ |>) with (pow_start block).
  change (blk_MinerAddress (pow_start block)) with (blk_MinerAddress block).
  apply Z.leb_le in Hd. rewrite Hd. cbn [mbind option_bind].
  eexists. split; [by apply (pow_search_found fuel target (pow_start block) i)|].
  split; [by rewrite calculateHash_BlockHash|].
  split; [unfold solves; by rewrite calculateHash_BlockHash|]. done.
Qed.

(** ** Difficulty *)

(** A block moves the difficulty by at most one step, and never above
    64 or below 0. *)
Theorem difficulty_bounded bc :
  0 ≤ bc_Difficulty bc ≤ 64 →
  0 ≤ bc_Difficulty (adjustDifficulty bc) ≤ 64 ∧
  Z.abs (bc_Difficulty (adjustDifficulty bc) - bc_Difficulty bc) ≤ 1.
Proof.
  intros Hd. unfold adjustDifficulty.
  case_bool_decide; [lia|]. destruct (_ <? 2); [lia|].
  destruct (bc_Chain bc !! _); [|lia]. destruct (bc_Chain bc !! _); [|lia].
  destruct (_ && (bc_Difficulty bc <? 64)) eqn:E1; prop_bools.
  { cbn. rewrite u32_small by u64_lia. lia. }
  destruct (_ && (0 <? bc_Difficulty bc)) eqn:E2; prop_bools; [|lia].
  cbn. rewrite u32_small by u64_lia. lia.
Qed.

(** ** The consensus engine during mining *)

(** The sequence of engine calls [MineBlockFor] makes never commits
    a block, whatever state the engine is in: [Precommit] needs step 2 and
    [Commit] step 3, and no vote is added in between.  The engine only moves
    to the next height. *)
Theorem mining_never_commits te block author now :
  let te1 := (ProcessProposal te block author now).2 in
  (∀ h, outcome_ok (Precommit te1 h now) = true → outcome_ok (Commit te1 h now).1 = false ∧
     outcome_ok (FinalizeBlock te1 block now).1 = false) ∧
  mine_consensus te block author now = AdvanceHeight te1.
Proof.
  cbv zeta. set (te1 := (ProcessProposal te block author now).2).
  assert (∀ h, outcome_ok (Precommit te1 h now) = true → te_step te1 = 2) as Hstep.
  { intros h. unfold Precommit. destruct (te_step te1 =? 2) eqn:E; prop_bools; [|done].
    intros _. lia. }
  split.
  - intros h Hp. specialize (Hstep h Hp). unfold Commit, FinalizeBlock. by rewrite Hstep.
  - unfold mine_consensus. fold te1. case_bool_decide as Hv; [done|].
    assert (te_step te1 = 2) as E.
    { apply (Hstep (blk_BlockHash block)). destruct (Precommit _ _ _); [done|by cbn in Hv..]. }
    unfold Commit. rewrite E. cbn [negb Z.eqb Pos.eqb fst snd]. unfold FinalizeBlock. by rewrite E.
Qed.

(** ** What selection changes *)

(** What validation reads besides the ledger, and the pool. *)
Definition context (bc : Blockchain) :=
  (bc_Chain bc, bc_ChainID bc, bc_Consensus bc, bc_Validators bc, bc_Authorities bc,
   bc_Registry bc, bc_UsedNonces bc, bc_NextNonce bc, bc_PendingReversals bc,
   bc_IrreversibleTxs bc, bc_Pending bc).

Lemma charge_fee_context bc tx : context (charge_fee bc tx) = context bc.
Proof. unfold charge_fee, credit_community. cbv zeta. by repeat case_match. Qed.

Lemma markSeen_context bc tx : context (markTransactionSeen bc tx) = context bc.
Proof. unfold markTransactionSeen. by case_match. Qed.

Lemma include_tx_context n acc tx : context (include_tx n acc tx).1 = context acc.1.
Proof.
  destruct acc as [bc txs]. unfold include_tx. destruct (validateTransaction bc tx); [|done].
  case_match; [done|]. cbn [fst].
  change (context (on_metrics ?f ?s)) with (context s).
  transitivity (context (markTransactionSeen (charge_fee bc tx) tx)); [done|].
  by rewrite markSeen_context, charge_fee_context.
Qed.

Lemma select_txs_context bc : context (select_txs bc).1 = context bc.
Proof.
  unfold select_txs. apply (foldl_inv (λ acc, context acc.1 = context bc)); [|done].
  intros acc tx _ E. by rewrite include_tx_context.
Qed.

Lemma select_txs_pending bc tx :
  tx ∈ (select_txs bc).2 → tx ∈ bc_Pending bc.
Proof.
  unfold select_txs. set (pending := sort_Slice _ _ _).
  assert (∀ x, x ∈ pending → x ∈ bc_Pending bc) as Hp.
  { intros x. subst pending. by rewrite sort_Slice_Permutation. }
  apply (foldl_inv (λ acc, ∀ tx, tx ∈ acc.2 → tx ∈ bc_Pending bc)); [|set_solver].
  intros [s txs] x Hx Hacc y. unfold include_tx.
  destruct (validateTransaction s x); [|by apply Hacc].
  case_match; [by apply Hacc|]. cbn [snd].
  rewrite elem_of_app, list_elem_of_singleton. intros [?| ->]; [by apply Hacc|by apply Hp].
Qed.

Lemma candidates_frame bc : ∃ n, (candidates bc).2 = bc <| bc_ticks := n |>.
Proof. unfold candidates. repeat case_match; cbn; by eexists. Qed.

Lemma SelectValidator_context bc : context (SelectValidator bc).2 = context bc.
Proof.
  unfold SelectValidator. destruct (candidates_frame bc) as [n E].
  destruct (candidates bc) as [c bc'] eqn:Ec. cbn in E. subst bc'.
  by repeat case_match.
Qed.

(** ** The end of mining *)

Definition tail_view (bc : Blockchain) := (bc_Chain bc, bc_Pending bc).

Lemma MineRewardFor_tail bc miner : tail_view (MineRewardFor bc miner).2 = tail_view bc.
Proof. unfold MineRewardFor. cbv beta iota zeta delta [Unix]. by destruct (mine_reward _ _ _). Qed.

Lemma pay_author_tail author r bc : tail_view (pay_author author r bc) = tail_view bc.
Proof. unfold pay_author. by case_match. Qed.

Lemma rotate_tail bc now : tail_view (rotateValidatorKeysLocked bc now) = tail_view bc.
Proof.
  unfold rotateValidatorKeysLocked. rewrite (foldl_frame tail_view); [done|].
  intros s [addr v]. unfold rotate_one. by case_match.
Qed.

Lemma adjustDifficulty_tail bc : tail_view (adjustDifficulty bc) = tail_view bc.
Proof. unfold adjustDifficulty. by repeat case_match. Qed.

Lemma buyback_tail bc : tail_view (treasuryBuybackLocked bc) = tail_view bc.
Proof. unfold treasuryBuybackLocked. by repeat case_match. Qed.

Lemma SaveToDisk_tail bc : tail_view (SaveToDisk bc).2 = tail_view bc.
Proof. unfold SaveToDisk. by repeat case_match. Qed.

Lemma tail_view_chain bc bc' : tail_view bc = tail_view bc' → bc_Chain bc = bc_Chain bc'.
Proof. unfold tail_view. by intros [= ? _]. Qed.

(** Everything after the block is appended keeps the chain; the pool is
    emptied. *)
Lemma commit_mined_tail bc block author :
  tail_view (commit_mined bc block author).2 = (bc_Chain bc ++ [block], []) ∧
  ∀ b, (commit_mined bc block author).1 = Ok b → b = block.
Proof.
  unfold commit_mined. pose proof (MineRewardFor_tail bc author) as E1.
  destruct (MineRewardFor bc author) as [r bc1]. cbn [snd] in E1.
  cbv beta iota zeta delta [Unix].
  match goal with |- context [rotateValidatorKeysLocked ?x ?y] =>
    set (bc2 := rotateValidatorKeysLocked x y);
    assert (bc_Chain bc2 = bc_Chain bc ++ [block]) as E2;
    [subst bc2; rewrite (tail_view_chain _ _ (rotate_tail x y)) |] end.
  { cbn [bc_Chain tick update]. rewrite extend_chain.
    by rewrite (tail_view_chain _ _ (pay_author_tail author r bc1)), (tail_view_chain _ _ E1). }
  match goal with |- context [0 <? bc_AgentTxCount ?x] =>
    assert (bc_Chain x = bc_Chain bc ++ [block]) as E3; [by repeat case_match|]; set (bc3 := x) in * end.
  match goal with |- context [adjustDifficulty ?x] =>
    assert (tail_view x = (bc_Chain bc ++ [block], [])) as E4; [|set (bc4 := x) in *] end.
  { unfold tail_view. cbn [bc_Chain bc_Pending update]. f_equal. case_match; [|done].
    by rewrite (tail_view_chain _ _ (buyback_tail bc3)). }
  match goal with |- context [SaveToDisk ?x] =>
    assert (tail_view x = (bc_Chain bc ++ [block], [])) as E5; [|set (bc5 := x) in *] end.
  { rewrite <- E4, <- (adjustDifficulty_tail bc4). done. }
  pose proof (SaveToDisk_tail bc5) as E6. rewrite E5 in E6.
  destruct (SaveToDisk bc5) as [[[]|e|e] bc6]; split; try done. by intros b [= <-].
Qed.

(** ** The assembled block *)

Lemma assemble_spec bc miner :
  let '(s, block) := assemble bc miner in
  context s = context bc ∧ blk_Index block = u64 (blen (bc_Chain bc)) ∧
  blk_PreviousHash block = TailHash bc ∧ blk_Nonce block = 0 ∧
  blk_MinerAddress block = blk_Author block ∧
  (miner ≠ "" → blk_Author block = miner) ∧
  (∀ tx, tx ∈ blk_Transactions block → tx ∈ bc_Pending bc).
Proof.
  unfold assemble. pose proof (SelectValidator_context bc) as E1.
  destruct (SelectValidator bc) as [author bc1]. cbn [snd] in E1.
  cbv beta iota zeta delta [Unix].
  pose proof (select_txs_context (tick bc1)) as E2. pose proof (select_txs_pending (tick bc1)) as E3.
  destruct (select_txs (tick bc1)) as [s txs]. cbn [fst snd] in E2, E3.
  assert (context s = context bc) as E by (rewrite E2; exact E1).
  assert (bc_Chain s = bc_Chain bc) as Ec
    by exact (f_equal (λ p, p.1.1.1.1.1.1.1.1.1.1) E).
  cbn. rewrite Ec. repeat split; try done.
  - intros Hm. by rewrite bool_decide_false.
  - intros tx Htx. specialize (E3 tx Htx).
    rewrite <- (f_equal (λ p, p.2) E1 : bc_Pending bc1 = bc_Pending bc). exact E3.
Qed.

(** What sealing sets. *)
Lemma seal_block_spec fuel bc block sealed :
  seal_block fuel bc block = Some sealed →
  blk_BlockHash sealed = calculateHash sealed ∧
  blk_TxMerkleRoot sealed = CalculateMerkleRoot (blk_Transactions block) ∧
  blk_Index sealed = blk_Index block ∧ blk_PreviousHash sealed = blk_PreviousHash block ∧
  blk_Author sealed = blk_Author block ∧ blk_Transactions sealed = blk_Transactions block.
Proof.
  unfold seal_block. case_bool_decide.
  - unfold proofOfWork. destruct (pow_target _) as [target|]; [|done]. cbn [mbind option_bind].
    assert (∀ b, pow_search fuel target b = Some sealed →
      blk_BlockHash sealed = calculateHash sealed ∧ blk_TxMerkleRoot sealed = blk_TxMerkleRoot b ∧
      blk_Index sealed = blk_Index b ∧ blk_PreviousHash sealed = blk_PreviousHash b ∧
      blk_Author sealed = blk_Author b ∧ blk_Transactions sealed = blk_Transactions b) as Hs.
    { induction fuel as [|n IH]; intros b; [done|]. cbn [pow_search].
      destruct (_ <? target).
      { intros [= <-]. split; [exact (eq_sym (calculateHash_BlockHash b _))|done]. }
      intros Hs. by apply IH in Hs. }
    intros E. exact (Hs (pow_start block) E).
  - intros [= <-]. split; [|done].
    exact (eq_sym (calculateHash_BlockHash (pow_start block) (calculateHash (pow_start block)))).
Qed.

Lemma minting_paused_frame bc : context (minting_paused bc).2 = context bc.
Proof. unfold minting_paused. cbv beta iota zeta delta [Unix]. by case_match. Qed.

(** A node with a chain reaches the sealed block in the state it validates it
    in. *)
Lemma MineBlockFor_Ok fuel bc miner block bc' :
  bc_Chain bc ≠ [] → MineBlockFor fuel bc miner = Some (Ok block, bc') →
  ∃ s b0 prev, assemble (minting_paused bc).2 miner = (s, b0) ∧
    seal_block fuel s b0 = Some block ∧ last (bc_Chain s) = Some prev ∧
    validateBlock s block prev = Ok tt ∧ (Ok block, bc') = commit_mined s block (blk_Author block).
Proof.
  intros Hne. unfold MineBlockFor. pose proof (minting_paused_frame bc) as E1.
  destruct (minting_paused bc) as [[] bc1]; [done|]. cbn [snd] in *.
  assert (bc_Chain bc1 = bc_Chain bc) as Ec
    by exact (f_equal (λ p, p.1.1.1.1.1.1.1.1.1.1) E1).
  destruct (bc_Chain bc1) as [|b l] eqn:El; [congruence|].
  destruct (assemble bc1 miner) as [s b0] eqn:Ea.
  destruct (seal_block fuel s b0) as [sealed|] eqn:Es; [|done]. cbn [mbind option_bind].
  destruct (last (bc_Chain s)) as [prev|] eqn:Ep; [|done].
  destruct (validateBlock s sealed prev) as [[]|e|e] eqn:Ev; [|done..]. intros Hc.
  pose proof (proj2 (commit_mined_tail s sealed (blk_Author sealed)) block) as Hb.
  injection Hc as Hc. rewrite Hc in Hb. specialize (Hb eq_refl). subst sealed.
  exists s, b0, prev. auto.
Qed.

(** C7. A successful [MineBlockFor] on a node that has a chain appends
    exactly the returned block and empties the pool.  The block continues the
    tail (index and hash), carries its own hash and the Merkle root of its
    transactions, is authored by the requested miner, and all its transactions
    come from the pool, with valid signatures and different, non-empty IDs. *)
Theorem mined_block_extends_chain fuel bc miner block bc' :
  bc_Chain bc ≠ [] → MineBlockFor fuel bc miner = Some (Ok block, bc') →
  bc_Chain bc' = bc_Chain bc ++ [block] ∧ bc_Pending bc' = [] ∧
  blk_Index block = u64 (blen (bc_Chain bc)) ∧ blk_PreviousHash block = TailHash bc ∧
  blk_BlockHash block = calculateHash block ∧
  blk_TxMerkleRoot block = CalculateMerkleRoot (blk_Transactions block) ∧
  (miner ≠ "" → blk_Author block = miner) ∧
  NoDup (map tx_ID (blk_Transactions block)) ∧
  ∀ tx, tx ∈ blk_Transactions block →
    tx ∈ bc_Pending bc ∧ tx_ID tx ≠ "" ∧ VerifyTransaction tx = true.
Proof.
  intros Hne Hm. destruct (MineBlockFor_Ok _ _ _ _ _ Hne Hm) as (s & b0 & prev & Ea & Es & El & Ev & Ec).
  pose proof (minting_paused_frame bc) as E0. set (bc1 := (minting_paused bc).2) in *.
  assert (bc_Chain bc1 = bc_Chain bc) as E0c by exact (f_equal (λ p, p.1.1.1.1.1.1.1.1.1.1) E0).
  assert (bc_Pending bc1 = bc_Pending bc) as E0p by exact (f_equal (λ p, p.2) E0).
  pose proof (assemble_spec bc1 miner) as Ha. rewrite Ea in Ha.
  destruct Ha as (A1 & A2 & A3 & _ & _ & A4 & A5).
  assert (bc_Chain s = bc_Chain bc1) as As by exact (f_equal (λ p, p.1.1.1.1.1.1.1.1.1.1) A1).
  destruct (seal_block_spec _ _ _ _ Es) as (S1 & S2 & S3 & S4 & S5 & S6).
  apply validateBlock_Ok in Ev as [_ _ _ _ V1 V2 V3 _]. rewrite Forall_forall in V1, V3.
  pose proof (proj1 (commit_mined_tail s block (blk_Author block))) as Et.
  rewrite <- Ec in Et. cbn [snd] in Et. unfold tail_view in Et. injection Et as T1 T2.
  assert (TailHash bc1 = TailHash bc) as Eth by (unfold TailHash; by rewrite E0c).
  rewrite T1, T2, As, E0c, S1, S2, S3, S4, S5, S6, A2, A3, E0c. rewrite S6 in *.
  split; [done|]. split; [done|]. split; [done|]. split; [done|]. split; [done|].
  split; [done|]. split; [done|]. split; [done|].
  intros tx Htx. split; [rewrite <- E0p; by apply A5|]. split; [by apply V1|].
  specialize (V3 tx Htx). unfold validateTransaction in V3.
  destruct (negb (bool_decide (tx_ChainID tx = _))); [done|].
  by destruct (VerifyTransaction tx).
Qed.

(** ** Transactions that stop mining *)

(** Choosing an author touches two counters only. *)
Lemma SelectValidator_frame bc :
  ∃ i n, (SelectValidator bc).2 = bc <| bc_validatorIdx := i |> <| bc_ticks := n |>.
Proof.
  unfold SelectValidator. destruct (candidates_frame bc) as [n E].
  destruct (candidates bc) as [c bc'] eqn:Ec. cbn in E. subst bc'.
  destruct bc. repeat case_match; cbn in *; subst; eexists _, _; reflexivity.
Qed.

Lemma minting_paused_ticks bc : ∃ n, (minting_paused bc).2 = bc <| bc_ticks := n |>.
Proof.
  unfold minting_paused. case_match; [by eexists|]. exists (bc_ticks bc). by destruct bc.
Qed.

Lemma validate_txs_no_panic bc seen txs e : validate_txs bc seen txs ≠ Panic e.
Proof. revert seen. induction txs as [|tx txs IH]; intros seen; cbn [validate_txs]; [done|]. by repeat case_match. Qed.

Lemma validateBlock_no_panic bc block prev e : validateBlock bc block prev ≠ Panic e.
Proof.
  unfold validateBlock. repeat (case_match; [done|]).
  destruct (validate_txs bc ∅ (blk_Transactions block)) eqn:E; [|done|by eapply validate_txs_no_panic in E].
  by case_match.
Qed.

Lemma sort_singleton {A} k (less : A → A → bool) x : sort_Slice k less [x] = [x].
Proof. apply Permutation_singleton_r. apply sort_Slice_Permutation. Qed.

(** The mining state after the pause check and the choice of the author. *)
Lemma assemble_select bc miner :
  ∃ i n author now, assemble bc miner =
    (let '(s, txs) := select_txs (bc <| bc_validatorIdx := i |> <| bc_ticks := n |>) in
     (s, mkBlock (u64 (blen (bc_Chain s))) author author (TailHash bc) now txs 0 "" "")) ∧
    (miner ≠ "" → author = miner).
Proof.
  unfold assemble. destruct (SelectValidator_frame bc) as (i & n & E).
  destruct (SelectValidator bc) as [author bc1]. cbn [snd] in E. subst bc1.
  cbv beta iota zeta delta [Unix].
  exists i, (S n). eexists _, _. split; [reflexivity|]. intros Hm. by rewrite bool_decide_false.
Qed.

Lemma ensured_genesis bc :
  bc_Chain bc ≠ [] → match bc_Chain bc with [] => createGenesisBlock bc | _ => bc end = bc.
Proof. by destruct (bc_Chain bc). Qed.

(** A single valid, sufficiently paid transaction without an ID
    ([SubmitTransaction] assigns none) stops block production: every attempt
    to mine fails and leaves the chain and the pool as they were. *)
Theorem missing_ID_stops_mining fuel bc miner tx :
  bc_Chain bc ≠ [] → bc_Consensus bc ≠ ProofOfWork → bc_Pending bc = [tx] → tx_ID tx = "" →
  validateTransaction bc tx = true → estimateFee bc tx 1 ≤ tx_Fee tx →
  ∃ e bc', MineBlockFor fuel bc miner = Some (Err e, bc') ∧
    bc_Chain bc' = bc_Chain bc ∧ bc_Pending bc' = [tx].
Proof.
  intros Hne Hc Hp Hid Hv Hf. unfold MineBlockFor.
  destruct (minting_paused_ticks bc) as [n0 E0].
  destruct (minting_paused bc) as [paused bc1]. cbn [snd] in E0. subst bc1.
  destruct paused; [by eexists _, _|].
  rewrite (ensured_genesis (bc <| bc_ticks := n0 |>)) by exact Hne.
  destruct (assemble_select (bc <| bc_ticks := n0 |>) miner) as (i & n & author & now & Ea & _).
  rewrite Ea. clear Ea. unfold select_txs. cbn [bc_Pending update]. rewrite Hp, sort_singleton.
  cbn [foldl]. unfold include_tx.
  change (validateTransaction (tick _) tx) with (validateTransaction bc tx). rewrite Hv.
  change (estimateFee (tick _) tx _) with (estimateFee bc tx 1).
  apply Z.ltb_ge in Hf. rewrite Hf.
  match goal with |- context [charge_fee ?x tx] => set (s0 := x) end.
  match goal with |- context [on_metrics ?f ?x] =>
    set (s := on_metrics f x); assert (context s = context bc) as Es end.
  { subst s. transitivity (context (markTransactionSeen (charge_fee s0 tx) tx)); [done|].
    rewrite markSeen_context, charge_fee_context.
    unfold context. rewrite Hp. reflexivity. }
  assert (bc_Chain s = bc_Chain bc) as Ec by exact (f_equal (λ p, p.1.1.1.1.1.1.1.1.1.1) Es).
  assert (bc_Consensus s = bc_Consensus bc) as Eco by exact (f_equal (λ p, p.1.1.1.1.1.1.1.1.2) Es).
  assert (bc_Pending s = [tx]) as Epe by (rewrite <- Hp; exact (f_equal (λ p, p.2) Es)).
  unfold seal_block. rewrite Eco, bool_decide_false by done. cbn [mbind option_bind].
  destruct (last (bc_Chain s)) as [prev|] eqn:El; [|rewrite Ec in El; by apply last_None in El].
  destruct (validateBlock s _ prev) as [[]|e|e] eqn:Ev.
  - apply validateBlock_Ok, bv_ids in Ev. cbn in Ev. by apply Forall_cons in Ev as [? _].
  - exists e, s. done.
  - by apply validateBlock_no_panic in Ev.
Qed.
End mining.

(** ** Examples *)

(** A node at difficulty zero. *)
Definition demo_easy : Blockchain := demo_node <| bc_Difficulty := 0 |>.

Definition demo_unmined : Block := mkBlock 1 "bob" "bob" "g" 1700000005 [] 0 "" "".

Lemma demo_easy_solved :
  solves (2 ^ (256 - minerDifficulty demo_easy (blk_MinerAddress demo_unmined)))
    (nonce_after (Z.of_nat 0) (pow_start demo_unmined)).
Proof. vm_compute. reflexivity. Qed.

Lemma demo_nonce_u64 : is_u64 (blk_Nonce demo_unmined).
Proof. vm_compute. split; congruence. Qed.

Lemma demo_easy_difficulty : minerDifficulty demo_easy (blk_MinerAddress demo_unmined) ≤ 256.
Proof. vm_compute. congruence. Qed.

Lemma proof_of_work_finds_witness :
  let target := 2 ^ (256 - minerDifficulty demo_easy (blk_MinerAddress demo_unmined)) in
  ∃ mined, proofOfWork 1 demo_easy demo_unmined = Some mined ∧
    blk_BlockHash mined = calculateHash mined ∧ solves target mined ∧
    blk_Nonce mined = blk_Nonce demo_unmined +! Z.of_nat 0 ∧
    blk_TxMerkleRoot mined = CalculateMerkleRoot (blk_Transactions mined) ∧
    blk_Transactions mined = blk_Transactions demo_unmined.
Proof.
  apply (proof_of_work_finds 1 demo_easy demo_unmined 0).
  - exact demo_easy_difficulty.
  - exact demo_nonce_u64.
  - lia.
  - exact demo_easy_solved.
  - intros j Hj. lia.
Defined.

Lemma difficulty_bounded_witness :
  0 ≤ bc_Difficulty (adjustDifficulty demo_node) ≤ 64 ∧
  Z.abs (bc_Difficulty (adjustDifficulty demo_node) - bc_Difficulty demo_node) ≤ 1.
Proof. apply (difficulty_bounded demo_node). cbn. lia. Defined.

(** The demo node with Alice's transfer in its pool. *)
Definition demo_busy : Blockchain := demo_node <| bc_Pending := [demo_signed] |>.

Definition demo_mining : option (outcome Block * Blockchain) :=
  @MineBlockFor demo_runtime demo_ed25519 1 demo_busy "bob".

Definition block_mined (r : option (outcome Block * Blockchain)) : Block :=
  match r with Some (Ok b, _) => b | _ => demo_unmined end.

Definition state_after (r : option (outcome Block * Blockchain)) : Blockchain :=
  match r with Some (_, bc) => bc | None => demo_busy end.

Definition demo_mined : Block := block_mined demo_mining.
Definition demo_after : Blockchain := state_after demo_mining.

Lemma demo_mining_ok :
  @MineBlockFor demo_runtime demo_ed25519 1 demo_busy "bob" = Some (Ok demo_mined, demo_after).
Proof. vm_compute. reflexivity. Qed.

Lemma demo_busy_chain : bc_Chain demo_busy ≠ [].
Proof. done. Qed.

Lemma mined_block_extends_chain_witness :
  bc_Chain demo_after = bc_Chain demo_busy ++ [demo_mined] ∧ bc_Pending demo_after = [] ∧
  blk_Index demo_mined = u64 (blen (bc_Chain demo_busy)) ∧
  blk_PreviousHash demo_mined = TailHash demo_busy ∧
  blk_BlockHash demo_mined = calculateHash demo_mined ∧
  blk_TxMerkleRoot demo_mined = CalculateMerkleRoot (blk_Transactions demo_mined) ∧
  ("bob" ≠ "" → blk_Author demo_mined = "bob") ∧
  NoDup (map tx_ID (blk_Transactions demo_mined)) ∧
  ∀ tx, tx ∈ blk_Transactions demo_mined →
    tx ∈ bc_Pending demo_busy ∧ tx_ID tx ≠ "" ∧ @VerifyTransaction demo_ed25519 tx = true.
Proof.
  exact (@mined_block_extends_chain demo_runtime demo_ed25519 1 demo_busy "bob" demo_mined
           demo_after demo_busy_chain demo_mining_ok).
Defined.

(** The transfer is in the block. *)
Example demo_mined_transfer : blk_Transactions demo_mined = [demo_signed].
Proof. vm_compute. reflexivity. Qed.

(** The same transfer, submitted without an ID. *)
Definition demo_poison : Transaction := demo_signed <| tx_ID := "" |>.

Definition demo_poisoned : Blockchain := @SubmitTransaction demo_runtime demo_node demo_poison.

Lemma demo_poison_facts :
  bc_Chain demo_poisoned ≠ [] ∧ bc_Consensus demo_poisoned ≠ ProofOfWork ∧
  bc_Pending demo_poisoned = [demo_poison] ∧
  @validateTransaction demo_ed25519 demo_poisoned demo_poison = true ∧
  @estimateFee demo_runtime demo_poisoned demo_poison 1 ≤ tx_Fee demo_poison.
Proof. repeat split; vm_compute; congruence. Qed.

Lemma missing_ID_stops_mining_witness :
  ∃ e bc', @MineBlockFor demo_runtime demo_ed25519 1 demo_poisoned "bob" = Some (Err e, bc') ∧
    bc_Chain bc' = bc_Chain demo_poisoned ∧ bc_Pending bc' = [demo_poison].
Proof.
  destruct demo_poison_facts as (H1 & H2 & H3 & H4 & H5).
  apply (@missing_ID_stops_mining demo_runtime demo_ed25519 1 demo_poisoned "bob" demo_poison).
  - exact H1.
  - exact H2.
  - exact H3.
  - reflexivity.
  - exact H4.
  - exact H5.
Defined.
