(* ===== verification/Author.v ===== *)
(** * The author does not depend on map order
    (go-chain/blockchain/blockchain.go)

    [SelectValidator] collects its candidates by ranging over maps, in an
    order that differs between runs and nodes, and sorts them.  The sort
    separates every two candidates, so the choice is a function of the state. *)

From S2P Require Import Prelude Runtime Float64 Text Sha256 Domain Json Merkle Tendermint State Accounts Validation Apply Reversal Rewards Mining.
Open Scope Z_scope.
Open Scope go_scope.

Implicit Types bc : Blockchain.

Section order.
Variables (bc : Blockchain).

Let stake (x : string) : Z := val_Stake (validator_at bc x).
Let performance (x : string) : Z := val_Performance (validator_at bc x).

(** What the comparison of candidates says. *)
Lemma candidate_less_true x y :
  candidate_less bc x y = true ↔
  stake y < stake x ∨
  (stake x = stake y ∧ (performance y < performance x ∨
     (performance x = performance y ∧ string_lt x y = true))).
Proof.
  unfold candidate_less. fold (stake x) (stake y) (performance x) (performance y).
  destruct (stake x =? stake y) eqn:E1; prop_bools.
  - destruct (performance x =? performance y) eqn:E2; prop_bools.
    + split; [auto|]. intros [?|[_ [?|[_ ?]]]]; [lia|lia|done].
    + rewrite Z.ltb_lt. lia.
  - rewrite Z.ltb_lt. lia.
Qed.

Lemma candidate_less_false x y :
  candidate_less bc x y = false ↔
  stake x < stake y ∨
  (stake x = stake y ∧ (performance x < performance y ∨
     (performance x = performance y ∧ string_lt x y = false))).
Proof.
  rewrite <- not_true_iff_false, candidate_less_true. rewrite <- not_true_iff_false.
  destruct (string_lt x y); lia || naive_solver lia.
Qed.

Lemma candidate_less_asym x y : candidate_less bc x y = true → candidate_less bc y x = false.
Proof.
  rewrite candidate_less_true, candidate_less_false.
  intros [?|[? [?|[? Hs]]]]; [lia|lia|]. right. split; [lia|]. right. split; [lia|].
  by apply string_lt_asym.
Qed.

Lemma candidate_less_trans x y z :
  candidate_less bc x y = false → candidate_less bc y z = false → candidate_less bc x z = false.
Proof.
  rewrite !candidate_less_false. intros [?|[? [?|[? H1]]]] [?|[? [?|[? H2]]]]; try lia.
  right. split; [lia|]. right. split; [lia|]. by eapply string_lt_trans_neg.
Qed.

Lemma candidate_less_total x y :
  candidate_less bc x y = false → candidate_less bc y x = false → x = y.
Proof.
  rewrite !candidate_less_false. intros [?|[? [?|[? H1]]]] [?|[? [?|[? H2]]]]; try lia.
  by apply string_lt_total.
Qed.
End order.

(** Two runs of the sort, on two runtimes, agree. *)
Lemma sort_candidates (R1 R2 : Runtime) bc k1 k2 l1 l2 :
  l1 ≡ₚ l2 →
  @sort_Slice _ R1 k1 (candidate_less bc) l1 = @sort_Slice _ R2 k2 (candidate_less bc) l2.
Proof.
  intros Hl.
  assert (Transitive (not_after (candidate_less bc))).
  { intros x y z Hxy Hyz. eapply candidate_less_trans; eassumption. }
  assert (AntiSymm (=) (not_after (candidate_less bc))).
  { intros x y Hxy Hyx. by apply (candidate_less_total bc). }
  apply (Sorted_unique (not_after (candidate_less bc))).
  - apply sort_Slice_sorted, candidate_less_asym.
  - apply sort_Slice_sorted, candidate_less_asym.
  - by rewrite !sort_Slice_Permutation.
Qed.

Lemma ranged_keys (R1 R2 : Runtime) {A} (P : string * A → Prop) `{∀ x, Decision (P x)} k1 k2 m :
  map fst (filter P (@range_map _ R1 k1 m)) ≡ₚ map fst (filter P (@range_map _ R2 k2 m)).
Proof. apply Permutation_map. by rewrite !range_map_Permutation. Qed.

(** The candidates of two traversals are the same up to order. *)
Lemma candidates_Permutation (R1 R2 : Runtime) bc n :
  (@candidates R1 bc).1 ≡ₚ (@candidates R2 (bc <| bc_ticks := n |>)).1.
Proof.
  unfold candidates. cbv zeta.
  change (bc_Validators (bc <| bc_ticks := n |>)) with (bc_Validators bc).
  change (bc_Ledger (tick (tick (bc <| bc_ticks := n |>)))) with (bc_Ledger bc).
  change (bc_Ledger (tick (bc <| bc_ticks := n |>))) with (bc_Ledger bc).
  change (bc_Ledger (tick (tick bc))) with (bc_Ledger bc).
  change (bc_Ledger (tick bc)) with (bc_Ledger bc).
  match goal with |- context [match map fst (filter ?P (@range_map _ R1 ?k1 (bc_Validators bc))) with _ => _ end] =>
    match goal with |- context [match map fst (filter P (@range_map _ R2 ?k2 (bc_Validators bc))) with _ => _ end] =>
      pose proof (ranged_keys R1 R2 P k1 k2 (bc_Validators bc)) as Hv end end.
  destruct (map fst (filter _ (@range_map _ R1 _ (bc_Validators bc)))) as [|x l] eqn:E1.
  - apply Permutation_nil_l in Hv. rewrite <- Hv.
    match goal with |- context [match map fst (filter ?P (@range_map _ R1 ?k1 (bc_Ledger bc))) with _ => _ end] =>
      match goal with |- context [match map fst (filter P (@range_map _ R2 ?k2 (bc_Ledger bc))) with _ => _ end] =>
        pose proof (ranged_keys R1 R2 P k1 k2 (bc_Ledger bc)) as Hl end end.
    destruct (map fst (filter _ (@range_map _ R1 _ (bc_Ledger bc)))) as [|x l] eqn:E2.
    + apply Permutation_nil_l in Hl. rewrite <- Hl. cbn [fst].
      apply Permutation_map. by rewrite !range_map_Permutation.
    + destruct (map fst (filter _ (@range_map _ R2 _ (bc_Ledger bc)))) eqn:E3; [|done].
      by apply Permutation_nil_r in Hl.
  - destruct (map fst (filter _ (@range_map _ R2 _ (bc_Validators bc)))) eqn:E3; [|done].
    by apply Permutation_nil_r in Hv.
Qed.

(** The author a node whose runtime is [R] picks. *)
Definition author_picked (R : Runtime) (bc : Blockchain) : string := (@SelectValidator R bc).1.

(** C13. The author [SelectValidator] picks depends on the chain state
    alone: two nodes in the same state pick the same one, whatever order their
    maps are traversed in and however often they have read the clock. *)
Theorem author_is_deterministic (R1 R2 : Runtime) bc n :
  author_picked R1 bc = author_picked R2 (bc <| bc_ticks := n |>).
Proof.
  unfold author_picked, SelectValidator. cbv zeta.
  change (bc_Consensus (bc <| bc_ticks := n |>)) with (bc_Consensus bc).
  change (bc_Authorities (bc <| bc_ticks := n |>)) with (bc_Authorities bc).
  change (bc_tendermintEngine (bc <| bc_ticks := n |>)) with (bc_tendermintEngine bc).
  case_bool_decide; [by destruct (bc_Authorities bc)|].
  pose proof (candidates_Permutation R1 R2 bc n) as Hp.
  destruct (candidates_frame (H := R1) bc) as [n1 F1].
  destruct (candidates_frame (H := R2) (bc <| bc_ticks := n |>)) as [n2 F2].
  destruct (@candidates R1 bc) as [c1 bc1], (@candidates R2 _) as [c2 bc2].
  cbn [fst snd] in *. subst bc1 bc2.
  assert (match c1 with
    | [] => ("validator", bc <| bc_ticks := n1 |>)
    | _ => let sorted := @sort_Slice _ R1 n1 (candidate_less bc) c1 in
      (nth (Z.to_nat ((bc_validatorIdx bc + 1) mod blen sorted)) sorted "", bc)
    end.1 = match c2 with
    | [] => ("validator", bc)
    | _ => let sorted := @sort_Slice _ R2 n2 (candidate_less bc) c2 in
      (nth (Z.to_nat ((bc_validatorIdx bc + 1) mod blen sorted)) sorted "", bc)
    end.1) as Hc.
  { rewrite (sort_candidates R1 R2 bc n1 n2 c1 c2 Hp).
    destruct c1, c2; [done|by apply Permutation_nil_l in Hp|by apply Permutation_nil_r in Hp|done]. }
  destruct (bc_tendermintEngine bc), (bool_decide (bc_Consensus bc = ProofOfStake));
    try done; destruct c1, c2; exact Hc.
Qed.
