(* ===== verification/Submission.v ===== *)
(** * Blocks mined elsewhere (go-chain/blockchain/blockchain.go)

    The contract of [SubmitMinedBlock]: which blocks it takes and what a taken
    block does to the chain, the pool and the money. *)

From S2P Require Import Prelude Runtime Float64 Text Sha256 Domain Json Merkle Tendermint State Accounts Validation Apply Reversal Rewards Mining.
Open Scope Z_scope.
Open Scope go_scope.

Section submission.
Context `{Runtime} `{Ed25519}.
Implicit Types (bc : Blockchain) (block prev : Block).

(** Who is paid for the block. *)
Definition paid_author (block : Block) : string :=
  if bool_decide (blk_Author block = "") then blk_MinerAddress block else blk_Author block.

(** The blocks that are taken: no condition on the work behind the hash. *)
Definition acceptable (bc : Blockchain) (block prev : Block) : Prop :=
  blk_Index block = u64 (blen (bc_Chain bc)) ∧ paid_author block ≠ "" ∧ block_valid bc block prev.

Definition block_reward (bc : Blockchain) (block : Block) : Z :=
  if bool_decide (is_Some (bc_Ledger bc !! paid_author block)) then submission_reward else 0.

(** The state after an accepted block, before it is written to disk. *)
Definition submitted (bc : Blockchain) (block : Block) : Blockchain :=
  let author := paid_author block in
  let bc := extend (pay_author author submission_reward bc) block in
  let bc := adjustDifficulty (bc <| bc_Pending := [] |>) in
  let bc := appendAuditEntry bc "block_submitted" author
    ("index=" +:+ FormatInt (blk_Index block) +:+ " txs=" +:+
     FormatInt (blen (blk_Transactions block))) in
  count_mined bc.

Lemma SubmitMinedBlock_accepts bc block prev :
  last (bc_Chain bc) = Some prev → acceptable bc block prev →
  SubmitMinedBlock bc block = SaveToDisk (submitted bc block).
Proof.
  intros Hl (Hi & Ha & Hv). unfold SubmitMinedBlock. rewrite Hl.
  apply Z.eqb_eq in Hi. rewrite Hi. cbn [negb].
  rewrite (bool_decide_true (blk_PreviousHash block = _)) by apply (bv_previous _ _ _ Hv).
  rewrite (bool_decide_true (calculateHash block = _)) by (symmetry; apply (bv_hash _ _ _ Hv)).
  cbn [negb]. rewrite (proj2 (validateBlock_Ok bc block prev) Hv).
  fold (paid_author block). rewrite (bool_decide_false (paid_author block = "")) by exact Ha.
  unfold submitted. cbv zeta. reflexivity.
Qed.

Lemma SubmitMinedBlock_rejects bc block prev :
  last (bc_Chain bc) = Some prev → ¬ acceptable bc block prev →
  ∃ e, SubmitMinedBlock bc block = (Err e, bc).
Proof.
  intros Hl Hno. unfold SubmitMinedBlock. rewrite Hl.
  destruct (negb (_ =? _)) eqn:E1; [by eexists|]. prop_bools.
  destruct (negb (bool_decide (blk_PreviousHash block = _))); [by eexists|].
  destruct (negb (bool_decide (calculateHash block = _))); [by eexists|].
  destruct (validateBlock bc block prev) as [[]|e|e] eqn:Ev; [|by eexists..].
  fold (paid_author block). case_bool_decide as Ea; [by eexists|].
  exfalso. apply Hno. split; [done|]. split; [done|]. by apply validateBlock_Ok.
Qed.

Lemma pay_author_conserves author r bc :
  sound_ledger (bc_Ledger bc) → is_u64 (bc_TokenSupply bc) → 0 ≤ r →
  total_holdings bc + r < max_u64 → bc_TokenSupply bc + r < max_u64 →
  let paid := if bool_decide (is_Some (bc_Ledger bc !! author)) then r else 0 in
  sound_ledger (bc_Ledger (pay_author author r bc)) ∧
  total_holdings (pay_author author r bc) = total_holdings bc + paid ∧
  bc_TokenSupply (pay_author author r bc) = bc_TokenSupply bc + paid.
Proof.
  intros Hm Hs Hr Ht Hts. unfold pay_author, total_holdings in *. cbv zeta.
  destruct (bc_Ledger bc !! author) as [a|] eqn:E.
  - rewrite bool_decide_true by eauto. cbn [bc_Ledger bc_TokenSupply update on_account].
    destruct (sound_credit _ _ _ r Hm E Hr Ht) as [? ->].
    split; [done|]. split; [done|]. apply u64_small. u64_lia.
  - rewrite bool_decide_false by by intros [? ?]. split; [done|]. lia.
Qed.

Lemma adjustDifficulty_money bc :
  bc_Ledger (adjustDifficulty bc) = bc_Ledger bc ∧
  bc_TokenSupply (adjustDifficulty bc) = bc_TokenSupply bc.
Proof. unfold adjustDifficulty. by repeat case_match. Qed.

(** The money after an accepted block. *)
Lemma submitted_money bc block :
  sound_ledger (bc_Ledger bc) → reversals_ok bc → amounts_ok (blk_Transactions block) →
  is_u64 (bc_TokenSupply bc) →
  total_holdings bc + submission_reward < max_u64 → bc_TokenSupply bc + submission_reward < max_u64 →
  total_holdings (submitted bc block) = total_holdings bc + block_reward bc block ∧
  bc_TokenSupply (submitted bc block) = bc_TokenSupply bc + block_reward bc block.
Proof.
  intros Hm Hr Ha Hs Ht Hts.
  destruct (pay_author_conserves (paid_author block) submission_reward bc Hm Hs ltac:(done) Ht Hts)
    as (P1 & P2 & P3).
  set (bc1 := pay_author (paid_author block) submission_reward bc) in *.
  assert (reversals_ok bc1) as Hr1.
  { subst bc1. unfold pay_author. by destruct (_ !! paid_author block). }
  destruct (applyBlock_conserves bc1 block P1 Hr1 Ha) as [[_ A2] _].
  pose proof (f_equal (λ p, p.1.1.1.1.1.1.1.1.2) (applyBlock_frame bc1 block)) as A3.
  cbn [chain_part fst snd] in A3.
  destruct (adjustDifficulty_money ((extend bc1 block) <| bc_Pending := [] |>)) as [D1 D2].
  unfold submitted, total_holdings, block_reward. cbv zeta. fold bc1.
  set (bc2 := adjustDifficulty _) in *.
  change (bc_Ledger (count_mined _)) with (bc_Ledger bc2).
  change (bc_TokenSupply (count_mined _)) with (bc_TokenSupply bc2).
  rewrite D1, D2.
  change (bc_Ledger ((extend bc1 block) <| bc_Pending := [] |>))
    with (bc_Ledger (applyBlock bc1 block)).
  change (bc_TokenSupply ((extend bc1 block) <| bc_Pending := [] |>))
    with (bc_TokenSupply (applyBlock bc1 block)).
  rewrite A2, A3. split; [exact P2|exact P3].
Qed.

(** [SubmitMinedBlock] takes a block exactly when its index is the
    height, it is valid on the tail, and it names an author or a miner; the
    difficulty plays no part.  A block that is not taken changes nothing.  A
    block that is taken is appended and empties the pool even when the chain
    file cannot be written; the supply and the sum of all holdings then grow
    by the same amount, 100 when the author has an account and 0 otherwise. *)
Theorem submit_mined_block bc block prev :
  last (bc_Chain bc) = Some prev →
  let '(res, bc') := SubmitMinedBlock bc block in
  (¬ acceptable bc block prev → (∃ e, res = Err e) ∧ bc' = bc) ∧
  (acceptable bc block prev →
     bc_Chain bc' = bc_Chain bc ++ [block] ∧ bc_Pending bc' = [] ∧
     (sound_ledger (bc_Ledger bc) → reversals_ok bc → amounts_ok (blk_Transactions block) →
      is_u64 (bc_TokenSupply bc) →
      total_holdings bc + submission_reward < max_u64 → bc_TokenSupply bc + submission_reward < max_u64 →
      total_holdings bc' = total_holdings bc + block_reward bc block ∧
      bc_TokenSupply bc' = bc_TokenSupply bc + block_reward bc block)).
Proof.
  intros Hl. destruct (SubmitMinedBlock bc block) as [res bc'] eqn:E. split.
  - intros Hno. destruct (SubmitMinedBlock_rejects bc block prev Hl Hno) as [e E'].
    rewrite E in E'. simplify_eq. eauto.
  - intros Hok. rewrite (SubmitMinedBlock_accepts bc block prev Hl Hok) in E.
    pose proof (SaveToDisk_tail (submitted bc block)) as Et.
    pose proof (SaveToDisk_frame (submitted bc block)) as (F1 & F2 & _ & _).
    rewrite E in Et, F1, F2. cbn [snd] in *. unfold tail_view in Et. injection Et as T1 T2.
    assert (tail_view (submitted bc block) = (bc_Chain bc ++ [block], [])) as Es.
    { unfold submitted. cbv zeta. set (b1 := extend _ block).
      change (tail_view (adjustDifficulty (b1 <| bc_Pending := [] |>)) = (bc_Chain bc ++ [block], [])).
      rewrite adjustDifficulty_tail. unfold tail_view. cbn [bc_Chain bc_Pending update]. f_equal.
      subst b1. rewrite extend_chain. by rewrite (tail_view_chain _ _ (pay_author_tail _ _ _)). }
    unfold tail_view in Es. injection Es as S1 S2.
    split; [congruence|]. split; [congruence|]. intros. unfold total_holdings. rewrite F1, F2.
    by apply submitted_money.
Qed.

(** ** Mining and submissions in the reversal protocol *)

(** The part of the state the steps of [Reversal] are about. *)
Definition reversal_part (bc : Blockchain) := (bc_Chain bc, bc_PendingReversals bc).

Lemma same_reversals_part bc bc' : same_reversals bc bc' ↔ reversal_part bc' = reversal_part bc.
Proof. unfold same_reversals, reversal_part. split; [by intros [-> ->]|by intros [= -> ->]]. Qed.

Lemma context_same bc bc' : context bc' = context bc → same_reversals bc bc'.
Proof.
  intros E. split; [exact (f_equal (λ p, p.1.1.1.1.1.1.1.1.1.1) E)|exact (f_equal (λ p, p.1.1.2) E)].
Qed.

Lemma rotate_part bc now : reversal_part (rotateValidatorKeysLocked bc now) = reversal_part bc.
Proof.
  unfold rotateValidatorKeysLocked. rewrite (foldl_frame reversal_part); [done|].
  intros s [addr v]. unfold rotate_one. by case_match.
Qed.

Lemma MineRewardFor_part bc miner : reversal_part (MineRewardFor bc miner).2 = reversal_part bc.
Proof. unfold MineRewardFor. cbv beta iota zeta delta [Unix]. by destruct (mine_reward _ _ _). Qed.

Lemma pay_author_part author r bc : reversal_part (pay_author author r bc) = reversal_part bc.
Proof. unfold pay_author. by case_match. Qed.

Lemma adjustDifficulty_part bc : reversal_part (adjustDifficulty bc) = reversal_part bc.
Proof. unfold adjustDifficulty. by repeat case_match. Qed.

Lemma buyback_part bc : reversal_part (treasuryBuybackLocked bc) = reversal_part bc.
Proof. unfold treasuryBuybackLocked. by repeat case_match. Qed.

Lemma SaveToDisk_part bc : reversal_part (SaveToDisk bc).2 = reversal_part bc.
Proof. unfold SaveToDisk. by repeat case_match. Qed.

Lemma commit_mined_part bc block author :
  ∃ bc', same_reversals bc bc' ∧ same_reversals (extend bc' block) (commit_mined bc block author).2.
Proof.
  unfold commit_mined. pose proof (MineRewardFor_part bc author) as E1.
  destruct (MineRewardFor bc author) as [r bc1]. cbn [snd] in E1.
  exists (pay_author author r bc1). rewrite !same_reversals_part. split; [by rewrite pay_author_part|].
  set (e := extend _ block). cbv beta iota zeta delta [Unix].
  match goal with |- context [rotateValidatorKeysLocked ?x ?y] =>
    pose proof (rotate_part x y) as E2; set (bc2 := rotateValidatorKeysLocked x y) in * end.
  match goal with |- context [0 <? bc_AgentTxCount ?x] =>
    assert (reversal_part x = reversal_part e) as E3; [transitivity (reversal_part bc2); [by repeat case_match|exact E2]|]; set (bc3 := x) in * end.
  match goal with |- context [adjustDifficulty ?x] =>
    assert (reversal_part x = reversal_part e) as E4; [|set (bc4 := x) in *] end.
  { rewrite <- E3. case_match; [exact (buyback_part bc3)|done]. }
  match goal with |- context [SaveToDisk ?x] =>
    assert (reversal_part x = reversal_part e) as E5; [|set (bc5 := x) in *] end.
  { rewrite <- E4, <- (adjustDifficulty_part bc4). done. }
  pose proof (SaveToDisk_part bc5) as E6. rewrite E5 in E6. by destruct (SaveToDisk bc5) as [[[]|?|?] bc6].
Qed.

Lemma MineBlockFor_steps fuel bc miner o bc' :
  MineBlockFor fuel bc miner = Some (o, bc') → rtc node_step bc bc'.
Proof.
  unfold MineBlockFor. pose proof (minting_paused_frame bc) as Ep.
  destruct (minting_paused bc) as [paused bc1]. cbn [snd] in Ep.
  assert (node_step bc bc1) as S1 by (apply step_grow, step_other, context_same, Ep).
  destruct paused; [intros [= <- <-]; by apply rtc_once|]. cbv zeta.
  set (bc2 := match bc_Chain bc1 with [] => createGenesisBlock bc1 | _ => bc1 end).
  assert (rtc node_step bc1 bc2) as S2.
  { unfold bc2. destruct (bc_Chain bc1) eqn:E; [|done].
    unfold createGenesisBlock. cbv beta iota zeta delta [Unix].
    eapply rtc_l; [apply step_grow, step_append|]. apply rtc_once, step_grow, step_other. by split. }
  clearbody bc2. pose proof (assemble_spec bc2 miner) as Ha. destruct (assemble bc2 miner) as [bc3 block].
  destruct Ha as [Ea _]. assert (node_step bc2 bc3) as S3 by (apply step_grow, step_other, context_same, Ea).
  assert (rtc node_step bc bc3) as S. { eapply rtc_l; [exact S1|]. by eapply rtc_r. }
  destruct (seal_block fuel bc3 block) as [sealed|]; [|done]. cbn [mbind option_bind].
  destruct (last (bc_Chain bc3)) as [prev|] eqn:El; [|by intros [= <- <-]].
  destruct (validateBlock bc3 sealed prev) as [[]|?|?] eqn:Ev; [|by intros [= <- <-]..].
  intros [= E]. destruct (commit_mined_part bc3 sealed (blk_Author sealed)) as (bc4 & H1 & H2).
  rewrite E in H2. cbn [snd] in H2. eapply rtc_r; [eapply rtc_r; [exact S|]|].
  - apply step_grow. by eapply step_block.
  - by apply step_grow, step_other.
Qed.

Lemma SubmitMinedBlock_steps bc block : rtc node_step bc (SubmitMinedBlock bc block).2.
Proof.
  unfold SubmitMinedBlock. destruct (last (bc_Chain bc)) as [prev|] eqn:El; [|done].
  do 3 (destruct (negb _); [done|]). destruct (validateBlock bc block prev) as [[]|?|?] eqn:Ev; [|done..].
  cbv zeta. case_bool_decide; [done|].
  match goal with |- context [SaveToDisk ?x] => set (bc5 := x) end.
  match goal with bc5 := context [extend ?x block] |- _ => set (bc1 := x) in * end.
  eapply rtc_l; [apply step_grow, (step_block bc bc1 block prev El Ev)|apply rtc_once, step_grow, step_other].
  - apply same_reversals_part, pay_author_part.
  - apply same_reversals_part. rewrite SaveToDisk_part. unfold bc5.
    transitivity (reversal_part (adjustDifficulty ((extend bc1 block) <| bc_Pending := [] |>))); [done|].
    by rewrite adjustDifficulty_part.
Qed.

End submission.

(** ** Examples *)

Lemma demo_last : last (bc_Chain demo_node) = Some demo_genesis_block.
Proof. done. Qed.

Lemma submit_mined_block_witness :
  let '(res, bc') := @SubmitMinedBlock demo_runtime demo_ed25519 demo_node demo_block1 in
  (¬ @acceptable demo_ed25519 demo_node demo_block1 demo_genesis_block →
     (∃ e, res = Err e) ∧ bc' = demo_node) ∧
  (@acceptable demo_ed25519 demo_node demo_block1 demo_genesis_block →
     bc_Chain bc' = bc_Chain demo_node ++ [demo_block1] ∧ bc_Pending bc' = [] ∧
     (sound_ledger (bc_Ledger demo_node) → reversals_ok demo_node →
      amounts_ok (blk_Transactions demo_block1) → is_u64 (bc_TokenSupply demo_node) →
      total_holdings demo_node + submission_reward < max_u64 → bc_TokenSupply demo_node + submission_reward < max_u64 →
      total_holdings bc' = total_holdings demo_node + block_reward demo_node demo_block1 ∧
      bc_TokenSupply bc' = bc_TokenSupply demo_node + block_reward demo_node demo_block1)).
Proof.
  exact (@submit_mined_block demo_runtime demo_ed25519 demo_node demo_block1 demo_genesis_block
           demo_last).
Defined.

(** A proof-of-work node at difficulty 64 takes a block nobody worked for. *)
Example no_work_needed :
  let bc := demo_node <| bc_Consensus := ProofOfWork |> <| bc_Difficulty := 64 |> in
  outcome_ok (@SubmitMinedBlock demo_runtime demo_ed25519 bc demo_block1).1 = true ∧
  hash_value (blk_BlockHash demo_block1) <? 2 ^ (256 - 64) = false.
Proof. vm_compute. done. Qed.
