(* ===== verification/Finality.v ===== *)
(** * Finality votes (go-chain/blockchain/blockchain.go)

    Signing and checking finality votes, collecting votes per block, the
    two-thirds threshold (computed in [float64]) and the finalization of a
    block with the slashing of the validators that did not vote. *)

From S2P Require Import Prelude Runtime Float64 Text Sha256 Domain Json Merkle Tendermint State Accounts.
Open Scope Z_scope.
Open Scope go_scope.

(** The message a finality vote signs. *)
Definition finality_payload (blockHash vote voter : string) : list byte :=
  Sum256 (bytes_of_string (blockHash +:+ ":" +:+ vote +:+ ":" +:+ voter)).

(** [int(math.Ceil(float64(n) * 2.0 / 3.0))] *)
Definition two_thirds (n : Z) : Z :=
  default 0 (Z_ceil (f64_div (f64_mul (f64_of_Z n) (f64_of_Z 2)) (f64_of_Z 3))).

Definition finalityThreshold (bc : Blockchain) : Z :=
  let active := activeValidatorCount bc in
  if active =? 0 then 0 else two_thirds active.

(** [CollectFinalityVote] *)
Definition votes_at (bc : Blockchain) (blockIndex : Z) : gset string :=
  default ∅ (bc_FinalityVotes bc !! blockIndex).

Definition CollectFinalityVote (bc : Blockchain) (blockIndex : Z) (voter : string)
    : outcome unit * Blockchain :=
  if u64 (blen (bc_Chain bc)) <=? blockIndex then (Err "invalid block index", bc) else
  (Ok tt, bc <| bc_FinalityVotes ::= <[blockIndex := {[voter]} ∪ votes_at bc blockIndex]> |>).

Definition signatures_at (bc : Blockchain) (blockIndex : Z) : list FinalityVoteSignature :=
  default [] (bc_FinalitySignatures bc !! blockIndex).

Section finality.
Context `{Runtime}.

(** The private key comes with its public half.  [int(blockIndex)] is negative
    from 2^63 on, and the slice access then panics. *)
Definition SignFinalityVote `{Ed25519} (bc : Blockchain) (blockIndex : Z) (voter : Wallet)
    : outcome FinalityVoteSignature * Blockchain :=
  if blen (bc_Chain bc) <=? i64 blockIndex then (Err "invalid block index", bc) else
  match bc_Chain bc !! Z.to_nat blockIndex with
  | None => (Panic "index out of range", bc)
  | Some block =>
      let voterHex := EncodeToString (w_PublicKey voter) in
      let payload := finality_payload (blk_BlockHash block) "finalize" voterHex in
      let sig := ed_Sign (w_PrivateKey voter) payload in
      let entry := mkFinalityVoteSignature (blk_BlockHash block) voterHex "finalize" sig in
      let bc := bc <| bc_FinalitySignatures ::=
                  <[blockIndex := signatures_at bc blockIndex ++ [entry]]> |> in
      let bc := appendAuditEntry bc "finality_vote_signed" voterHex
        ("block=" +:+ FormatInt blockIndex +:+ " sig_count=" +:+
         FormatInt (blen (signatures_at bc blockIndex))) in
      (Ok entry, bc)
  end.

Definition VerifyFinalitySignature `{Ed25519} (vote : FinalityVoteSignature) : bool :=
  match DecodeString (fvs_Voter vote) with
  | Ok pubBytes =>
      if negb (length pubBytes =? PublicKeySize)%nat then false else
      ed_Verify pubBytes (finality_payload (fvs_BlockHash vote) (fvs_Vote vote) (fvs_Voter vote))
        (fvs_Signature vote)
  | _ => false
  end.

(** What a validator that did not vote loses. *)
Definition slash_amount (v : Validator) : Z :=
  let a := val_Stake v `div` 10 in if a =? 0 then 1 else a.

Definition slash_validator (v : Validator) : Validator :=
  let v := v <| val_Stake ::= λ s, s -! slash_amount v |> in
  if val_Stake v =? 0 then v <| val_Active := false |> else v.

(** One round of the loop over the validators. *)
Definition punish (voters : gset string) (blockIndex : Z) (bc : Blockchain)
    (entry : string * Validator) : Blockchain :=
  let '(addr, v) := entry in
  if bool_decide (addr ∈ voters) then bc else
  let bc := slashLocked bc addr (slash_amount v) in
  let bc := bc <| bc_Validators ::= <[addr := slash_validator v]> |> in
  appendAuditEntry bc "validator_slashed" addr
    ("block=" +:+ FormatInt blockIndex +:+ " amount=" +:+ FormatInt (slash_amount v)).

Definition tryFinalizeBlockLocked (bc : Blockchain) (blockIndex : Z) : outcome unit * Blockchain :=
  match bc_FinalityVotes bc !! blockIndex with
  | None => (Err "no votes collected", bc)
  | Some voters =>
      let count := Z.of_nat (size voters) in
      let threshold := finalityThreshold bc in
      if count <? threshold then
        (Err ("insufficient votes: " +:+ FormatInt count +:+ " < " +:+ FormatInt threshold), bc)
      else
        let entries := range_map (bc_ticks bc) (bc_Validators bc) in
        let bc := foldl (punish voters blockIndex) (tick bc) entries in
        let bc := bc <| bc_LastFinalized := blockIndex |>
                     <| bc_FinalizedBlocks ::= union {[blockIndex]} |> in
        (Ok tt, appendAuditEntry bc "block_finalized" "system"
           ("index=" +:+ FormatInt blockIndex +:+ " votes=" +:+ FormatInt count +:+
            " threshold=" +:+ FormatInt threshold))
  end.

Definition TryFinalizeBlock (bc : Blockchain) (blockIndex : Z) : outcome unit * Blockchain :=
  tryFinalizeBlockLocked bc blockIndex.

(** One round of [collectFinalityVotesLocked]: a vote is recorded for every
    active validator with a public key, signed with the padded payload. *)
Definition collect_vote (block : Block) (blockIndex : Z) (bc : Blockchain)
    (entry : string * Validator) : Blockchain :=
  let v := entry.2 in
  if negb (val_Active v) || bool_decide (val_PublicKey v = "") then bc else
  let votes := votes_at bc blockIndex in
  let bc := bc <| bc_FinalityVotes ::= <[blockIndex := votes]> |> in
  if bool_decide (val_Address v ∈ votes) then bc else
  let payload := finality_payload (blk_BlockHash block) "finalize" (val_PublicKey v) in
  let sig := take SignatureSize (payload ++ replicate SignatureSize x00) in
  let vote := mkFinalityVoteSignature (blk_BlockHash block) (val_PublicKey v) "finalize" sig in
  let bc := bc <| bc_FinalitySignatures ::=
              <[blockIndex := signatures_at bc blockIndex ++ [vote]]> |> in
  bc <| bc_FinalityVotes ::= <[blockIndex := {[val_Address v]} ∪ votes]> |>.

Definition collectFinalityVotesLocked (bc : Blockchain) (blockIndex : Z) : Blockchain :=
  if u64 (blen (bc_Chain bc)) <=? blockIndex then bc else
  match bc_Chain bc !! Z.to_nat blockIndex with
  | None => bc
  | Some block =>
      let entries := range_map (bc_ticks bc) (bc_Validators bc) in
      foldl (collect_vote block blockIndex) (tick bc) entries
  end.
End finality.

(** ** The threshold *)

Definition two_thirds_ok (n : Z) : bool := two_thirds n =? (2 * n + 2) `div` 3.

Lemma two_thirds_checked : forallb two_thirds_ok (seqZ 1 5000) = true.
Proof. vm_compute. reflexivity. Qed.

Lemma two_thirds_ceil n : 1 ≤ n ≤ 5000 → two_thirds n = (2 * n + 2) `div` 3.
Proof.
  intros Hn. pose proof two_thirds_checked as Hc. rewrite forallb_forall in Hc.
  apply Z.eqb_eq, Hc, list_elem_of_In, elem_of_seqZ. lia.
Qed.

(** C15. For 1 to 5000 active validators the floating-point threshold is the exact
    two-thirds quorum, rounded up; and two sets of voters that reach it and lie in one
    set [V] with as many members as there are active validators share at least a third
    of them. Votes of strangers, which the code collects as well, are not covered. *)
Theorem quorums_intersect bc (V A B : gset string) :
  1 ≤ activeValidatorCount bc ≤ 5000 → Z.of_nat (size V) = activeValidatorCount bc →
  A ⊆ V → B ⊆ V →
  finalityThreshold bc ≤ Z.of_nat (size A) → finalityThreshold bc ≤ Z.of_nat (size B) →
  2 * activeValidatorCount bc ≤ 3 * finalityThreshold bc < 2 * activeValidatorCount bc + 3 ∧
  activeValidatorCount bc ≤ 3 * Z.of_nat (size (A ∩ B)).
Proof.
  intros Hn HV HA HB. unfold finalityThreshold.
  set (n := activeValidatorCount bc) in *.
  destruct (n =? 0) eqn:E; prop_bools; [lia|]. rewrite two_thirds_ceil by done. intros Ha Hb.
  assert (size (A ∪ B) ≤ size V)%nat as Hu by (apply subseteq_size; set_solver).
  assert (size (A ∪ B) + size (A ∩ B) = size A + size B)%nat as Hi.
  { rewrite (size_union_alt A B). enough (size B = size (B ∖ A) + size (A ∩ B))%nat by lia.
    rewrite <- size_union by set_solver. f_equal. apply leibniz_equiv. intros x.
    destruct (decide (x ∈ A)); set_solver. }
  Z.to_euclidean_division_equations. lia.
Qed.

(** ** Votes *)

Section votes.
Context `{Runtime} `{Ed25519}.
Implicit Types (bc : Blockchain) (v : Validator).

(** A finality vote signed with a generated key for a block of the
    chain is recorded under the block and verifies. *)
Theorem finality_vote_verifies bc blockIndex k block :
  bc_Chain bc !! Z.to_nat blockIndex = Some block → 0 ≤ blockIndex < blen (bc_Chain bc) →
  blen (bc_Chain bc) < 2 ^ 63 →
  ∃ vote bc', SignFinalityVote bc blockIndex (NewWallet k) = (Ok vote, bc') ∧
    VerifyFinalitySignature vote = true ∧ fvs_BlockHash vote = blk_BlockHash block ∧
    signatures_at bc' blockIndex = signatures_at bc blockIndex ++ [vote].
Proof.
  intros Hb Hi Hlen. unfold SignFinalityVote. rewrite i64_small by u64_lia.
  destruct (blen (bc_Chain bc) <=? blockIndex) eqn:E; prop_bools; [lia|]. rewrite Hb.
  eexists _, _. split; [reflexivity|]. split; [|split; [done|]].
  - unfold VerifyFinalitySignature. cbn [fvs_Voter fvs_BlockHash fvs_Vote fvs_Signature].
    rewrite DecodeString_EncodeToString. unfold NewWallet. cbn [w_PublicKey w_PrivateKey].
    rewrite GenerateKey_len. cbn [negb Nat.eqb PublicKeySize]. apply ed_Verify_Sign.
  - unfold signatures_at at 1. cbn [bc_FinalitySignatures update appendAuditEntry Unix tick].
    by rewrite lookup_insert_eq.
Qed.

(** An index from 2^63 on passes the bound check and panics. *)
Lemma sign_vote_panics bc blockIndex voter :
  2 ^ 63 ≤ blockIndex < max_u64 → blen (bc_Chain bc) < 2 ^ 63 →
  (SignFinalityVote bc blockIndex voter).1 = Panic "index out of range".
Proof.
  intros Hi Hlen. unfold SignFinalityVote.
  assert (i64 blockIndex < 0) as Hneg.
  { unfold i64. replace ((blockIndex + 2 ^ 63) mod max_u64) with (blockIndex - 2 ^ 63); [u64_lia|].
    apply (Z.mod_unique_pos _ _ 1); u64_lia. }
  pose proof (blen_nonneg (bc_Chain bc)).
  destruct (blen (bc_Chain bc) <=? i64 blockIndex) eqn:E; prop_bools; [lia|].
  rewrite (lookup_ge_None_2 (bc_Chain bc)); [done|]. unfold blen in *. lia.
Qed.

(** The loop over the validators: who did not vote is slashed once. *)
Lemma punish_validators voters blockIndex bc entry :
  bc_Validators (punish voters blockIndex bc entry) =
  if bool_decide (entry.1 ∈ voters) then bc_Validators bc
  else <[entry.1 := slash_validator entry.2]> (bc_Validators bc).
Proof.
  destruct entry as [addr v]. unfold punish, slashLocked. cbn [fst snd].
  case_bool_decide; [done|]. by repeat case_match.
Qed.

Lemma punish_loop voters blockIndex bc l :
  NoDup l.*1 →
  let bc' := foldl (punish voters blockIndex) bc l in
  (∀ a v, (a, v) ∈ l → a ∉ voters → bc_Validators bc' !! a = Some (slash_validator v)) ∧
  (∀ a, a ∉ l.*1 ∨ a ∈ voters → bc_Validators bc' !! a = bc_Validators bc !! a).
Proof.
  revert bc. induction l as [|[a0 v0] l IH]; intros bc Hnd; [set_solver|].
  apply NoDup_cons in Hnd as [Ha0 Hnd]. cbv zeta.
  change (foldl (punish voters blockIndex) bc ((a0, v0) :: l))
    with (foldl (punish voters blockIndex) (punish voters blockIndex bc (a0, v0)) l).
  destruct (IH (punish voters blockIndex bc (a0, v0)) Hnd) as [I1 I2].
  pose proof (punish_validators voters blockIndex bc (a0, v0)) as E. cbn [fst snd] in E. split.
  - intros a v [[= -> ->]|Hin]%elem_of_cons Hv; [|eauto].
    rewrite I2 by (by left). rewrite E, bool_decide_false by done. apply lookup_insert_eq.
  - intros a Ha. rewrite I2 by set_solver. rewrite E. case_bool_decide; [done|].
    apply lookup_insert_ne. set_solver.
Qed.

(** What [TryFinalizeBlock] does to a validator. *)
Definition after_vote (voters : gset string) (a : string) (v : Validator) : Validator :=
  if bool_decide (a ∈ voters) then v else slash_validator v.

Lemma finalize_validators voters blockIndex bc k a :
  bc_Validators (foldl (punish voters blockIndex) bc (range_map k (bc_Validators bc))) !! a =
  after_vote voters a <$> bc_Validators bc !! a.
Proof.
  destruct (punish_loop voters blockIndex bc (range_map k (bc_Validators bc))) as [I1 I2].
  { rewrite range_map_Permutation. apply NoDup_fst_map_to_list. }
  destruct (bc_Validators bc !! a) as [v|] eqn:E; cbn [fmap option_fmap option_map].
  - unfold after_vote. case_bool_decide as Hv; [by rewrite I2 by auto|].
    apply I1; [|done]. by apply elem_of_range_map.
  - rewrite I2; [done|]. left. intros ([a' v] & -> & Hin)%list_elem_of_fmap_1.
    apply elem_of_range_map in Hin. simpl in *. congruence.
Qed.

(** A block is finalized exactly when votes were collected for it
    and their number reaches the threshold, whoever cast them; otherwise the
    state does not change.  On success the block is marked, every registered
    validator that did not vote loses a tenth of its stake (at least one unit,
    in [uint64] arithmetic) and is deactivated when nothing is left, and those
    that voted keep theirs, in whatever order the validators are visited. *)
Theorem finalize_spec bc blockIndex :
  let '(res, bc') := TryFinalizeBlock bc blockIndex in
  (res = Ok tt ↔ ∃ voters, bc_FinalityVotes bc !! blockIndex = Some voters ∧
     finalityThreshold bc ≤ Z.of_nat (size voters)) ∧
  (res ≠ Ok tt → bc' = bc) ∧
  (∀ voters, res = Ok tt → bc_FinalityVotes bc !! blockIndex = Some voters →
     IsFinalized bc' blockIndex = true ∧ bc_LastFinalized bc' = blockIndex ∧
     ∀ a, bc_Validators bc' !! a = after_vote voters a <$> bc_Validators bc !! a).
Proof.
  unfold TryFinalizeBlock, tryFinalizeBlockLocked.
  destruct (bc_FinalityVotes bc !! blockIndex) as [voters|] eqn:E; [|naive_solver].
  cbv zeta. destruct (Z.of_nat (size voters) <? finalityThreshold bc) eqn:Et; prop_bools.
  { split; [naive_solver lia|]. split; [done|]. done. }
  split; [naive_solver|]. split; [done|]. intros voters' _ [= <-]. split; [|split; [done|]].
  - unfold IsFinalized. apply bool_decide_eq_true_2.
    cbn [bc_FinalizedBlocks update appendAuditEntry Unix tick]. set_solver.
  - intros a. cbn [bc_Validators update appendAuditEntry Unix].
    apply (finalize_validators voters blockIndex (tick bc)).
Qed.
End votes.

(** ** Examples *)

(** A node with three authorities and a genesis block. *)
Definition demo_council : Blockchain :=
  demo_state <| bc_Authorities := ["a"; "b"; "c"] |>
             <| bc_Chain := [mkBlock 0 "genesis" "" "0" 1700000000 [] 0 "g" ""] |>.

Lemma demo_council_facts :
  1 ≤ activeValidatorCount demo_council ≤ 5000 ∧
  Z.of_nat (size ({["a"; "b"; "c"]} : gset string)) = activeValidatorCount demo_council ∧
  finalityThreshold demo_council ≤ Z.of_nat (size ({["a"; "b"]} : gset string)) ∧
  finalityThreshold demo_council ≤ Z.of_nat (size ({["b"; "c"]} : gset string)).
Proof. repeat split; vm_compute; congruence. Qed.

Lemma quorums_intersect_witness :
  2 * activeValidatorCount demo_council ≤ 3 * finalityThreshold demo_council <
    2 * activeValidatorCount demo_council + 3 ∧
  activeValidatorCount demo_council ≤
    3 * Z.of_nat (size (({["a"; "b"]} : gset string) ∩ {["b"; "c"]})).
Proof.
  destruct demo_council_facts as (H1 & H2 & H3 & H4).
  apply (quorums_intersect demo_council {["a"; "b"; "c"]} {["a"; "b"]} {["b"; "c"]}).
  - exact H1.
  - exact H2.
  - set_solver.
  - set_solver.
  - exact H3.
  - exact H4.
Defined.

Lemma finality_vote_verifies_witness :
  ∃ vote bc', @SignFinalityVote demo_runtime demo_ed25519 demo_council 0
                (@NewWallet demo_ed25519 4) = (Ok vote, bc') ∧
    @VerifyFinalitySignature demo_ed25519 vote = true ∧ fvs_BlockHash vote = "g" ∧
    signatures_at bc' 0 = signatures_at demo_council 0 ++ [vote].
Proof.
  apply (@finality_vote_verifies demo_runtime demo_ed25519 demo_council 0 4
           (mkBlock 0 "genesis" "" "0" 1700000000 [] 0 "g" "")).
  - reflexivity.
  - change (blen (bc_Chain demo_council)) with 1. lia.
  - change (blen (bc_Chain demo_council)) with 1. lia.
Defined.

(** Votes are not checked against the validators: two strangers finalize. *)
Example strangers_reach_the_threshold :
  let bc := (CollectFinalityVote demo_council 0 "x").2 in
  let bc := (CollectFinalityVote bc 0 "y").2 in
  outcome_ok (@TryFinalizeBlock demo_runtime bc 0).1 = true.
Proof. vm_compute. reflexivity. Qed.

