(* ===== verification/Persistence.v ===== *)
(** * Restarts (go-chain/blockchain/blockchain.go)

    What survives [SaveToDisk] followed by a new process that loads the file
    ([NewBlockchain] calls [LoadFromDisk]).  The nonces are rebuilt from the
    used ones on loading; [nonces_consistent] is the invariant of the running
    node under which the rebuilt table is the saved one, kept by every applied
    block.  The state is read back as it was saved when its strings are UTF-8;
    other bytes are replaced in the JSON text ([JsonText]). *)

From S2P Require Import Prelude Runtime Float64 Text Sha256 Domain Json JsonText Merkle Tendermint State Accounts Validation Apply.
Open Scope Z_scope.
Open Scope go_scope.

Implicit Types (bc : Blockchain) (tx : Transaction).

(** ** The largest used nonce *)

Lemma max_nonce_spec (ns : gset Z) :
  0 ≤ max_nonce ns ∧ (∀ n, n ∈ ns → n ≤ max_nonce ns) ∧ (max_nonce ns = 0 ∨ max_nonce ns ∈ ns).
Proof.
  unfold max_nonce. apply (set_fold_ind_L (λ r X, 0 ≤ r ∧ (∀ n, n ∈ X → n ≤ r) ∧ (r = 0 ∨ r ∈ X))).
  - set_solver by lia.
  - intros x X r Hx (H1 & H2 & H3). split; [lia|]. split.
    + intros n [->%elem_of_singleton|Hn]%elem_of_union; [lia|]. specialize (H2 n Hn). lia.
    + destruct (Z.max_spec x r) as [[? ->]|[? ->]]; set_solver.
Qed.

Lemma max_nonce_unique (ns : gset Z) m :
  0 < m → m ∈ ns → (∀ n, n ∈ ns → n ≤ m) → max_nonce ns = m.
Proof.
  intros Hm Hin Hle. destruct (max_nonce_spec ns) as (H1 & H2 & H3).
  specialize (H2 m Hin). destruct H3 as [|H3]; [lia|]. specialize (Hle _ H3). lia.
Qed.

(** The loop over the senders, whatever its order. *)
Lemma rebuildNextNonce_lookup used next from :
  rebuildNextNonce used next !! from =
  match used !! from with
  | Some ns => if 0 <? max_nonce ns then Some (max_nonce ns +! 1) else next !! from
  | None => next !! from
  end.
Proof.
  unfold rebuildNextNonce.
  apply (map_fold_weak_ind (λ r used, r !! from = match used !! from with
    | Some ns => if 0 <? max_nonce ns then Some (max_nonce ns +! 1) else next !! from
    | None => next !! from end)).
  - by rewrite lookup_empty.
  - intros k ns m r Hk IH. destruct (decide (k = from)) as [->|Hne].
    + rewrite lookup_insert_eq. rewrite Hk in IH. destruct (0 <? max_nonce ns); [|done].
      apply lookup_insert_eq.
    + rewrite lookup_insert_ne by done. rewrite <- IH. destruct (0 <? max_nonce ns); [|done].
      by apply lookup_insert_ne.
Qed.

(** ** Consistent nonces *)

(** The next nonce of a sender is one more than the largest used one, once it
    used one; a sender that used none has a next nonce of at most one. *)
Definition nonces_consistent (bc : Blockchain) : Prop :=
  ∀ from, let m := max_nonce (used_nonces bc from) in
    m + 1 < max_u64 ∧ next_nonce bc from ≤ m + 1 ∧
    (0 < m → bc_NextNonce bc !! from = Some (m + 1)).

Lemma rebuild_consistent bc :
  nonces_consistent bc → rebuildNextNonce (bc_UsedNonces bc) (bc_NextNonce bc) = bc_NextNonce bc.
Proof.
  intros Hc. apply map_eq. intros from. rewrite rebuildNextNonce_lookup.
  destruct (Hc from) as (H1 & _ & H2). unfold used_nonces in *.
  destruct (bc_UsedNonces bc !! from) as [ns|] eqn:E; [|done]. simpl in *.
  destruct (0 <? max_nonce ns) eqn:Em; prop_bools; [|done].
  rewrite H2 by done. f_equal. apply u64_small. u64_lia.
Qed.

Lemma max_nonce_add n (ns : gset Z) :
  0 < n → max_nonce ({[n]} ∪ ns) = Z.max n (max_nonce ns).
Proof.
  intros Hn. destruct (max_nonce_spec ns) as (M1 & M2 & M3).
  apply max_nonce_unique; [lia| |].
  - destruct (Z.max_spec n (max_nonce ns)) as [[? ->]|[? ->]]; [|set_solver].
    destruct M3; [lia|set_solver].
  - intros x [->%elem_of_singleton|Hx]%elem_of_union; [lia|]. specialize (M2 x Hx). lia.
Qed.

(** What [markTransactionUsed] does to one sender. *)
Lemma mark_fields bc tx from :
  0 < tx_Nonce tx →
  used_nonces (markTransactionUsed bc tx) from =
    (if bool_decide (from = tx_From tx) then {[tx_Nonce tx]} ∪ used_nonces bc from
     else used_nonces bc from) ∧
  bc_NextNonce (markTransactionUsed bc tx) !! from =
    (if bool_decide (from = tx_From tx ∧ next_nonce bc from ≤ tx_Nonce tx)
     then Some (tx_Nonce tx +! 1) else bc_NextNonce bc !! from).
Proof.
  intros Hn. apply Z.ltb_lt in Hn. unfold markTransactionUsed. rewrite Hn. cbv zeta.
  change (next_nonce (bc <| bc_UsedNonces ::= _ |>) (tx_From tx)) with (next_nonce bc (tx_From tx)).
  destruct (decide (from = tx_From tx)) as [->|Hne].
  - rewrite (bool_decide_true (tx_From tx = tx_From tx)) by done.
    destruct (next_nonce bc (tx_From tx) <=? tx_Nonce tx) eqn:El; prop_bools;
      unfold used_nonces at 1; cbn [bc_UsedNonces bc_NextNonce update]; rewrite lookup_insert_eq;
      (split; [done|]).
    + rewrite lookup_insert_eq, bool_decide_true by done. done.
    + rewrite bool_decide_false by (intros [_ ?]; lia). done.
  - rewrite !(bool_decide_false _) by naive_solver.
    destruct (next_nonce bc (tx_From tx) <=? tx_Nonce tx);
      unfold used_nonces at 1; cbn [bc_UsedNonces bc_NextNonce update];
      rewrite !lookup_insert_ne by done; done.
Qed.

Lemma mark_consistent bc tx :
  nonces_consistent bc → tx_Nonce tx + 1 < max_u64 →
  nonces_consistent (markTransactionUsed bc tx).
Proof.
  intros Hc Hn. destruct (Z.lt_ge_cases 0 (tx_Nonce tx)) as [Hpos|Hle]; cycle 1.
  { unfold markTransactionUsed. apply Z.ltb_ge in Hle. by rewrite Hle. }
  intros from. destruct (mark_fields bc tx from Hpos) as [E1 E2].
  destruct (Hc from) as (H1 & H2 & H3). destruct (max_nonce_spec (used_nonces bc from)) as (M & _).
  cbv zeta. unfold next_nonce at 1. rewrite E1.
  destruct (decide (from = tx_From tx)) as [->|Hne].
  - rewrite (bool_decide_true (tx_From tx = tx_From tx)), max_nonce_add by done.
    destruct (Z.le_gt_cases (next_nonce bc (tx_From tx)) (tx_Nonce tx)) as [Hd|Hd].
    + rewrite bool_decide_true in E2 by done. rewrite E2, u64_small by u64_lia.
      assert (max_nonce (used_nonces bc (tx_From tx)) ≤ tx_Nonce tx).
      { destruct (Z.eq_dec (max_nonce (used_nonces bc (tx_From tx))) 0); [lia|].
        unfold next_nonce in Hd. rewrite H3 in Hd by lia. simpl in Hd. lia. }
      rewrite Z.max_l by lia. done.
    + rewrite bool_decide_false in E2 by (intros [_ ?]; lia). rewrite E2.
      fold (next_nonce bc (tx_From tx)).
      rewrite Z.max_r by lia. split; [done|]. split; [done|]. intros _. apply H3. lia.
  - rewrite !(bool_decide_false _) in E2 by naive_solver. rewrite E2.
    rewrite bool_decide_false by done. by apply Hc.
Qed.

Section persistence.
Context `{Runtime}.

Lemma nonces_consistent_same bc bc' :
  bc_UsedNonces bc' = bc_UsedNonces bc → bc_NextNonce bc' = bc_NextNonce bc →
  nonces_consistent bc → nonces_consistent bc'.
Proof. intros E1 E2 Hc from. unfold used_nonces, next_nonce. rewrite E1, E2. apply Hc. Qed.

Lemma mark_seen_used bc tx :
  bc_UsedNonces (markTransactionUsed (markTransactionSeen bc tx) tx)
    = bc_UsedNonces (markTransactionUsed bc tx) ∧
  bc_NextNonce (markTransactionUsed (markTransactionSeen bc tx) tx)
    = bc_NextNonce (markTransactionUsed bc tx).
Proof.
  unfold markTransactionSeen. case_bool_decide; [done|]. unfold markTransactionUsed.
  destruct (0 <? tx_Nonce tx); [|done]. cbv zeta.
  change (next_nonce ((bc <| bc_SeenTxIDs ::= _ |>) <| bc_UsedNonces ::= _ |>) (tx_From tx))
    with (next_nonce bc (tx_From tx)).
  change (next_nonce (bc <| bc_UsedNonces ::= _ |>) (tx_From tx)) with (next_nonce bc (tx_From tx)).
  by destruct (next_nonce bc (tx_From tx) <=? tx_Nonce tx).
Qed.

Lemma apply_tx_nonces bc tx :
  bc_UsedNonces (apply_tx bc tx) = bc_UsedNonces (markTransactionUsed bc tx) ∧
  bc_NextNonce (apply_tx bc tx) = bc_NextNonce (markTransactionUsed bc tx).
Proof.
  destruct (mark_seen_used bc tx) as [<- <-]. unfold apply_tx. cbv zeta.
  generalize (markTransactionUsed (markTransactionSeen bc tx) tx). intros s.
  by repeat case_match.
Qed.

Lemma applyBlock_consistent bc block :
  nonces_consistent bc → Forall (λ tx, tx_Nonce tx + 1 < max_u64) (blk_Transactions block) →
  nonces_consistent (applyBlock bc block).
Proof.
  intros Hc Hn. rewrite Forall_forall in Hn. unfold applyBlock, ProcessReversals.
  apply (foldl_inv nonces_consistent).
  - intros s tx _. destruct (process_reversal_frame s tx) as (_ & E1 & E2).
    by apply nonces_consistent_same.
  - apply (foldl_inv nonces_consistent); [|done]. intros s tx Hin Hs.
    destruct (apply_tx_nonces s tx) as [E1 E2].
    eapply nonces_consistent_same; [done|done|]. apply mark_consistent; auto.
Qed.

(** C10. However many blocks a node applies, starting from a consistent
    one (a new node is), the next nonce of every sender that has used one is one
    more than its largest used nonce, as long as no block uses the last [uint64]
    number, 2^64-1. *)
Theorem nonces_stay_consistent bc blocks :
  nonces_consistent bc →
  Forall (λ b, Forall (λ tx, tx_Nonce tx + 1 < max_u64) (blk_Transactions b)) blocks →
  nonces_consistent (foldl applyBlock bc blocks).
Proof.
  intros Hc Hb. rewrite Forall_forall in Hb. apply (foldl_inv nonces_consistent); [|done].
  intros s b Hin Hs. apply applyBlock_consistent; auto.
Qed.

(** What the consensus of a loaded node is. *)
Definition reloaded_consensus (c : ConsensusType) : ConsensusType :=
  if bool_decide (c = ProofOfAuthority) then ProofOfAuthority else ProofOfStake.

Lemma load_spec bc0 bc g :
  bc_disk bc0 = Some (to_nodeState bc) → head (bc_Chain bc) = Some g → nonces_consistent bc →
  ∃ bc', LoadFromDisk bc0 = (Ok tt, bc') ∧ to_nodeState bc' = to_nodeState bc ∧
    bc_GenesisHash bc' = blk_BlockHash g ∧
    bc_Consensus bc' = reloaded_consensus (bc_Consensus bc) ∧
    bc_Validators bc' = bc_Validators bc0 ∧ bc_Wallets bc' = bc_Wallets bc0 ∧
    bc_MinerStats bc' = bc_MinerStats bc0 ∧ bc_FinalityVotes bc' = bc_FinalityVotes bc0 ∧
    bc_Difficulty bc' = bc_Difficulty bc0.
Proof.
  intros Hd Hg Hc. pose proof (rebuild_consistent bc Hc) as Er. clear Hc.
  destruct bc0, bc. cbn in Hd, Hg, Er. subst.
  match type of Hg with head ?l = _ => destruct l; [done|injection Hg as ->] end.
  cbv -[rebuildNextNonce bool_decide blk_BlockHash reloaded_consensus ConsensusName] in *.
  eexists. split; [reflexivity|]. rewrite Er.
  repeat match goal with c : ConsensusType |- _ => destruct c end; repeat split.
Qed.

(** The node that starts from the file a node has written. *)
Definition restart (consensus : ConsensusType) (dataDir chainID : string) (bc : Blockchain)
    : Blockchain :=
  NewBlockchain consensus dataDir chainID (bc_disk bc).

(** The strings of the state: identifiers, addresses, hashes, texts and map keys. *)
Definition utf8_state (bc : Blockchain) : Prop :=
  Forall (λ s, ValidString s = true) (json_strings (to_nodeState bc)).

(** C9. A node with a chain, consistent nonces and no string that is not UTF-8, that has
    saved its state, comes back, in a new process, with every saved field as it was: the
    chain, the pool, the ledger, the supply, the registry, escrows, proposals,
    agreements, used and next nonces, the finality marks and the reversals; so
    it takes the same transactions for replays.  Validators, managed wallets,
    mining statistics, collected votes and the difficulty start afresh, and
    any consensus but proof of authority comes back as proof of stake. *)
Theorem restart_restores consensus dataDir chainID bc g bc1 :
  head (bc_Chain bc) = Some g → nonces_consistent bc → utf8_state bc →
  SaveToDisk bc = (Ok tt, bc1) →
  let bc' := restart consensus dataDir chainID bc1 in
  to_nodeState bc' = to_nodeState bc ∧ bc_GenesisHash bc' = blk_BlockHash g ∧
  (∀ tx, isReplay bc' tx = isReplay bc tx) ∧
  bc_Consensus bc' = reloaded_consensus (bc_Consensus bc) ∧
  bc_Validators bc' = ∅ ∧ bc_Wallets bc' = ∅ ∧ bc_MinerStats bc' = ∅ ∧
  bc_FinalityVotes bc' = ∅ ∧ bc_Difficulty bc' = 16.
Proof.
  intros Hg Hc Hu Hsave. cbv zeta. unfold restart, NewBlockchain.
  assert (bc_disk bc1 = Some (to_nodeState bc)) as Hd.
  { unfold SaveToDisk in Hsave. rewrite json_value_valid in Hsave by exact Hu.
    repeat case_match; simplify_eq. reflexivity. }
  rewrite Hd. set (bc0 := createGenesisBlock _).
  destruct (load_spec bc0 bc g) as (bc' & -> & E1 & E2 & E3 & E4 & E5 & E6 & E7 & E8); [done..|].
  split; [done|]. split; [done|]. split; [|done].
  intros tx. unfold isReplay, used_nonces, next_nonce.
  assert (bc_UsedNonces bc' = bc_UsedNonces bc) as -> by exact (f_equal ns_UsedNonces E1).
  assert (bc_NextNonce bc' = bc_NextNonce bc) as -> by exact (f_equal ns_NextNonce E1).
  done.
Qed.
End persistence.

(** ** Witnesses *)

Lemma no_nonces_consistent bc :
  bc_UsedNonces bc = ∅ → bc_NextNonce bc = ∅ → nonces_consistent bc.
Proof.
  intros E1 E2 from. unfold used_nonces, next_nonce. rewrite E1, E2, !lookup_empty. cbn [default].
  change (max_nonce ∅) with 0. unfold max_u64. lia.
Qed.

(** Block 1 carries Alice's transfer with nonce 1; the next one she may use is 2. *)
Lemma nonces_stay_consistent_witness :
  nonces_consistent (foldl (@applyBlock demo_runtime) demo_node [demo_block1]).
Proof.
  apply (@nonces_stay_consistent demo_runtime).
  - by apply no_nonces_consistent.
  - by repeat constructor.
Defined.

Lemma demo_node_utf8 : utf8_state demo_node.
Proof.
  assert (forallb ValidString (json_strings (to_nodeState demo_node)) = true) as Hb by (vm_compute; reflexivity).
  rewrite forallb_forall in Hb. apply Forall_forall. intros s Hs. by apply Hb, list_elem_of_In.
Qed.

(** The demo node, saved and started again. *)
Lemma restart_restores_witness :
  let saved := (@SaveToDisk demo_runtime demo_node).2 in
  let bc' := @restart demo_runtime ProofOfWork "data" "tender" saved in
  bc_Ledger bc' = bc_Ledger demo_node ∧ bc_Difficulty bc' = 16.
Proof.
  intros saved bc'.
  destruct (@restart_restores demo_runtime ProofOfWork "data" "tender" demo_node
              demo_genesis_block saved eq_refl (no_nonces_consistent demo_node eq_refl eq_refl)
              demo_node_utf8 eq_refl) as (E & _ & _ & _ & _ & _ & _ & _ & D).
  exact (conj (f_equal ns_Ledger E) D).
Defined.
