(* ===== verification/Tokenomics.v ===== *)
(** * Tokenomics (go-chain/blockchain/tokenomics.go)

    The economic parameters of a network and the quantities derived from them:
    supply limits, the inflation schedule, the split of a block reward, staking
    rewards paid into the ledger, burn rates and demand metrics.  All fractions
    are [float64], computed with the rounding of [Float64].

    Loading the parameters from a JSON file and writing them back are left to
    [encoding/json]; the epoch date ([time.AddDate]) is not modelled. *)

From S2P Require Import Prelude Runtime Float64 Text Sha256 Domain Tendermint State.
Open Scope Z_scope.
Open Scope go_scope.

Record TokenomicsConfig := mkTokenomicsConfig {
  tc_Network : string; tc_NativeToken : string;
  tc_MaxSupply : Z; tc_InitialCirculating : Z; tc_GenesisMintCap : Z;
  tc_StakingRewardAPY : float64; tc_BaseGasFee : Z; tc_BurnRate : float64;
  tc_InflationStartYear : Z; tc_InflationDecayPerYear : float64;
  tc_ValidatorRewardShare : float64; tc_CommunityRewardShare : float64;
  tc_TreasuryRewardShare : float64; tc_MinInflationRate : float64;
  tc_ValidatorPerformanceDecay : float64; tc_BlockRewardBase : Z;
  tc_AgentActivityBaseDemand : Z; tc_AgentDemandGrowthRate : float64;
  tc_DeflationaryThreshold : Z;
}.

Record TokenSupplyProjection := mkTokenSupplyProjection {
  tsp_Year : Z; tsp_ProjectedSupply : Z; tsp_InflationRate : float64; tsp_MaxSupply : Z;
}.

Record BlockRewardDistribution := mkBlockRewardDistribution {
  brd_TotalReward : Z; brd_ValidatorShare : Z; brd_CommunityShare : Z; brd_TreasuryShare : Z;
  brd_ValidatorPercentage : float64; brd_CommunityPercentage : float64;
  brd_TreasuryPercentage : float64;
}.

Definition f64_0 : float64 := f64_of_Z 0.
Definition f64_1 : float64 := f64_of_Z 1.

(** The error about the shares also prints their sum; only its fixed part is
    kept. *)
Definition Validate (cfg : TokenomicsConfig) : outcome unit :=
  if (tc_MaxSupply cfg =? 0) || (tc_InitialCirculating cfg =? 0) then
    Err "supply values must be positive" else
  if tc_MaxSupply cfg <? tc_InitialCirculating cfg then
    Err "initial circulating exceeds max supply" else
  if tc_MaxSupply cfg <? tc_GenesisMintCap cfg then
    Err "genesis mint cap exceeds max supply" else
  if tc_GenesisMintCap cfg <? tc_InitialCirculating cfg then
    Err "initial circulating cannot exceed genesis mint cap" else
  let sum := f64_add (f64_add (tc_ValidatorRewardShare cfg) (tc_CommunityRewardShare cfg))
               (tc_TreasuryRewardShare cfg) in
  if f64_lt (f64_lit 1 1000000000) (f64_abs (f64_sub sum f64_1)) then
    Err "reward shares must sum to 1.0" else
  if f64_lt (tc_StakingRewardAPY cfg) f64_0 || f64_lt f64_1 (tc_StakingRewardAPY cfg) then
    Err "staking reward APY must be between 0 and 1" else
  if f64_lt (tc_BurnRate cfg) f64_0 || f64_lt f64_1 (tc_BurnRate cfg) then
    Err "burn rate must be between 0 and 1" else
  if f64_lt (tc_MinInflationRate cfg) f64_0 then
    Err "min inflation rate cannot be negative" else
  if f64_lt (tc_InflationDecayPerYear cfg) f64_0 ||
     f64_lt f64_1 (tc_InflationDecayPerYear cfg) then
    Err "inflation decay per year must be between 0 and 1" else
  if f64_lt (tc_AgentDemandGrowthRate cfg) f64_0 then
    Err "agent demand growth rate cannot be negative" else
  Ok tt.

Definition GenesisMintCapReached (cfg : TokenomicsConfig) (currentSupply : Z) : bool :=
  tc_GenesisMintCap cfg <=? currentSupply.

Definition CanMint (cfg : TokenomicsConfig) (amount currentSupply : Z) : bool :=
  if GenesisMintCapReached cfg currentSupply then false
  else currentSupply +! amount <=? tc_GenesisMintCap cfg.

(** [1.0 - float64(year-start)*decayPerYear] *)
Definition inflation_decay (cfg : TokenomicsConfig) (year : Z) : float64 :=
  f64_sub f64_1 (f64_mul (f64_of_Z (i64 (year - tc_InflationStartYear cfg)))
                   (tc_InflationDecayPerYear cfg)).

Definition AnnualInflationRate (cfg : TokenomicsConfig) (year : Z) : float64 :=
  if year <? tc_InflationStartYear cfg then f64_0 else
  let decay := inflation_decay cfg year in
  if f64_lt decay f64_0 then f64_0 else f64_max decay (tc_MinInflationRate cfg).

(** [for y := 0; y <= years; y++]: the years visited. *)
Definition years_upto (years : Z) : list Z := seqZ 0 (years + 1).

Definition CalculateInflationDecaySchedule (cfg : TokenomicsConfig) (years : Z) : gmap Z float64 :=
  foldl (λ schedule y,
    <[y := AnnualInflationRate cfg (i64 (tc_InflationStartYear cfg + y))]> schedule)
    ∅ (years_upto years).

Section tokenomics.
Context `{Runtime}.

Definition CalculateTokenSupplyAtYear (cfg : TokenomicsConfig) (year : Z) : Z :=
  if year <? tc_InflationStartYear cfg then tc_GenesisMintCap cfg else
  let decay := inflation_decay cfg year in
  let decay := if f64_lt decay f64_0 then f64_0 else decay in
  let inflationFactor := f64_max decay (tc_MinInflationRate cfg) in
  u64_of_f64 (f64_mul (f64_of_Z (tc_GenesisMintCap cfg)) (f64_add f64_1 inflationFactor)).

(** [make([]TokenSupplyProjection, 0, years+1)] panics for a negative capacity
    and beyond the 2^48 bytes of an address space. *)
Definition CalculateDisinflationProjection (cfg : TokenomicsConfig) (years : Z)
    : outcome (list TokenSupplyProjection) :=
  let capacity := i64 (years + 1) in
  if (capacity <? 0) || (2 ^ 43 <? capacity) then Panic "makeslice: cap out of range" else
  Ok $ map (λ y,
    let year := i64 (tc_InflationStartYear cfg + y) in
    mkTokenSupplyProjection year (CalculateTokenSupplyAtYear cfg year)
      (AnnualInflationRate cfg year) (tc_MaxSupply cfg)) (years_upto years).

Definition ValidatorBlockReward (cfg : TokenomicsConfig) (blockHeight validatorCount : Z)
    (validatorPerformance : float64) : Z :=
  let year := blockHeight `div` 100000 in
  let inflationFactor := AnnualInflationRate cfg year in
  let reward := f64_mul (f64_of_Z (tc_BlockRewardBase cfg)) inflationFactor in
  let reward := if f64_lt validatorPerformance (f64_lit 1 2)
                then f64_mul reward (tc_ValidatorPerformanceDecay cfg) else reward in
  let reward := f64_div reward (f64_of_Z validatorCount) in
  u64_of_f64 (f64_floor reward).

Definition DistributeBlockReward (cfg : TokenomicsConfig) (totalReward : Z)
    : BlockRewardDistribution :=
  let validatorShare :=
    u64_of_f64 (f64_mul (f64_of_Z totalReward) (tc_ValidatorRewardShare cfg)) in
  let communityShare :=
    u64_of_f64 (f64_mul (f64_of_Z totalReward) (tc_CommunityRewardShare cfg)) in
  let treasuryShare := totalReward -! validatorShare -! communityShare in
  mkBlockRewardDistribution totalReward validatorShare communityShare treasuryShare
    (tc_ValidatorRewardShare cfg) (tc_CommunityRewardShare cfg) (tc_TreasuryRewardShare cfg).

(** [percent] and [reward] of one validator. *)
Definition staking_reward (rewardPool totalStaked : Z) (v : Validator) : Z :=
  let percent := f64_div (f64_of_Z (val_Stake v)) (f64_of_Z totalStaked) in
  u64_of_f64 (f64_mul (f64_of_Z rewardPool) percent).

Definition staking_pool (cfg : TokenomicsConfig) (blockHeight : Z) : Z :=
  u64_of_f64
    (f64_mul (f64_mul (f64_of_Z (tc_BlockRewardBase cfg)) (tc_ValidatorRewardShare cfg))
       (AnnualInflationRate cfg (blockHeight `div` 100000))).

(** One round of the paying loop.  The [!v.Active] test of the source never
    fires on the selected validators. *)
Definition pay_staker (rewardPool totalStaked : Z) (bc : Blockchain) (v : Validator) : Blockchain :=
  if negb (val_Active v) then bc else
  let reward := staking_reward rewardPool totalStaked v in
  match bc_Ledger bc !! val_Address v with
  | Some _ =>
      (on_account (credit reward) (val_Address v) bc) <| bc_TokenSupply ::= λ s, s +! reward |>
  | None => bc
  end.

Definition ApplyStakingRewards (cfg : TokenomicsConfig) (bc : Blockchain) (blockHeight : Z)
    : Blockchain :=
  let validators :=
    filter (λ v, val_Active v = true) (range_map (bc_ticks bc) (bc_Validators bc)).*2 in
  let bc := tick bc in
  let totalStaked := foldl (λ t v, t +! val_Stake v) 0 validators in
  if totalStaked =? 0 then bc else
  let rewardPool := staking_pool cfg blockHeight in
  foldl (pay_staker rewardPool totalStaked) bc validators.

Definition ApplyTransactionFeeBurn (cfg : TokenomicsConfig) (amount : Z) : Z :=
  u64_of_f64 (f64_mul (f64_of_Z amount) (tc_BurnRate cfg)).

Definition FormatTokenomics (amount : Z) : string := FormatAmount amount.

Definition CalculateEffectiveBurnRate (cfg : TokenomicsConfig) (currentSupply : Z) : float64 :=
  if tc_MaxSupply cfg `div` 2 <? currentSupply then f64_mul (tc_BurnRate cfg) (f64_lit 3 2)
  else tc_BurnRate cfg.

Definition CalculateTreasuryAllocation (cfg : TokenomicsConfig) (revenue year : Z) : Z :=
  let inflationFactor := AnnualInflationRate cfg year in
  let baseAllocation := u64_of_f64 (f64_mul (f64_of_Z revenue) (tc_TreasuryRewardShare cfg)) in
  let inflationBoost :=
    u64_of_f64 (f64_mul (f64_mul (f64_of_Z baseAllocation) inflationFactor) (f64_lit 1 2)) in
  baseAllocation +! inflationBoost.

(** The stake amount is not used by the source. *)
Definition CalculateAPYForStake (cfg : TokenomicsConfig) (amount years : Z) : float64 :=
  let rate := foldl (λ rate y,
      f64_add rate
        (f64_mul (f64_mul (tc_StakingRewardAPY cfg)
                    (AnnualInflationRate cfg (i64 (tc_InflationStartYear cfg + y))))
           (f64_lit 1 10)))
    (tc_StakingRewardAPY cfg) (seqZ 0 years) in
  f64_min rate (f64_mul (tc_StakingRewardAPY cfg) (f64_of_Z 3)).

Definition AgentDemandPressure (cfg : TokenomicsConfig) (agentTransactionCount : Z) : Z :=
  let base := tc_AgentActivityBaseDemand cfg in
  let growth := u64_of_f64
    (f64_mul (f64_mul (f64_of_Z base) (tc_AgentDemandGrowthRate cfg))
       (f64_of_Z agentTransactionCount)) in
  base +! growth.

Definition DeflationaryPressure (cfg : TokenomicsConfig) (currentSupply : Z) : float64 :=
  let burnRate := CalculateEffectiveBurnRate cfg currentSupply in
  if tc_DeflationaryThreshold cfg <? currentSupply then f64_mul burnRate (f64_lit 3 2)
  else burnRate.

Definition HumanValueScore (cfg : TokenomicsConfig) (currentSupply agentTransactionCount : Z)
    : float64 :=
  let demand := f64_of_Z (AgentDemandPressure cfg agentTransactionCount) in
  let deflation := DeflationaryPressure cfg currentSupply in
  if f64_eqb deflation f64_0 then demand else f64_div demand deflation.

Definition DemandBurnRatio (cfg : TokenomicsConfig) (agentTransactionCount currentSupply : Z)
    : float64 :=
  let demand := f64_of_Z (AgentDemandPressure cfg agentTransactionCount) in
  let burn := f64_of_Z (u64_of_f64 (f64_mul (DeflationaryPressure cfg currentSupply)
                                      (f64_of_Z 1000000))) in
  if f64_eqb burn f64_0 then f64_0 else f64_div demand burn.
End tokenomics.

(** ** Minting *)

Implicit Types (cfg : TokenomicsConfig) (bc : Blockchain) (v : Validator).

Lemma Validate_supply cfg :
  Validate cfg = Ok tt →
  tc_InitialCirculating cfg ≤ tc_GenesisMintCap cfg ≤ tc_MaxSupply cfg ∧
  f64_lt (tc_MinInflationRate cfg) f64_0 = false.
Proof.
  unfold Validate. cbv zeta. intros Hv.
  repeat match type of Hv with (if ?b then _ else _) = _ => destruct b eqn:?; [done|] end.
  prop_bools. done.
Qed.

(** Mint requests one after the other, each carried out when [CanMint] allows
    it. *)
Definition mint_all cfg (supply : Z) (amounts : list Z) : Z :=
  foldl (λ s a, if CanMint cfg a s then s +! a else s) supply amounts.

Lemma CanMint_cap cfg a s : CanMint cfg a s = true → s +! a ≤ tc_GenesisMintCap cfg.
Proof. unfold CanMint. destruct (GenesisMintCapReached _ _); [done|]. intros. by prop_bools. Qed.

(** With valid parameters no sequence of mint requests takes the supply, from
    the initial one, above the genesis cap or the maximal supply, and a request
    that is granted adds exactly its amount as long as the sum is a [uint64]. *)
Theorem minting_stays_capped cfg amounts a :
  Validate cfg = Ok tt → is_u64 (tc_MaxSupply cfg) →
  let s := mint_all cfg (tc_InitialCirculating cfg) amounts in
  s ≤ tc_GenesisMintCap cfg ∧ s ≤ tc_MaxSupply cfg ∧
  (CanMint cfg a s = true → 0 ≤ s + a < max_u64 →
   mint_all cfg (tc_InitialCirculating cfg) (amounts ++ [a]) = s + a ∧
   s + a ≤ tc_GenesisMintCap cfg).
Proof.
  intros Hv Hu s. destruct (Validate_supply cfg Hv) as [[H1 H2] _].
  assert (s ≤ tc_GenesisMintCap cfg).
  { unfold s, mint_all. apply (foldl_inv (λ s, s ≤ tc_GenesisMintCap cfg)); [|done].
    intros s' a' _ Hs. destruct (CanMint cfg a' s') eqn:E; [|done]. by apply CanMint_cap. }
  split; [done|]. split; [lia|]. intros Hc Hlt. unfold mint_all. rewrite foldl_app.
  fold (mint_all cfg (tc_InitialCirculating cfg) amounts). change (foldl _ _ [a]) with
    (if CanMint cfg a s then s +! a else s). rewrite Hc.
  apply CanMint_cap in Hc. rewrite u64_small in * by done. done.
Qed.

(** The sum is taken in [uint64]: an amount that wraps it around to nothing is
    always granted below the cap. *)
Lemma CanMint_wraps cfg s :
  0 ≤ s < tc_GenesisMintCap cfg → CanMint cfg (max_u64 - s) s = true.
Proof.
  intros Hs. unfold CanMint, GenesisMintCapReached.
  rewrite (proj2 (Z.leb_gt _ _)) by lia. apply Z.leb_le.
  replace (s + (max_u64 - s)) with max_u64 by lia. change (u64 max_u64) with 0. lia.
Qed.

(** ** Inflation *)

Lemma f64_max_nonneg x y :
  f64_lt x f64_0 = false → f64_lt y f64_0 = false → f64_lt (f64_max x y) f64_0 = false.
Proof.
  destruct x as [[]|[]| |[] m e], y as [[]|[]| |[] m' e']; try done;
    intros; unfold f64_max; case_match; done.
Qed.

(** No year has a negative inflation rate. *)
Theorem inflation_rate_nonneg cfg year :
  Validate cfg = Ok tt → f64_lt (AnnualInflationRate cfg year) f64_0 = false.
Proof.
  intros [_ Hm]%Validate_supply. unfold AnnualInflationRate. cbv zeta.
  destruct (year <? _); [done|]. destruct (f64_lt (inflation_decay _ _) _) eqn:E; [done|].
  by apply f64_max_nonneg.
Qed.

Lemma schedule_lookup cfg years y :
  CalculateInflationDecaySchedule cfg years !! y =
  if bool_decide (0 ≤ y ≤ years)
  then Some (AnnualInflationRate cfg (i64 (tc_InflationStartYear cfg + y))) else None.
Proof.
  unfold CalculateInflationDecaySchedule, years_upto.
  assert (∀ l (m : gmap Z float64),
    foldl (λ s y, <[y := AnnualInflationRate cfg (i64 (tc_InflationStartYear cfg + y))]> s) m l !! y =
    if bool_decide (y ∈ l) then Some (AnnualInflationRate cfg (i64 (tc_InflationStartYear cfg + y)))
    else m !! y) as Hl.
  { induction l as [|z l IH] using rev_ind; intros m.
    - by rewrite bool_decide_false by set_solver.
    - rewrite foldl_app. cbn [foldl]. destruct (decide (z = y)) as [->|Hne].
      + rewrite lookup_insert_eq, bool_decide_true by set_solver. done.
      + rewrite lookup_insert_ne, IH by done. rewrite (bool_decide_ext (y ∈ l ++ [z]) (y ∈ l)) by set_solver.
        done. }
  rewrite Hl, lookup_empty.
  rewrite (bool_decide_ext (y ∈ seqZ 0 (years + 1)) (0 ≤ y ≤ years)); [done|].
  rewrite elem_of_seqZ. lia.
Qed.

Section facts.
Context `{Runtime}.

(** ** The split of a block reward *)

(** The three shares of a reward add up to it modulo 2^64, and exactly as soon
    as the validators' and the community's rounded shares together do not
    exceed it. *)
Theorem reward_split cfg total :
  is_u64 total →
  let d := DistributeBlockReward cfg total in
  u64 (brd_ValidatorShare d + brd_CommunityShare d + brd_TreasuryShare d) = total ∧
  (brd_ValidatorShare d + brd_CommunityShare d ≤ total →
   brd_ValidatorShare d + brd_CommunityShare d + brd_TreasuryShare d = total).
Proof.
  intros Ht d. subst d. unfold DistributeBlockReward. cbn.
  pose proof (u64_of_f64_range (f64_mul (f64_of_Z total) (tc_ValidatorRewardShare cfg))) as HV.
  pose proof (u64_of_f64_range (f64_mul (f64_of_Z total) (tc_CommunityRewardShare cfg))) as HC.
  set (V := u64_of_f64 (f64_mul _ (tc_ValidatorRewardShare cfg))) in *.
  set (C := u64_of_f64 (f64_mul _ (tc_CommunityRewardShare cfg))) in *. clearbody V C.
  rewrite u64_sub_l. split.
  - rewrite (Z.add_comm (V + C)), u64_add_l. replace (_ + _) with total by lia. by apply u64_small.
  - intros Hle. rewrite u64_small; u64_lia.
Qed.

(** ** Staking rewards *)

(** What the validators of [l] are paid in total, and into the account [k]. *)
Definition stakers_paid (ledger : gmap string Account) (reward : Validator → Z)
    (l : list Validator) : Z :=
  sum_over (λ v, if bool_decide (is_Some (ledger !! val_Address v)) then reward v else 0) l.

Definition paid_into (reward : Validator → Z) (k : string) (l : list Validator) : Z :=
  sum_over (λ v, if bool_decide (val_Address v = k) then reward v else 0) l.

Definition u64_ledger (ledger : gmap string Account) : Prop :=
  ∀ k a, ledger !! k = Some a → is_u64 (acc_Balance a).

Definition credited (amount : Z) (a : Account) : Account := a <| acc_Balance ::= λ b, b +! amount |>.

Lemma credited_0 a : is_u64 (acc_Balance a) → credited 0 a = a.
Proof. intros Ha. destruct a. unfold credited. cbn in *. by rewrite Z.add_0_r, u64_small. Qed.

Lemma credited_credited x y a : credited y (credited x a) = credited (x + y) a.
Proof. destruct a. unfold credited. cbn. rewrite u64_add_l. do 2 f_equal. lia. Qed.

Lemma pay_staker_ledger pool total bc v k :
  val_Active v = true →
  bc_Ledger (pay_staker pool total bc v) !! k =
  if bool_decide (val_Address v = k)
  then credited (staking_reward pool total v) <$> bc_Ledger bc !! k else bc_Ledger bc !! k.
Proof.
  intros Ha. unfold pay_staker. rewrite Ha. cbn [negb]. cbv zeta.
  destruct (bc_Ledger bc !! val_Address v) as [a|] eqn:E.
  - cbn. case_bool_decide as Hk; [subst k|].
    + by rewrite lookup_alter_eq.
    + by rewrite lookup_alter_ne.
  - case_bool_decide as Hk; [subst k|done]. by rewrite E.
Qed.

Lemma pay_staker_supply pool total bc v :
  val_Active v = true → is_u64 (bc_TokenSupply bc) →
  bc_TokenSupply (pay_staker pool total bc v) =
  bc_TokenSupply bc +! (if bool_decide (is_Some (bc_Ledger bc !! val_Address v))
                        then staking_reward pool total v else 0).
Proof.
  intros Ha Hs. unfold pay_staker. rewrite Ha. cbn [negb]. cbv zeta.
  destruct (bc_Ledger bc !! val_Address v) as [a|] eqn:E.
  - by rewrite bool_decide_true.
  - rewrite bool_decide_false by (by intros [? [=]]). by rewrite Z.add_0_r, u64_small.
Qed.

Lemma stakers_paid_ext m1 m2 reward l :
  (∀ k, is_Some (m1 !! k) ↔ is_Some (m2 !! k)) →
  stakers_paid m1 reward l = stakers_paid m2 reward l.
Proof.
  intros Hm. unfold stakers_paid, sum_over. induction l as [|v l IH]; [done|]. cbn [foldr].
  by rewrite IH, (bool_decide_ext _ _ (Hm (val_Address v))).
Qed.

Lemma pay_loop pool total l bc :
  Forall (λ v, val_Active v = true) l → is_u64 (bc_TokenSupply bc) → u64_ledger (bc_Ledger bc) →
  let bc' := foldl (pay_staker pool total) bc l in
  (∀ k, bc_Ledger bc' !! k =
        credited (paid_into (staking_reward pool total) k l) <$> bc_Ledger bc !! k) ∧
  bc_TokenSupply bc' =
    bc_TokenSupply bc +! stakers_paid (bc_Ledger bc) (staking_reward pool total) l.
Proof.
  intros Hl. revert bc. induction Hl as [|v l Hv _ IH]; intros bc Hs Hu; cbv zeta.
  { split; [|by cbn; rewrite Z.add_0_r, u64_small]. intros k. cbn [foldl].
    destruct (bc_Ledger bc !! k) as [a|] eqn:E; [|done]. cbn. rewrite credited_0; eauto. }
  change (foldl (pay_staker pool total) bc (v :: l))
    with (foldl (pay_staker pool total) (pay_staker pool total bc v) l).
  destruct (IH (pay_staker pool total bc v)) as [IH1 IH2].
  { rewrite pay_staker_supply by done. apply u64_range. }
  { intros k a. rewrite pay_staker_ledger by done. case_bool_decide; [|apply Hu].
    destruct (bc_Ledger bc !! k); intros [= <-]. apply u64_range. }
  split.
  - intros k. rewrite IH1, pay_staker_ledger by done.
    change (paid_into (staking_reward pool total) k (v :: l)) with
      ((if bool_decide (val_Address v = k) then staking_reward pool total v else 0) +
       paid_into (staking_reward pool total) k l).
    case_bool_decide; [|done]. destruct (bc_Ledger bc !! k); [|done]. cbn [fmap option_fmap option_map].
    by rewrite credited_credited.
  - rewrite IH2, pay_staker_supply, u64_add_l by done.
    rewrite (stakers_paid_ext (bc_Ledger (pay_staker pool total bc v)) (bc_Ledger bc)).
    + unfold stakers_paid, sum_over. cbn [foldr]. f_equal. lia.
    + intros k. rewrite pay_staker_ledger by done. case_bool_decide; [|done].
      by rewrite fmap_is_Some.
Qed.

Lemma total_staked_sum l t :
  is_u64 t → foldl (λ t v, t +! val_Stake v) t l = t +! sum_over val_Stake l.
Proof.
  revert t. induction l as [|v l IH]; intros t Ht; unfold sum_over; cbn [foldl foldr].
  - by rewrite Z.add_0_r, u64_small.
  - rewrite IH by apply u64_range. rewrite u64_add_l. f_equal. unfold sum_over. lia.
Qed.

(** The active validators, whatever the order. *)
Definition active_validators (bc : Blockchain) : list Validator :=
  filter (λ v, val_Active v = true) (map_to_list (bc_Validators bc)).*2.

(** [ApplyStakingRewards] does not depend on the order of the traversal: with
    some active stake, every account is credited with the rewards of the
    active validators registered under its address, and the token supply grows
    by what all accounts together receive; with none, nothing changes. *)
Theorem staking_rewards_exact cfg bc height :
  is_u64 (bc_TokenSupply bc) → u64_ledger (bc_Ledger bc) →
  let bc' := ApplyStakingRewards cfg bc height in
  let total := u64 (sum_over val_Stake (active_validators bc)) in
  let reward := staking_reward (staking_pool cfg height) total in
  if total =? 0 then bc_Ledger bc' = bc_Ledger bc ∧ bc_TokenSupply bc' = bc_TokenSupply bc
  else
    (∀ k, bc_Ledger bc' !! k =
          credited (paid_into reward k (active_validators bc)) <$> bc_Ledger bc !! k) ∧
    bc_TokenSupply bc' =
      bc_TokenSupply bc +! stakers_paid (bc_Ledger bc) reward (active_validators bc).
Proof.
  intros Hs Hu bc' total reward. unfold bc', ApplyStakingRewards. cbv zeta.
  set (l := filter _ (range_map _ _).*2).
  assert (l ≡ₚ active_validators bc) as Hl.
  { unfold l, active_validators. by rewrite (range_map_Permutation _ (bc_Validators bc)). }
  assert (foldl (λ t v, t +! val_Stake v) 0 l = total) as ->.
  { rewrite total_staked_sum by done. unfold total. by rewrite Hl. }
  destruct (total =? 0); [done|].
  destruct (pay_loop (staking_pool cfg height) total l (tick bc)) as [E1 E2]; [|done..|].
  { apply Forall_forall. intros v Hv. by apply list_elem_of_filter in Hv as [? _]. }
  split.
  - intros k. rewrite E1. unfold paid_into. by rewrite Hl.
  - rewrite E2. unfold stakers_paid. by rewrite Hl.
Qed.
End facts.

(** ** Witnesses *)

(** The parameters of [genesis_tokenomics.json]. *)
Definition mainnet : TokenomicsConfig :=
  mkTokenomicsConfig "tdr-mainnet" "TDR" (2 ^ 64 - 1) 25000000000 50000000000
    (f64_lit 5 100) 5 (f64_lit 1 100) 2026 (f64_lit 15 100) (f64_lit 50 100) (f64_lit 35 100)
    (f64_lit 15 100) (f64_lit 5 1000) (f64_lit 8 10) 100 1000000 (f64_lit 5 100) 5000000000.

Lemma mainnet_valid : Validate mainnet = Ok tt.
Proof. by vm_compute. Qed.

Lemma minting_stays_capped_witness :
  mint_all mainnet 25000000000 [10000000000; 20000000000; 15000000000] = 50000000000.
Proof.
  exact (proj1 (proj2 (proj2 (minting_stays_capped mainnet [10000000000; 20000000000] 15000000000
    mainnet_valid ltac:(by vm_compute))) ltac:(by vm_compute) ltac:(by vm_compute))).
Defined.

Lemma inflation_rate_nonneg_witness : f64_lt (AnnualInflationRate mainnet 2030) f64_0 = false.
Proof. exact (inflation_rate_nonneg mainnet 2030 mainnet_valid). Defined.

(** From 2033 on the decay is used up: the inflation rate is 0, below the
    minimal rate of half a percent that the supply projection still applies. *)
Example inflation_floor_ignored :
  AnnualInflationRate mainnet 2033 = f64_0 ∧
  f64_lt (AnnualInflationRate mainnet 2033) (tc_MinInflationRate mainnet) = true ∧
  @CalculateTokenSupplyAtYear demo_runtime mainnet 2033 = 50249999999.
Proof. by vm_compute. Qed.

(** The projected supply shrinks from year to year. *)
Example supply_projection_shrinks :
  match @CalculateDisinflationProjection demo_runtime mainnet 3 with
  | Ok l => map tsp_ProjectedSupply l = [100000000000; 92500000000; 85000000000; 77500000000]
  | _ => False
  end.
Proof. by vm_compute. Qed.

Lemma reward_split_witness :
  let d := @DistributeBlockReward demo_runtime mainnet 101 in
  brd_ValidatorShare d = 50 ∧ brd_CommunityShare d = 35 ∧
  brd_ValidatorShare d + brd_CommunityShare d + brd_TreasuryShare d = 101.
Proof.
  intros d. split; [by vm_compute|]. split; [by vm_compute|].
  apply (proj2 (@reward_split demo_runtime mainnet 101 ltac:(by vm_compute))). by vm_compute.
Defined.

(** Valid shares of one half each and none for the treasury: a reward that is
    rounded up as a [float64] leaves the treasury with 2^64 - 1. *)
Example reward_split_wraps :
  let halves := mkTokenomicsConfig "n" "T" 10 1 5 f64_0 0 f64_0 0 f64_0 (f64_lit 1 2) (f64_lit 1 2)
                  f64_0 f64_0 f64_0 0 0 f64_0 0 in
  Validate halves = Ok tt ∧
  brd_TreasuryShare (@DistributeBlockReward demo_runtime halves (2 ^ 53 + 3)) = 2 ^ 64 - 1.
Proof. by vm_compute. Qed.

(** Two validators stake 3 to 1; the pool of year 2026 is 50. *)
Definition demo_stakers : Blockchain :=
  (empty_blockchain ProofOfStake "data" "tender" None)
    <| bc_Ledger := {["v1" := mkAccount "v1" 7 300 false; "v2" := mkAccount "v2" 0 100 false]} |>
    <| bc_Validators := {["v1" := mkValidator "" "v1" 300 true 0 100 0 0 0;
                          "v2" := mkValidator "" "v2" 100 true 0 100 0 0 0]} |>.

Lemma demo_stakers_u64 : u64_ledger (bc_Ledger demo_stakers).
Proof.
  intros k a E.
  change ((<["v1" := mkAccount "v1" 7 300 false]> {["v2" := mkAccount "v2" 0 100 false]}
           : gmap string Account) !! k = Some a) in E.
  by apply lookup_insert_Some in E as [[_ <-]|[_ [_ <-]%lookup_singleton_Some]].
Qed.

Lemma demo_total_staked : u64 (sum_over val_Stake (active_validators demo_stakers)) = 400.
Proof. by vm_compute. Qed.

Lemma staking_rewards_exact_witness :
  acc_Balance <$> bc_Ledger (@ApplyStakingRewards demo_runtime mainnet demo_stakers 202600000) !! "v1"
  = Some 44.
Proof.
  pose proof (@staking_rewards_exact demo_runtime mainnet demo_stakers 202600000
                ltac:(by vm_compute) demo_stakers_u64) as P.
  cbv zeta in P. rewrite demo_total_staked in P. cbn [Z.eqb] in P. destruct P as [E _].
  rewrite E. by vm_compute.
Defined.
