(* ===== verification/Keys.v ===== *)
(** * Keys and secrets (security.go, wallet_vault.go, validator_onboarding.go of
    go-chain/blockchain)

    The security module (integrity labels, hardening level, counters and the
    bounded audit log), the wallet vault and the onboarding of validators with
    generated keys.  The vault and the onboarding map addresses or public keys
    to records the program holds by pointer; a record is changed under its key.

    A key drawn from the system's randomness is the [k]-th key of the Ed25519
    interface, [k] being the counter of the chain (or the argument, for the
    vault). *)

From S2P Require Import Prelude Runtime Text Sha256 Domain Json Tendermint State Accounts Validation.
Open Scope Z_scope.
Open Scope go_scope.

(** ** The security module *)

Record SecurityModule := mkSecurityModule {
  sec_integrityHashes : gmap string string; sec_hardeningLevel : Z;
  sec_zeroized : Z; sec_tamperDetected : Z; sec_validationFailures : Z;
  sec_auditLog : list string; sec_sealedMode : bool }.

#[export] Instance SecurityModule_rebuild : Rebuild SecurityModule := λ r,
  mkSecurityModule (sec_integrityHashes r) (sec_hardeningLevel r) (sec_zeroized r)
    (sec_tamperDetected r) (sec_validationFailures r) (sec_auditLog r) (sec_sealedMode r).

(** [hex.EncodeToString(sha256.New().Sum(nil))]: the digest of no data. *)
Definition empty_digest : string := sha_hex [].

Definition baselineIntegrity (s : SecurityModule) : SecurityModule :=
  s <| sec_integrityHashes ::= <["blockchain_state" := empty_digest]> |>.

Definition NewSecurityModule : SecurityModule :=
  baselineIntegrity (mkSecurityModule ∅ 2 0 0 0 [] true).

(** The data is not looked at. *)
Definition VerifyIntegrity (s : SecurityModule) (label : string) (data : list byte) : bool :=
  bool_decide (is_Some (sec_integrityHashes s !! label)).

(** The secret is a slice that may be nil; the result is what its memory and
    the caller's variable hold afterwards. *)
Definition ZeroizeSecret (s : SecurityModule) (secret : option (list byte))
    : SecurityModule * (list byte * option (list byte)) :=
  match secret with
  | None => (s, ([], None))
  | Some bytes =>
      (s <| sec_zeroized ::= λ n, i64 (n + 1) |>, (replicate (length bytes) x00, None))
  end.

Definition RecordValidatorSign (s : SecurityModule) (address : string) (pub : list byte)
    : SecurityModule :=
  if negb (VerifyIntegrity s "blockchain_state" []) then
    s <| sec_validationFailures ::= λ n, i64 (n + 1) |>
  else s <| sec_integrityHashes ::= <["validator:" +:+ address := empty_digest]> |>.

Definition AntiTamperAudit (s : SecurityModule) : SecurityModule :=
  if negb (VerifyIntegrity s "blockchain_state" []) then
    s <| sec_validationFailures ::= λ n, i64 (n + 1) |>
  else s.

Definition HardeningLevel (s : SecurityModule) : Z := sec_hardeningLevel s.

Definition SetHardeningLevel (s : SecurityModule) (level : Z) : SecurityModule :=
  s <| sec_hardeningLevel := if 3 <? level then 3 else level |>.

Definition TamperDetected (s : SecurityModule) : Z := sec_tamperDetected s.
Definition ValidationFailures (s : SecurityModule) : Z := sec_validationFailures s.
Definition IsSealed (s : SecurityModule) : bool := sec_sealedMode s.

Definition recordAudit (s : SecurityModule) (event : string) : SecurityModule :=
  let s := s <| sec_auditLog ::= λ l, l ++ [event] |> in
  let n := blen (sec_auditLog s) in
  if 1024 <? n then s <| sec_auditLog ::= drop (Z.to_nat (n - 1024)) |> else s.

Definition AuditLog (s : SecurityModule) : list string := sec_auditLog s.

(** ** The wallet vault *)

Record WalletRecord := mkWalletRecord {
  wr_Wallet : Wallet; wr_Label : string; wr_IsAgent : bool; wr_Derivation : Z;
  wr_CreatedAt : Z; wr_LastUsed : Z; wr_Archived : bool }.

#[export] Instance WalletRecord_rebuild : Rebuild WalletRecord := λ r,
  mkWalletRecord (wr_Wallet r) (wr_Label r) (wr_IsAgent r) (wr_Derivation r) (wr_CreatedAt r)
    (wr_LastUsed r) (wr_Archived r).

(** A vault is its map; the clock readings are arguments. *)
Definition WalletVault : Type := gmap string WalletRecord.

Definition NewWalletVault : WalletVault := ∅.

Definition CreateWallet `{Ed25519} (v : WalletVault) (k : nat) (created used : Z)
    (label : string) (isAgent : bool) : WalletRecord * WalletVault :=
  let wallet := NewWallet k in
  let record := mkWalletRecord wallet label isAgent (u32 (Z.of_nat (size v))) created used false in
  (record, <[WalletAddress wallet := record]> v).

Definition GetWallet (v : WalletVault) (address : string) : option WalletRecord := v !! address.

Definition ListWallets `{Runtime} (v : WalletVault) (k : nat) : list WalletRecord :=
  filter (λ w, wr_Archived w = false) (range_map k v).*2.

(** The random seed determines the [k]-th key. *)
Definition DerivePath `{Ed25519} (v : WalletVault) (k : nat) (created used : Z) (index : Z)
    : WalletRecord * WalletVault :=
  let '(pub, priv) := GenerateKey k in
  let address := Sum256 pub in
  let record := mkWalletRecord (mkWallet pub priv) ("hd-" +:+ FormatInt index) false index
                  created used false in
  (record, <[EncodeToString address := record]> v).

(** [Save] leaves the records in the file; [Load] decodes them into the map the
    vault has, which keeps the wallets the file does not name. *)
Definition Save `{Runtime} (v : WalletVault) (k : nat) (file : option WalletVault)
    : outcome unit * option WalletVault :=
  if disk_write k then (Ok tt, Some v) else (Err "write failed", file).

Definition Load (v : WalletVault) (file : option WalletVault) : outcome unit * WalletVault :=
  match file with
  | None => (Err "no such file", v)
  | Some saved => (Ok tt, saved ∪ v)
  end.

Definition Archive (v : WalletVault) (address : string) : bool * WalletVault :=
  match v !! address with
  | Some rec => (true, <[address := rec <| wr_Archived := true |>]> v)
  | None => (false, v)
  end.

Definition Count (v : WalletVault) : Z := Z.of_nat (size v).

(** ** Validator onboarding *)

(** [pending] maps the hex public key to the private key. *)
Definition ValidatorOnboarding : Type := gmap string (list byte).

Definition NewValidatorOnboarding : ValidatorOnboarding := ∅.

Definition GenerateKeyFor `{Ed25519} (o : ValidatorOnboarding) (k : nat) (address : string)
    : string * ValidatorOnboarding :=
  let '(pub, priv) := GenerateKey k in
  let hexPub := EncodeToString pub in
  (hexPub, <[hexPub := priv]> o).

Definition ClaimPrivateKey (o : ValidatorOnboarding) (pubHex : string)
    : option (list byte) * ValidatorOnboarding :=
  match o !! pubHex with
  | Some priv => (Some priv, delete pubHex o)
  | None => (None, o)
  end.

(** The state of the onboarding, the chain and the global security module. *)
Definition RegisterValidatorWithKey `{Runtime} (o : ValidatorOnboarding) (bc : Blockchain)
    (sec : SecurityModule) (address : string) (stake : Z) (pubHex : string)
    : outcome unit * (ValidatorOnboarding * Blockchain * SecurityModule) :=
  match ClaimPrivateKey o pubHex with
  | (None, o) => (Err "unknown validator public key", (o, bc, sec))
  | (Some priv, o) =>
      match RegisterValidator bc address stake pubHex with
      | (Ok _, bc) =>
          let '(now, bc) := Unix bc in
          let v := mkValidator pubHex address stake true now 100 0 0 0 in
          let bc := bc <| bc_Validators ::= <[address := v]> |> in
          let bc := (SaveToDisk bc).2 in
          (Ok tt, (o, bc, (ZeroizeSecret sec (Some priv)).1))
      | (Err e, bc) => (Err e, (o, bc, sec))
      | (Panic e, bc) => (Panic e, (o, bc, sec))
      end
  end.

(** ** The security module over a run *)

Inductive security_op :=
| OpSign (address : string) (pub : list byte)
| OpAudit
| OpLevel (level : Z)
| OpRecord (event : string)
| OpZeroize (secret : option (list byte)).

Definition exec_security (s : SecurityModule) (op : security_op) : SecurityModule :=
  match op with
  | OpSign address pub => RecordValidatorSign s address pub
  | OpAudit => AntiTamperAudit s
  | OpLevel level => SetHardeningLevel s level
  | OpRecord event => recordAudit s event
  | OpZeroize secret => (ZeroizeSecret s secret).1
  end.

Definition level_ok (op : security_op) : Prop :=
  match op with OpLevel level => is_u32 level | _ => True end.

Definition recorded (op : security_op) : option string :=
  match op with OpRecord event => Some event | _ => None end.

(** The most recent [n] entries. *)
Definition latest {A} (n : Z) (l : list A) : list A := drop (Z.to_nat (blen l - n)) l.

Lemma recordAudit_latest s events event :
  sec_auditLog s = latest 1024 events →
  sec_auditLog (recordAudit s event) = latest 1024 (events ++ [event]).
Proof.
  unfold recordAudit, latest. intros E. cbv zeta. cbn [sec_auditLog update]. rewrite E.
  unfold blen. rewrite !length_app, length_drop. cbn [length].
  assert (drop (Z.to_nat (Z.of_nat (length events) - 1024)) events ++ [event]
    = drop (Z.to_nat (Z.of_nat (length events) - 1024)) (events ++ [event])) as Ed
    by (rewrite drop_app_le; [done|lia]).
  destruct (Z.ltb_spec 1024 (Z.of_nat
    (length events - Z.to_nat (Z.of_nat (length events) - 1024) + 1))); cbn [sec_auditLog update].
  - rewrite Ed, drop_drop. f_equal. lia.
  - rewrite Ed. f_equal. lia.
Qed.

Definition security_inv (events : list string) (s : SecurityModule) : Prop :=
  0 ≤ sec_hardeningLevel s ≤ 3 ∧ sec_validationFailures s = 0 ∧ sec_tamperDetected s = 0 ∧
  (∀ label h, sec_integrityHashes s !! label = Some h → h = empty_digest) ∧
  is_Some (sec_integrityHashes s !! "blockchain_state") ∧ sec_auditLog s = latest 1024 events.

Lemma exec_security_inv events s op :
  level_ok op → security_inv events s →
  security_inv (events ++ option_list (recorded op)) (exec_security s op).
Proof.
  intros Hop (H1 & H2 & H3 & H4 & H5 & H6).
  assert (VerifyIntegrity s "blockchain_state" [] = true) as Hv by by apply bool_decide_eq_true_2.
  destruct op as [address pub| |level|event|[secret|]]; cbn [exec_security recorded option_list] in *;
    rewrite ?app_nil_r; unfold security_inv in *.
  - unfold RecordValidatorSign. rewrite Hv. cbn [negb].
    generalize ("validator:" +:+ address). intros key. cbn. split_and!; try (done || lia).
    + intros label h. rewrite lookup_insert_Some. intros [[_ <-]|[_ ?]]; eauto.
    + destruct (decide (key = "blockchain_state")) as [->|];
        [by rewrite lookup_insert_eq|by rewrite lookup_insert_ne].
  - unfold AntiTamperAudit. by rewrite Hv.
  - cbn in *. unfold is_u32 in Hop.
    split_and!; try done; destruct (Z.ltb_spec 3 level); lia.
  - assert (sec_hardeningLevel (recordAudit s event) = sec_hardeningLevel s ∧
            sec_validationFailures (recordAudit s event) = sec_validationFailures s ∧
            sec_tamperDetected (recordAudit s event) = sec_tamperDetected s ∧
            sec_integrityHashes (recordAudit s event) = sec_integrityHashes s)
      as (-> & -> & -> & ->) by (unfold recordAudit; cbv zeta; by case_match).
    rewrite (recordAudit_latest s events event H6). split_and!; (done || lia).
  - cbn. split_and!; (done || lia).
  - cbn. split_and!; (done || lia).
Qed.

Lemma NewSecurityModule_inv : security_inv [] NewSecurityModule.
Proof.
  unfold security_inv, NewSecurityModule, baselineIntegrity.
  cbn [sec_hardeningLevel sec_validationFailures sec_tamperDetected sec_integrityHashes sec_auditLog
       update].
  split_and!; try (done || lia). intros label h. rewrite lookup_insert_Some, lookup_empty.
  by intros [[_ <-]|[_ ?]].
Qed.

(** Whatever is done with the security module: the hardening level stays
    between 0 and 3, the integrity check on the chain state succeeds for every
    data (the stored hashes are all the digest of nothing), no failure and no
    tampering is ever counted, and the audit log holds the last 1024 events. *)
Theorem security_module_run ops data :
  Forall level_ok ops →
  let s := foldl exec_security NewSecurityModule ops in
  0 ≤ HardeningLevel s ≤ 3 ∧ VerifyIntegrity s "blockchain_state" data = true ∧
  ValidationFailures s = 0 ∧ TamperDetected s = 0 ∧
  (∀ label h, sec_integrityHashes s !! label = Some h → h = empty_digest) ∧
  AuditLog s = latest 1024 (omap recorded ops).
Proof.
  intros Hops s.
  assert (security_inv (omap recorded ops) s) as (? & ? & ? & ? & ? & ?).
  { unfold s. induction ops as [|op ops IH] using rev_ind.
    - apply NewSecurityModule_inv.
    - apply Forall_app in Hops as [Hops [Hop _]%Forall_cons]. rewrite foldl_app, omap_app.
      replace (omap recorded [op]) with (option_list (recorded op)) by (by destruct op).
      apply exec_security_inv; auto. }
  split; [done|]. split; [by apply bool_decide_eq_true_2|done].
Qed.

(** ** The vault *)

(** Archiving hides a wallet from the list and nothing else: the others are
    listed as before, the wallet can still be fetched, marked, and the count is
    the same. *)
Theorem archive_hides `{Runtime} v address rec k :
  v !! address = Some rec →
  let '(found, v') := Archive v address in
  found = true ∧ GetWallet v' address = Some (rec <| wr_Archived := true |>) ∧
  Count v' = Count v ∧ ListWallets v' k ≡ₚ ListWallets (delete address v) k.
Proof.
  intros E. unfold Archive. rewrite E. split; [done|]. split; [apply lookup_insert_eq|]. split.
  - unfold Count, WalletVault in *. by rewrite map_size_insert, E.
  - unfold ListWallets, WalletVault in *. rewrite !range_map_Permutation.
    rewrite <- insert_delete_eq, map_to_list_insert by apply lookup_delete_eq.
    rewrite fmap_cons, filter_cons_False; [done|]. by cbn.
Qed.

(** A saved vault loads into an empty one as it was; loaded into another one,
    its wallets replace those of the same address and the others stay. *)
Theorem save_then_load `{Runtime} v k file file' v2 :
  Save v k file = (Ok tt, file') →
  Load NewWalletVault file' = (Ok tt, v) ∧
  ∃ v', Load v2 file' = (Ok tt, v') ∧
    ∀ address, GetWallet v' address =
      match GetWallet v address with Some w => Some w | None => GetWallet v2 address end.
Proof.
  unfold Save, Load. destruct (disk_write k); [|done]. intros [= <-].
  unfold NewWalletVault, WalletVault in *. rewrite map_union_empty. split; [done|]. eexists. split; [done|].
  intros address. unfold GetWallet, WalletVault. rewrite lookup_union.
  by destruct (v !! address), (v2 !! address).
Qed.

(** ** Onboarding *)

Lemma RegisterValidator_outcome `{Runtime} bc address stake pubHex r bc' :
  RegisterValidator bc address stake pubHex = (r, bc') →
  r = Ok tt ∨ (∃ e, r = Err e) ∧ bc' = bc.
Proof.
  unfold RegisterValidator. cbv beta iota zeta delta [Unix UnixNano].
  intros E. repeat case_match; simplify_eq; eauto.
Qed.

(** A generated key registers at most once: an attempt with a known key uses
    it up whether it succeeds or not, and every later attempt with it is
    refused.  On success the validator is on the chain under that key with a
    rotation that is due at any time, so the next rotation replaces the key;
    on failure the chain is as before. *)
Theorem onboarding_uses_key_up `{Runtime} o bc sec address stake pubHex priv r o' bc' sec' :
  o !! pubHex = Some priv →
  RegisterValidatorWithKey o bc sec address stake pubHex = (r, (o', bc', sec')) →
  (∀ bc2 sec2 a2 s2, RegisterValidatorWithKey o' bc2 sec2 a2 s2 pubHex
     = (Err "unknown validator public key", (o', bc2, sec2))) ∧
  ((r = Ok tt ∧ ∃ v, bc_Validators bc' !! address = Some v ∧ val_PublicKey v = pubHex ∧
      val_Stake v = stake ∧ (∀ now, NeedsRotation v now = true)) ∨
   (∃ e, r = Err e) ∧ bc' = bc ∧ sec' = sec).
Proof.
  intros Ho. unfold RegisterValidatorWithKey, ClaimPrivateKey. rewrite Ho.
  destruct (RegisterValidator bc address stake pubHex) as [r1 bc1] eqn:Er.
  assert ((delete pubHex o : ValidatorOnboarding) !! pubHex = None) as Hd by apply lookup_delete_eq.
  destruct (RegisterValidator_outcome _ _ _ _ _ _ Er) as [->|[[e ->] ->]].
  - cbv beta iota zeta delta [Unix UnixNano]. intros [= <- <- <- <-].
    split; [intros; by rewrite Hd|]. left. split; [done|].
    exists (mkValidator pubHex address stake true
              (clock (bc_ticks bc1) `div` 10 ^ 9) 100 0 0 0).
    split; [|done]. unfold SaveToDisk. cbv zeta.
    repeat case_match; apply lookup_insert_eq.
  - intros [= <- <- <- <-]. split; [intros; by rewrite Hd|]. right. eauto.
Qed.

(** ** Witnesses *)

Lemma security_module_run_witness :
  AuditLog (foldl exec_security NewSecurityModule
    [OpRecord "start"; OpLevel 9; OpSign "v" []; OpRecord "stop"; OpZeroize (Some [x01])])
  = ["start"; "stop"].
Proof.
  destruct (security_module_run
    [OpRecord "start"; OpLevel 9; OpSign "v" []; OpRecord "stop"; OpZeroize (Some [x01])] [x07])
    as (_ & _ & _ & _ & _ & E); [by repeat constructor|].
  rewrite E. reflexivity.
Defined.

Definition demo_vault : WalletVault :=
  (@CreateWallet demo_ed25519 (@CreateWallet demo_ed25519 ∅ 1 5 5 "cold" false).2 2 6 6 "hot" true).2.

Definition demo_cold : string := WalletAddress (@NewWallet demo_ed25519 1).

Lemma demo_cold_record :
  demo_vault !! demo_cold
  = Some (mkWalletRecord (@NewWallet demo_ed25519 1) "cold" false 0 5 5 false).
Proof. by vm_compute. Qed.

Lemma archive_hides_witness :
  let v' := (Archive demo_vault demo_cold).2 in
  @ListWallets demo_runtime v' 0 ≡ₚ @ListWallets demo_runtime (delete demo_cold demo_vault) 0 ∧
  Count v' = Count demo_vault.
Proof.
  pose proof (@archive_hides demo_runtime demo_vault demo_cold _ 0 demo_cold_record) as P.
  destruct (Archive demo_vault demo_cold) as [f v']. destruct P as (_ & _ & P1 & P2).
  exact (conj P2 P1).
Defined.

Lemma save_then_load_witness :
  Load NewWalletVault (@Save demo_runtime demo_vault 0 None).2 = (Ok tt, demo_vault).
Proof.
  exact (proj1 (@save_then_load demo_runtime demo_vault 0 None _ NewWalletVault eq_refl)).
Defined.

(** Alice onboards with the first generated key. *)
Definition demo_onboarding : ValidatorOnboarding := (@GenerateKeyFor demo_ed25519 ∅ 1 demo_alice).2.

Definition demo_key : string := (@GenerateKeyFor demo_ed25519 ∅ 1 demo_alice).1.

Definition demo_onboarded : outcome unit * (ValidatorOnboarding * Blockchain * SecurityModule) :=
  @RegisterValidatorWithKey demo_runtime demo_onboarding demo_node NewSecurityModule demo_alice
    MinStake demo_key.

Lemma demo_key_known : demo_onboarding !! demo_key = Some (replicate 64 x00).
Proof. by vm_compute. Qed.

Lemma demo_onboarded_Ok : demo_onboarded.1 = Ok tt.
Proof. by vm_compute. Qed.

Lemma onboarding_uses_key_up_witness :
  demo_onboarded.1 = Ok tt ∧
  (@RegisterValidatorWithKey demo_runtime demo_onboarded.2.1.1 demo_node NewSecurityModule
     demo_alice MinStake demo_key).1 = Err "unknown validator public key".
Proof.
  split; [exact demo_onboarded_Ok|].
  destruct demo_onboarded as [r [[o' bc'] sec']] eqn:E.
  destruct (@onboarding_uses_key_up demo_runtime demo_onboarding demo_node NewSecurityModule
    demo_alice MinStake demo_key (replicate 64 x00) r o' bc' sec' demo_key_known E) as [Hagain _].
  exact (f_equal fst (Hagain demo_node NewSecurityModule demo_alice MinStake)).
Defined.
