(* ===== verification/Limits.v ===== *)
(** * Guards of the HTTP API (go-chain/api/api.go)

    The rate limiter (a sliding log of the accepted calls of each client), the
    circuit breaker, the bearer-token check, and the configuration read from
    the environment.  Times and durations are nanoseconds; a clock reading is
    an argument. *)

From S2P Require Import Prelude Runtime Text.
Open Scope Z_scope.
Open Scope go_scope.

(** [t.Sub(u)] saturates at the range of [time.Duration]. *)
Definition time_Sub (t u : Z) : Z := Z.max (- 2 ^ 63) (Z.min (2 ^ 63 - 1) (t - u)).

Definition Second : Z := 10 ^ 9.
Definition Minute : Z := 60 * Second.

(** ** The rate limiter *)

Record rateLimiter := mkrateLimiter {
  rl_counts : gmap string (list Z); rl_limit : Z; rl_window : Z }.

#[export] Instance rateLimiter_rebuild : Rebuild rateLimiter := λ r,
  mkrateLimiter (rl_counts r) (rl_limit r) (rl_window r).

Definition newRateLimiter (limit window : Z) : rateLimiter :=
  let limit := if limit <=? 0 then 60 else limit in
  let window := if window <=? 0 then Minute else window in
  mkrateLimiter ∅ limit window.

(** [now.Sub(ts) <= window] *)
Definition within (window now ts : Z) : Prop := time_Sub now ts ≤ window.

#[export] Instance within_dec window now ts : Decision (within window now ts).
Proof. unfold within. apply _. Defined.

Definition entries_of (counts : gmap string (list Z)) (key : string) : list Z :=
  default [] (counts !! key).

Definition allow (rl : rateLimiter) (now : Z) (key : string) : bool * rateLimiter :=
  let entries := entries_of (rl_counts rl) key in
  let filtered := filter (within (rl_window rl) now) entries in
  let rl := rl <| rl_counts ::= <[key := filtered]> |> in
  if rl_limit rl <=? blen filtered then (false, rl)
  else (true, rl <| rl_counts ::= <[key := filtered ++ [now]]> |>).

(** ** The circuit breaker *)

Record circuitBreaker := mkcircuitBreaker {
  cb_failures : Z; cb_threshold : Z; cb_window : Z; cb_lastFailure : Z; cb_state : string }.

#[export] Instance circuitBreaker_rebuild : Rebuild circuitBreaker := λ r,
  mkcircuitBreaker (cb_failures r) (cb_threshold r) (cb_window r) (cb_lastFailure r) (cb_state r).

(** The zero time of [lastFailure] is before every clock reading and only
    compared after a failure. *)
Definition newCircuitBreaker (threshold window : Z) : circuitBreaker :=
  mkcircuitBreaker 0 threshold window 0 "closed".

Definition Allow (cb : circuitBreaker) (now : Z) : bool * circuitBreaker :=
  if bool_decide (cb_state cb = "open") then
    if cb_window cb <? time_Sub now (cb_lastFailure cb) then
      (true, cb <| cb_state := "half-open" |> <| cb_failures := 0 |>)
    else (false, cb)
  else (true, cb).

Definition RecordSuccess (cb : circuitBreaker) : circuitBreaker :=
  cb <| cb_failures := 0 |> <| cb_state := "closed" |>.

Definition RecordFailure (cb : circuitBreaker) (now : Z) : circuitBreaker :=
  let cb := cb <| cb_failures ::= λ n, i64 (n + 1) |> <| cb_lastFailure := now |> in
  if cb_threshold cb <=? cb_failures cb then cb <| cb_state := "open" |> else cb.

(** ** Configuration *)

Record ServerConfig := mkServerConfig {
  cfg_APIKey : string; cfg_EnableAuth : bool; cfg_RateLimit : Z; cfg_RateWindow : Z;
  cfg_EnableTLS : bool; cfg_TLSCertFile : string; cfg_TLSKeyFile : string;
  cfg_MaxBodyBytes : Z; cfg_MetricsPath : string; cfg_APIPort : Z; cfg_P2PPort : Z;
  cfg_DataDir : string; cfg_Consensus : string; cfg_StrictP2P : bool; cfg_FaucetAmount : Z }.

(** [strconv.ParseInt(s, 10, 64)] (and [Atoi] on a 64-bit machine): an optional
    sign ([-] is 45, [+] is 43) and digits, in range. *)
Definition ParseInt (s : string) : option Z :=
  let magnitude t := match ParseUint t with (n, None) => Some n | _ => None end in
  let in_range z := if (- 2 ^ 63 <=? z) && (z <? 2 ^ 63) then Some z else None in
  match s with
  | String c t =>
      if bool_decide (c = Ascii.ascii_of_nat 45) then
        match magnitude t with Some n => in_range (- n) | None => None end
      else if bool_decide (c = Ascii.ascii_of_nat 43) then
        match magnitude t with Some n => in_range n | None => None end
      else match magnitude s with Some n => in_range n | None => None end
  | EmptyString => None
  end.

(** [strconv.ParseBool] *)
Definition ParseBool (s : string) : option bool :=
  if bool_decide (s ∈ ["1"; "t"; "T"; "TRUE"; "true"; "True"]) then Some true
  else if bool_decide (s ∈ ["0"; "f"; "F"; "FALSE"; "false"; "False"]) then Some false
  else None.

(** The environment is a function from names to values, empty when unset. *)
Section config.
Context `{Runtime} (env : string → string).

Definition getEnvOrDefault (key fallback : string) : string :=
  if bool_decide (env key = "") then fallback else env key.

Definition getEnvIntOrDefault (key : string) (fallback : Z) : Z :=
  if bool_decide (env key = "") then fallback else default fallback (ParseInt (env key)).

Definition getEnvInt64OrDefault (key : string) (fallback : Z) : Z :=
  if bool_decide (env key = "") then fallback else default fallback (ParseInt (env key)).

Definition getEnvBoolOrDefault (key : string) (fallback : bool) : bool :=
  if bool_decide (env key = "") then fallback else default fallback (ParseBool (env key)).

Definition ServerConfigFromEnv : ServerConfig :=
  mkServerConfig (getEnvOrDefault "TENDER_API_KEY" "")
    (getEnvBoolOrDefault "TENDER_ENABLE_AUTH" true)
    (getEnvIntOrDefault "TENDER_RATE_LIMIT" 60)
    (i64 (getEnvIntOrDefault "TENDER_RATE_WINDOW_SECONDS" 60 * Second))
    false "" ""
    (getEnvInt64OrDefault "TENDER_MAX_BODY_BYTES" (2 ^ 20))
    (getEnvOrDefault "TENDER_METRICS_PATH" "/metrics")
    (getEnvIntOrDefault "TENDER_API_PORT" 8080)
    (getEnvIntOrDefault "TENDER_P2P_PORT" 3030)
    (getEnvOrDefault "TENDER_DATA_DIR" "./data")
    (ToLower (getEnvOrDefault "TENDER_CONSENSUS" "pos"))
    (getEnvBoolOrDefault "TENDER_STRICT_P2P" true)
    (u64 (getEnvIntOrDefault "TENDER_FAUCET_AMOUNT" 1000)).
End config.

(** ** The bearer token *)

Definition HasPrefix (s prefix : string) : bool := String.prefix prefix s.

(** [strings.Split] at a separator of one character. *)
Fixpoint split_on (sep : Ascii.ascii) (s : string) : list string :=
  match s with
  | EmptyString => [""]
  | String c t =>
      if bool_decide (c = sep) then "" :: split_on sep t else
      match split_on sep t with
      | [] => [String c ""]
      | w :: ws => String c w :: ws
      end
  end.

Definition TrimPrefix (s prefix : string) : string :=
  if String.prefix prefix s
  then String.substring (String.length prefix) (String.length s - String.length prefix) s else s.

(** [header] is the value of the [Authorization] header, empty when absent. *)
Definition requireAuth `{Runtime} (header : string) (cfg : ServerConfig) : outcome unit :=
  if negb (cfg_EnableAuth cfg) then Ok tt else
  if bool_decide (cfg_APIKey cfg = "") then Err "missing api key" else
  let authorization := TrimSpace header in
  if bool_decide (authorization = "") then Err "missing authorization" else
  if negb (HasPrefix authorization "Bearer ") then Err "invalid authorization scheme" else
  let provided := TrimPrefix authorization "Bearer " in
  if bool_decide (provided = cfg_APIKey cfg) then Ok tt else Err "invalid api key".

(** ** The limiter refines a log of all accepted calls *)

(** What it means that a call made at [ts] lies in the window of length [window]
    that ends at [now]; the longest duration stands for a window without end. *)
Definition in_window (window now ts : Z) : Prop := now ≤ ts + window ∨ 2 ^ 63 - 1 ≤ window.

#[export] Instance in_window_dec window now ts : Decision (in_window window now ts).
Proof. unfold in_window. apply _. Defined.

(** The specification keeps, for each client, the times of every call it ever
    accepted, and accepts a call when fewer than [limit] of them lie in the
    window. *)
Definition spec_allow (limit window : Z) (hist : string → list Z) (now : Z) (key : string)
    : bool * (string → list Z) :=
  if limit <=? blen (filter (in_window window now) (hist key)) then (false, hist)
  else (true, λ k, if bool_decide (k = key) then hist k ++ [now] else hist k).

(** The answers to a sequence of calls. *)
Fixpoint run_limiter (rl : rateLimiter) (calls : list (Z * string)) : list bool :=
  match calls with
  | [] => []
  | (now, key) :: calls => let '(b, rl) := allow rl now key in b :: run_limiter rl calls
  end.

Fixpoint run_spec (limit window : Z) (hist : string → list Z) (calls : list (Z * string))
    : list bool :=
  match calls with
  | [] => []
  | (now, key) :: calls =>
      let '(b, hist) := spec_allow limit window hist now key in
      b :: run_spec limit window hist calls
  end.

(** The saturating test of the code decides it. *)
Lemma within_in_window window now ts : 0 < window → within window now ts ↔ in_window window now ts.
Proof. unfold within, time_Sub, in_window. lia. Qed.

Lemma filter_within window now (l : list Z) :
  0 < window → filter (within window now) l = filter (in_window window now) l.
Proof. intros Hw. apply list_filter_iff. intros ts. by apply within_in_window. Qed.

Lemma within_earlier window now now' ts :
  now ≤ now' → within window now' ts → within window now ts.
Proof. unfold within, time_Sub. lia. Qed.

Lemma filter_within_filter window now now' (l : list Z) :
  now ≤ now' →
  filter (within window now') (filter (within window now) l) = filter (within window now') l.
Proof.
  intros Hle. rewrite list_filter_filter. apply list_filter_iff.
  intros ts. split; [tauto|]. intros Hw. split; [done|]. by eapply within_earlier.
Qed.

(** The entries of the limiter are those of the log, as far as any later call
    can tell. *)
Definition limiter_sim (t : Z) (rl : rateLimiter) (hist : string → list Z) : Prop :=
  ∀ key now, t ≤ now →
    filter (within (rl_window rl) now) (entries_of (rl_counts rl) key)
    = filter (within (rl_window rl) now) (hist key).

Lemma entries_of_insert counts key l k :
  entries_of (<[key := l]> counts) k = if bool_decide (k = key) then l else entries_of counts k.
Proof.
  unfold entries_of. case_bool_decide as E; [subst; by rewrite lookup_insert_eq|].
  by rewrite lookup_insert_ne by done.
Qed.

Lemma allow_sim t rl hist now key :
  t ≤ now → 0 < rl_window rl → limiter_sim t rl hist →
  let '(b, rl') := allow rl now key in
  let '(b', hist') := spec_allow (rl_limit rl) (rl_window rl) hist now key in
  b = b' ∧ limiter_sim now rl' hist' ∧ rl_limit rl' = rl_limit rl ∧ rl_window rl' = rl_window rl.
Proof.
  intros Ht Hw Hs. pose proof (Hs key now Ht) as E. unfold allow, spec_allow. cbv zeta.
  rewrite <- filter_within by done.
  rewrite E. cbn [rl_limit rl_window rl_counts update].
  set (kept := filter (within (rl_window rl) now) (hist key)).
  assert (∀ now', now ≤ now' → filter (within (rl_window rl) now') kept
    = filter (within (rl_window rl) now') (hist key)) as Hk
    by (intros; by apply filter_within_filter).
  destruct (rl_limit rl <=? blen kept); (split; [done|]; split; [|done]);
    intros k now' Hle; cbn [rl_counts rl_window update];
    rewrite ?insert_insert_eq, !entries_of_insert; case_bool_decide as Ek; try subst k;
    try (apply Hs; lia); [by apply Hk|]. by rewrite !filter_app, Hk.
Qed.

(** Calls in the order of the clock. *)
Fixpoint in_time (t : Z) (calls : list (Z * string)) : Prop :=
  match calls with [] => True | (now, _) :: calls => t ≤ now ∧ in_time now calls end.

Lemma run_limiter_spec calls : ∀ rl (hist : string → list Z) t,
  in_time t calls → 0 < rl_window rl → limiter_sim t rl hist →
  run_limiter rl calls = run_spec (rl_limit rl) (rl_window rl) hist calls.
Proof.
  induction calls as [|[now key] calls IH]; intros rl hist t Ht Hw Hs; [done|].
  destruct Ht as [Ht Hc]. pose proof (allow_sim t rl hist now key Ht Hw Hs) as P.
  cbn [run_limiter run_spec].
  destruct (allow rl now key) as [b rl2], (spec_allow _ _ hist now key) as [b' hist2].
  destruct P as (-> & Hs2 & E1 & E2). f_equal. rewrite <- E1, <- E2.
  eapply IH; [done|by rewrite E2|done].
Qed.

Lemma new_limiter_sim limit window t : limiter_sim t (newRateLimiter limit window) (λ _, []).
Proof. by intros key now _. Qed.

Lemma new_limiter_window limit window : 0 < rl_window (newRateLimiter limit window).
Proof. unfold newRateLimiter, Minute, Second. cbn. destruct (Z.leb_spec window 0); lia. Qed.

(** C18. The limiter forgets old entries, yet it answers every sequence of calls, of
    any number of clients, as the log of all accepted calls does, as long as
    the clock does not run backwards. *)
Theorem limiter_refines limit window calls t :
  in_time t calls →
  let rl := newRateLimiter limit window in
  run_limiter rl calls = run_spec (rl_limit rl) (rl_window rl) (λ _, []) calls.
Proof.
  intros Ht rl.
  exact (run_limiter_spec calls rl _ t Ht (new_limiter_window limit window) (new_limiter_sim limit window t)).
Qed.

(** *** The bound *)

(** The times at which a client's calls were accepted. *)
Definition accepted (key : string) (calls : list (Z * string)) (answers : list bool) : list Z :=
  omap (λ p : (Z * string) * bool,
    if p.2 && bool_decide (p.1.2 = key) then Some p.1.1 else None) (zip calls answers).

Definition log_ok (limit window : Z) (l : list Z) : Prop :=
  ∀ t, blen (filter (λ ts, ts ≤ t ∧ t ≤ ts + window) l) ≤ limit.

Lemma log_ok_snoc limit window l now :
  blen (filter (in_window window now) l) < limit → log_ok limit window l →
  log_ok limit window (l ++ [now]).
Proof.
  intros Hlt Hl t. rewrite filter_app, blen_app. specialize (Hl t).
  destruct (decide (now ≤ t ∧ t ≤ now + window)) as [[Hle Hw]|Hn].
  - rewrite filter_cons_True, filter_nil by done.
    assert (blen (filter (λ ts, ts ≤ t ∧ t ≤ ts + window) l)
            ≤ blen (filter (in_window window now) l)).
    { clear -Hle. unfold blen. induction l as [|x l IH]; [done|].
      rewrite !filter_cons. repeat case_decide; cbn [length]; try lia.
      exfalso. unfold in_window in *. lia. }
    unfold blen in *. cbn [length]. lia.
  - rewrite filter_cons_False, filter_nil by done. unfold blen in *. cbn [length]. lia.
Qed.

Lemma run_spec_log limit window key calls : ∀ hist : string → list Z,
  log_ok limit window (hist key) →
  log_ok limit window (hist key ++ accepted key calls (run_spec limit window hist calls)).
Proof.
  induction calls as [|[now k] calls IH]; intros hist Hh; [by rewrite app_nil_r|].
  cbn [run_spec]. unfold spec_allow.
  destruct (limit <=? blen (filter (in_window window now) (hist k))) eqn:E; [by apply IH|].
  prop_bools. unfold accepted in *. cbn [zip_with omap list_omap fst snd andb].
  case_bool_decide as Hk; [subst k|].
  - specialize (IH (λ k, if bool_decide (k = key) then hist k ++ [now] else hist k)).
    cbv beta in IH. rewrite bool_decide_true in IH by done. rewrite <- app_assoc in IH.
    apply IH. by apply log_ok_snoc.
  - specialize (IH (λ k', if bool_decide (k' = k) then hist k' ++ [now] else hist k')).
    cbv beta in IH. rewrite bool_decide_false in IH by done. by apply IH.
Qed.

(** No client gets more than [limit] calls accepted in any window, wherever
    the window ends. *)
Theorem limiter_bounds limit window calls t key :
  0 < limit → 0 < window → in_time t calls →
  let times := accepted key calls (run_limiter (newRateLimiter limit window) calls) in
  ∀ now, blen (filter (λ ts, ts ≤ now ∧ now ≤ ts + window) times) ≤ limit.
Proof.
  intros Hl Hw Ht. cbv zeta. rewrite (run_limiter_spec calls _ _ t Ht
    (new_limiter_window limit window) (new_limiter_sim limit window t)).
  unfold newRateLimiter. rewrite !(proj2 (Z.leb_gt _ _)) by lia. cbn [rl_limit rl_window].
  apply (run_spec_log limit window key calls (λ _, [])). intros now.
  rewrite filter_nil. unfold blen. cbn [length]. lia.
Qed.

(** ** The breaker *)

Lemma RecordFailure_fields cb now :
  cb_threshold (RecordFailure cb now) = cb_threshold cb ∧
  cb_window (RecordFailure cb now) = cb_window cb ∧
  cb_lastFailure (RecordFailure cb now) = now ∧
  cb_failures (RecordFailure cb now) = i64 (cb_failures cb + 1) ∧
  (cb_threshold cb ≤ i64 (cb_failures cb + 1) → cb_state (RecordFailure cb now) = "open").
Proof.
  unfold RecordFailure. cbv zeta. cbn [cb_threshold cb_failures update].
  destruct (_ <=? _) eqn:E; prop_bools; split_and!; try done. cbn. lia.
Qed.

Lemma failures_in_a_row cb times :
  0 ≤ cb_failures cb → cb_failures cb + blen times < 2 ^ 63 →
  let cb' := foldl RecordFailure cb times in
  cb_threshold cb' = cb_threshold cb ∧ cb_window cb' = cb_window cb ∧
  cb_failures cb' = cb_failures cb + blen times ∧
  (∀ t, last times = Some t → cb_lastFailure cb' = t ∧
        (cb_threshold cb ≤ cb_failures cb + blen times → cb_state cb' = "open")).
Proof.
  intros H0 Hlt. induction times as [|t times IH] using rev_ind; cbv zeta in *.
  { cbn. rewrite Z.add_0_r. by split_and!. }
  rewrite blen_app in *. change (blen [t]) with 1 in *. rewrite foldl_app. cbn [foldl].
  destruct IH as (I1 & I2 & I3 & _); [unfold blen in *; lia|].
  destruct (RecordFailure_fields (foldl RecordFailure cb times) t) as (F1 & F2 & F3 & F4 & F5).
  pose proof (blen_nonneg times) as Hn.
  rewrite I3, i64_small in F4, F5 by (unfold is_i64; lia). rewrite I1 in F5.
  rewrite F1, F2, F3, F4, I1, I2. split_and!; try done; [lia|].
  rewrite last_snoc. intros ? [= <-]. split; [done|]. intros. apply F5. lia.
Qed.

(** As many failures in a row as the threshold, whatever happened before, open
    the breaker: from then on every request is refused until more than the
    window has passed since the last of them, and the first request after that
    is let through with the count of failures reset. *)
Theorem breaker_trips cb times t now :
  0 < cb_threshold cb → 0 ≤ cb_failures cb → cb_failures cb + blen times < 2 ^ 63 →
  cb_threshold cb ≤ blen times → last times = Some t →
  let cb' := foldl RecordFailure cb times in
  (Allow cb' now).1 = bool_decide (cb_window cb < time_Sub now t) ∧
  (time_Sub now t ≤ cb_window cb → (Allow cb' now).2 = cb') ∧
  (cb_window cb < time_Sub now t →
   cb_failures (Allow cb' now).2 = 0 ∧ cb_state (Allow cb' now).2 = "half-open").
Proof.
  intros Hth H0 Hlt Hle Hl cb'.
  destruct (failures_in_a_row cb times H0 Hlt) as (E1 & E2 & E3 & E4). fold cb' in E1, E2, E3, E4.
  destruct (E4 t Hl) as [E5 E6].
  unfold Allow. rewrite bool_decide_true by (apply E6; lia). rewrite E2, E5.
  destruct (Z.ltb_spec (cb_window cb) (time_Sub now t)) as [Hw|Hw].
  - rewrite bool_decide_true by done. split_and!; done || lia.
  - rewrite bool_decide_false by lia. split_and!; done || lia.
Qed.

(** ** The token check *)

Lemma HasPrefix_app p t : HasPrefix (p +:+ t) p = true.
Proof.
  unfold HasPrefix. induction p as [|c p IH]; [by destruct t|]. cbn.
  by destruct (Ascii.ascii_dec c c).
Qed.

Lemma HasPrefix_inv p s : HasPrefix s p = true → ∃ t, s = p +:+ t.
Proof.
  unfold HasPrefix. revert s. induction p as [|c p IH]; intros s; [by exists s|].
  destruct s as [|a s]; [done|]. cbn. destruct (Ascii.ascii_dec c a) as [->|]; [|done].
  intros [t ->]%IH. by exists t.
Qed.

Lemma TrimPrefix_app p t : TrimPrefix (p +:+ t) p = t.
Proof.
  unfold TrimPrefix. fold (HasPrefix (p +:+ t) p). rewrite HasPrefix_app.
  induction p as [|c p IH]; cbn [String.append String.length].
  - rewrite Nat.sub_0_r. induction t as [|a t IHt]; [done|]. cbn. by rewrite IHt.
  - exact IH.
Qed.

(** A request passes the token check exactly when authentication is off, or a
    key is configured and the trimmed header is [Bearer ] followed by it. *)
Theorem requireAuth_spec `{Runtime} header cfg :
  requireAuth header cfg = Ok tt ↔
  cfg_EnableAuth cfg = false ∨
  cfg_APIKey cfg ≠ "" ∧ TrimSpace header = "Bearer " +:+ cfg_APIKey cfg.
Proof.
  unfold requireAuth. cbv zeta. destruct (cfg_EnableAuth cfg); cbn [negb]; [|naive_solver].
  case_bool_decide as Hk; [naive_solver|]. case_bool_decide as Ha.
  { rewrite Ha. split; [done|]. by intros [|[_ ?]]. }
  destruct (HasPrefix (TrimSpace header) "Bearer ") eqn:Hp; cbn [negb].
  - apply HasPrefix_inv in Hp as [t ->]. rewrite TrimPrefix_app. case_bool_decide as Ht.
    + split; [|done]. intros _. right. by subst t.
    + split; [done|]. intros [|[_ E]]; [done|]. destruct Ht.
      by rewrite <- (TrimPrefix_app "Bearer " t), E, TrimPrefix_app.
  - split; [done|]. intros [|[_ E]]; [done|]. rewrite E, HasPrefix_app in Hp. done.
Qed.

(** With an empty environment authentication is on and no key is configured,
    so every request to a guarded endpoint is refused. *)
Lemma default_config_refuses `{Runtime} header :
  requireAuth header (ServerConfigFromEnv (λ _, "")) = Err "missing api key".
Proof. reflexivity. Qed.

(** ** Witnesses *)

(** Two calls per 10 ns: the third is refused, the fourth is late enough. *)
Definition demo_calls : list (Z * string) :=
  [(0, "c"); (3, "c"); (5, "d"); (7, "c"); (12, "c")].

Lemma demo_calls_in_time : in_time 0 demo_calls.
Proof. cbn. lia. Qed.

Lemma limiter_refines_witness :
  run_spec 2 10 (λ _, []) demo_calls = [true; true; true; false; true].
Proof.
  exact (eq_sym (limiter_refines 2 10 demo_calls 0 demo_calls_in_time)).
Defined.

Lemma limiter_bounds_witness :
  accepted "c" demo_calls (run_limiter (newRateLimiter 2 10) demo_calls) = [0; 3; 12] ∧
  blen (filter (λ ts, within 10 9 ts ∧ ts ≤ 9) [0; 3; 12]) ≤ 2.
Proof.
  split; [reflexivity|].
  exact (limiter_bounds 2 10 demo_calls 0 "c" ltac:(lia) ltac:(lia) demo_calls_in_time 9).
Defined.

(** Five failed requests shut the endpoint for ten seconds. *)
Lemma breaker_trips_witness :
  (Allow (foldl RecordFailure (newCircuitBreaker 5 (10 * Second)) [1; 2; 3; 4; 5]) (8 * Second)).1
  = false.
Proof.
  destruct (breaker_trips (newCircuitBreaker 5 (10 * Second)) [1; 2; 3; 4; 5] 5 (8 * Second))
    as [E _]; [done..|]. rewrite E. reflexivity.
Defined.
