(* ===== verification/Api.v ===== *)
(** * The HTTP API (go-chain/api/api.go)

    [StartAPI] as a function of a request and the state of the server.  One
    definition per endpoint, named [h_...], its guards and calls in the order
    of the source; [mux] dispatches on the path and [serve] adds the three
    middlewares.

    A handler runs in a small monad.  It reads and changes the [server]; it may
    answer early, panic (recovered by [net/http], which drops the connection)
    or block.  [chain.mu] is a plain lock that a goroutine cannot take twice:
    [sv_locked] says that a handler that will never return holds it, and a call
    that takes the lock blocks then.  The handlers of one server are otherwise
    taken one after the other.

    The JSON decoding of a body into the struct of an endpoint is
    [encoding/json]'s: the class [Decoders] has one function per struct, and
    every theorem holds whatever they decode.  Answers carry the values that
    are encoded, not their text. *)

From S2P Require Import Prelude Runtime Float64 Text Sha256 Domain Json Encoding Merkle Tendermint State Accounts Validation Apply Reversal Mempool Rewards Mining Finality Limits.
Open Scope Z_scope.
Open Scope go_scope.

(** ** Requests and answers *)

Record request := mkrequest {
  rq_Method : string; rq_Path : string; rq_RemoteAddr : string; rq_Authorization : string;
  rq_IdempotencyKey : string; rq_ContentLength : Z; rq_Body : list byte; rq_name : string;
  rq_validator_address : string; rq_truncated : bool }.

#[export] Instance request_rebuild : Rebuild request := λ r,
  mkrequest (rq_Method r) (rq_Path r) (rq_RemoteAddr r) (rq_Authorization r) (rq_IdempotencyKey r)
    (rq_ContentLength r) (rq_Body r) (rq_name r) (rq_validator_address r) (rq_truncated r).

Inductive value :=
| VString (s : string) | VInt (n : Z) | VBool (b : bool) | VFloat (f : float64)
| VStrings (l : list string) | VBools (m : gmap string bool)
| VState (st : nodeState) | VAudit (l : list AuditEntry) | VTxs (l : list Transaction)
| VTx (tx : Transaction) | VBlock (b : Block) | VValidators (m : gmap string Validator)
| VRegistry (m : gmap string ModelRef) | VLedger (m : gmap string Account)
| VUniversal (u : UniversalWallet) | VWallet (w : ManagedWallet) | VEscrow (e : Escrow)
| VEscrows (m : gmap string Escrow) | VProposal (p : GovernanceProposal)
| VProposals (m : gmap string GovernanceProposal) | VAgreement (a : ServiceAgreement)
| VMeter (m : UsageMeter) | VIndices (s : gset Z)
| VSignatures (m : gmap Z (list FinalityVoteSignature)).

Inductive reply :=
| Text (msg : string)
| Json (v : value)
| Object (fields : list (string * value))
| File (path : string).

Record response := mkresponse { rs_code : Z; rs_body : reply }.

(** ** Payloads *)

Record signaturePayload := mksignaturePayload {
  sgp_VoterHex : string; sgp_Vote : string; sgp_Signature : list byte }.
Record finalityPayload := mkfinalityPayload {
  fnp_Index : Z; fnp_Voter : string; fnp_Voters : list string;
  fnp_Signatures : list signaturePayload }.
Record registerPayload := mkregisterPayload {
  rgp_Address : string; rgp_Stake : Z; rgp_PublicKey : string }.
(** The update endpoint has no [Active]. *)
Record modelPayload := mkmodelPayload {
  mdp_ID : string; mdp_Owner : string; mdp_Version : string; mdp_Metadata : string;
  mdp_PricePerCall : Z; mdp_Active : bool }.
Record purchasePayload := mkpurchasePayload {
  pcp_Buyer : string; pcp_ModelID : string; pcp_Amount : Z }.
Record amountPayload := mkamountPayload { amp_Address : string; amp_Amount : Z }.
Record directoryPayload := mkdirectoryPayload {
  drp_Name : string; drp_Address : string; drp_Label : string; drp_Currency : string }.
Record universalPayload := mkuniversalPayload {
  unp_From : string; unp_ToName : string; unp_Amount : Z; unp_Currency : string }.
Record walletPayload := mkwalletPayload { wlp_Label : string; wlp_IsAgent : bool }.
Record escrowPayload := mkescrowPayload {
  esp_From : string; esp_To : string; esp_Amount : Z; esp_ServiceID : string }.
(** Confirmations and commits have no [To] and no [Amount]. *)
Record reversalPayload := mkreversalPayload {
  rvp_From : string; rvp_To : string; rvp_Amount : Z; rvp_OriginalTxID : string }.
Record proposalPayload := mkproposalPayload { prp_Title : string; prp_Description : string }.
Record agreementPayload := mkagreementPayload {
  agp_Provider : string; agp_Consumer : string; agp_ModelID : string;
  agp_PricePerCall : Z; agp_MaxCalls : Z }.
Record usagePayload := mkusagePayload { usp_AgreementID : string; usp_UsageCount : Z }.

(** A message of the libp2p bridge.  Its block and transaction are generic JSON
    objects; the fields below are what the type assertions of the handler give:
    [None] or the empty string when a key is absent or of another type, and for
    a transaction [None] when it does not decode. *)
Record ingestBlock := mkingestBlock {
  ib_index : option float64; ib_block_hash : string; ib_author : string;
  ib_timestamp : option float64; ib_previous_hash : string;
  ib_transactions : list (option Transaction) }.
Record ingestMessage := mkingestMessage {
  ing_Type : string; ing_Block : option ingestBlock; ing_Tx : option (option Transaction);
  ing_FromNodeID : string }.

(** [json.NewDecoder(r.Body).Decode(&payload)] for each struct.  The body a
    handler sees is cut off at the configured size ([http.MaxBytesReader]); a
    value that ends before is decoded nevertheless. *)
Class Decoders := {
  decode_finality : list byte → outcome finalityPayload;
  decode_index : list byte → outcome Z;
  decode_tx : list byte → outcome Transaction;
  decode_miner : list byte → outcome string;
  decode_block : list byte → outcome Block;
  decode_register : list byte → outcome registerPayload;
  decode_model : list byte → outcome modelPayload;
  decode_purchase : list byte → outcome purchasePayload;
  decode_amount : list byte → outcome amountPayload;
  decode_directory : list byte → outcome directoryPayload;
  decode_universal : list byte → outcome universalPayload;
  decode_wallet : list byte → outcome walletPayload;
  decode_escrow : list byte → outcome escrowPayload;
  decode_reversal : list byte → outcome reversalPayload;
  decode_proposal : list byte → outcome proposalPayload;
  decode_agreement : list byte → outcome agreementPayload;
  decode_usage : list byte → outcome usagePayload;
  decode_ingest : list byte → outcome ingestMessage;
}.

(** ** The server *)

(** What [StartAPI] and its closures hold, with the peer node's public fields. *)
Record server := mkserver {
  sv_cfg : ServerConfig; sv_chain : Blockchain; sv_locked : bool; sv_limiter : rateLimiter;
  sv_breaker : circuitBreaker; sv_seen : gset string; sv_addr : string; sv_peers : list string;
  sv_trusted : gmap string bool; sv_strict : bool }.

#[export] Instance server_rebuild : Rebuild server := λ r,
  mkserver (sv_cfg r) (sv_chain r) (sv_locked r) (sv_limiter r) (sv_breaker r) (sv_seen r)
    (sv_addr r) (sv_peers r) (sv_trusted r) (sv_strict r).

Definition newServer (cfg : ServerConfig) (chain : Blockchain) (addr : string) (peers : list string)
    (trusted : gmap string bool) (strict : bool) : server :=
  mkserver cfg chain false (newRateLimiter (cfg_RateLimit cfg) (cfg_RateWindow cfg))
    (newCircuitBreaker 5 (10 * Second)) ∅ addr peers trusted strict.

(** ** Handlers *)

Inductive step (A : Type) :=
| Continue (a : A)
| Respond (r : response)
| Abort
| Hang.
Arguments Continue {A} _.
Arguments Respond {A} _.
Arguments Abort {A}.
Arguments Hang {A}.

Definition handler (A : Type) : Type := server → step A * server.

#[export] Instance handler_ret : MRet handler := λ A a s, (Continue a, s).
#[export] Instance handler_bind : MBind handler := λ A B f m s,
  match m s with
  | (Continue a, s) => f a s
  | (Respond r, s) => (Respond r, s)
  | (Abort, s) => (Abort, s)
  | (Hang, s) => (Hang, s)
  end.

Definition answer (code : Z) (body : reply) : handler response := mret (mkresponse code body).
Definition ok (body : reply) : handler response := answer 200 body.
Definition object (fields : list (string * value)) : handler response := ok (Object fields).

(** [http.Error(w, msg, code); return] *)
Definition http_error {A} (code : Z) (msg : string) : handler A :=
  λ s, (Respond (mkresponse code (Text msg)), s).

(** A method that takes the lock, and one that does not. *)
Definition locked {A} (f : Blockchain → A * Blockchain) : handler A := λ s,
  if sv_locked s then (Hang, s)
  else let '(a, bc) := f (sv_chain s) in (Continue a, s <| sv_chain := bc |>).
Definition unlocked {A} (f : Blockchain → A * Blockchain) : handler A := λ s,
  let '(a, bc) := f (sv_chain s) in (Continue a, s <| sv_chain := bc |>).

Definition locked_do (f : Blockchain → Blockchain) : handler unit := locked (λ bc, (tt, f bc)).
Definition unlocked_do (f : Blockchain → Blockchain) : handler unit := unlocked (λ bc, (tt, f bc)).
Definition read_locked {A} (f : Blockchain → A) : handler A := locked (λ bc, (f bc, bc)).

(** [chain.Lock()] and [chain.Unlock()] in a handler of its own. *)
Definition lock : handler unit := λ s,
  if sv_locked s then (Hang, s) else (Continue tt, s <| sv_locked := true |>).
Definition unlock : handler unit := λ s, (Continue tt, s <| sv_locked := false |>).

Definition gets {A} (f : server → A) : handler A := λ s, (Continue (f s), s).

Section api.
Context `{Runtime} `{Ed25519} `{Decoders}.

Definition save : handler unit := unlocked_do (λ bc, (SaveToDisk bc).2).

(** An operation that returns an error: [if err != nil { http.Error(...) }]. *)
Definition or_error {A} (code : Z) (o : outcome A) : handler A :=
  match o with
  | Ok a => mret a
  | Err e => http_error code e
  | Panic _ => λ s, (Abort, s)
  end.

(** The guards. *)
Definition post_only (r : request) : handler unit :=
  if bool_decide (rq_Method r = "POST") then mret tt else http_error 405 "method not allowed".

Definition auth_result (r : request) : handler (outcome unit) :=
  gets (λ s, requireAuth (rq_Authorization r) (sv_cfg s)).

Definition authorized (r : request) : handler unit :=
  o ← auth_result r; or_error 401 o.

Definition allowed (r : request) : handler bool := λ s,
  let '(now, bc) := UnixNano (sv_chain s) in
  let '(b, rl) := allow (sv_limiter s) now (rq_RemoteAddr r) in
  (Continue b, s <| sv_chain := bc |> <| sv_limiter := rl |>).

Definition limited (r : request) : handler unit :=
  b ← allowed r; if b : bool then mret tt else http_error 429 "rate limit exceeded".

Definition decoded {A} (decode : list byte → outcome A) (r : request) : handler A :=
  or_error 400 (decode (rq_Body r)).

Definition failure : handler unit := λ s,
  let '(now, bc) := UnixNano (sv_chain s) in
  (Continue tt, s <| sv_chain := bc |> <| sv_breaker ::= λ cb, RecordFailure cb now |>).

Definition success : handler unit := λ s, (Continue tt, s <| sv_breaker ::= RecordSuccess |>).

Definition breaker_allows : handler bool := λ s,
  let '(now, bc) := UnixNano (sv_chain s) in
  let '(b, cb) := Allow (sv_breaker s) now in
  (Continue b, s <| sv_chain := bc |> <| sv_breaker := cb |>).

(** *** Chain, finality and monitoring *)

Definition h_health : handler response := object [("status", VString "ok")].

Definition h_chain (r : request) : handler response :=
  b ← breaker_allows;
  if negb b then http_error 503 "circuit breaker open" else
  o ← auth_result r;
  match o with
  | Err e | Panic e => _ ← failure; http_error 401 e
  | Ok _ =>
      b ← allowed r;
      if negb b then _ ← failure; http_error 429 "rate limit exceeded" else
      _ ← success;
      _ ← unlocked_do (λ bc, RecordRequest bc true);
      st ← read_locked Snapshot;
      ok (Json (VState st))
  end.

(** [_ = chain.CollectFinalityVote(index, voter)] *)
Definition collect (index : Z) (voter : string) : handler unit :=
  locked_do (λ bc, (CollectFinalityVote bc index voter).2).

Fixpoint collect_all (index : Z) (voters : list string) : handler unit :=
  match voters with
  | [] => mret tt
  | voter :: voters => _ ← collect index voter; collect_all index voters
  end.

(** The loop over the signatures takes no lock. *)
Definition add_signature (index : Z) (bc : Blockchain) (p : signaturePayload) : Blockchain :=
  let vote := mkFinalityVoteSignature (TailHash bc) (sgp_VoterHex p) (sgp_Vote p)
                (sgp_Signature p) in
  if VerifyFinalitySignature vote
  then bc <| bc_FinalitySignatures ::= <[index := signatures_at bc index ++ [vote]]> |> else bc.

Definition h_finality (r : request) : handler response :=
  _ ← authorized r;
  if bool_decide (rq_Method r = "POST") then
    p ← decoded decode_finality r;
    _ ← (if bool_decide (fnp_Voter p = "") then mret tt else collect (fnp_Index p) (fnp_Voter p));
    _ ← collect_all (fnp_Index p) (fnp_Voters p);
    _ ← unlocked_do (λ bc, foldl (add_signature (fnp_Index p)) bc (fnp_Signatures p));
    object [("status", VString "voted"); ("signatures_received", VInt (blen (fnp_Signatures p)))]
  else
    fields ← read_locked (λ bc,
      [("last_finalized", VInt (bc_LastFinalized bc)); ("finalized", VIndices (bc_FinalizedBlocks bc));
       ("signatures", VSignatures (bc_FinalitySignatures bc))]);
    object fields.

(** The context value ["validator_address"] is set by no middleware; the
    request has it as a field, empty when absent. *)
Definition h_finality_vote (r : request) : handler response :=
  _ ← authorized r;
  _ ← post_only r;
  index ← decoded decode_index r;
  let voter := if bool_decide (rq_validator_address r = "") then rq_RemoteAddr r
               else rq_validator_address r in
  _ ← collect index voter;
  object [("status", VString "voted"); ("voter", VString voter)].

Definition h_audit : handler response :=
  l ← read_locked bc_AuditTrail; ok (Json (VAudit l)).

Definition h_monitoring (r : request) : handler response :=
  _ ← authorized r;
  _ ← limited r;
  peers ← gets (λ s, (blen (sv_peers s), Z.of_nat (size (sv_trusted s)), sv_strict s));
  let '(n, trusted, strict) := peers in
  fields ← read_locked (λ bc,
    [("height", VInt (blen (bc_Chain bc))); ("pending_transactions", VInt (blen (bc_Pending bc)));
     ("token_supply", VInt (bc_TokenSupply bc)); ("audit_entries", VInt (blen (bc_AuditTrail bc)));
     ("peer_count", VInt n); ("trusted_peer_count", VInt trusted); ("strict_p2p", VBool strict);
     ("consensus", VString (ConsensusName (bc_Consensus bc)))]);
  object fields.

Definition h_mempool : handler response :=
  l ← read_locked bc_Pending; ok (Json (VTxs l)).

(** *** Transactions and mining *)

Definition enqueue_and_save (tx : Transaction) : handler unit :=
  _ ← locked_do (λ bc, EnqueueTransaction bc tx); save.

Definition h_transactions (r : request) : handler response :=
  _ ← authorized r;
  _ ← limited r;
  _ ← post_only r;
  tx ← decoded decode_tx r;
  _ ← enqueue_and_save tx;
  ok (Json (VTx tx)).

(** [MineBlockFor] holds the lock while it searches. *)
Definition mine (fuel : nat) (miner : string) : handler (outcome Block) := λ s,
  if sv_locked s then (Hang, s) else
  match MineBlockFor fuel (sv_chain s) miner with
  | None => (Hang, s <| sv_locked := true |>)
  | Some (o, bc) => (Continue o, s <| sv_chain := bc |>)
  end.

Definition h_mine (fuel : nat) (r : request) : handler response :=
  _ ← post_only r;
  miner ← decoded decode_miner r;
  o ← mine fuel miner;
  block ← or_error 500 o;
  ok (Json (VBlock block)).

Definition h_miner_submit (r : request) : handler response :=
  _ ← post_only r;
  block ← decoded decode_block r;
  o ← locked (λ bc, SubmitMinedBlock bc block);
  _ ← or_error 400 o;
  object [("status", VString "accepted"); ("hash", VString (blk_BlockHash block))].

(** *** Validators and peers *)

(** [SelectValidator] advances the index of the next author under the read
    lock. *)
Definition h_validators : handler response :=
  fields ← locked (λ bc,
    let '(next, bc) := SelectValidator bc in
    ([("consensus", VString (ConsensusName (bc_Consensus bc)));
      ("authorities", VStrings (bc_Authorities bc)); ("next_validator", VString next);
      ("validators", VValidators (bc_Validators bc))], bc));
  object fields.

Definition h_validators_register (r : request) : handler response :=
  _ ← post_only r;
  p ← decoded decode_register r;
  o ← locked (λ bc, RegisterValidator bc (rgp_Address p) (rgp_Stake p) (rgp_PublicKey p));
  _ ← or_error 400 o;
  _ ← save;
  object [("status", VString "registered")].

Definition h_bootstrap : handler response :=
  info ← gets (λ s, (sv_addr s, sv_peers s, sv_trusted s));
  let '(addr, peers, trusted) := info in
  next ← unlocked SelectValidator;
  object [("node", VString addr); ("peers", VStrings peers); ("trusted", VBools trusted);
          ("validator", VString next)].

(** *** Models *)

Definition h_registry : handler response :=
  m ← read_locked bc_Registry; ok (Json (VRegistry m)).

Definition h_registry_register (r : request) : handler response :=
  _ ← authorized r;
  _ ← limited r;
  _ ← post_only r;
  p ← decoded decode_model r;
  _ ← locked_do (λ bc, bc_RegisterModel bc (mdp_Owner p) (mdp_ID p) (mdp_Version p) (mdp_Metadata p)
                         (mdp_PricePerCall p) (mdp_Active p));
  _ ← save;
  object [("status", VString "registered"); ("id", VString (mdp_ID p))].

Definition h_registry_update (r : request) : handler response :=
  _ ← authorized r;
  _ ← limited r;
  _ ← post_only r;
  p ← decoded decode_model r;
  _ ← locked_do (λ bc, bc_UpdateModel bc (mdp_Owner p) (mdp_ID p) (mdp_Version p) (mdp_Metadata p)
                         (mdp_PricePerCall p));
  _ ← save;
  object [("status", VString "updated"); ("id", VString (mdp_ID p))].

Definition h_registry_purchase (r : request) : handler response :=
  _ ← authorized r;
  _ ← limited r;
  _ ← post_only r;
  p ← decoded decode_purchase r;
  _ ← locked_do (λ bc, bc_PurchaseApiKey bc (pcp_Buyer p) (pcp_ModelID p) (pcp_Amount p));
  _ ← save;
  object [("status", VString "purchased"); ("model_id", VString (pcp_ModelID p))].

(** *** Accounts and wallets *)

Definition h_accounts : handler response :=
  m ← read_locked bc_Ledger; ok (Json (VLedger m)).

Definition h_stake (r : request) : handler response :=
  _ ← post_only r;
  p ← decoded decode_amount r;
  _ ← locked_do (λ bc, Stake bc (amp_Address p) (amp_Amount p));
  _ ← save;
  object [("address", VString (amp_Address p)); ("amount", VInt (amp_Amount p))].

Definition h_wallet : handler response :=
  wallet ← unlocked (λ bc, (NewWallet (bc_ticks bc), tick bc));
  let address := WalletAddress wallet in
  _ ← locked_do (λ bc, AddAccount bc address 1000 false);
  _ ← save;
  object [("address", VString address);
          ("public_key", VString (EncodeToString (w_PublicKey wallet)))].

Definition h_universal_register (r : request) : handler response :=
  _ ← limited r;
  _ ← post_only r;
  p ← decoded decode_directory r;
  o ← locked (λ bc, RegisterUniversalWallet bc (drp_Name p) (drp_Address p) (drp_Label p)
                      (drp_Currency p));
  uw ← or_error 400 o;
  _ ← save;
  ok (Json (VUniversal uw)).

Definition h_universal_lookup (r : request) : handler response :=
  let name := TrimSpace (rq_name r) in
  if bool_decide (name = "") then http_error 400 "missing name" else
  o ← read_locked (λ bc, LookupWallet bc name);
  uw ← or_error 404 o;
  ok (Json (VUniversal uw)).

Definition h_universal_transfer (r : request) : handler response :=
  _ ← limited r;
  _ ← post_only r;
  p ← decoded decode_universal r;
  o ← locked (λ bc, UniversalTransfer bc (unp_From p) (unp_ToName p) (unp_Currency p) (unp_Amount p));
  uw ← or_error 400 o;
  _ ← save;
  object [("status", VString "transferred"); ("recipient", VUniversal uw)].

(** [chain.Ledger[address].Balance] dereferences the account that was just
    funded. *)
Definition h_faucet (r : request) : handler response :=
  _ ← limited r;
  _ ← post_only r;
  p ← decoded decode_amount r;
  if bool_decide (amp_Address p = "") then http_error 400 "missing address" else
  faucet ← gets (λ s, cfg_FaucetAmount (sv_cfg s));
  let amount := if amp_Amount p =? 0 then faucet else amp_Amount p in
  _ ← locked_do (λ bc, FundAccount bc (amp_Address p) amount);
  account ← read_locked (λ bc, bc_Ledger bc !! amp_Address p);
  match account with
  | None => λ s, (Abort, s)
  | Some a =>
      object [("address", VString (amp_Address p)); ("amount", VInt amount);
              ("amount_formatted", VString (FormatAmount amount)); ("balance", VInt (acc_Balance a));
              ("balance_formatted", VString (FormatAmount (acc_Balance a)))]
  end.

(** The handler takes the lock and then calls [AddAccount], which takes it
    again. *)
Definition h_admin_mint (r : request) : handler response :=
  _ ← post_only r;
  p ← decoded decode_amount r;
  if bool_decide (amp_Address p = "") || (amp_Amount p =? 0) then
    http_error 400 "missing address or amount" else
  _ ← lock;
  supply ← gets (λ s, bc_TokenSupply (sv_chain s));
  if MaxSupply <? supply +! amp_Amount p then
    _ ← unlock; http_error 400 "mint would exceed max supply" else
  _ ← locked_do (λ bc, AddAccount bc (amp_Address p) (amp_Amount p) false);
  _ ← unlocked_do (λ bc, bc <| bc_TokenSupply ::= λ s, s +! amp_Amount p |>);
  _ ← unlock;
  _ ← save;
  object [("address", VString (amp_Address p)); ("amount", VInt (amp_Amount p));
          ("status", VString "minted")].

Definition h_token : handler response :=
  object [("currency_name", VString CurrencyName); ("currency_symbol", VString CurrencySymbol);
          ("currency_subunit", VString CurrencySubunit); ("subunit_factor", VInt HogohogoPerTender);
          ("base_fee", VInt BaseFee); ("base_fee_formatted", VString (FormatAmount BaseFee));
          ("burn_rate_percent", VInt BurnRatePercent);
          ("reward_rate_percent", VInt RewardRatePercent)].

Definition h_managed_wallets (r : request) : handler response :=
  _ ← post_only r;
  p ← decoded decode_wallet r;
  o ← locked (λ bc, CreateManagedWallet bc (wlp_Label p) (wlp_IsAgent p));
  wallet ← or_error 400 o;
  _ ← save;
  ok (Json (VWallet wallet)).

Definition h_transfer (r : request) : handler response :=
  _ ← authorized r;
  _ ← limited r;
  _ ← post_only r;
  tx ← decoded decode_tx r;
  _ ← enqueue_and_save tx;
  ok (Json (VTx tx)).

Definition h_transfer_binary (r : request) : handler response :=
  _ ← authorized r;
  _ ← limited r;
  _ ← post_only r;
  if rq_truncated r then http_error 400 "http: request body too large" else
  tx ← or_error 400 (DecodeTransactionBinary (rq_Body r));
  _ ← enqueue_and_save tx;
  ok (Json (VTx tx)).

(** *** Escrows, reversals, governance, agreements *)

Definition h_escrow (r : request) : handler response :=
  _ ← post_only r;
  p ← decoded decode_escrow r;
  o ← locked (λ bc, CreateEscrow bc (esp_From p) (esp_To p) (esp_Amount p) (esp_ServiceID p));
  escrow ← or_error 400 o;
  _ ← save;
  ok (Json (VEscrow escrow)).

(** The transaction a reversal endpoint builds: no ID, key, signature, nonce or
    chain. *)
Definition reversal_tx (txType : TransactionType) (from to : string) (amount : Z) (original : string)
    : Transaction :=
  mkTransaction "" from "" to amount 0 0 txType original "" 0 "".

Definition h_reversals_request (r : request) : handler response :=
  _ ← post_only r;
  p ← decoded decode_reversal r;
  _ ← enqueue_and_save
        (reversal_tx RequestReversal (rvp_From p) (rvp_To p) (rvp_Amount p) (rvp_OriginalTxID p));
  object [("status", VString "reversal_requested"); ("original_tx", VString (rvp_OriginalTxID p))].

Definition h_reversals_confirm (r : request) : handler response :=
  _ ← post_only r;
  p ← decoded decode_reversal r;
  _ ← enqueue_and_save
        (reversal_tx ConfirmReversal (rvp_From p) (rvp_From p) 0 (rvp_OriginalTxID p));
  object [("status", VString "reversal_confirmed"); ("original_tx", VString (rvp_OriginalTxID p))].

Definition h_reversals_commit (r : request) : handler response :=
  _ ← post_only r;
  p ← decoded decode_reversal r;
  _ ← enqueue_and_save
        (reversal_tx CommitReversal (rvp_From p) (rvp_From p) 0 (rvp_OriginalTxID p));
  object [("status", VString "reversal_committed"); ("original_tx", VString (rvp_OriginalTxID p))].

Definition h_proposals (r : request) : handler response :=
  _ ← post_only r;
  p ← decoded decode_proposal r;
  proposal ← locked (λ bc, CreateProposal bc (prp_Title p) (prp_Description p));
  _ ← save;
  ok (Json (VProposal proposal)).

Definition h_agreements (r : request) : handler response :=
  _ ← post_only r;
  p ← decoded decode_agreement r;
  o ← locked (λ bc, CreateServiceAgreement bc (agp_Provider p) (agp_Consumer p) (agp_ModelID p)
                      (agp_PricePerCall p) (agp_MaxCalls p));
  agreement ← or_error 400 o;
  _ ← save;
  ok (Json (VAgreement agreement)).

Definition h_usage (r : request) : handler response :=
  _ ← post_only r;
  p ← decoded decode_usage r;
  o ← locked (λ bc, RecordUsage bc (usp_AgreementID p) (usp_UsageCount p));
  meter ← or_error 400 o;
  _ ← save;
  ok (Json (VMeter meter)).

Definition h_tokenomics : handler response :=
  fields ← read_locked (λ bc,
    let agentBaseDemand := 1000000 in
    let agentDemand := agentBaseDemand +!
      u64_of_f64 (f64_mul (f64_mul (f64_of_Z agentBaseDemand) (f64_lit 5 100))
                    (f64_of_Z (bc_AgentTxCount bc))) in
    let deflPressure :=
      if 0 <? bc_TokenSupply bc then
        if 5000000000 <? bc_TokenSupply bc
        then f64_mul (f64_of_Z BurnRatePercent) (f64_lit 3 2) else f64_of_Z BurnRatePercent
      else f64_of_Z 0 in
    let humanScore :=
      if f64_lt (f64_of_Z 0) deflPressure then f64_div (f64_of_Z agentDemand) deflPressure
      else if 0 <? agentDemand then f64_of_Z agentDemand else f64_of_Z 0 in
    [("currency", VString CurrencySymbol); ("token_supply", VInt (bc_TokenSupply bc));
     ("burn_rate_percent", VInt BurnRatePercent); ("reward_rate_percent", VInt RewardRatePercent);
     ("base_fee", VInt BaseFee); ("escrows", VEscrows (bc_Escrows bc));
     ("proposals", VProposals (bc_Proposals bc)); ("agent_tx_count", VInt (bc_AgentTxCount bc));
     ("agent_demand_pressure", VInt agentDemand); ("deflationary_pressure", VFloat deflPressure);
     ("human_value_score", VFloat humanScore)]);
  object fields.

(** *** The libp2p bridge *)

(** [int64(f)] *)
Definition i64_of_f64 (f : float64) : Z :=
  match f with
  | S754_zero _ => 0
  | S754_finite s m e =>
      let t := f64_trunc m e in
      let t := if s then - t else t in
      if (- 2 ^ 63 <=? t) && (t <? 2 ^ 63) then t else i64 (float_overflow f)
  | _ => i64 (float_overflow f)
  end.

(** [chain.EnqueueTransaction(tx)] takes the lock the handler holds. *)
Definition ingest_tx (o : option Transaction) : handler unit :=
  match o with Some tx => locked_do (λ bc, EnqueueTransaction bc tx) | None => mret tt end.

Fixpoint ingest_txs (l : list (option Transaction)) : handler unit :=
  match l with [] => mret tt | o :: l => _ ← ingest_tx o; ingest_txs l end.

Definition ingest_fields (b : Block) (ib : ingestBlock) : Block :=
  let b := b <| blk_BlockHash := ib_block_hash ib |> <| blk_Author := ib_author ib |> in
  let b := match ib_timestamp ib with
           | Some ts => b <| blk_Timestamp := i64_of_f64 ts |> | None => b end in
  b <| blk_PreviousHash := ib_previous_hash ib |>.

Definition ingest_block (ib : ingestBlock) : handler unit :=
  match ib_index ib with
  | None => mret tt
  | Some idxFloat =>
      let idx := u64_of_f64 idxFloat in
      chain ← gets (λ s, bc_Chain (sv_chain s));
      if i64 idx <? blen chain then
        match chain !! Z.to_nat idx with
        | None => λ s, (Abort, s)
        | Some b =>
            if bool_decide (blk_BlockHash b = "") then
              _ ← ingest_txs (ib_transactions ib);
              _ ← unlocked_do (λ bc, bc <| bc_Chain ::= <[Z.to_nat idx := ingest_fields b ib]> |>);
              save
            else mret tt
        end
      else mret tt
  end.

Definition h_ingest (r : request) : handler response :=
  _ ← post_only r;
  msg ← decoded decode_ingest r;
  _ ← lock;
  _ ← (if bool_decide (ing_Type msg = "block") then
         match ing_Block msg with Some ib => ingest_block ib | None => mret tt end
       else if bool_decide (ing_Type msg = "tx") then
         match ing_Tx msg with Some o => ingest_tx o | None => mret tt end
       else mret tt);
  _ ← unlock;
  object [("status", VString "accepted"); ("from", VString (ing_FromNodeID msg))].

(** ** Routes and middlewares *)

Definition routes (fuel : nat) : list (string * (request → handler response)) :=
  [("/health", λ _, h_health); ("/api/chain", h_chain); ("/api/finality", h_finality);
   ("/api/finality/vote", h_finality_vote); ("/api/audit", λ _, h_audit);
   ("/api/monitoring", h_monitoring); ("/api/mempool", λ _, h_mempool);
   ("/api/transactions", h_transactions); ("/api/mine", h_mine fuel);
   ("/api/miner/submit", h_miner_submit); ("/api/validators", λ _, h_validators);
   ("/api/validators/register", h_validators_register); ("/api/bootstrap", λ _, h_bootstrap);
   ("/api/registry", λ _, h_registry); ("/api/registry/register", h_registry_register);
   ("/api/registry/update", h_registry_update); ("/api/registry/purchase", h_registry_purchase);
   ("/api/accounts", λ _, h_accounts); ("/api/stake", h_stake); ("/api/wallet", λ _, h_wallet);
   ("/api/universal/register", h_universal_register);
   ("/api/universal/lookup", h_universal_lookup);
   ("/api/universal/transfer", h_universal_transfer); ("/api/faucet", h_faucet);
   ("/api/admin/mint", h_admin_mint); ("/api/token", λ _, h_token);
   ("/api/managed-wallets", h_managed_wallets); ("/api/transfer", h_transfer);
   ("/api/transfer-binary", h_transfer_binary); ("/api/escrow", h_escrow);
   ("/api/reversals/request", h_reversals_request);
   ("/api/reversals/confirm", h_reversals_confirm);
   ("/api/reversals/commit", h_reversals_commit); ("/api/proposals", h_proposals);
   ("/api/agreements", h_agreements); ("/api/usage", h_usage);
   ("/api/tokenomics", λ _, h_tokenomics); ("/api/p2p/libp2p/ingest", h_ingest)].

Fixpoint find_route (path : string) (l : list (string * (request → handler response)))
    : request → handler response :=
  match l with
  | [] => λ r, ok (File (rq_Path r))
  | (p, h) :: l => if bool_decide (path = p) then h else find_route path l
  end.

Definition mux (fuel : nat) (r : request) : handler response :=
  find_route (rq_Path r) (routes fuel) r.

(** [http.MaxBytesReader]: reading beyond the limit fails. *)
Definition limit_body (limit : Z) (r : request) : request :=
  if (0 <? limit) && (limit <? blen (rq_Body r))
  then r <| rq_Body ::= take (Z.to_nat limit) |> <| rq_truncated := true |> else r.

Definition maxBodyMiddleware (next : request → handler response) (r : request) : handler response :=
  limit ← gets (λ s, cfg_MaxBodyBytes (sv_cfg s));
  if (0 <? limit) && (0 <? rq_ContentLength r) && (limit <? rq_ContentLength r) then
    http_error 413 "request body too large"
  else next (limit_body limit r).

Definition idempotencyMiddleware (next : request → handler response) (r : request)
    : handler response :=
  if bool_decide (rq_IdempotencyKey r = "") then next r else
  seen ← gets (λ s, bool_decide (rq_IdempotencyKey r ∈ sv_seen s));
  if seen : bool then http_error 409 "duplicate idempotency key" else
  _ ← (λ s, (Continue tt, s <| sv_seen ::= union {[rq_IdempotencyKey r]} |>));
  next r.

(** The request-ID middleware only sets a header. *)
Definition serve (fuel : nat) (r : request) : handler response :=
  idempotencyMiddleware (maxBodyMiddleware (mux fuel)) r.
End api.
