(* ===== verification/ApiSafety.v ===== *)
(** * What requests can and cannot do (go-chain/api/api.go)

    Facts about every endpoint of [Api] at once.  A refused request (an answer
    between 400 and 499) leaves the chain as it was; nothing but the endpoints'
    own calls changes it.  The lock: a mint request, or a bridge message with a
    transaction, blocks for ever with the lock held, and from then on every
    request that needs it blocks.

    The facts are proved endpoint by endpoint with rules for the monad's
    operations: [quiet] operations leave the chain, [silent] ones never answer,
    [unrefused] handlers never answer with a refusal. *)

From S2P Require Import Prelude Runtime Float64 Text Sha256 Domain Json Encoding Merkle Tendermint State Accounts Validation Apply Reversal Mempool Rewards Mining Finality Limits Api.
Open Scope Z_scope.
Open Scope go_scope.

(** ** Rules *)

(** The chain apart from the number of clock readings. *)
Definition same_chain (s s' : server) : Prop :=
  ∃ n, sv_chain s' = (sv_chain s) <| bc_ticks := n |>.

Definition same_node (bc bc' : Blockchain) : Prop := ∃ n, bc' = bc <| bc_ticks := n |>.

Lemma same_node_refl bc : same_node bc bc.
Proof. exists (bc_ticks bc). by destruct bc. Qed.

Lemma same_chain_refl s : same_chain s s.
Proof. apply same_node_refl. Qed.

Lemma same_chain_trans s1 s2 s3 : same_chain s1 s2 → same_chain s2 s3 → same_chain s1 s3.
Proof. intros [n E1] [m E2]. exists m. rewrite E2, E1. reflexivity. Qed.

#[export] Hint Resolve same_node_refl same_chain_refl : core.

Definition refusal (r : response) : Prop := 400 ≤ rs_code r < 500.

Section rules.
Context {A B : Type}.

(** Whatever comes out, the chain is the same. *)
Definition quiet (m : handler A) : Prop := ∀ s, same_chain s (m s).2.

(** No answer comes out of it. *)
Definition silent (m : handler A) : Prop :=
  ∀ s, match (m s).1 with Respond _ => False | _ => True end.
End rules.

(** No answer of the handler is a refusal. *)
Definition unrefused (h : handler response) : Prop :=
  ∀ s, match (h s).1 with Continue r | Respond r => ¬ refusal r | _ => True end.

(** After a refusal the chain is the same. *)
Definition refuses_safely (h : handler response) : Prop :=
  ∀ s, match (h s).1 with
       | Continue r | Respond r => refusal r → same_chain s (h s).2
       | _ => True
       end.

Create HintDb api.

Lemma quiet_bind {A B} (m : handler A) (k : A → handler B) :
  quiet m → (∀ a, quiet (k a)) → quiet (a ← m; k a).
Proof.
  intros Hm Hk s. specialize (Hm s). unfold mbind, handler_bind.
  destruct (m s) as [[a|r| |] s1]; cbn [snd] in *; try done.
  eapply same_chain_trans; [done|apply Hk].
Qed.

Lemma silent_bind {A B} (m : handler A) (k : A → handler B) :
  silent m → (∀ a, silent (k a)) → silent (a ← m; k a).
Proof.
  intros Hm Hk s. specialize (Hm s). unfold mbind, handler_bind.
  destruct (m s) as [[a|r| |] s1]; cbn [fst snd] in *; try done. apply Hk.
Qed.

Lemma unrefused_bind {A} (m : handler A) (k : A → handler response) :
  silent m → (∀ a, unrefused (k a)) → unrefused (a ← m; k a).
Proof.
  intros Hm Hk s. specialize (Hm s). unfold mbind, handler_bind.
  destruct (m s) as [[a|r| |] s1]; cbn [fst snd] in *; try done. apply Hk.
Qed.

Lemma refuses_quiet_bind {A} (m : handler A) (k : A → handler response) :
  quiet m → (∀ a, refuses_safely (k a)) → refuses_safely (a ← m; k a).
Proof.
  intros Hm Hk s. specialize (Hm s). unfold mbind, handler_bind.
  destruct (m s) as [[a|r| |] s1]; cbn [fst snd] in *; try done.
  specialize (Hk a s1). destruct (k a s1) as [[r|r| |] s2]; cbn [fst snd] in *; try done;
    intros Hr; (eapply same_chain_trans; [done|auto]).
Qed.

Lemma refuses_unrefused h : unrefused h → refuses_safely h.
Proof. intros Hh s. specialize (Hh s). destruct (h s) as [[r|r| |] s1]; cbn in *; tauto. Qed.

Lemma quiet_ret {A} (a : A) : quiet (mret a).
Proof. by intros s. Qed.

Lemma silent_ret {A} (a : A) : silent (mret a).
Proof. by intros s. Qed.

Lemma unrefused_ret r : ¬ refusal r → unrefused (mret r).
Proof. by intros Hr s. Qed.

Lemma unrefused_ok body : unrefused (ok body).
Proof. apply unrefused_ret. unfold refusal. cbn. lia. Qed.

Lemma unrefused_object fields : unrefused (object fields).
Proof. apply unrefused_ok. Qed.

Lemma refuses_ok body : refuses_safely (ok body).
Proof. apply refuses_unrefused, unrefused_ok. Qed.

Lemma refuses_object fields : refuses_safely (object fields).
Proof. apply refuses_ok. Qed.

(** Errors of the server are no refusals. *)
Lemma unrefused_server_error {A} (o : outcome A) (k : A → handler response) :
  (∀ a, unrefused (k a)) → unrefused (a ← or_error 500 o; k a).
Proof.
  intros Hk s. destruct o as [a|e|e]; [apply Hk| |done]. intros [_ Hlt]. by apply Z.lt_irrefl in Hlt.
Qed.

Lemma quiet_error {A} code msg : quiet (@http_error A code msg).
Proof. by intros s. Qed.

Lemma refuses_error code msg : refuses_safely (http_error code msg).
Proof. intros s _. apply same_chain_refl. Qed.

Lemma quiet_gets {A} (f : server → A) : quiet (gets f).
Proof. by intros s. Qed.

Lemma silent_gets {A} (f : server → A) : silent (gets f).
Proof. by intros s. Qed.

Lemma silent_locked {A} (f : Blockchain → A * Blockchain) : silent (locked f).
Proof. intros s. unfold locked. destruct (sv_locked s); [done|]. by destruct (f (sv_chain s)). Qed.

Lemma silent_unlocked {A} (f : Blockchain → A * Blockchain) : silent (unlocked f).
Proof. intros s. unfold unlocked. by destruct (f (sv_chain s)). Qed.

Lemma quiet_read {A} (f : Blockchain → A) : quiet (read_locked f).
Proof.
  intros s. unfold read_locked, locked. destruct (sv_locked s); [done|].
  exists (bc_ticks (sv_chain s)). destruct s as [? []]. reflexivity.
Qed.

Lemma quiet_lock : quiet lock.
Proof. intros s. unfold lock. destruct (sv_locked s); [done|]. apply same_node_refl. Qed.

Lemma silent_lock : silent lock.
Proof. intros s. unfold lock. by destruct (sv_locked s). Qed.

Lemma quiet_unlock : quiet unlock.
Proof. intros s. apply same_node_refl. Qed.

Lemma silent_unlock : silent unlock.
Proof. by intros s. Qed.

Lemma quiet_or_error {A} code (o : outcome A) : quiet (or_error code o).
Proof. destruct o; by intros s. Qed.

(** A call that returns an error without changing the chain, its error
    answered, and then no refusal. *)
Lemma refuses_call {A} code (f : Blockchain → outcome A * Blockchain) (k : A → handler response) :
  (∀ bc e bc', f bc = (Err e, bc') → same_node bc bc') → (∀ a, unrefused (k a)) →
  refuses_safely (o ← locked f; a ← or_error code o; k a).
Proof.
  intros Hf Hk s. unfold mbind, handler_bind, locked. destruct (sv_locked s); [done|].
  destruct (f (sv_chain s)) as [o bc'] eqn:E. destruct o as [a|e|e]; cbn; [|intros _|done].
  - specialize (Hk a (s <| sv_chain := bc' |>)). unfold mret, handler_ret.
    destruct (k a _) as [[]]; cbn in *; tauto.
  - exact (Hf _ e _ E).
Qed.

#[export] Hint Resolve quiet_bind silent_bind quiet_ret silent_ret quiet_error quiet_gets
  silent_gets silent_locked silent_unlocked quiet_read quiet_lock silent_lock quiet_unlock
  silent_unlock quiet_or_error unrefused_ok unrefused_object refuses_error refuses_ok refuses_object : api.

(** Goes through a handler: quiet operations first, then a call whose error is
    answered, then operations that never refuse. *)
Ltac handler_steps :=
  repeat match goal with
  | |- _ => solve [auto with api]
  | |- ∀ _, _ => intros ?
  | |- refuses_safely (if ?b then _ else _) => destruct b
  | |- unrefused (if ?b then _ else _) => destruct b
  | |- quiet (if ?b then _ else _) => destruct b
  | |- silent (if ?b then _ else _) => destruct b
  | |- refuses_safely (match ?o with _ => _ end) => destruct o
  | |- unrefused (match ?o with _ => _ end) => destruct o
  | |- quiet (match ?o with _ => _ end) => destruct o
  | |- silent (match ?o with _ => _ end) => destruct o
  | |- unrefused (λ s, (Abort, s)) => by intros ?
  | |- silent (λ s, (Abort, s)) => by intros ?
  | |- refuses_safely (o ← locked _; a ← or_error _ o; _) => apply refuses_call
  | |- refuses_safely (mbind _ _) =>
      first [apply refuses_quiet_bind; [solve [auto 10 with api]|intros ?]
            |apply refuses_unrefused]
  | |- unrefused (a ← or_error 500 _; _) => apply unrefused_server_error
  | |- unrefused (mbind _ _) => apply unrefused_bind
  end.

Section endpoints.
Context `{Runtime} `{Ed25519} `{Decoders}.

(** ** Guards and calls *)

Lemma quiet_post_only r : quiet (post_only r).
Proof. unfold post_only. case_bool_decide; auto with api. Qed.

Lemma quiet_authorized r : quiet (authorized r).
Proof. unfold authorized, auth_result. auto with api. Qed.

Lemma quiet_allowed r : quiet (allowed r).
Proof. intros s. unfold allowed. cbn. destruct (allow _ _ _). eexists; reflexivity. Qed.

Lemma quiet_limited r : quiet (limited r).
Proof.
  unfold limited. apply quiet_bind; [apply quiet_allowed|]. intros []; auto with api.
Qed.

Lemma quiet_decoded {A} (d : list byte → outcome A) r : quiet (decoded d r).
Proof. unfold decoded. auto with api. Qed.

Lemma quiet_failure : quiet failure.
Proof. intros s. eexists; reflexivity. Qed.

Lemma quiet_success : quiet success.
Proof. intros s. apply same_node_refl. Qed.

Lemma quiet_breaker_allows : quiet breaker_allows.
Proof. intros s. unfold breaker_allows. cbn. destruct (Allow _ _). eexists; reflexivity. Qed.

Lemma quiet_auth_result r : quiet (auth_result r).
Proof. apply quiet_gets. Qed.

Lemma silent_save : silent save.
Proof. apply silent_unlocked. Qed.

Lemma silent_locked_do f : silent (locked_do f).
Proof. apply silent_locked. Qed.

Lemma silent_unlocked_do f : silent (unlocked_do f).
Proof. apply silent_unlocked. Qed.

Lemma silent_read {A} (f : Blockchain → A) : silent (read_locked f).
Proof. apply silent_locked. Qed.

#[local] Hint Resolve quiet_post_only quiet_authorized quiet_allowed quiet_limited quiet_decoded
  quiet_failure quiet_success quiet_breaker_allows quiet_auth_result silent_save silent_locked_do
  silent_unlocked_do silent_read : api.

Lemma silent_enqueue tx : silent (enqueue_and_save tx).
Proof. unfold enqueue_and_save. auto with api. Qed.

Lemma silent_collect i v : silent (collect i v).
Proof. apply silent_locked_do. Qed.

Lemma silent_collect_all i l : silent (collect_all i l).
Proof. induction l as [|v l IH]; cbn [collect_all]; auto using silent_collect with api. Qed.

Lemma silent_mine fuel m : silent (mine fuel m).
Proof.
  intros s. unfold mine. destruct (sv_locked s); [done|].
  by destruct (MineBlockFor fuel (sv_chain s) m) as [[]|].
Qed.

Lemma silent_ingest_tx o : silent (ingest_tx o).
Proof. destruct o; cbn; auto with api. Qed.

Lemma silent_ingest_txs l : silent (ingest_txs l).
Proof. induction l as [|o l IH]; cbn [ingest_txs]; auto using silent_ingest_tx with api. Qed.

Lemma silent_ingest_block ib : silent (ingest_block ib).
Proof.
  unfold ingest_block. destruct (ib_index ib); [|auto with api]. cbv zeta.
  apply silent_bind; [auto with api|]. intros chain. destruct (_ <? _); [|auto with api].
  destruct (chain !! _); [|by intros s]. case_bool_decide; [|auto with api].
  apply silent_bind; [apply silent_ingest_txs|]. auto with api.
Qed.

#[local] Hint Resolve silent_enqueue silent_collect silent_collect_all silent_mine
  silent_ingest_tx silent_ingest_txs silent_ingest_block : api.

(** Calls that return an error leave the chain. *)
Lemma RegisterValidator_Err bc address stake key e bc' :
  RegisterValidator bc address stake key = (Err e, bc') → same_node bc bc'.
Proof.
  unfold RegisterValidator. cbv beta iota zeta delta [Unix UnixNano].
  intros E. repeat case_match; simplify_eq; auto.
Qed.

Lemma RegisterUniversalWallet_Err bc name address label currency e bc' :
  RegisterUniversalWallet bc name address label currency = (Err e, bc') → same_node bc bc'.
Proof.
  unfold RegisterUniversalWallet. cbv zeta.
  intros E. repeat case_match; simplify_eq; auto. eexists; reflexivity.
Qed.

Lemma UniversalTransfer_Err bc from to currency amount e bc' :
  UniversalTransfer bc from to currency amount = (Err e, bc') → same_node bc bc'.
Proof.
  unfold UniversalTransfer. cbv beta iota zeta delta [Unix UnixNano].
  intros E. repeat case_match; simplify_eq; auto.
Qed.

Lemma CreateManagedWallet_Err bc label isAgent e bc' :
  CreateManagedWallet bc label isAgent = (Err e, bc') → same_node bc bc'.
Proof. by unfold CreateManagedWallet. Qed.

Lemma CreateEscrow_Err bc from to amount service e bc' :
  CreateEscrow bc from to amount service = (Err e, bc') → same_node bc bc'.
Proof.
  unfold CreateEscrow. cbv beta iota zeta delta [UnixNano].
  intros E. repeat case_match; simplify_eq; auto.
Qed.

Lemma CreateServiceAgreement_Err bc provider consumer model price calls e bc' :
  CreateServiceAgreement bc provider consumer model price calls = (Err e, bc') → same_node bc bc'.
Proof.
  unfold CreateServiceAgreement. cbv beta iota zeta delta [UnixNano].
  intros E. repeat case_match; simplify_eq; auto.
Qed.

Lemma RecordUsage_Err bc agreement count e bc' :
  RecordUsage bc agreement count = (Err e, bc') → same_node bc bc'.
Proof.
  unfold RecordUsage. cbv zeta. intros E. repeat case_match; simplify_eq; auto.
Qed.

Ltac handler := intros _ r; cbn beta iota delta [fst snd]; unfold h_health, h_chain, h_finality, h_finality_vote, h_audit,
  h_monitoring, h_mempool, h_transactions, h_mine, h_validators, h_validators_register, h_bootstrap,
  h_registry, h_registry_register, h_registry_update, h_registry_purchase, h_accounts, h_stake,
  h_wallet, h_universal_register, h_universal_lookup, h_universal_transfer, h_faucet, h_admin_mint,
  h_token, h_managed_wallets, h_transfer, h_transfer_binary, h_escrow, h_reversals_request,
  h_reversals_confirm, h_reversals_commit, h_proposals, h_agreements, h_usage, h_tokenomics,
  h_ingest; cbv zeta; handler_steps;
  eauto using RegisterValidator_Err, RegisterUniversalWallet_Err, UniversalTransfer_Err,
    CreateManagedWallet_Err, CreateEscrow_Err, CreateServiceAgreement_Err, RecordUsage_Err.

Lemma routes_refuse_safely fuel :
  Forall (λ p, p.1 ≠ "/api/miner/submit" → ∀ r, refuses_safely (p.2 r)) (routes fuel).
Proof.
  unfold routes. repeat (apply Forall_cons_2; [first [by intros []|handler]|]). done.
Qed.

Lemma find_route_Forall (P : string * (request → handler response) → Prop) path l :
  Forall P l → (∃ h, (path, h) ∈ l ∧ find_route path l = h ∧ P (path, h)) ∨
  (∀ h, (path, h) ∉ l) ∧ find_route path l = λ r, ok (File (rq_Path r)).
Proof.
  induction 1 as [|[p h] l Hp _ IH]; [right; split; [set_solver|done]|]. cbn [find_route].
  case_bool_decide as E.
  - subst p. left. exists h. split; [by left|done].
  - destruct IH as [(h' & Hin & <- & ?)|[Hn ->]].
    + left. eexists. split; [by right|done].
    + right. split; [|done]. intros h'. rewrite elem_of_cons. intros [[= ??]|?]; naive_solver.
Qed.

Lemma mux_refuses_safely fuel r :
  rq_Path r ≠ "/api/miner/submit" → refuses_safely (mux fuel r).
Proof.
  intros Hp. unfold mux.
  destruct (find_route_Forall _ (rq_Path r) _ (routes_refuse_safely fuel))
    as [(h & _ & -> & Hh)|[_ ->]]; [by apply Hh|auto with api].
Qed.

(** ** Refused requests *)

Definition answer_of (o : step response) : option response :=
  match o with Continue a | Respond a => Some a | _ => None end.

Lemma limit_body_path limit r : rq_Path (limit_body limit r) = rq_Path r.
Proof. unfold limit_body. by destruct (_ && _). Qed.

(** C17. Whatever is sent to whatever endpoint, a request that is refused (answered
    with a code from 400 to 499) leaves the chain as it was, up to the number
    of clock readings.  The one exception is the submission of a mined block,
    which can report a failed disk write after it has applied the block. *)
Theorem refused_request_keeps_chain fuel r s a :
  rq_Path r ≠ "/api/miner/submit" →
  answer_of (serve fuel r s).1 = Some a → 400 ≤ rs_code a < 500 →
  ∃ n, sv_chain (serve fuel r s).2 = (sv_chain s) <| bc_ticks := n |>.
Proof.
  intros Hp Ha Hr.
  assert (refuses_safely (serve fuel r)) as Hs; cycle 1.
  { specialize (Hs s). destruct (serve fuel r s) as [[b|b| |] s']; cbn in *; simplify_eq;
      by apply Hs. }
  assert (refuses_safely (maxBodyMiddleware (mux fuel) r)) as Hb.
  { unfold maxBodyMiddleware. apply refuses_quiet_bind; [auto with api|]. intros limit.
    destruct (_ && _); [auto with api|]. apply mux_refuses_safely. by rewrite limit_body_path. }
  unfold serve, idempotencyMiddleware. case_bool_decide; [done|].
  apply refuses_quiet_bind; [auto with api|]. intros []; [auto with api|].
  apply refuses_quiet_bind; [|done]. intros s1. apply same_node_refl.
Qed.

(** The endpoints that check the bearer token. *)
Definition guarded_paths : list string :=
  ["/api/chain"; "/api/finality"; "/api/finality/vote"; "/api/monitoring"; "/api/transactions";
   "/api/registry/register"; "/api/registry/update"; "/api/registry/purchase"; "/api/transfer";
   "/api/transfer-binary"].

Lemma not_authorized r s e {A} (k : unit → handler A) :
  requireAuth (rq_Authorization r) (sv_cfg s) = Err e →
  (_ ← authorized r; k ()) s = (Respond (mkresponse 401 (Text e)), s).
Proof. intros E. unfold authorized, auth_result, mbind, handler_bind, gets. cbn. by rewrite E. Qed.

(** Without the configured token each of these endpoints answers 401, or 503
    when the breaker of [/api/chain] is open, and the chain stays as it was. *)
Theorem guarded_endpoints_refuse fuel r s :
  rq_Path r ∈ guarded_paths → requireAuth (rq_Authorization r) (sv_cfg s) ≠ Ok tt →
  ∃ a, answer_of (mux fuel r s).1 = Some a ∧ (rs_code a = 401 ∨ rs_code a = 503) ∧
       same_chain s (mux fuel r s).2.
Proof.
  intros Hp Ha.
  assert (∃ e, requireAuth (rq_Authorization r) (sv_cfg s) = Err e) as [e He].
  { unfold requireAuth in *. cbv zeta in *. repeat case_match; naive_solver. }
  assert (∀ k : unit → handler response,
    ∃ a, answer_of ((_ ← authorized r; k ()) s).1 = Some a ∧ (rs_code a = 401 ∨ rs_code a = 503) ∧
         same_chain s ((_ ← authorized r; k ()) s).2) as Hk.
  { intros k. rewrite (not_authorized r s e k He). cbn. eauto 10. }
  unfold mux, guarded_paths in *. rewrite !elem_of_cons, elem_of_nil in Hp.
  destruct Hp as [E|[E|[E|[E|[E|[E|[E|[E|[E|[E|[]]]]]]]]]]]; rewrite E;
    [change (find_route _ _) with h_chain|change (find_route _ _) with h_finality
    |change (find_route _ _) with h_finality_vote|change (find_route _ _) with h_monitoring
    |change (find_route _ _) with h_transactions|change (find_route _ _) with h_registry_register
    |change (find_route _ _) with h_registry_update|change (find_route _ _) with h_registry_purchase
    |change (find_route _ _) with h_transfer|change (find_route _ _) with h_transfer_binary];
    try apply (Hk (λ _, _)).
  unfold h_chain, mbind, handler_bind, breaker_allows. cbn [UnixNano].
  destruct (Allow (sv_breaker s) _) as [[] cb]; cbn [negb];
    [|eexists; split; [done|]; split; [by right|]; eexists; reflexivity].
  unfold auth_result, gets. cbn [sv_cfg update]. rewrite He.
  eexists. split; [reflexivity|]. split; [by left|]. eexists. reflexivity.
Qed.

(** ** The lock *)

(** A handler under which a lock held for ever stays held. *)
Definition keeps_locked {A} (m : handler A) : Prop :=
  ∀ s, sv_locked s = true → sv_locked (m s).2 = true.

Lemma keeps_bind {A B} (m : handler A) (k : A → handler B) :
  keeps_locked m → (∀ a, keeps_locked (k a)) → keeps_locked (a ← m; k a).
Proof.
  intros Hm Hk s Hs. specialize (Hm s Hs). unfold mbind, handler_bind.
  destruct (m s) as [[a|r'| |] s1]; cbn [snd] in *; try done. by apply Hk.
Qed.

(** What follows an attempt to take the lock is not reached. *)
Lemma keeps_lock {A} (k : unit → handler A) : keeps_locked (a ← lock; k a).
Proof. intros s Hs. unfold mbind, handler_bind, lock. by rewrite Hs. Qed.

Lemma keeps_same {A} (m : handler A) : (∀ s, sv_locked (m s).2 = sv_locked s) → keeps_locked m.
Proof. intros Hm s Hs. by rewrite Hm. Qed.

Lemma keeps_locked_call {A} (f : Blockchain → A * Blockchain) : keeps_locked (locked f).
Proof. intros s Hs. unfold locked. by rewrite Hs. Qed.

Lemma keeps_unlocked {A} (f : Blockchain → A * Blockchain) : keeps_locked (unlocked f).
Proof. intros s Hs. unfold unlocked. by destruct (f (sv_chain s)). Qed.

Lemma keeps_mine fuel m : keeps_locked (mine fuel m).
Proof. intros s Hs. unfold mine. by rewrite Hs. Qed.

Lemma keeps_allowed r : keeps_locked (allowed r).
Proof. intros s Hs. unfold allowed. cbn. by destruct (allow _ _ _). Qed.

Lemma keeps_breaker : keeps_locked breaker_allows.
Proof. intros s Hs. unfold breaker_allows. cbn. by destruct (Allow _ _). Qed.

Lemma keeps_or_error {A} code (o : outcome A) : keeps_locked (or_error code o).
Proof. by destruct o; intros s. Qed.

Lemma keeps_collect_all i l : keeps_locked (collect_all i l).
Proof.
  induction l as [|v l IH]; cbn [collect_all]; [by intros s|].
  apply keeps_bind; [apply keeps_locked_call|done].
Qed.

Ltac keeps := repeat match goal with
  | |- keeps_locked (a ← lock; _) => apply keeps_lock
  | |- keeps_locked (mbind _ _) => apply keeps_bind; [|intros ?]
  | |- keeps_locked (locked _) => apply keeps_locked_call
  | |- keeps_locked (unlocked _) => apply keeps_unlocked
  | |- keeps_locked (or_error _ _) => apply keeps_or_error
  | |- keeps_locked (allowed _) => apply keeps_allowed
  | |- keeps_locked breaker_allows => apply keeps_breaker
  | |- keeps_locked (mine _ _) => apply keeps_mine
  | |- keeps_locked (collect_all _ _) => apply keeps_collect_all
  | |- keeps_locked (if ?b then _ else _) => destruct b
  | |- keeps_locked (match ?o with _ => _ end) => destruct o
  | |- keeps_locked _ => by intros ?
  end.

Lemma routes_keep_locked fuel : Forall (λ p, ∀ r, keeps_locked (p.2 r)) (routes fuel).
Proof.
  unfold routes. repeat (apply Forall_cons_2; [intros r; cbn beta iota delta [snd];
    unfold h_health, h_chain, h_finality, h_finality_vote, h_audit,
      h_monitoring, h_mempool, h_transactions, h_mine, h_miner_submit, h_validators,
      h_validators_register, h_bootstrap, h_registry, h_registry_register, h_registry_update,
      h_registry_purchase, h_accounts, h_stake, h_wallet, h_universal_register,
      h_universal_lookup, h_universal_transfer, h_faucet, h_admin_mint, h_token,
      h_managed_wallets, h_transfer, h_transfer_binary, h_escrow, h_reversals_request,
      h_reversals_confirm, h_reversals_commit, h_proposals, h_agreements, h_usage, h_tokenomics,
      h_ingest, authorized, limited, post_only, decoded, enqueue_and_save, save, collect,
      locked_do, unlocked_do, read_locked; cbv zeta; keeps|]).
  done.
Qed.

Lemma serve_keeps_locked fuel r : keeps_locked (serve fuel r).
Proof.
  assert (∀ r, keeps_locked (mux fuel r)) as Hm.
  { intros r'. unfold mux. destruct (find_route_Forall _ (rq_Path r') _ (routes_keep_locked fuel))
      as [(h & _ & -> & Hh)|[_ ->]]; [by apply Hh|by intros s]. }
  unfold serve, idempotencyMiddleware, maxBodyMiddleware. case_bool_decide; keeps; done.
Qed.

(** Requests one after the other. *)
Definition serve_all fuel (s : server) (rs : list request) : server :=
  foldl (λ s r, (serve fuel r s).2) s rs.

Lemma serve_all_locked fuel s rs :
  sv_locked s = true → sv_locked (serve_all fuel s rs) = true.
Proof.
  intros Hs. unfold serve_all. apply (foldl_inv (λ s, sv_locked s = true)); [|done].
  intros s' r _. apply serve_keeps_locked.
Qed.

(** Endpoints that take the lock before anything else. *)
Definition locking_paths : list string :=
  ["/api/audit"; "/api/mempool"; "/api/validators"; "/api/registry"; "/api/accounts";
   "/api/wallet"; "/api/tokenomics"].

Lemma locked_paths_hang fuel r s :
  sv_locked s = true → rq_Path r ∈ locking_paths → (mux fuel r s).1 = Hang.
Proof.
  intros Hs Hp. unfold mux, locking_paths in *. rewrite !elem_of_cons, elem_of_nil in Hp.
  destruct Hp as [E|[E|[E|[E|[E|[E|[E|[]]]]]]]]; rewrite E;
    [change (find_route _ _) with (λ _ : request, h_audit)
    |change (find_route _ _) with (λ _ : request, h_mempool)
    |change (find_route _ _) with (λ _ : request, h_validators)
    |change (find_route _ _) with (λ _ : request, h_registry)
    |change (find_route _ _) with (λ _ : request, h_accounts)
    |change (find_route _ _) with (λ _ : request, h_wallet)
    |change (find_route _ _) with (λ _ : request, h_tokenomics)];
    unfold h_audit, h_mempool, h_validators, h_registry, h_accounts, h_wallet, h_tokenomics,
      mbind, handler_bind, read_locked, locked_do, locked, unlocked; cbn; by rewrite Hs.
Qed.

(** Every well-formed mint request, from anyone, blocks for ever with the
    chain's lock held; after it, whatever requests come, each request for the
    audit trail, the pool, the validators, the registry, the accounts, a wallet
    or the tokenomics blocks too. *)
Theorem mint_blocks_the_node fuel r s p :
  rq_Method r = "POST" → rq_Path r = "/api/admin/mint" → decode_amount (rq_Body r) = Ok p →
  amp_Address p ≠ "" → amp_Amount p ≠ 0 → sv_locked s = false →
  (mux fuel r s).1 = Hang ∧
  ∀ rs r', rq_Path r' ∈ locking_paths →
    (mux fuel r' (serve_all fuel (mux fuel r s).2 rs)).1 = Hang.
Proof.
  intros Hm Hp Hd Ha Hz Hs.
  assert (mux fuel r s = (Hang, s <| sv_locked := true |>)) as E.
  { unfold mux. rewrite Hp. change (find_route _ _) with h_admin_mint.
    unfold h_admin_mint, post_only, decoded. rewrite bool_decide_true by done. rewrite Hd.
    cbv beta iota delta [mbind handler_bind mret handler_ret or_error].
    rewrite bool_decide_false by done. apply Z.eqb_neq in Hz. rewrite Hz. cbn [orb].
    unfold lock. rewrite Hs. unfold gets.
    rewrite (proj2 (Z.ltb_ge _ _)); [done|].
    pose proof (u64_range (bc_TokenSupply (sv_chain (s <| sv_locked := true |>)) + amp_Amount p)).
    unfold is_u64, max_u64, MaxSupply in *. lia. }
  rewrite E. split; [done|]. intros rs r' Hr'. apply locked_paths_hang; [|done].
  by apply serve_all_locked.
Qed.

(** ** Other endpoints *)

(** The faucet asks for no token and caps no amount: any request the limiter
    lets through mints what it names. *)
Theorem faucet_mints_for_anyone fuel r s p :
  rq_Method r = "POST" → rq_Path r = "/api/faucet" → decode_amount (rq_Body r) = Ok p →
  amp_Address p ≠ "" → amp_Amount p ≠ 0 → sv_locked s = false →
  (allow (sv_limiter s) (clock (bc_ticks (sv_chain s))) (rq_RemoteAddr r)).1 = true →
  bc_TokenSupply (sv_chain (mux fuel r s).2) = bc_TokenSupply (sv_chain s) +! amp_Amount p ∧
  acc_Balance <$> bc_Ledger (sv_chain (mux fuel r s).2) !! amp_Address p =
    Some (match bc_Ledger (sv_chain s) !! amp_Address p with
          | Some a => acc_Balance a +! amp_Amount p | None => amp_Amount p end).
Proof.
  intros Hm Hp Hd Ha Hz Hs Hl.
  assert (∃ rl, (mux fuel r s).2 = s <| sv_limiter := rl |>
    <| sv_chain := FundAccount (tick (sv_chain s)) (amp_Address p) (amp_Amount p) |>) as [rl ->].
  { unfold mux. rewrite Hp. change (find_route _ _) with h_faucet.
    unfold h_faucet, limited, allowed, post_only, decoded, locked_do, read_locked, locked.
    rewrite bool_decide_true by done. rewrite Hd.
    cbv beta iota delta [mbind handler_bind mret handler_ret or_error UnixNano].
    destruct (allow _ _ _) as [b rl]. cbn in Hl. subst b. exists rl. cbv beta iota.
    rewrite bool_decide_false by done. apply Z.eqb_neq in Hz. rewrite Hz. unfold gets.
    cbn [sv_locked sv_chain update]. rewrite !Hs. cbn [sv_locked sv_chain update]. rewrite ?Hs.
    by case_match. }
  cbn [sv_chain update]. unfold FundAccount. cbv zeta.
  change (bc_Ledger (tick (sv_chain s))) with (bc_Ledger (sv_chain s)).
  destruct (bc_Ledger (sv_chain s) !! amp_Address p) as [a|] eqn:E;
    match goal with |- context [SaveToDisk ?x] => destruct (SaveToDisk_frame x) as (-> & -> & _) end;
    (split; [done|]).
  - transitivity (acc_Balance <$> alter (credit (amp_Amount p)) (amp_Address p)
                                    (bc_Ledger (sv_chain s)) !! amp_Address p); [done|].
    by rewrite lookup_alter_eq, E.
  - transitivity (acc_Balance <$> <[amp_Address p := mkAccount (amp_Address p) (amp_Amount p) 0 false]>
                                    (bc_Ledger (sv_chain s)) !! amp_Address p); [done|].
    by rewrite lookup_insert_eq.
Qed.

(** What the reversal endpoints put into the pool names no chain, so no node of
    a named chain ever includes it in a block. *)
Lemma reversal_tx_invalid bc txType from to amount original id nonce :
  bc_ChainID bc ≠ "" →
  validateTransaction bc ((reversal_tx txType from to amount original)
    <| tx_ID := id |> <| tx_Nonce := nonce |>) = false.
Proof. intros Hc. unfold validateTransaction. cbn. by rewrite bool_decide_false. Qed.
End endpoints.

(** ** Witnesses *)

(** A body is not looked at: amounts decode to 5 for bob, nothing else
    decodes. *)
Definition demo_decoders : Decoders :=
  {| decode_finality := λ _, Err "json"; decode_index := λ _, Err "json";
     decode_tx := λ _, Err "json"; decode_miner := λ _, Err "json";
     decode_block := λ _, Err "json"; decode_register := λ _, Err "json";
     decode_model := λ _, Err "json"; decode_purchase := λ _, Err "json";
     decode_amount := λ _, Ok (mkamountPayload "bob" 5);
     decode_directory := λ _, Err "json"; decode_universal := λ _, Err "json";
     decode_wallet := λ _, Err "json"; decode_escrow := λ _, Err "json";
     decode_reversal := λ _, Err "json"; decode_proposal := λ _, Err "json";
     decode_agreement := λ _, Err "json"; decode_usage := λ _, Err "json";
     decode_ingest := λ _, Err "json" |}.

Definition demo_config : ServerConfig := @ServerConfigFromEnv demo_runtime (λ _, "").

Definition demo_server : server := newServer demo_config demo_node "127.0.0.1:3030" [] ∅ true.

Definition demo_request (method path : string) : request :=
  mkrequest method path "10.0.0.1:5000" "" "" 0 [] "" "" false.

(** A wrong method. *)
Lemma refused_request_keeps_chain_witness :
  rs_code <$> answer_of (@serve demo_runtime demo_ed25519 demo_decoders 0
                           (demo_request "GET" "/api/stake") demo_server).1 = Some 405 ∧
  ∃ n, sv_chain (@serve demo_runtime demo_ed25519 demo_decoders 0
                   (demo_request "GET" "/api/stake") demo_server).2 = demo_node <| bc_ticks := n |>.
Proof.
  split; [reflexivity|].
  apply (@refused_request_keeps_chain demo_runtime demo_ed25519 demo_decoders 0
    (demo_request "GET" "/api/stake") demo_server (mkresponse 405 (Text "method not allowed")));
    [done|reflexivity|by vm_compute].
Defined.

Lemma guarded_endpoints_refuse_witness :
  ∃ a, answer_of (@mux demo_runtime demo_ed25519 demo_decoders 0
                    (demo_request "POST" "/api/transfer") demo_server).1 = Some a ∧
       (rs_code a = 401 ∨ rs_code a = 503) ∧
       same_chain demo_server (@mux demo_runtime demo_ed25519 demo_decoders 0
                                 (demo_request "POST" "/api/transfer") demo_server).2.
Proof.
  apply (@guarded_endpoints_refuse demo_runtime demo_ed25519 demo_decoders 0
    (demo_request "POST" "/api/transfer") demo_server); [|done].
  unfold guarded_paths. set_solver.
Defined.

Lemma mint_blocks_the_node_witness :
  (@mux demo_runtime demo_ed25519 demo_decoders 0 (demo_request "POST" "/api/admin/mint")
     demo_server).1 = Hang.
Proof.
  exact (proj1 (@mint_blocks_the_node demo_runtime demo_ed25519 demo_decoders 0
    (demo_request "POST" "/api/admin/mint") demo_server (mkamountPayload "bob" 5)
    eq_refl eq_refl eq_refl ltac:(done) ltac:(done) eq_refl)).
Defined.

Lemma faucet_mints_for_anyone_witness :
  acc_Balance <$> bc_Ledger (sv_chain (@mux demo_runtime demo_ed25519 demo_decoders 0
    (demo_request "POST" "/api/faucet") demo_server).2) !! "bob" = Some 25.
Proof.
  exact (proj2 (@faucet_mints_for_anyone demo_runtime demo_ed25519 demo_decoders 0
    (demo_request "POST" "/api/faucet") demo_server (mkamountPayload "bob" 5)
    eq_refl eq_refl eq_refl ltac:(done) ltac:(done) eq_refl eq_refl)).
Defined.
