(* ===== verification/P2P.v ===== *)
(** * Peer to peer (go-chain/p2p/p2p.go)

    The gossip node: rate limits, dial back-off, duplicate suppression, the
    treatment of incoming messages and the broadcasts.  [handle_message] is one
    round of the loop of [handleConn]; the connection handlers of one node are
    taken one message at a time.

    The network is a class of oracles: whether a connection is alive, a dial
    succeeds, a write goes through.  The JSON decoding of a line is a parameter.
    Goroutines of [Start] (accepting, keep-alive pings, the mDNS announcement)
    only do I/O and are left out.  As in [Api], [pn_locked] says that a handler
    that never returns holds the chain's lock. *)

From S2P Require Import Prelude Runtime Float64 Text Sha256 Domain Json Merkle Tendermint State Accounts Validation Apply Reversal Mempool Mining Limits.
Open Scope Z_scope.
Open Scope go_scope.

Record NodeInfo := mkNodeInfo {
  ni_Address : string; ni_Peers : list string; ni_ValidatorPubKey : string }.

Record Message := mkMessage {
  msg_Type : string; msg_From : string; msg_NodeID : string; msg_Block : option Block;
  msg_Chain : list Block; msg_Tx : option Transaction; msg_Peer : option NodeInfo;
  msg_StreamID : string }.

(** [pn_conns] are the targets with a connection and its writer. *)
Record P2PNode := mkP2PNode {
  pn_addr : string; pn_peers : list string; pn_peerScores : gmap string Z;
  pn_trustedPeers : gmap string bool; pn_chain : Blockchain; pn_locked : bool; pn_maxPeers : Z;
  pn_strictMode : bool; pn_peerRateLimits : gmap string (list Z); pn_conns : gset string;
  pn_seenMsgIDs : gmap string Z; pn_dialBackoff : gmap string Z }.

#[export] Instance P2PNode_rebuild : Rebuild P2PNode := λ r,
  mkP2PNode (pn_addr r) (pn_peers r) (pn_peerScores r) (pn_trustedPeers r) (pn_chain r)
    (pn_locked r) (pn_maxPeers r) (pn_strictMode r) (pn_peerRateLimits r) (pn_conns r)
    (pn_seenMsgIDs r) (pn_dialBackoff r).

Definition NewP2PNode (addr : string) (peers : list string) (chain : Blockchain) (strictMode : bool)
    : P2PNode :=
  mkP2PNode addr peers ∅ ∅ chain false 50 strictMode ∅ ∅ ∅ ∅.

Definition Addr (p : P2PNode) : string := pn_addr p.
Definition Peers (p : P2PNode) : list string := pn_peers p.
Definition TrustedPeers (p : P2PNode) : gmap string bool := pn_trustedPeers p.
Definition StrictMode (p : P2PNode) : bool := pn_strictMode p.

Definition AddPeer (p : P2PNode) (peer : string) : P2PNode :=
  if bool_decide (peer = "") || bool_decide (peer = pn_addr p) then p
  else p <| pn_peers ::= λ l, l ++ [peer] |>.

(** What the network does at the [k]-th operation. *)
Class Network := {
  conn_alive : nat → string → bool;
  dial : nat → string → bool;
  write_ok : nat → string → bool;
}.

(** ** Limits *)

(** At most 300 messages a minute.  The entries are pruned in place, and the
    pruned slice is stored only when the message is accepted: when it is not, the
    stored slice keeps its length, its front overwritten by the kept entries. *)
Definition allowPeerRate (rates : gmap string (list Z)) (now : Z) (remote : string)
    : bool * gmap string (list Z) :=
  let entries := entries_of rates remote in
  let kept := filter (within Minute now) entries in
  if 300 <=? blen kept then (false, <[remote := kept ++ drop (length kept) entries]> rates)
  else (true, <[remote := kept ++ [now]]> rates).

Definition allowDial (backoff : gmap string Z) (now : Z) (target : string) : bool :=
  match backoff !! target with
  | None => true
  | Some next => next <? now
  end.

Definition max_backoff : Z := 30 * Second.

Definition recordDialFailure (backoffs : gmap string Z) (since now : Z) (target : string)
    : gmap string Z :=
  let backoff :=
    match backoffs !! target with
    | None => Second
    | Some prev =>
        let d := time_Sub since prev in
        if d <? 0 then Z.min (i64 (i64 (- d) * 2)) max_backoff
        else if d <? max_backoff then Z.min (i64 (d * 2)) max_backoff
        else Second
    end in
  <[target := now + backoff]> backoffs.

(** The seen identifiers with their times; above 4096 of them, those older than
    ten minutes are dropped. *)
Definition seenMessageID (seen : gmap string Z) (now cutNow : Z) (id : string)
    : bool * gmap string Z :=
  if bool_decide (id = "") then (false, seen) else
  match seen !! id with
  | Some _ => (true, seen)
  | None =>
      let seen := <[id := now]> seen in
      if 4096 <? Z.of_nat (size seen) then
        let cut := cutNow - 10 * Minute in
        (false, filter (λ p, cut ≤ p.2) seen)
      else (false, seen)
  end.

Section p2p.
Context `{Runtime} `{Network}.

(** Clock readings and network operations share the counter of the chain. *)
Definition Now (p : P2PNode) : Z * P2PNode :=
  let '(now, bc) := UnixNano (pn_chain p) in (now, p <| pn_chain := bc |>).

Definition net (f : nat → string → bool) (target : string) (p : P2PNode) : bool * P2PNode :=
  (f (bc_ticks (pn_chain p)) target, p <| pn_chain ::= tick |>).

Definition seen_id (id : string) (p : P2PNode) : bool * P2PNode :=
  let '(now, p) := Now p in
  let '(cutNow, p) := Now p in
  let '(b, seen) := seenMessageID (pn_seenMsgIDs p) now cutNow id in
  (b, p <| pn_seenMsgIDs := seen |>).

(** ** Connections *)

Definition cleanupPeerLocked (target : string) (p : P2PNode) : P2PNode :=
  p <| pn_conns ::= λ c, c ∖ {[target]} |>.

(** Whether a connection to the target is there afterwards. *)
Definition ensurePeerConn (target : string) (p : P2PNode) : bool * P2PNode :=
  let '(alive, p) := if bool_decide (target ∈ pn_conns p) then net conn_alive target p
                     else (false, p) in
  if alive : bool then (true, p) else
  let p := cleanupPeerLocked target p in
  let '(now, p) := Now p in
  if negb (allowDial (pn_dialBackoff p) now target) then (false, p) else
  let '(dialed, p) := net dial target p in
  if negb dialed then
    let '(since, p) := Now p in
    let '(now, p) := Now p in
    (false, p <| pn_dialBackoff ::= λ b, recordDialFailure b since now target |>)
  else (true, p <| pn_conns ::= union {[target]} |>).

(** Whether the payload was written and flushed. *)
Definition writePeer (target : string) (p : P2PNode) : bool * P2PNode :=
  let '(connected, p) := ensurePeerConn target p in
  if negb connected then (false, cleanupPeerLocked target p) else
  let '(written, p) := net write_ok target p in
  if negb written then (false, cleanupPeerLocked target p) else (true, p).

(** The goroutine [ConnectToPeers] starts for one peer, and the peers it starts
    one for.  The greeting is written to the buffered writer and not flushed. *)
Definition connect_peer (p : P2PNode) (target : string) : P2PNode :=
  let '(connected, p) := ensurePeerConn target p in
  if negb connected then p else
  p <| pn_peerScores ::= <[target := 1]> |> <| pn_trustedPeers ::= <[target := true]> |>.

Definition ConnectToPeers (p : P2PNode) : P2PNode :=
  foldl connect_peer p
    (filter (λ peer, peer ≠ "" ∧ peer ≠ pn_addr p) (pn_peers p)).

Definition trusts (p : P2PNode) (peer : string) : bool :=
  default false (pn_trustedPeers p !! peer).

(** ** Broadcasts *)

(** The peers a broadcast reaches.  A block goes over an open connection with
    the whole chain, otherwise alone. *)
Definition broadcast_one (whole : bool) (acc : P2PNode * list (string * bool)) (peer : string)
    : P2PNode * list (string * bool) :=
  let '(p, sent) := acc in
  if bool_decide (peer = "") || bool_decide (peer = pn_addr p) || negb (trusts p peer)
  then (p, sent) else
  let '(direct, p) :=
    if whole && (0 <? blen (bc_Chain (pn_chain p))) && bool_decide (peer ∈ pn_conns p)
    then net conn_alive peer p else (false, p) in
  if direct : bool then
    let '(written, p) := net write_ok peer p in
    (p, if written : bool then sent ++ [(peer, true)] else sent)
  else
    let '(written, p) := writePeer peer p in
    (p, if written : bool then sent ++ [(peer, false)] else sent).

Definition BroadcastBlock (p : P2PNode) : P2PNode * list (string * bool) :=
  foldl (broadcast_one true) (p, []) (pn_peers p).

Definition BroadcastTransaction (p : P2PNode) : P2PNode * list (string * bool) :=
  foldl (broadcast_one false) (p, []) (pn_peers p).

(** ** Incoming messages *)

(** What one round of [handleConn] ends in: the next round with the peers the
    message was relayed to, the end of the connection, a crash of the process,
    or a handler that blocks for ever. *)
Inductive round :=
| Next (relayed : list string)
| Close
| Crash
| Block_forever.

Definition note_node (msg : Message) (p : P2PNode) : P2PNode :=
  if bool_decide (msg_NodeID msg = "") then p else
  let score := default 0 (pn_peerScores p !! msg_From msg) in
  if trusts p (msg_From msg) && (0 <? score) then
    p <| pn_peerScores ::= <[msg_From msg := i64 (score + 1)]> |>
  else p <| pn_peerScores ::= <[msg_From msg := 1]> |>
         <| pn_trustedPeers ::= <[msg_From msg := true]> |>.

Definition relay_one (msg : Message) (remote : string) (acc : P2PNode * list string) (peer : string)
    : P2PNode * list string :=
  let '(p, sent) := acc in
  if bool_decide (peer = "") || bool_decide (peer = pn_addr p) || bool_decide (peer = remote) ||
     negb (trusts p peer) then (p, sent) else
  let '(seen, p) := seen_id (msg_StreamID msg) p in
  if seen : bool then (p, sent) else
  let '(dialed, p) := net dial peer p in
  if negb dialed then (p, sent) else (p, sent ++ [peer]).

Definition relay (msg : Message) (remote : string) (p : P2PNode) : P2PNode * list string :=
  foldl (relay_one msg remote) (p, []) (pn_peers p).

(** A block of a peer.  [ReplaceChain] takes the lock the handler holds. *)
Definition handle_block (msg : Message) (block : Block) (remote : string) (p : P2PNode)
    : round * P2PNode :=
  if pn_locked p then (Block_forever, p) else
  match msg_Chain msg with
  | _ :: _ => (Block_forever, p <| pn_locked := true |>)
  | [] =>
      let chain := bc_Chain (pn_chain p) in
      let append p :=
        let p := p <| pn_chain ::= λ bc, (SaveToDisk (bc <| bc_Chain ::= λ l, l ++ [block] |>)).2 |> in
        let '(p, sent) := relay msg remote p in (Next sent, p) in
      if blen chain <? i64 (i64 (blk_Index block) + 1) then append p else
      match last chain with
      | None => (Crash, p)
      | Some tail =>
          if negb (bool_decide (blk_BlockHash tail = blk_PreviousHash block)) then append p
          else let '(p, sent) := relay msg remote p in (Next sent, p)
      end
  end.

Definition handle_tx (msg : Message) (tx : Transaction) (remote : string) (p : P2PNode)
    : round * P2PNode :=
  if pn_locked p then (Block_forever, p) else
  let p := p <| pn_chain ::= λ bc, EnqueueTransaction bc tx |> in
  let '(p, sent) := relay msg remote p in (Next sent, p).

Definition handle_hello (info : NodeInfo) (p : P2PNode) : round * P2PNode :=
  if pn_strictMode p && (pn_maxPeers p <=? blen (pn_peers p)) then (Next [], p) else
  if bool_decide (ni_Address info = "") || bool_decide (ni_Address info = pn_addr p)
  then (Next [], p) else
  let add p :=
    (Next [], p <| pn_peers ::= λ l, l ++ [ni_Address info] |>
                <| pn_peerScores ::= <[ni_Address info := 1]> |>
                <| pn_trustedPeers ::= <[ni_Address info := true]> |>) in
  if pn_strictMode p && negb (bool_decide (ni_ValidatorPubKey info = "")) then
    if pn_locked p then (Block_forever, p) else
    if IsActiveValidatorPubKey (pn_chain p) (ni_ValidatorPubKey info) then add p else (Next [], p)
  else add p.

Definition handle_message (remote : string) (msg : Message) (p : P2PNode) : round * P2PNode :=
  let '(duplicate, p) := if bool_decide (msg_StreamID msg = "") then (false, p)
                         else seen_id (msg_StreamID msg) p in
  if duplicate : bool then (Next [], p) else
  let '(now, p) := Now p in
  let '(allowed, rates) := allowPeerRate (pn_peerRateLimits p) now remote in
  let p := p <| pn_peerRateLimits := rates |> in
  if negb allowed then (Close, p) else
  let p := note_node msg p in
  if bool_decide (msg_Type msg = "block") then
    match msg_Block msg with Some block => handle_block msg block remote p | None => (Next [], p) end
  else if bool_decide (msg_Type msg = "tx") then
    match msg_Tx msg with Some tx => handle_tx msg tx remote p | None => (Next [], p) end
  else if bool_decide (msg_Type msg = "hello") then
    match msg_Peer msg with Some info => handle_hello info p | None => (Next [], p) end
  else (Next [], p).

(** The loop over the lines of a connection, and the messages relayed. *)
Fixpoint handleConn (decode : string → option Message) (remote : string) (lines : list string)
    (p : P2PNode) : list (list string) * P2PNode :=
  match lines with
  | [] => ([], p)
  | line :: lines =>
      let line := TrimSpace line in
      if bool_decide (line = "") then handleConn decode remote lines p else
      if 5 * 1024 * 1024 <? Z.of_nat (String.length line) then ([], p) else
      match decode line with
      | None => ([], p)
      | Some msg =>
          match handle_message remote msg p with
          | (Next sent, p) =>
              let '(more, p) := handleConn decode remote lines p in (sent :: more, p)
          | (_, p) => ([], p)
          end
      end
  end.
End p2p.

(** ** The peer rate limit is the limiter of the API *)

Fixpoint run_rates (rates : gmap string (list Z)) (calls : list (Z * string)) : list bool :=
  match calls with
  | [] => []
  | (now, remote) :: calls =>
      let '(b, rates) := allowPeerRate rates now remote in b :: run_rates rates calls
  end.

Lemma filter_no_shorter {A} (P : A → Prop) `{∀ x, Decision (P x)} (l : list A) :
  (length l ≤ length (filter P l))%nat → filter P l = l.
Proof.
  induction l as [|x l IH]; [done|]. rewrite filter_cons. case_decide; cbn [length].
  - intros ?. f_equal. apply IH. lia.
  - pose proof (length_filter P l). lia.
Qed.

(** No more than 300 entries are ever stored, so a refusal prunes nothing. *)
Definition rates_ok (rates : gmap string (list Z)) : Prop :=
  ∀ remote, blen (entries_of rates remote) ≤ 300.

Lemma refused_keeps_all rates now remote :
  rates_ok rates → 300 ≤ blen (filter (within Minute now) (entries_of rates remote)) →
  filter (within Minute now) (entries_of rates remote) = entries_of rates remote.
Proof.
  intros Hr Hf. specialize (Hr remote). unfold blen in *.
  apply filter_no_shorter. lia.
Qed.

Lemma allowPeerRate_ok rates now remote :
  rates_ok rates → rates_ok (allowPeerRate rates now remote).2.
Proof.
  intros Hr. unfold allowPeerRate. cbv zeta.
  destruct (Z.leb_spec 300 (blen (filter (within Minute now) (entries_of rates remote)))) as [Hf|Hf];
    cbn [snd]; intros r; rewrite entries_of_insert; (case_bool_decide; [subst r|apply Hr]).
  - rewrite refused_keeps_all, drop_all, app_nil_r by done. apply Hr.
  - rewrite blen_app. unfold blen in *. cbn [length]. lia.
Qed.

Lemma run_rates_spec calls : ∀ rates (hist : string → list Z) t,
  in_time t calls → rates_ok rates →
  (∀ key now, t ≤ now → filter (within Minute now) (entries_of rates key)
                        = filter (within Minute now) (hist key)) →
  run_rates rates calls = run_spec 300 Minute hist calls.
Proof.
  induction calls as [|[now key] calls IH]; intros rates hist t Ht Hr Hs; [done|].
  destruct Ht as [Ht Hc]. pose proof (allowPeerRate_ok rates now key Hr) as Hr'.
  cbn [run_rates run_spec]. revert Hr'. unfold allowPeerRate, spec_allow. cbv zeta.
  rewrite <- filter_within by done. rewrite <- (Hs key now Ht).
  destruct (Z.leb_spec 300 (blen (filter (within Minute now) (entries_of rates key)))) as [Hf|Hf];
    cbn [snd]; intros Hr'; f_equal; apply (IH _ _ now Hc Hr'); intros k now' Hle;
    rewrite entries_of_insert; (case_bool_decide; [subst k|apply Hs; lia]).
  - rewrite refused_keeps_all, drop_all, app_nil_r by done. apply Hs. lia.
  - rewrite !filter_app, filter_within_filter by done. by rewrite (Hs key now') by lia.
Qed.

(** Although a refusal leaves the pruned entries half stored, in the order of the
    clock the node answers as a rate limiter of 300 calls a minute does. *)
Theorem peer_rate_is_limiter calls t :
  in_time t calls → run_rates ∅ calls = run_limiter (newRateLimiter 300 Minute) calls.
Proof.
  intros Ht. rewrite (run_limiter_spec calls _ _ t Ht (new_limiter_window 300 Minute)
    (new_limiter_sim 300 Minute t)).
  by apply (run_rates_spec calls _ _ t).
Qed.

(** ** Back-off *)

(** After a failed dial the next one is allowed no later than 30 seconds after,
    whatever the history of failures, and not before the recorded time. *)
Theorem backoff_bounded backoffs since now target later :
  since ≤ now →
  (∀ prev, backoffs !! target = Some prev → prev - since < 2 ^ 61) →
  ∃ next, recordDialFailure backoffs since now target !! target = Some next ∧
    now ≤ next ≤ now + max_backoff ∧
    allowDial (recordDialFailure backoffs since now target) later target = bool_decide (next < later).
Proof.
  intros Hle Hp. unfold recordDialFailure. cbv zeta. eexists. rewrite lookup_insert_eq.
  split; [done|]. unfold allowDial. rewrite lookup_insert_eq. split.
  - unfold max_backoff, Second.
    destruct (backoffs !! target) as [prev|]; [|lia]. specialize (Hp prev eq_refl).
    unfold time_Sub. destruct (Z.ltb_spec (Z.max (- 2 ^ 63) (Z.min (2 ^ 63 - 1) (since - prev))) 0).
    + rewrite (i64_small (- _)) by (unfold is_i64; lia). rewrite i64_small by (unfold is_i64; lia). lia.
    + destruct (Z.ltb_spec (Z.max (- 2 ^ 63) (Z.min (2 ^ 63 - 1) (since - prev))) (30 * 10 ^ 9)); [|lia].
      rewrite i64_small by (unfold is_i64; lia). lia.
  - match goal with |- (?n <? _) = _ => destruct (Z.ltb_spec n later) end;
      [by rewrite bool_decide_true|by rewrite bool_decide_false by lia].
Qed.

(** ** Duplicates *)

Lemma seenMessageID_new seen now cutNow id :
  id ≠ "" → cutNow - 10 * Minute ≤ now →
  is_Some ((seenMessageID seen now cutNow id).2 !! id).
Proof.
  intros Hid Hc. unfold seenMessageID. rewrite bool_decide_false by done.
  destruct (seen !! id) as [t|] eqn:E; [cbn; by rewrite E|]. cbv zeta.
  destruct (4096 <? _); cbn [snd].
  - exists now. apply map_lookup_filter_Some_2; [by rewrite lookup_insert_eq|done].
  - by rewrite lookup_insert_eq.
Qed.

Lemma seenMessageID_kept seen now cutNow id id' t :
  seen !! id = Some t → cutNow - 10 * Minute ≤ t →
  (seenMessageID seen now cutNow id').2 !! id = Some t.
Proof.
  intros E Hc. unfold seenMessageID. case_bool_decide; [done|].
  destruct (seen !! id') as [u|] eqn:E'; [done|]. cbv zeta.
  assert (id' ≠ id) by congruence.
  destruct (4096 <? _); cbn [snd].
  - apply map_lookup_filter_Some_2; [by rewrite lookup_insert_ne|done].
  - by rewrite lookup_insert_ne.
Qed.

(** The identifiers seen by a sequence of messages. *)
Definition see_all (seen : gmap string Z) (ids : list (Z * Z * string)) : gmap string Z :=
  foldl (λ seen '(now, cutNow, id), (seenMessageID seen now cutNow id).2) seen ids.

(** For ten minutes after a message was first seen, whatever other messages
    arrive, it is reported as a duplicate. *)
Theorem duplicates_suppressed seen now cutNow id ids later cut :
  id ≠ "" → seen !! id = None → cutNow - 10 * Minute ≤ now →
  Forall (λ m, m.1.2 - 10 * Minute ≤ now) ids →
  (seenMessageID seen now cutNow id).1 = false ∧
  (seenMessageID (see_all (seenMessageID seen now cutNow id).2 ids) later cut id).1 = true.
Proof.
  intros Hid Hn Hc Hids.
  assert ((seenMessageID seen now cutNow id).2 !! id = Some now ∧
          (seenMessageID seen now cutNow id).1 = false) as [E ->].
  { unfold seenMessageID. rewrite bool_decide_false by done. rewrite Hn. cbv zeta.
    destruct (4096 <? _); cbn [fst snd]; (split; [|done]).
    - apply map_lookup_filter_Some_2; [by rewrite lookup_insert_eq|done].
    - by rewrite lookup_insert_eq. }
  split; [done|]. revert E. generalize ((seenMessageID seen now cutNow id).2). intros s0 E.
  assert (see_all s0 ids !! id = Some now) as E'.
  { unfold see_all. rewrite Forall_forall in Hids.
    apply (foldl_inv (λ s, s !! id = Some now)); [|done].
    intros s [[n c] i] Hin Hs. apply seenMessageID_kept; [done|]. exact (Hids _ Hin). }
  unfold seenMessageID. rewrite bool_decide_false by done. by rewrite E'.
Qed.

Section messages.
Context `{Runtime} `{Network}.

(** ** Frames *)

Lemma seen_id_frame id p :
  let p' := (seen_id id p).2 in
  pn_peers p' = pn_peers p ∧ pn_addr p' = pn_addr p ∧ pn_trustedPeers p' = pn_trustedPeers p ∧
  pn_locked p' = pn_locked p ∧ pn_strictMode p' = pn_strictMode p ∧ pn_maxPeers p' = pn_maxPeers p ∧
  (∃ n, pn_chain p' = (pn_chain p) <| bc_ticks := n |>) ∧
  pn_seenMsgIDs p' = (seenMessageID (pn_seenMsgIDs p) (clock (bc_ticks (pn_chain p)))
                        (clock (S (bc_ticks (pn_chain p)))) id).2 ∧
  (seen_id id p).1 = (seenMessageID (pn_seenMsgIDs p) (clock (bc_ticks (pn_chain p)))
                        (clock (S (bc_ticks (pn_chain p)))) id).1.
Proof.
  unfold seen_id, Now. cbv zeta. cbn.
  destruct (seenMessageID _ _ _ _) as [b seen]. cbn. split_and!; try done. by eexists.
Qed.

(** What relaying leaves alone. *)
Definition relay_frame (p p' : P2PNode) : Prop :=
  pn_peers p' = pn_peers p ∧ pn_strictMode p' = pn_strictMode p ∧
  pn_maxPeers p' = pn_maxPeers p ∧ ∃ n, pn_chain p' = (pn_chain p) <| bc_ticks := n |>.

Lemma relay_frame_refl p : relay_frame p p.
Proof. repeat split. exists (bc_ticks (pn_chain p)). by destruct (pn_chain p). Qed.

Lemma relay_frame_trans p1 p2 p3 : relay_frame p1 p2 → relay_frame p2 p3 → relay_frame p1 p3.
Proof.
  intros (E1 & E2 & E3 & n & E4) (F1 & F2 & F3 & m & F4). unfold relay_frame.
  rewrite F1, F2, F3, F4, E1, E2, E3, E4. repeat split. by exists m.
Qed.

Lemma relay_one_frame msg remote p sent peer :
  relay_frame p (relay_one msg remote (p, sent) peer).1.
Proof.
  unfold relay_one. destruct (_ || _); [apply relay_frame_refl|].
  pose proof (seen_id_frame (msg_StreamID msg) p) as (F1 & _ & _ & _ & F2 & F3 & [n F4] & _).
  destruct (seen_id (msg_StreamID msg) p) as [b p1]. cbn [snd] in *.
  assert (relay_frame p p1) as Hf by (repeat split; eauto).
  destruct b; [done|]. cbn. eapply relay_frame_trans; [exact Hf|].
  by destruct (dial _ _); cbn; repeat split; eexists.
Qed.

Lemma relay_keeps msg remote p : relay_frame p (relay msg remote p).1.
Proof.
  unfold relay. generalize (pn_peers p). intros l.
  apply (foldl_inv (λ acc : P2PNode * list string, relay_frame p acc.1)).
  - intros [p1 sent] peer _ Hp. eapply relay_frame_trans; [done|apply relay_one_frame].
  - apply relay_frame_refl.
Qed.

(** ** Relaying *)

(** Between two readings the clock advances by less than ten minutes. *)
Definition steady_clock : Prop := ∀ k, clock (S k) - 10 * Minute ≤ clock k.

Lemma relay_seen_nothing msg remote p :
  msg_StreamID msg ≠ "" → is_Some (pn_seenMsgIDs p !! msg_StreamID msg) →
  (relay msg remote p).2 = [].
Proof.
  intros Hid Hs. unfold relay. generalize (pn_peers p). intros l.
  apply (foldl_inv (λ acc : P2PNode * list string,
    is_Some (pn_seenMsgIDs acc.1 !! msg_StreamID msg) ∧ acc.2 = []) _ (p, []) l); [|done].
  intros [p1 sent] peer _ [[t Ht] E]. cbn [snd] in E. subst sent. unfold relay_one.
  destruct (_ || _); [by eauto|].
  pose proof (seen_id_frame (msg_StreamID msg) p1) as (_ & _ & _ & _ & _ & _ & _ & E1 & E2).
  unfold seenMessageID in E1, E2. rewrite bool_decide_false in E1, E2 by done.
  cbn [fst] in Ht. rewrite Ht in E1, E2. cbn [fst snd] in E1, E2.
  destruct (seen_id (msg_StreamID msg) p1) as [b p2]. cbn [fst snd] in *. subst b.
  split; [|done]. cbn [fst]. rewrite E1, Ht. by eauto.
Qed.

Lemma note_node_frame msg p :
  pn_seenMsgIDs (note_node msg p) = pn_seenMsgIDs p ∧ pn_peers (note_node msg p) = pn_peers p ∧
  pn_strictMode (note_node msg p) = pn_strictMode p ∧ pn_maxPeers (note_node msg p) = pn_maxPeers p ∧
  pn_chain (note_node msg p) = pn_chain p ∧ pn_locked (note_node msg p) = pn_locked p.
Proof. unfold note_node. cbv zeta. by repeat case_match. Qed.

(** A message that carries an identifier is never relayed: by the time the
    relay loop asks, the node itself has marked the identifier as seen. *)
Theorem identified_never_relayed remote msg p sent p' :
  steady_clock → msg_StreamID msg ≠ "" →
  handle_message remote msg p = (Next sent, p') → sent = [].
Proof.
  intros Hclock Hid. unfold handle_message. rewrite bool_decide_false by done.
  pose proof (seen_id_frame (msg_StreamID msg) p) as (_ & _ & _ & _ & _ & _ & _ & E1 & _).
  pose proof (seenMessageID_new (pn_seenMsgIDs p) (clock (bc_ticks (pn_chain p)))
    (clock (S (bc_ticks (pn_chain p)))) (msg_StreamID msg) Hid (Hclock _)) as Hs.
  destruct (seen_id (msg_StreamID msg) p) as [[] p1]; cbn [snd] in *; [by intros [= <- _]|].
  rewrite <- E1 in Hs. unfold Now. cbn. destruct (allowPeerRate _ _ _) as [[] rates]; [|done].
  cbn [negb]. cbv zeta.
  set (p2 := note_node msg _).
  assert (is_Some (pn_seenMsgIDs p2 !! msg_StreamID msg)) as Hs2.
  { unfold p2. by rewrite (proj1 (note_node_frame msg _)). }
  clearbody p2. assert (∀ q, pn_seenMsgIDs q = pn_seenMsgIDs p2 →
    (let '(q', sent') := relay msg remote q in (Next sent', q')) = (Next sent, p') → sent = []) as Hr.
  { intros q Eq. pose proof (relay_seen_nothing msg remote q Hid) as Hq. rewrite Eq in Hq.
    destruct (relay msg remote q) as [q' sent']. intros [= -> ->]. by apply Hq. }
  repeat case_bool_decide; try (by intros [= <- _]).
  - destruct (msg_Block msg) as [block|]; [|by intros [= <- _]]. unfold handle_block.
    destruct (pn_locked p2); [done|]. destruct (msg_Chain msg); [|done]. cbv zeta.
    destruct (_ <? _); [by apply Hr|]. destruct (last _); [|done].
    destruct (negb _); by apply Hr.
  - destruct (msg_Tx msg) as [tx|]; [|by intros [= <- _]]. unfold handle_tx.
    destruct (pn_locked p2); [done|]. cbv zeta. by apply Hr.
  - destruct (msg_Peer msg) as [info|]; [|by intros [= <- _]]. unfold handle_hello. cbv zeta.
    intros E. repeat case_match; simplify_eq; done.
Qed.

(** ** Blocks of peers *)

(** A block message without a chain whose index is not below the height is
    appended as it is, not validated and not applied: any block whatsoever, with
    the accounts unchanged. *)
Theorem peer_block_appended msg block remote p :
  pn_locked p = false → msg_Chain msg = [] →
  blen (bc_Chain (pn_chain p)) ≤ blk_Index block < 2 ^ 63 - 1 →
  let p' := (handle_block msg block remote p).2 in
  bc_Chain (pn_chain p') = bc_Chain (pn_chain p) ++ [block] ∧
  bc_Ledger (pn_chain p') = bc_Ledger (pn_chain p).
Proof.
  intros Hl Hc Hi p'. subst p'. pose proof (blen_nonneg (bc_Chain (pn_chain p))).
  unfold handle_block. rewrite Hl, Hc. cbv zeta.
  rewrite !(i64_small (blk_Index block)), i64_small by (unfold is_i64; lia).
  rewrite (proj2 (Z.ltb_lt _ _)) by lia.
  match goal with |- context [relay msg remote ?q] =>
    pose proof (relay_keeps msg remote q) as (_ & _ & _ & n & E);
    destruct (relay msg remote q) as [p1 sent] end.
  cbn [fst snd pn_chain update] in *. rewrite E. cbn.
  match goal with |- context [SaveToDisk ?x] => destruct (SaveToDisk_frame x) as (-> & _ & -> & _) end.
  done.
Qed.

(** A block message that carries a chain blocks its handler for ever with the
    chain's lock held. *)
Lemma peer_chain_blocks msg block remote p :
  pn_locked p = false → msg_Chain msg ≠ [] →
  handle_block msg block remote p = (Block_forever, p <| pn_locked := true |>).
Proof. intros Hl Hc. unfold handle_block. rewrite Hl. by destruct (msg_Chain msg). Qed.

(** ** Peers *)

Definition peers_ok (p : P2PNode) : Prop :=
  pn_strictMode p = true ∧ blen (pn_peers p) ≤ pn_maxPeers p.

Lemma peers_ok_same p p' :
  pn_peers p' = pn_peers p → pn_strictMode p' = pn_strictMode p → pn_maxPeers p' = pn_maxPeers p →
  peers_ok p → peers_ok p'.
Proof. unfold peers_ok. by intros -> -> ->. Qed.

Lemma relay_peers_ok msg remote p : peers_ok p → peers_ok (relay msg remote p).1.
Proof. destruct (relay_keeps msg remote p) as (? & ? & ? & _). by apply peers_ok_same. Qed.

Lemma handle_message_peers_ok remote msg p :
  peers_ok p → peers_ok (handle_message remote msg p).2.
Proof.
  intros Hp. unfold handle_message.
  assert (∃ b p1, (if bool_decide (msg_StreamID msg = "") then (false, p)
                   else seen_id (msg_StreamID msg) p) = (b, p1) ∧ peers_ok p1) as (b & p1 & -> & Hp1).
  { case_bool_decide; [by eauto|].
    pose proof (seen_id_frame (msg_StreamID msg) p) as (F1 & _ & _ & _ & F2 & F3 & _).
    destruct (seen_id _ p) as [b p1]. cbn in *. exists b, p1. split; [done|]. by eapply peers_ok_same. }
  destruct b; [done|]. unfold Now. cbn. destruct (allowPeerRate _ _ _) as [[] rates]; [|exact Hp1].
  cbn [negb]. cbv zeta. set (p2 := note_node msg _).
  assert (peers_ok p2) as Hp2.
  { destruct (note_node_frame msg (p1 <| pn_chain := tick (pn_chain p1) |>
      <| pn_peerRateLimits := rates |>)) as (_ & ? & ? & ? & _). by eapply peers_ok_same. }
  clearbody p2.
  assert (∀ q, peers_ok q →
    peers_ok (let '(q', sent) := relay msg remote q in (Next sent, q')).2) as Hr.
  { intros q Hq. apply (relay_peers_ok msg remote) in Hq. by destruct (relay msg remote q). }
  repeat case_bool_decide; try done.
  - destruct (msg_Block msg) as [block|]; [|done]. unfold handle_block.
    destruct (pn_locked p2); [done|]. destruct (msg_Chain msg); [|done]. cbv zeta.
    destruct (_ <? _); [by apply Hr|]. destruct (last _); [|done]. destruct (negb _); by apply Hr.
  - destruct (msg_Tx msg) as [tx|]; [|done]. unfold handle_tx. destruct (pn_locked p2); [done|].
    by apply Hr.
  - destruct (msg_Peer msg) as [info|]; [|done]. unfold handle_hello. cbv zeta.
    destruct Hp2 as [Hst Hle]. rewrite Hst. cbn [andb].
    destruct (Z.leb_spec (pn_maxPeers p2) (blen (pn_peers p2))) as [|Hlt]; [done|].
    repeat case_match; try done; (split; [done|]); cbn; rewrite blen_app; unfold blen in *; cbn; lia.
Qed.

(** A strict node whose configured peers are within the limit never knows more
    peers than the limit, whatever messages come from wherever. *)
Theorem strict_peers_bounded p msgs :
  pn_strictMode p = true → blen (pn_peers p) ≤ pn_maxPeers p →
  let p' := foldl (λ p m, (handle_message m.1 m.2 p).2) p msgs in
  blen (pn_peers p') ≤ pn_maxPeers p'.
Proof.
  intros Hs Hle p'. assert (peers_ok p') as [_ ?]; [|done]. unfold p'.
  apply (foldl_inv peers_ok); [|by split]. intros q [remote msg] _. apply handle_message_peers_ok.
Qed.
End messages.

(** ** Witnesses *)

#[local] Instance demo_network : Network :=
  {| conn_alive _ _ := true; dial _ peer := bool_decide (peer ≠ "down"); write_ok _ _ := true |}.

Definition demo_p2p : P2PNode :=
  (NewP2PNode "a:1" ["b:1"; "c:1"] demo_node true) <| pn_trustedPeers := {["b:1" := true]} |>.

Definition demo_message (streamID : string) : Message :=
  mkMessage "tx" "b:1" "" None [] (Some demo_signed) None streamID.

Lemma demo_steady : @steady_clock demo_runtime.
Proof. intros k. cbn. unfold Minute, Second. lia. Qed.

Lemma peer_rate_is_limiter_witness :
  run_rates ∅ demo_calls = [true; true; true; true; true] ∧
  run_rates ∅ demo_calls = run_limiter (newRateLimiter 300 Minute) demo_calls.
Proof. split; [reflexivity|]. exact (peer_rate_is_limiter demo_calls 0 demo_calls_in_time). Defined.

(** A failure ten seconds ago means twenty seconds of waiting. *)
Lemma backoff_bounded_witness :
  recordDialFailure {["b:1" := 5 * Second]} (15 * Second) (15 * Second) "b:1" !! "b:1"
  = Some (35 * Second) ∧
  ∃ next, recordDialFailure {["b:1" := 5 * Second]} (15 * Second) (15 * Second) "b:1" !! "b:1"
          = Some next ∧ 15 * Second ≤ next ≤ 15 * Second + max_backoff.
Proof.
  split; [reflexivity|].
  destruct (backoff_bounded {["b:1" := 5 * Second]} (15 * Second) (15 * Second) "b:1" 0)
    as (next & E & B & _).
  - lia.
  - intros prev E. vm_compute in E. injection E as <-. vm_compute. reflexivity.
  - by exists next.
Defined.

Lemma duplicates_suppressed_witness :
  (seenMessageID ∅ 0 0 "m1").1 = false ∧
  (seenMessageID (see_all (seenMessageID ∅ 0 0 "m1").2 [(1, 1, "m2"); (2, 2, "m1")]) 3 3 "m1").1 = true.
Proof.
  apply (duplicates_suppressed ∅ 0 0 "m1"); [done|done|vm_compute; congruence|].
  repeat constructor; vm_compute; congruence.
Defined.

(** The same transaction with and without an identifier. *)
Definition demo_handled (streamID : string) : round * P2PNode :=
  @handle_message demo_runtime demo_network "d:9" (demo_message streamID) demo_p2p.

Lemma identified_never_relayed_witness :
  (demo_handled "").1 = Next ["b:1"] ∧ (demo_handled "m1").1 = Next [].
Proof.
  split; [vm_compute; reflexivity|].
  assert (∃ sent, (demo_handled "m1").1 = Next sent) as [sent E]
    by (exists []; vm_compute; reflexivity).
  rewrite E. f_equal.
  apply (@identified_never_relayed demo_runtime demo_network "d:9" (demo_message "m1")
    demo_p2p sent (demo_handled "m1").2 demo_steady); [done|].
  rewrite <- E. apply surjective_pairing.
Defined.

(** An unsigned block of index 7 with made-up hashes. *)
Definition demo_forged : Block :=
  demo_block1 <| blk_Index := 7 |> <| blk_PreviousHash := "nothing" |>.

Lemma peer_block_appended_witness :
  bc_Chain (pn_chain (@handle_block demo_runtime demo_network
    (mkMessage "block" "x:1" "" (Some demo_forged) [] None None "") demo_forged "x:1" demo_p2p).2)
  = bc_Chain demo_node ++ [demo_forged].
Proof.
  apply (@peer_block_appended demo_runtime demo_network
    (mkMessage "block" "x:1" "" (Some demo_forged) [] None None "") demo_forged "x:1" demo_p2p);
    [reflexivity|reflexivity|]. vm_compute. split; congruence.
Defined.

Definition demo_hello (from : string) : Message :=
  mkMessage "hello" from "" None [] None (Some (mkNodeInfo from [] "")) "".

(** With room for three peers, only the first of two newcomers is added. *)
Lemma strict_peers_bounded_witness :
  let p := demo_p2p <| pn_maxPeers := 3 |> in
  let p' := foldl (λ p m, (@handle_message demo_runtime demo_network m.1 m.2 p).2) p
              [("d:9", demo_hello "d:1"); ("e:9", demo_hello "e:1")] in
  pn_peers p' = ["b:1"; "c:1"; "d:1"] ∧ blen (pn_peers p') ≤ pn_maxPeers p'.
Proof.
  cbv zeta. split; [vm_compute; reflexivity|].
  apply (@strict_peers_bounded demo_runtime demo_network
    (demo_p2p <| pn_maxPeers := 3 |>)); [reflexivity|]. vm_compute. congruence.
Defined.
