(* ===== verification/Rosetta.v ===== *)
(** * The Rosetta endpoints (go-chain/blockchain/rosetta.go)

    Network status, block lookup and construction submit as functions of the
    chain, with the helpers of the file: amounts with a decimal point, balance
    and signature checks.

    The decoding of JSON text into a request, a transaction or a map is
    [encoding/json]'s: the class [RosettaJson].  Answers are values, not text. *)

From S2P Require Import Prelude Runtime Float64 Text Sha256 Domain Json Merkle Tendermint State Accounts Validation Apply Mempool Limits.
Open Scope Z_scope.
Open Scope go_scope.

(** ** Data *)

Record RosettaPartialBlockIdentifier := mkPartialBlock { rbi_Index : Z; rbi_Hash : string }.
Record RosettaCurrency := mkCurrency { rcu_Symbol : string; rcu_Decimals : Z }.
Record RosettaAmount := mkAmount { ram_Value : string; ram_Currency : RosettaCurrency }.
Record RosettaOperation := mkOperation {
  rop_Index : Z; rop_Type : string; rop_Status : string; rop_Account : string;
  rop_Amount : RosettaAmount }.
Record RosettaTransaction := mkRTransaction {
  rtx_Identifier : RosettaPartialBlockIdentifier; rtx_Operations : list RosettaOperation;
  rtx_Metadata : list (string * string) }.
Record RosettaBlock := mkRBlock {
  rbl_Identifier : RosettaPartialBlockIdentifier; rbl_Parent : RosettaPartialBlockIdentifier;
  rbl_Timestamp : Z; rbl_Transactions : list RosettaTransaction;
  rbl_Metadata : list (string * string) }.
Record RosettaPeer := mkPeer { rpe_PeerID : string; rpe_Metadata : list (string * string) }.
Record RosettaNetworkStatusResponse := mkStatus {
  rst_Current : RosettaPartialBlockIdentifier; rst_Oldest : RosettaPartialBlockIdentifier;
  rst_Genesis : RosettaPartialBlockIdentifier; rst_Timestamp : Z; rst_Peers : list RosettaPeer }.
Record RosettaPublicKey := mkPublicKey { rpk_Bytes : string; rpk_CurveType : string }.
Record RosettaConstructionSubmitRequest := mkSubmitRequest {
  rsr_Network : string; rsr_Transaction : string; rsr_PublicKeys : list RosettaPublicKey }.
Record RosettaConstructionSubmitResponse := mkSubmitResponse {
  rsp_Identifier : RosettaPartialBlockIdentifier; rsp_Status : list (string * string) }.

Class RosettaJson := {
  decode_submit : list byte → outcome RosettaConstructionSubmitRequest;
  unmarshal_tx : string → outcome Transaction;
  unmarshal_keys : string → outcome (gset string);
}.

(** An answer: a code without a body, or a value with code 200. *)
Inductive answer (A : Type) := Status (code : Z) | Answer (a : A).
Arguments Status {A} _.
Arguments Answer {A} _.

(** ** Amounts *)

Definition dot : Ascii.ascii := Ascii.ascii_of_nat 46.
Definition slash : Ascii.ascii := Ascii.ascii_of_nat 47.

Definition formatRosettaAmount (val decimals : Z) : string :=
  let s := FormatInt val in
  let n := String.length s in
  if 0 <? decimals then
    let d := Z.to_nat decimals in
    if decimals <? Z.of_nat n then
      String.substring 0 (n - d) s +:+ "." +:+ String.substring (n - d) d s
    else "0." +:+ zeros (d - n) +:+ s
  else s.

Definition parseRosettaAmount (s : string) : Z :=
  match split_on dot s with
  | [whole] => (ParseUint whole).1 *! HogohogoPerTender
  | [whole; decPart] =>
      let decPart := if (8 <? String.length decPart)%nat then String.substring 0 8 decPart
                     else decPart in
      let decPart := decPart +:+ zeros (8 - String.length decPart) in
      ((ParseUint whole).1 *! 100000000) +! (ParseUint decPart).1
  | _ => 0
  end.

(** ** Helpers *)

Definition hashInt (v : Z) : string := sha_hex (bytes_of_string (FormatInt v)).

Definition rosettaTxToCanonicalJSON (tx : Transaction) : string :=
  marshal_Transaction (tx <| tx_Signature := "" |>).

Definition checkRosettaTxBalance (bc : Blockchain) (from : string) (amount : Z) : bool :=
  match bc_Ledger bc !! from with
  | None => false
  | Some account => amount <=? acc_Balance account
  end.

Definition validateRosettaSignature `{Ed25519} (tx : Transaction) (pubHex sigHex : string) : bool :=
  match DecodeString pubHex with
  | Ok pub =>
      if negb (length pub =? PublicKeySize)%nat then false else
      match DecodeString sigHex with
      | Ok sig =>
          if negb (length sig =? SignatureSize)%nat then false
          else ed_Verify pub (bytes_of_string (marshal_Transaction tx)) sig
      | _ => false
      end
  | _ => false
  end.

Section rosetta.
Context `{Runtime} `{Ed25519} `{RosettaJson}.

Definition validateRosettaTransaction (raw : string) : outcome unit :=
  if bool_decide (TrimSpace raw = "") then Err "transaction payload cannot be empty" else
  match unmarshal_keys raw with
  | Ok t =>
      if negb (bool_decide ("from" ∈ t)) then Err "transaction payload must include sender address" else
      if negb (bool_decide ("to" ∈ t)) then Err "transaction payload must include recipient address"
      else Ok tt
  | _ => Err "transaction payload must be valid JSON"
  end.

Definition buildRosettaTx (raw : string) : outcome Transaction :=
  match unmarshal_tx raw with
  | Ok tx =>
      if bool_decide (tx_From tx = "") || bool_decide (tx_To tx = "") then
        Err "transaction must include from and to addresses" else
      if tx_Amount tx =? 0 then Err "transaction amount must be greater than 0" else Ok tx
  | Err e | Panic e => Err ("invalid transaction JSON: " +:+ e)
  end.

(** ** Network status *)

(** The miners of the audit trail, each once, in the order of their first block. *)
Definition peers_step (acc : gset string * list RosettaPeer) (entry : AuditEntry)
    : gset string * list RosettaPeer :=
  let '(seen, peers) := acc in
  if bool_decide (aud_Event entry = "block_mined") && negb (bool_decide (aud_Actor entry = "")) &&
     negb (bool_decide (aud_Actor entry ∈ seen))
  then ({[aud_Actor entry]} ∪ seen,
        peers ++ [mkPeer (aud_Actor entry) [("last_event", aud_Event entry)]])
  else acc.

Definition RosettaNetworkStatusHandler (bc : Blockchain) : RosettaNetworkStatusResponse * Blockchain :=
  match bc_Chain bc, last (bc_Chain bc) with
  | genesis :: _, Some tail =>
      let first := mkPartialBlock 0 (blk_BlockHash genesis) in
      (mkStatus (mkPartialBlock (i64 (blk_Index tail)) (blk_BlockHash tail)) first first
         (blk_Timestamp tail) (foldl peers_step (∅, []) (bc_AuditTrail bc)).2, bc)
  | _, _ =>
      let none := mkPartialBlock 0 "genesis" in
      let '(now, bc) := Unix bc in (mkStatus none none none now [], bc)
  end.

(** ** Blocks *)

Definition tdr : RosettaCurrency := mkCurrency "TDR" 8.

Definition rosetta_tx (index : Z) (tx : Transaction) : RosettaTransaction :=
  let op i account value := mkOperation i (tx_TxType tx) "SUCCESS" account (mkAmount value tdr) in
  mkRTransaction
    (mkPartialBlock (i64 index) (sha_hex (bytes_of_string (marshal_Transaction tx))))
    [op 0 (tx_From tx) ("-" +:+ FormatInt (tx_Amount tx)); op 1 (tx_To tx) (FormatInt (tx_Amount tx))]
    [("tx_id", tx_ID tx)].

Definition rosetta_block (block : Block) : RosettaBlock :=
  mkRBlock (mkPartialBlock (i64 (blk_Index block)) (blk_BlockHash block))
    (mkPartialBlock (i64 (i64 (blk_Index block) - 1)) (blk_PreviousHash block)) (blk_Timestamp block)
    (map (rosetta_tx (blk_Index block)) (blk_Transactions block)) [("author", blk_Author block)].

(** [strings.TrimRight(s, "/")] *)
Fixpoint trim_slashes (s : string) : string :=
  match s with
  | EmptyString => ""
  | String c t =>
      match trim_slashes t with
      | EmptyString => if bool_decide (c = slash) then "" else String c ""
      | t => String c t
      end
  end.

Definition RosettaBlockHandler (bc : Blockchain) (url_path : string) : answer RosettaBlock :=
  let path := TrimPrefix url_path "/block/" in
  if bool_decide (path = "") || bool_decide (path = "/") then Status 400 else
  match split_on slash (trim_slashes path) with
  | [] => Status 400
  | segment :: _ =>
      match ParseInt segment with
      | None => Status 400
      | Some target =>
          match list_find (λ b, i64 (blk_Index b) = target) (bc_Chain bc) with
          | Some (_, block) => Answer (rosetta_block block)
          | None => Status 404
          end
      end
  end.

(** ** Construction submit *)

(** The transaction that is queued.  A 32-byte public key is taken for the
    address itself. *)
Definition stamped (bc : Blockchain) (req : RosettaConstructionSubmitRequest) (tx : Transaction)
    : Transaction * Blockchain :=
  let '(nano, bc) := UnixNano bc in
  let tx := tx <| tx_ID := "tx-" +:+ FormatInt nano |> in
  let tx := if tx_Nonce tx =? 0 then tx <| tx_Nonce := u64 (blen (bc_Pending bc) + 1) |> else tx in
  let '(now, bc) := Unix bc in
  let tx := tx <| tx_Timestamp := now |> in
  let tx :=
    match rsr_PublicKeys req with
    | key :: _ =>
        if bool_decide (tx_Signature tx = "") then
          match DecodeString (rpk_Bytes key) with
          | Ok pub => if (length pub =? 32)%nat then tx <| tx_From := EncodeToString pub |> else tx
          | _ => tx
          end
        else tx
    | [] => tx
    end in
  (tx, bc).

(** The answer reads the tail of the chain after the transaction was queued; an
    empty chain makes it panic. *)
Definition RosettaConstructionSubmitHandler (bc : Blockchain) (body : list byte)
    : outcome (answer RosettaConstructionSubmitResponse) * Blockchain :=
  match decode_submit body with
  | Err _ | Panic _ => (Ok (Status 400), bc)
  | Ok req =>
      if bool_decide (TrimSpace (rsr_Transaction req) = "") then (Ok (Status 400), bc) else
      match unmarshal_tx (rsr_Transaction req) with
      | Err _ | Panic _ => (Ok (Status 400), bc)
      | Ok tx =>
          let '(tx, bc) := stamped bc req tx in
          let bc := bc <| bc_Pending ::= λ l, l ++ [tx] |> in
          match last (bc_Chain bc) with
          | None => (Panic "index out of range", bc)
          | Some tail =>
              let hash := sha_hex (bytes_of_string (tx_ID tx +:+ rsr_Network req)) in
              (Ok (Answer (mkSubmitResponse (mkPartialBlock (i64 (blk_Index tail)) hash)
                             [("accepted", "true")])), bc)
          end
      end
  end.
End rosetta.

(** ** Amounts round-trip *)

(** The value of a string of decimal digits. *)
Fixpoint dec_value (n : Z) (s : string) : Z :=
  match s with
  | EmptyString => n
  | String c s => dec_value (n * 10 + default 0 (digit_value c)) s
  end.

Lemma digit_value_range c d : digit_value c = Some d → 0 ≤ d ≤ 9.
Proof. unfold digit_value. cbv zeta. destruct (_ && _) eqn:E; [|done]. prop_bools. intros [= <-]. lia. Qed.

Lemma is_digit_value c : is_digit c = true → ∃ d, digit_value c = Some d ∧ 0 ≤ d ≤ 9.
Proof.
  unfold is_digit. intros E. apply bool_decide_eq_true in E as [d E]. exists d.
  split; [done|by eapply digit_value_range].
Qed.

Lemma dec_value_shift s : ∀ n, dec_value n s = n * 10 ^ Z.of_nat (String.length s) + dec_value 0 s.
Proof.
  induction s as [|c s IH]; intros n; cbn [dec_value String.length]; [lia|].
  rewrite IH, (IH (0 * 10 + _)), Nat2Z.inj_succ, Z.pow_succ_r by lia. lia.
Qed.

Lemma dec_value_app s t n : dec_value n (s +:+ t) = dec_value (dec_value n s) t.
Proof. revert n. induction s as [|c s IH]; intros n; [done|]. cbn. apply IH. Qed.

Lemma dec_value_zeros k n : dec_value n (zeros k) = n * 10 ^ Z.of_nat k.
Proof.
  revert n. induction k as [|k IH]; intros n; cbn [zeros]; [cbn; lia|].
  rewrite dec_value_app, IH. change (dec_value n "0") with (n * 10 + 0). rewrite Nat2Z.inj_succ, Z.pow_succ_r by lia. lia.
Qed.

Lemma dec_value_bounds s : ∀ n, 0 ≤ n → string_all is_digit s = true →
  n * 10 ^ Z.of_nat (String.length s) ≤ dec_value n s < (n + 1) * 10 ^ Z.of_nat (String.length s).
Proof.
  induction s as [|c s IH]; intros n Hn Hd; cbn [dec_value String.length]; [cbn; lia|].
  cbn [string_all] in Hd. apply andb_prop in Hd as [Hc Hs].
  destruct (is_digit_value c Hc) as (d & -> & Hr). cbn [default id].
  specialize (IH (n * 10 + d) ltac:(lia) Hs). rewrite Nat2Z.inj_succ, Z.pow_succ_r by lia.
  assert (0 < 10 ^ Z.of_nat (String.length s)) as Hp by (apply Z.pow_pos_nonneg; lia).
  revert IH Hp. generalize (10 ^ Z.of_nat (String.length s)) as P. generalize (dec_value (n * 10 + d) s) as v.
  intros v P [H1 H2] HP. assert (0 ≤ d * P ≤ 9 * P) by nia. lia.
Qed.

(** The parser computes the value when it is a [uint64]. *)
Lemma parse_uint_loop_value s : ∀ n, 0 ≤ n → string_all is_digit s = true →
  dec_value n s < max_u64 → parse_uint_loop n s = (dec_value n s, None).
Proof.
  induction s as [|c s IH]; intros n Hn Hd Hlt; [done|].
  cbn [string_all] in Hd. apply andb_prop in Hd as [Hc Hs].
  destruct (is_digit_value c Hc) as (d & E & Hr). cbn [dec_value parse_uint_loop] in *. rewrite E in *.
  change (default 0 (Some d)) with d in *. pose proof (dec_value_bounds s (n * 10 + d) ltac:(lia) Hs) as Hb.
  assert (1 ≤ 10 ^ Z.of_nat (String.length s)) as Hp by (apply (Z.pow_le_mono_r 10 0); lia).
  assert (n * 10 + d < max_u64) as Hn10 by nia.
  rewrite (proj2 (Z.leb_gt _ _)) by (change parse_cutoff with 1844674407370955162; unfold max_u64 in *; lia).
  rewrite (proj2 (Z.ltb_ge _ _)) by lia. by apply IH; [lia|..].
Qed.

Lemma ParseUint_value s :
  s ≠ "" → string_all is_digit s = true → dec_value 0 s < max_u64 → (ParseUint s).1 = dec_value 0 s.
Proof.
  intros Hne Hd Hlt. unfold ParseUint. destruct s as [|c s]; [done|].
  by rewrite parse_uint_loop_value.
Qed.

Lemma parse_uint_loop_inv s : ∀ n x, parse_uint_loop n s = (x, None) → x = dec_value n s.
Proof.
  induction s as [|c s IH]; intros n x; cbn [parse_uint_loop dec_value]; [by intros [= <-]|].
  destruct (digit_value c); [|done]. destruct (_ <=? _); [done|]. cbv zeta.
  destruct (_ <? _); [done|]. apply IH.
Qed.

Lemma FormatInt_value x : is_u64 x → dec_value 0 (FormatInt x) = x.
Proof.
  intros Hx. pose proof (ParseUint_FormatInt x Hx) as Hp.
  pose proof (FormatInt_nonempty x ltac:(u64_lia)) as Hne. unfold ParseUint in Hp.
  destruct (FormatInt x) as [|c s]; [done|]. symmetry. by apply (parse_uint_loop_inv _ 0).
Qed.

Lemma substring_split s k : (k ≤ String.length s)%nat →
  String.substring 0 k s +:+ String.substring k (String.length s - k) s = s ∧
  String.length (String.substring k (String.length s - k) s) = (String.length s - k)%nat ∧
  String.length (String.substring 0 k s) = k.
Proof.
  revert k. induction s as [|c s IH]; intros k Hk; cbn [String.length] in *.
  { by replace k with 0%nat by lia. }
  destruct k as [|k].
  - change (String.substring 0 0 (String c s)) with "". rewrite Nat.sub_0_r.
    assert (∀ t, String.substring 0 (String.length t) t = t) as Hall.
    { intros t. induction t as [|d t IHt]; [done|]. cbn. by rewrite IHt. }
    change (S (String.length s)) with (String.length (String c s)). by rewrite Hall.
  - destruct (IH k ltac:(lia)) as (E1 & E2 & E3). cbn [String.substring Nat.sub]. split_and!; [|done|].
    + change (String c (String.substring 0 k s) +:+ ?t) with (String c (String.substring 0 k s +:+ t)).
      by rewrite E1.
    + cbn [String.length]. by rewrite E3.
Qed.

Lemma split_on_none sep s : string_all (λ c, negb (bool_decide (c = sep))) s = true → split_on sep s = [s].
Proof.
  induction s as [|c s IH]; [done|]. cbn [string_all split_on]. intros Ha.
  apply andb_prop in Ha as [Hc Hs]. apply negb_true_iff in Hc. rewrite Hc. by rewrite IH.
Qed.

Lemma split_on_app sep s t :
  string_all (λ c, negb (bool_decide (c = sep))) s = true →
  split_on sep (s +:+ String sep t) = s :: split_on sep t.
Proof.
  induction s as [|c s IH]; intros Ha.
  - change ("" +:+ String sep t) with (String sep t). cbn [split_on]. by rewrite bool_decide_true.
  - cbn [string_all] in Ha. apply andb_prop in Ha as [Hc Hs]. apply negb_true_iff in Hc.
    change (String c s +:+ String sep t) with (String c (s +:+ String sep t)). cbn [split_on].
    rewrite Hc. by rewrite IH.
Qed.

Lemma digits_no_dot s :
  string_all is_digit s = true → string_all (λ c, negb (bool_decide (c = dot))) s = true.
Proof.
  apply string_all_impl. intros c Hc. apply negb_true_iff, bool_decide_eq_false. intros ->. done.
Qed.

Lemma zeros_length k : String.length (zeros k) = k.
Proof. induction k as [|k IH]; [done|]. cbn. by rewrite IH. Qed.

Lemma zeros_digits k : string_all is_digit (zeros k) = true.
Proof. induction k as [|k IH]; [done|]. cbn [zeros]. by rewrite string_all_app, IH. Qed.

(** A whole part and exactly eight digits after the point. *)
Lemma parseRosettaAmount_parts s t :
  s ≠ "" → string_all is_digit s = true → string_all is_digit t = true → String.length t = 8%nat →
  dec_value 0 s * 100000000 + dec_value 0 t < max_u64 →
  parseRosettaAmount (s +:+ "." +:+ t) = dec_value 0 s * 100000000 + dec_value 0 t.
Proof.
  intros Hne Hs Ht Hl Hlt. unfold parseRosettaAmount. change ("." +:+ t) with (String dot t).
  rewrite split_on_app, split_on_none by by apply digits_no_dot. cbv zeta. rewrite Hl.
  change (8 <? 8)%nat with false. cbv iota. rewrite Hl. change (zeros (8 - 8)) with "".
  rewrite string_app_nil_r.
  pose proof (dec_value_bounds s 0 ltac:(lia) Hs). pose proof (dec_value_bounds t 0 ltac:(lia) Ht).
  assert (t ≠ "") as Hnt by by intros ->.
  rewrite (ParseUint_value s), (ParseUint_value t) by (done || lia).
  rewrite (u64_small (dec_value 0 s * 100000000)) by u64_lia. by rewrite u64_small by u64_lia.
Qed.

(** The printed form of an amount with eight decimals is read back as the
    amount. *)
Theorem rosetta_amount_roundtrip val :
  is_u64 val → parseRosettaAmount (formatRosettaAmount val 8) = val.
Proof.
  intros Hv. pose proof (FormatInt_value val Hv) as Ev.
  pose proof (FormatInt_digits val ltac:(u64_lia)) as Hd. unfold formatRosettaAmount. cbv zeta.
  set (s := FormatInt val) in *. change (0 <? 8) with true. change (Z.to_nat 8) with 8%nat. cbv iota.
  destruct (8 <? Z.of_nat (String.length s)) eqn:E; prop_bools.
  - destruct (substring_split s (String.length s - 8) ltac:(lia)) as (E1 & E2 & E3).
    replace (String.length s - (String.length s - 8))%nat with 8%nat in * by lia.
    set (a := String.substring 0 (String.length s - 8) s) in *.
    set (b := String.substring (String.length s - 8) 8 s) in *.
    rewrite <- E1, string_all_app in Hd. apply andb_prop in Hd as [Ha Hb].
    rewrite <- E1, dec_value_app, dec_value_shift, E2 in Ev.
    change (10 ^ Z.of_nat 8) with 100000000 in Ev.
    rewrite parseRosettaAmount_parts; [done| |done|done|done|rewrite Ev; apply Hv].
    intros Ea. rewrite Ea in E3. cbn in E3. lia.
  - change ("0." +:+ ?t) with ("0" +:+ "." +:+ t).
    rewrite parseRosettaAmount_parts.
    + rewrite dec_value_app, dec_value_zeros. change (dec_value 0 "0") with 0. rewrite !Z.mul_0_l. exact Ev.
    + done.
    + done.
    + by rewrite string_all_app, zeros_digits.
    + rewrite string_length_app, zeros_length. lia.
    + rewrite dec_value_app, dec_value_zeros. change (dec_value 0 "0") with 0. rewrite !Z.mul_0_l, Ev. apply Hv.
Qed.

(** Without a point the same number of coins is read as a tenth: ["5"] as
    5 * 10^7 and ["5.0"] as 5 * 10^8. *)
Lemma whole_amounts_differ :
  parseRosettaAmount "5" = 50000000 ∧ parseRosettaAmount "5.0" = 500000000.
Proof. vm_compute. done. Qed.

(** ** Blocks by number *)

Lemma ParseInt_FormatInt i : 0 ≤ i < 2 ^ 63 → ParseInt (FormatInt i) = Some i.
Proof.
  intros Hi. pose proof (ParseUint_FormatInt i ltac:(u64_lia)) as Hp.
  pose proof (FormatInt_digits i ltac:(lia)) as Hd. pose proof (FormatInt_nonempty i ltac:(lia)) as Hne.
  unfold ParseInt. destruct (FormatInt i) as [|c s]; [done|].
  cbn [string_all] in Hd. apply andb_prop in Hd as [Hc _].
  rewrite !bool_decide_false by by intros ->. rewrite Hp.
  rewrite (proj2 (Z.leb_le _ _)), (proj2 (Z.ltb_lt _ _)) by lia. done.
Qed.

(** The digits of a number that is no [uint64] do not parse. *)
Lemma parse_uint_loop_overflow (x : N) : ∀ s,
  max_u64 ≤ Z.of_N x → (parse_uint_loop 0 (pretty_N_go x s)).2 ≠ None.
Proof.
  induction (N.lt_wf_0 x) as [x _ IH]; intros s Hx.
  pose proof (N.div_mod x 10 ltac:(done)) as Hdm. pose proof (N.mod_lt x 10 ltac:(done)) as Hm.
  rewrite pretty_N_go_step by u64_lia.
  set (q := (x `div` 10)%N) in *. set (r := (x `mod` 10)%N) in *.
  assert (q < x)%N by (apply N.div_lt; u64_lia). clearbody q r.
  destruct (Z.ltb_spec (Z.of_N q) max_u64) as [Hq|Hq]; [|by apply IH].
  rewrite parse_uint_loop_pretty by done. cbn [parse_uint_loop]. rewrite digit_value_pretty by done.
  destruct (parse_cutoff <=? Z.of_N q); [done|].
  rewrite (proj2 (Z.ltb_lt _ _)) by lia. done.
Qed.

Lemma ParseUint_overflow i : max_u64 ≤ i → (ParseUint (FormatInt i)).2 ≠ None.
Proof.
  intros Hi. destruct i as [|p|p]; [u64_lia| |u64_lia].
  unfold FormatInt, pretty, pretty_Z, pretty, pretty_positive, pretty, pretty_N.
  rewrite decide_False by done. pose proof (parse_uint_loop_overflow (N.pos p) "" Hi) as Hp.
  pose proof (pretty_N_go_nonempty (N.pos p) "" ltac:(lia)) as Hne.
  unfold ParseUint. by destruct (pretty_N_go (N.pos p) "").
Qed.

Lemma ParseInt_overflow i : 2 ^ 63 ≤ i → ParseInt (FormatInt i) = None.
Proof.
  intros Hi. pose proof (FormatInt_digits i ltac:(lia)) as Hd.
  pose proof (ParseUint_overflow i) as Ho. pose proof (ParseUint_FormatInt i) as Hp.
  unfold ParseInt. destruct (FormatInt i) as [|c s]; [done|].
  cbn [string_all] in Hd. apply andb_prop in Hd as [Hc _].
  rewrite !bool_decide_false by by intros ->.
  destruct (Z.ltb_spec i max_u64) as [Hlt|Hge].
  - rewrite Hp by u64_lia. rewrite (proj2 (Z.ltb_ge _ _)) by lia. by rewrite andb_false_r.
  - specialize (Ho Hge). by destruct (ParseUint (String c s)) as [n [e|]].
Qed.

Lemma digits_no_slash s :
  string_all is_digit s = true → string_all (λ c, negb (bool_decide (c = slash))) s = true.
Proof.
  apply string_all_impl. intros c Hc. apply negb_true_iff, bool_decide_eq_false. by intros ->.
Qed.

Lemma trim_slashes_none s :
  string_all (λ c, negb (bool_decide (c = slash))) s = true → trim_slashes s = s.
Proof.
  induction s as [|c s IH]; [done|]. cbn [string_all trim_slashes]. intros Ha.
  apply andb_prop in Ha as [Hc Hs]. apply negb_true_iff in Hc. rewrite IH by done.
  destruct s; [by rewrite Hc|done].
Qed.

(** Every block sits at its index, as in a validated chain. *)
Definition indexed (chain : list Block) : Prop :=
  blen chain ≤ 2 ^ 63 ∧ ∀ j b, chain !! j = Some b → blk_Index b = Z.of_nat j.

Lemma find_indexed chain i :
  indexed chain → 0 ≤ i < 2 ^ 63 →
  (λ p, p.2) <$> list_find (λ b, i64 (blk_Index b) = i) chain = chain !! Z.to_nat i.
Proof.
  intros [Hl Hi] Hr.
  assert (∀ j b, chain !! j = Some b → i64 (blk_Index b) = Z.of_nat j) as Hj.
  { intros j b E. rewrite (Hi j b E). apply i64_small. apply lookup_lt_Some in E.
    unfold blen in Hl. u64_lia. }
  destruct (list_find _ chain) as [[j b]|] eqn:E; cbn.
  - apply list_find_Some in E as (E & Eb & _). rewrite (Hj j b E) in Eb. subst i.
    by rewrite Nat2Z.id.
  - symmetry. apply lookup_ge_None. apply list_find_None in E. rewrite Forall_lookup in E.
    destruct (decide (length chain ≤ Z.to_nat i)%nat) as [|Hlt]; [done|]. exfalso.
    destruct (lookup_lt_is_Some_2 chain (Z.to_nat i)) as [b Eb]; [lia|].
    apply (E _ b Eb). rewrite (Hj _ b Eb). lia.
Qed.

Section requests.
Context `{Runtime} `{Ed25519} `{RosettaJson}.

(** C39. On a chain whose blocks carry their positions as index, [/block/<i>] answers
    with block [i], with 404 when the chain has none, and with 400 when [i] is no
    [int64]. *)
Theorem rosetta_block_lookup bc i :
  indexed (bc_Chain bc) → 0 ≤ i →
  RosettaBlockHandler bc ("/block/" +:+ FormatInt i) =
    if i <? 2 ^ 63 then
      match bc_Chain bc !! Z.to_nat i with
      | Some block => Answer (rosetta_block block)
      | None => Status 404
      end
    else Status 400.
Proof.
  intros Hx Hi. unfold RosettaBlockHandler. rewrite TrimPrefix_app. cbv zeta.
  pose proof (FormatInt_digits i Hi) as Hd. pose proof (FormatInt_nonempty i Hi) as Hne.
  rewrite bool_decide_false by done. rewrite bool_decide_false by (intros E; by rewrite E in Hd).
  cbn [orb]. rewrite trim_slashes_none, split_on_none by by apply digits_no_slash.
  destruct (Z.ltb_spec i (2 ^ 63)) as [Hlt|Hge]; [|by rewrite ParseInt_overflow].
  rewrite ParseInt_FormatInt, <- (find_indexed _ i Hx) by lia. by destruct (list_find _ _) as [[j b]|].
Qed.

(** ** Submissions *)

Lemma stamped_fields bc req tx :
  let '(tx', bc') := stamped bc req tx in
  tx_Timestamp tx' = clock (S (bc_ticks bc)) `div` 10 ^ 9 ∧ tx_Signature tx' = tx_Signature tx ∧
  tx_Amount tx' = tx_Amount tx ∧ tx_To tx' = tx_To tx ∧
  bc_Chain bc' = bc_Chain bc ∧ bc_Pending bc' = bc_Pending bc ∧ bc_Ledger bc' = bc_Ledger bc.
Proof.
  unfold stamped, UnixNano, Unix. cbv zeta.
  destruct (rsr_PublicKeys req) as [|key keys], (tx_Nonce _ =? 0); try done;
    (case_bool_decide; [|done]); destruct (DecodeString _); try done;
    by destruct (_ =? 32)%nat.
Qed.

(** A submitted transaction is queued unchecked, with a new identifier and the
    time of the node.  When that is not the second it was signed in, the bytes a
    validator checks its signature against are not those that were signed. *)
Theorem rosetta_submit_restamps bc body req tx tail :
  decode_submit body = Ok req → TrimSpace (rsr_Transaction req) ≠ "" →
  unmarshal_tx (rsr_Transaction req) = Ok tx → last (bc_Chain bc) = Some tail →
  nul_free_tx tx →
  ∃ tx' reply bc', RosettaConstructionSubmitHandler bc body = (Ok (Answer reply), bc') ∧
    bc_Pending bc' = bc_Pending bc ++ [tx'] ∧ bc_Ledger bc' = bc_Ledger bc ∧
    tx_Signature tx' = tx_Signature tx ∧
    (nul_free_tx tx' → clock (S (bc_ticks bc)) `div` 10 ^ 9 ≠ tx_Timestamp tx →
     CanonicalSigningBytes tx' ≠ CanonicalSigningBytes tx).
Proof.
  intros Hd Hne Hu Hl Hn. unfold RosettaConstructionSubmitHandler. rewrite Hd.
  rewrite bool_decide_false by done. rewrite Hu. pose proof (stamped_fields bc req tx) as Hs.
  destruct (stamped bc req tx) as [tx' bc']. destruct Hs as (E1 & E2 & _ & _ & Ec & Ep & El).
  cbn [bc_Chain update]. rewrite Ec, Hl. exists tx'. do 2 eexists. split; [reflexivity|].
  cbn. rewrite Ep. split_and!; try done. intros Hn' Ht E. apply Ht.
  apply CanonicalSigningBytes_fields in E; [|done..]. rewrite <- E1. by rewrite E.
Qed.
End requests.

(** ** Examples *)

Lemma rosetta_amount_roundtrip_witness :
  formatRosettaAmount 1234567890123 8 = "12345.67890123" ∧
  parseRosettaAmount (formatRosettaAmount 1234567890123 8) = 1234567890123.
Proof.
  split; [vm_compute; reflexivity|]. apply (rosetta_amount_roundtrip 1234567890123).
  unfold is_u64, max_u64. lia.
Defined.

Definition two_blocks : Blockchain :=
  demo_node <| bc_Chain := [demo_genesis_block; mkBlock 1 "bob" "bob" "g" 1700000005 [] 0 "h" ""] |>.

Lemma two_blocks_indexed : indexed (bc_Chain two_blocks).
Proof.
  split; [vm_compute; congruence|]. intros j b E.
  destruct j as [|[|j]]; cbn in E; [by injection E as <-|by injection E as <-|done].
Qed.

Lemma rosetta_block_lookup_witness :
  RosettaBlockHandler two_blocks ("/block/" +:+ FormatInt 1) =
    Answer (rosetta_block (mkBlock 1 "bob" "bob" "g" 1700000005 [] 0 "h" "")) ∧
  RosettaBlockHandler two_blocks ("/block/" +:+ FormatInt 2) = Status 404 ∧
  RosettaBlockHandler two_blocks ("/block/" +:+ FormatInt (2 ^ 63)) = Status 400.
Proof.
  split_and!.
  - apply (rosetta_block_lookup two_blocks 1 two_blocks_indexed). lia.
  - apply (rosetta_block_lookup two_blocks 2 two_blocks_indexed). lia.
  - apply (rosetta_block_lookup two_blocks (2 ^ 63) two_blocks_indexed). lia.
Defined.

(** Bodies decode to one signed transfer. *)
Definition demo_rosetta : RosettaJson :=
  {| decode_submit := λ _, Ok (mkSubmitRequest "mainnet" "{}" []);
     unmarshal_tx := λ _, Ok (demo_transfer <| tx_Timestamp := 5 |>);
     unmarshal_keys := λ _, Err "json" |}.

Lemma demo_transfer_nul_free ts : nul_free_tx (demo_transfer <| tx_Timestamp := ts |>).
Proof. split_and!; cbn; try lia; apply nul_free_dec_ok; vm_compute; reflexivity. Qed.

Lemma rosetta_submit_restamps_witness :
  ∃ tx' reply bc', @RosettaConstructionSubmitHandler demo_runtime demo_rosetta two_blocks [] =
      (Ok (Answer reply), bc') ∧ bc_Pending bc' = bc_Pending two_blocks ++ [tx'].
Proof.
  destruct (@rosetta_submit_restamps demo_runtime demo_rosetta two_blocks []
    (mkSubmitRequest "mainnet" "{}" []) (demo_transfer <| tx_Timestamp := 5 |>)
    (mkBlock 1 "bob" "bob" "g" 1700000005 [] 0 "h" "")) as (tx' & reply & bc' & E1 & E2 & _);
    [reflexivity|vm_compute; discriminate|reflexivity|reflexivity|apply demo_transfer_nul_free|].
  exists tx', reply, bc'. split; [exact E1|exact E2].
Defined.
