(* ===== verification/Pool.v ===== *)
(** * The mining pool (go-chain/tools/pool/main.go)

    The state of the pool, its methods and the handlers of its server, as
    functions of the decoded request.  What the node answers to the pool's poll is
    a value; the reading of the clock is an argument. *)

From S2P Require Import Prelude Runtime Float64 Text Sha256 Domain Limits.
From S2P Require Api.
Open Scope Z_scope.
Open Scope go_scope.

Record MiningPool := mkMiningPool {
  mp_address : string; mp_balance : Z; mp_minThreshold : Z; mp_workers : gmap string Z;
  mp_totalShares : Z; mp_lastPayout : Z; mp_difficulty : Z; mp_latestBlockIdx : Z;
  mp_latestBlockHash : string; mp_nodeBase : string }.

#[export] Instance MiningPool_rebuild : Rebuild MiningPool := λ r,
  mkMiningPool (mp_address r) (mp_balance r) (mp_minThreshold r) (mp_workers r) (mp_totalShares r)
    (mp_lastPayout r) (mp_difficulty r) (mp_latestBlockIdx r) (mp_latestBlockHash r) (mp_nodeBase r).

Definition NewMiningPool (address : string) (minPayout difficulty now : Z) : MiningPool :=
  mkMiningPool address 0 minPayout ∅ 0 now difficulty 0 "" "".

(** ** Methods *)

Definition RegisterWorker (p : MiningPool) (workerID : string) : bool * MiningPool :=
  match mp_workers p !! workerID with
  | Some _ => (false, p)
  | None => (true, p <| mp_workers ::= <[workerID := 0]> |>)
  end.

Definition shares_of (p : MiningPool) (workerID : string) : Z := default 0 (mp_workers p !! workerID).

Definition RecordShare (p : MiningPool) (workerID : string) (shares : Z) : MiningPool :=
  p <| mp_workers ::= <[workerID := shares_of p workerID +! shares]> |>
    <| mp_totalShares ::= λ n, n +! shares |>.

Definition AddReward (p : MiningPool) (amount : Z) : MiningPool :=
  p <| mp_balance ::= λ b, b +! amount |>.

Definition Payout (p : MiningPool) (now : Z) : Z * MiningPool :=
  if mp_balance p <? mp_minThreshold p then (0, p)
  else (mp_balance p, p <| mp_balance := 0 |> <| mp_lastPayout := now |>).

Definition Stats (p : MiningPool) : list (string * Api.value) :=
  [("address", Api.VString (mp_address p)); ("balance", Api.VInt (mp_balance p));
   ("workers", Api.VInt (Z.of_nat (size (mp_workers p))));
   ("total_shares", Api.VInt (mp_totalShares p)); ("min_payout", Api.VInt (mp_minThreshold p));
   ("difficulty", Api.VInt (mp_difficulty p)); ("last_payout", Api.VInt (mp_lastPayout p))].

(** A lower-case hexadecimal digit. *)
Definition is_lower_hex (c : Ascii.ascii) : bool :=
  let n := Z.of_nat (Ascii.nat_of_ascii c) in
  ((48 <=? n) && (n <=? 57)) || ((97 <=? n) && (n <=? 102)).

(** The number of zeros a hash must start with; [difficulty+3] is a [uint32]. *)
Definition required_zeros (difficulty : Z) : Z := u32 (difficulty + 3) `div` 4.

(** The nonce is not looked at. *)
Definition ValidateShare (blockHash : string) (nonce difficulty : Z) : bool :=
  if negb (String.length blockHash =? 64)%nat then false else
  if negb (string_all is_lower_hex blockHash) then false else
  HasPrefix blockHash (zeros (Z.to_nat (required_zeros difficulty))).

(** What [/api/chain] answers: a failure, or the fields of its last block when
    the chain is a non-empty list and its last element an object; a field that is
    absent or of another type is the zero value. *)
Inductive template :=
| NoTemplate (e : string)
| Tail (index : option float64) (hash : option string).

Definition refreshTemplate `{Runtime} (p : MiningPool) (answer : template) : outcome unit * MiningPool :=
  if bool_decide (mp_nodeBase p = "") then (Err "pool node base not configured", p) else
  match answer with
  | NoTemplate e => (Err e, p)
  | Tail index hash =>
      (Ok tt, p <| mp_latestBlockIdx := u64_of_f64 (default (f64_of_Z 0) index) |>
                <| mp_latestBlockHash := default "" hash |>)
  end.

(** ** Handlers *)

Inductive reply :=
| Error (code : Z) (msg : string)
| Accept (fields : list (string * Api.value)).

Record shareRequest := mkshareRequest { shr_WorkerID : string; shr_BlockHash : string; shr_Nonce : Z }.

Definition handleRegister (method : string) (req : outcome string) (p : MiningPool)
    : reply * MiningPool :=
  if negb (bool_decide (method = "POST")) then (Error 405 "method not allowed", p) else
  match req with
  | Err e | Panic e => (Error 400 e, p)
  | Ok workerID =>
      if bool_decide (workerID = "") then (Error 400 "worker_id required", p) else
      match RegisterWorker p workerID with
      | (true, p) => (Accept [("status", Api.VString "registered");
                              ("worker_id", Api.VString workerID)], p)
      | (false, p) => (Error 409 "worker already registered", p)
      end
  end.

Definition handleWork (workerID : string) (now : Z) (p : MiningPool) : reply :=
  if bool_decide (workerID = "") then Error 400 "worker_id required" else
  match mp_workers p !! workerID with
  | None => Error 403 "worker not registered"
  | Some _ =>
      Accept [("difficulty", Api.VInt (mp_difficulty p)); ("worker_id", Api.VString workerID);
              ("timestamp", Api.VInt (now `div` 10 ^ 9));
              ("previous_hash", Api.VString (mp_latestBlockHash p));
              ("height", Api.VInt (mp_latestBlockIdx p));
              ("miner_address", Api.VString (mp_address p)); ("transactions", Api.VStrings [])]
  end.

Definition handleSubmit (method : string) (req : outcome shareRequest) (p : MiningPool)
    : reply * MiningPool :=
  if negb (bool_decide (method = "POST")) then (Error 405 "method not allowed", p) else
  match req with
  | Err e | Panic e => (Error 400 e, p)
  | Ok req =>
      let w := shr_WorkerID req in
      if bool_decide (w = "") || bool_decide (shr_BlockHash req = "") then
        (Error 400 "worker_id and block_hash required", p) else
      match mp_workers p !! w with
      | None => (Error 403 "worker not registered", p)
      | Some _ =>
          if negb (ValidateShare (shr_BlockHash req) (shr_Nonce req) (mp_difficulty p)) then
            (Error 400 "share does not meet difficulty target", p) else
          let p := RecordShare p w 1 in
          (Accept [("status", Api.VString "accepted"); ("worker_id", Api.VString w);
                   ("shares", Api.VInt (shares_of p w))], p)
      end
  end.

Definition handleStats (p : MiningPool) : reply := Accept (Stats p).

Definition handlePayout (method : string) (now : Z) (p : MiningPool) : reply * MiningPool :=
  if negb (bool_decide (method = "POST")) then (Error 405 "method not allowed", p) else
  let '(amount, p) := Payout p now in
  if amount =? 0 then
    (Accept [("status", Api.VString "below_threshold"); ("balance", Api.VInt (mp_balance p));
             ("min_payout", Api.VInt (mp_minThreshold p))], p)
  else (Accept [("status", Api.VString "payout_queued"); ("amount", Api.VInt amount);
                ("address", Api.VString (mp_address p))], p).

(** ** Which hashes count *)

Definition hex_digit_value (c : Ascii.ascii) : Z := default 0 (hex_value c).

(** The number a string of hexadecimal digits stands for. *)
Fixpoint hex_num (s : string) : Z :=
  match s with
  | EmptyString => 0
  | String c s => hex_digit_value c * 16 ^ Z.of_nat (String.length s) + hex_num s
  end.

Lemma lower_hex_value c :
  is_lower_hex c = true →
  0 ≤ hex_digit_value c < 16 ∧ (hex_digit_value c = 0 ↔ c = Ascii.ascii_of_nat 48).
Proof. destruct c as [[] [] [] [] [] [] [] []]; vm_compute; try done; intros _; repeat split; congruence. Qed.

Lemma hex_num_bounds s : string_all is_lower_hex s = true → 0 ≤ hex_num s < 16 ^ Z.of_nat (String.length s).
Proof.
  induction s as [|c s IH]; cbn [string_all hex_num String.length]; [intros _; cbn; lia|].
  intros Ha. apply andb_prop in Ha as [Hc Hs]. destruct (lower_hex_value c Hc) as [Hr _].
  specialize (IH Hs). rewrite Nat2Z.inj_succ, Z.pow_succ_r by lia. nia.
Qed.

(** Starting with [k] zeros is being below a power of 16. *)
Lemma zero_prefix_value s : ∀ k, string_all is_lower_hex s = true →
  HasPrefix s (zeros k) = true ↔ hex_num s < 16 ^ (Z.of_nat (String.length s) - Z.of_nat k).
Proof.
  unfold HasPrefix. induction s as [|c s IH]; intros k Ha.
  - destruct k as [|k]; cbn [zeros hex_num String.length]; [done|].
    change (String.prefix ("0" +:+ zeros k) "") with false. split; [done|].
    rewrite Z.pow_neg_r by lia. lia.
  - pose proof (hex_num_bounds (String c s) Ha) as Hb.
    destruct k as [|k].
    { replace (_ - Z.of_nat 0) with (Z.of_nat (String.length (String c s))) by lia.
      split; [intros _; apply Hb|done]. }
    cbn [string_all] in Ha. apply andb_prop in Ha as [Hc Hs].
    destruct (lower_hex_value c Hc) as [Hr H0]. pose proof (hex_num_bounds s Hs) as Hbs.
    cbn [zeros hex_num String.length] in *.
    change ("0" +:+ zeros k) with (String (Ascii.ascii_of_nat 48) (zeros k)). cbn [String.prefix].
    replace (Z.of_nat (S (String.length s)) - Z.of_nat (S k))
      with (Z.of_nat (String.length s) - Z.of_nat k) by lia.
    assert (16 ^ (Z.of_nat (String.length s) - Z.of_nat k) ≤ 16 ^ Z.of_nat (String.length s)) as Hle.
    { destruct (decide (Z.of_nat k ≤ Z.of_nat (String.length s))).
      - apply Z.pow_le_mono_r; lia.
      - rewrite Z.pow_neg_r by lia. apply Z.pow_nonneg. lia. }
    destruct (Ascii.ascii_dec (Ascii.ascii_of_nat 48) c) as [E|Hne].
    + rewrite (proj2 H0) by done. rewrite Z.mul_0_l, Z.add_0_l. by apply IH.
    + split; [done|]. intros Hlt. exfalso. assert (hex_digit_value c ≠ 0) by (rewrite H0; congruence). nia.
Qed.

Lemma ValidateShare_spec blockHash nonce difficulty :
  ValidateShare blockHash nonce difficulty = true ↔
  String.length blockHash = 64%nat ∧ string_all is_lower_hex blockHash = true ∧
  hex_num blockHash < 16 ^ (64 - required_zeros difficulty).
Proof.
  unfold ValidateShare. destruct (String.length blockHash =? 64)%nat eqn:El; cbn [negb];
    [|apply Nat.eqb_neq in El; split; [done|intros (? & _); done]].
  apply Nat.eqb_eq in El. destruct (string_all is_lower_hex blockHash) eqn:Ea; cbn [negb];
    [|split; [done|by intros (_ & ? & _)]].
  assert (0 ≤ required_zeros difficulty) as Hz.
  { unfold required_zeros. apply Z.div_pos; [apply u32_range|lia]. }
  rewrite (zero_prefix_value _ _ Ea), El, Z2Nat.id by done. naive_solver.
Qed.

(** A share is accepted when its hash is 64 lower-case digits of a number below
    16^(64-k), [k] being a quarter of the difficulty, rounded up; no hash when [k]
    exceeds 64. *)
Theorem share_test blockHash nonce difficulty :
  ValidateShare blockHash nonce difficulty = true ↔
  String.length blockHash = 64%nat ∧ string_all is_lower_hex blockHash = true ∧
  hex_num blockHash < 16 ^ (64 - required_zeros difficulty).
Proof. apply ValidateShare_spec. Qed.

(** ** Accounting *)

Inductive pool_op :=
| OpRegister (method : string) (req : outcome string)
| OpSubmit (method : string) (req : outcome shareRequest)
| OpReward (amount : Z)
| OpPayout (method : string) (now : Z).

(** What the answers told: the workers of the accepted shares, in order, and the
    amounts of the payouts; and the rewards that came in. *)
Record history := mkhistory { hi_shares : list string; hi_rewards : Z; hi_paid : Z }.

(** The worker whose share an answer accepts. *)
Definition accepted_share (r : reply) (req : outcome shareRequest) : list string :=
  match r, req with
  | Accept _, Ok req => [shr_WorkerID req]
  | _, _ => []
  end.

(** The sum of the [amount] fields of an answer. *)
Definition paid_amount (r : reply) : Z :=
  match r with
  | Accept fields =>
      foldr (λ f acc, match f with
                      | (name, Api.VInt n) => if bool_decide (name = "amount") then n + acc else acc
                      | _ => acc
                      end) 0 fields
  | Error _ _ => 0
  end.

Definition run_op (s : MiningPool * history) (op : pool_op) : MiningPool * history :=
  let '(p, h) := s in
  match op with
  | OpRegister method req => ((handleRegister method req p).2, h)
  | OpSubmit method req =>
      let '(r, p) := handleSubmit method req p in
      (p, mkhistory (hi_shares h ++ accepted_share r req) (hi_rewards h) (hi_paid h))
  | OpReward amount => (AddReward p amount, mkhistory (hi_shares h) (hi_rewards h + amount) (hi_paid h))
  | OpPayout method now =>
      let '(r, p) := handlePayout method now p in
      (p, mkhistory (hi_shares h) (hi_rewards h) (hi_paid h + paid_amount r))
  end.

Definition count_shares (w : string) (l : list string) : Z := blen (filter (eq w) l).

(** The counters of the pool are those of its history. *)
Definition books_ok (s : MiningPool * history) : Prop :=
  let '(p, h) := s in
  (∀ w, shares_of p w = u64 (count_shares w (hi_shares h))) ∧
  mp_totalShares p = u64 (blen (hi_shares h)) ∧
  u64 (mp_balance p + hi_paid h) = u64 (hi_rewards h).

Lemma shares_of_insert p w n w' :
  shares_of (p <| mp_workers ::= <[w := n]> |>) w' = if bool_decide (w = w') then n else shares_of p w'.
Proof.
  unfold shares_of. cbn. case_bool_decide as E; [subst; by rewrite lookup_insert_eq|].
  by rewrite lookup_insert_ne.
Qed.

Lemma RecordShare_books p h w :
  books_ok (p, h) →
  books_ok (RecordShare p w 1, mkhistory (hi_shares h ++ [w]) (hi_rewards h) (hi_paid h)).
Proof.
  intros (Hw & Ht & Hb). unfold books_ok. split_and!; [|cbn|done].
  - intros w'. unfold RecordShare.
    change (shares_of (p <| mp_workers ::= ?f |> <| mp_totalShares ::= ?g |>) w')
      with (shares_of (p <| mp_workers ::= f |>) w').
    rewrite shares_of_insert. cbn [hi_shares]. unfold count_shares in *. rewrite filter_app, blen_app.
    rewrite filter_cons. case_bool_decide as E.
    + subst w'. rewrite decide_True by done. rewrite filter_nil, Hw, u64_add_l. f_equal.
    + rewrite decide_False by congruence. rewrite filter_nil, Hw. f_equal. unfold blen. cbn. lia.
  - rewrite Ht, blen_app, u64_add_l. done.
Qed.

(** What a payout answers is what leaves the balance. *)
Lemma handlePayout_pays method now p :
  let '(r, p') := handlePayout method now p in
  mp_workers p' = mp_workers p ∧ mp_totalShares p' = mp_totalShares p ∧
  mp_balance p' + paid_amount r = mp_balance p.
Proof.
  unfold handlePayout, Payout. destruct (negb _); [split_and!; [done|done|apply Z.add_0_r]|].
  destruct (mp_balance p <? mp_minThreshold p).
  - cbn [Z.eqb]. split_and!; [done|done|apply Z.add_0_r].
  - destruct (mp_balance p =? 0) eqn:E; (split_and!; [done|done|]); prop_bools.
    + change (0 + 0 = mp_balance p). lia.
    + change (0 + (mp_balance p + 0) = mp_balance p). lia.
Qed.

Lemma run_op_books s op : books_ok s → books_ok (run_op s op).
Proof.
  destruct s as [p h]. intros Hok. destruct op as [method req|method req|amount|method now]; cbn [run_op].
  - unfold handleRegister. destruct (negb _); [done|]. destruct req as [w|e|e]; [|done..].
    case_bool_decide; [done|]. unfold RegisterWorker. destruct (mp_workers p !! w) eqn:E; [done|].
    cbn [snd]. destruct Hok as (Hw & Ht & Hb). split_and!; [|done|done]. intros w'.
    rewrite shares_of_insert. case_bool_decide as Ew; [|apply Hw]. subst w'.
    rewrite <- Hw. unfold shares_of. by rewrite E.
  - unfold handleSubmit. cbv zeta.
    assert (books_ok (p, mkhistory (hi_shares h ++ []) (hi_rewards h) (hi_paid h))) as Hself
      by by rewrite app_nil_r.
    destruct (negb _); [by destruct req|]. destruct req as [req|e|e]; [|done..].
    destruct (_ || _); [done|]. destruct (mp_workers p !! shr_WorkerID req); [|done].
    destruct (negb _); [done|]. by apply RecordShare_books.
  - destruct Hok as (Hw & Ht & Hb). split_and!; [done|done|]. cbn.
    rewrite u64_add_l. replace (mp_balance p + amount + hi_paid h) with (mp_balance p + hi_paid h + amount) by lia.
    by rewrite <- u64_add_l, Hb, u64_add_l.
  - pose proof (handlePayout_pays method now p) as Hpay.
    destruct (handlePayout method now p) as [r p']. destruct Hpay as (Ep & Et & Eb).
    destruct Hok as (Hw & Ht & Hb). split_and!; cbn [hi_shares hi_rewards hi_paid].
    + intros w. unfold shares_of. rewrite Ep. apply Hw.
    + by rewrite Et.
    + rewrite <- Hb, <- Eb. f_equal. lia.
Qed.

(** C38. After any sequence of registrations, submissions, rewards and payouts the
    share count of a worker is the number of its submissions that were answered as
    accepted, the total is the number of all of them, and the balance and the
    amounts the payouts answered with add up to the rewards, all modulo 2^64. *)
Theorem pool_accounting address minPayout difficulty now ops :
  books_ok (foldl run_op (NewMiningPool address minPayout difficulty now, mkhistory [] 0 0) ops).
Proof.
  apply (foldl_inv books_ok); [intros s op _; apply run_op_books|]. unfold books_ok.
  split_and!; [|done|done]. intros w. unfold shares_of. cbn. by rewrite lookup_empty.
Qed.

(** ** Free shares *)

Definition no_work : string := zeros 64.

Lemma no_work_valid nonce difficulty :
  0 ≤ difficulty ≤ 256 → ValidateShare no_work nonce difficulty = true.
Proof.
  intros Hd. apply ValidateShare_spec. split_and!; [reflexivity|reflexivity|].
  change (hex_num no_work) with 0. apply Z.pow_pos_nonneg; [lia|]. unfold required_zeros.
  rewrite u32_small by u64_lia. pose proof (Z.div_lt_upper_bound (difficulty + 3) 4 65). lia.
Qed.

(** The hash is not compared with any work that was handed out, and not
    remembered: a registered worker that submits sixty-four zeros again and again
    is credited a share every time. *)
Theorem shares_for_free p w n nonce :
  w ≠ "" → is_Some (mp_workers p !! w) → is_u64 (shares_of p w) → 0 ≤ mp_difficulty p ≤ 256 →
  let submit p := (handleSubmit "POST" (Ok (mkshareRequest w no_work nonce)) p).2 in
  shares_of (Nat.iter n submit p) w = u64 (shares_of p w + Z.of_nat n).
Proof.
  intros Hw Hr Hu Hd submit. destruct n as [|n]; [by rewrite Z.add_0_r, u64_small|].
  assert (∀ q, is_Some (mp_workers q !! w) → mp_difficulty q = mp_difficulty p →
    submit q = RecordShare q w 1) as Hs.
  { intros q [x Hq] Eq. unfold submit, handleSubmit. rewrite bool_decide_true by done.
    cbn [negb shr_WorkerID shr_BlockHash shr_Nonce]. cbv zeta. rewrite bool_decide_false by done.
    rewrite bool_decide_false by done. cbn [orb]. rewrite Hq, no_work_valid by (rewrite Eq; lia). done. }
  assert (∀ k, is_Some (mp_workers (Nat.iter k submit p) !! w) ∧
    mp_difficulty (Nat.iter k submit p) = mp_difficulty p ∧
    shares_of (Nat.iter (S k) submit p) w = u64 (shares_of p w + Z.of_nat (S k))) as Hk; [|apply Hk].
  assert (∀ q, shares_of (RecordShare q w 1) w = shares_of q w +! 1) as Hr1.
  { intros q. unfold RecordShare, shares_of. cbn. by rewrite lookup_insert_eq. }
  induction k as [|k (IH1 & IH2 & IH3)].
  - split_and!; [done|done|]. change (Nat.iter 1 submit p) with (submit p). rewrite Hs, Hr1 by done. done.
  - set (q := Nat.iter k submit p) in *. change (Nat.iter (S k) submit p) with (submit q) in *.
    assert (is_Some (mp_workers (submit q) !! w) ∧ mp_difficulty (submit q) = mp_difficulty p) as [H1 H2].
    { rewrite Hs by done. unfold RecordShare. cbn. rewrite lookup_insert_eq. by eauto. }
    split_and!; [done|done|]. change (Nat.iter (S (S k)) submit p) with (submit (submit q)).
    rewrite (Hs (submit q)), Hr1, IH3, u64_add_l by done. f_equal. lia.
Qed.

(** ** Examples *)

Definition demo_pool : MiningPool := (RegisterWorker (NewMiningPool "pool" 1000 4 0) "w1").2.

Lemma shares_for_free_witness :
  shares_of (Nat.iter 3 (λ p, (handleSubmit "POST" (Ok (mkshareRequest "w1" no_work 0)) p).2) demo_pool)
    "w1" = 3.
Proof.
  apply (shares_for_free demo_pool "w1" 3 0);
    [done|by eexists|vm_compute; split; congruence|vm_compute; split; congruence].
Defined.
