(* ===== verification/LibP2P.v ===== *)
(** * The libp2p-style host (go-chain/p2p/libp2p_host.go)

    The handshake, the frames and the session table of [LibP2PNode].

    What a connection delivers is a list of pieces: one [Read] of the connection
    returns bytes of the first piece only, and fails when nothing is left.
    [bufio.Reader] is modelled with its buffer of 4096 bytes.  The code calls
    [Read] where [io.ReadFull] is needed, so how bytes are cut into pieces
    matters.  [w] says which writes on a connection succeed.

    JSON is the class [LibP2PJson].  Starting and stopping the host
    is in [HostLifecycle], the two varint helpers in [Varint]; what discovery, UPnP
    and NAT-PMP do with the network is left out. *)

From S2P Require Import Prelude Runtime Text Sha256 Domain.
Open Scope Z_scope.
Open Scope go_scope.

(** ** Connections *)

Definition zero : byte := Byte.x00.

(** A buffer of [n] bytes with [l] read into its front. *)
Definition pad (n : nat) (l : list byte) : list byte := l ++ replicate (n - length l) zero.

Definition conn_read (n : nat) (src : list (list byte)) : option (list byte * list (list byte)) :=
  match src with
  | [] => None
  | s :: rest => Some (take n s, if (length s <=? n)%nat then rest else drop n s :: rest)
  end.

Record reader := mkreader { rd_buffer : list byte; rd_src : list (list byte) }.

Definition bufio_size : nat := 4096.

(** [bufio.Reader.Read]: what is buffered, or else one read of the connection,
    around the buffer when at least as much is asked for. *)
Definition bufio_read (n : nat) (r : reader) : option (list byte * reader) :=
  if (n =? 0)%nat then Some ([], r) else
  match rd_buffer r with
  | [] =>
      if (bufio_size <=? n)%nat then
        '(p, src) ← conn_read n (rd_src r); Some (p, mkreader [] src)
      else
        '(b, src) ← conn_read bufio_size (rd_src r); Some (take n b, mkreader (drop n b) src)
  | b => Some (take n b, mkreader (drop n b) (rd_src r))
  end.

(** [Read] into a fresh slice, the count of bytes ignored. *)
Definition read_into (n : nat) (r : reader) : option (list byte * reader) :=
  '(p, r) ← bufio_read n r; Some (pad n p, r).

(** ** Frames *)

Definition frame_header (data : list byte) : list byte := be_bytes 4 (u32 (blen data)).

(** The pieces written, and whether both writes succeeded. *)
Definition writeFrame (w : nat → bool) (data : list byte) : outcome unit * list (list byte) :=
  if negb (w 0%nat) then (Err "write", []) else
  if negb (w 1%nat) then (Err "write", [frame_header data])
  else (Ok tt, [frame_header data; data]).

Definition max_frame : Z := 5 * 1024 * 1024.

Definition readFrame (r : reader) : option (list byte * reader) :=
  '(lenBuf, r) ← read_into 4 r;
  let length := be_value lenBuf in
  if max_frame <? length then None else read_into (Z.to_nat length) r.

(** ** Messages *)

Record LibP2PMessage := mkLibP2PMessage {
  lm_Type : string; lm_From : string; lm_To : string; lm_PubKey : string; lm_Address : string;
  lm_Signature : list byte; lm_Block : option Block; lm_Tx : option Transaction }.

Class LibP2PJson := {
  lib_marshal : LibP2PMessage → list byte;
  lib_unmarshal : list byte → outcome LibP2PMessage;
}.

Definition readMessage `{LibP2PJson} (r : reader) : option (LibP2PMessage * reader) :=
  '(data, r) ← readFrame r;
  match lib_unmarshal data with
  | Ok msg => Some (msg, r)
  | _ => None
  end.

(** The messages of a session until the first that cannot be read; [None] when
    the fuel does not suffice. *)
Fixpoint readLoop `{LibP2PJson} (fuel : nat) (r : reader) : option (list LibP2PMessage) :=
  match fuel with
  | O => None
  | S fuel =>
      match readMessage r with
      | None => Some []
      | Some (msg, r) => cons msg <$> readLoop fuel r
      end
  end.

(** ** The node *)

Record peerSession := mkpeerSession {
  ps_remotePeerID : string; ps_trusted : bool; ps_lastSeen : Z; ps_muxers : gmap string bool }.

#[export] Instance peerSession_rebuild : Rebuild peerSession := λ r,
  mkpeerSession (ps_remotePeerID r) (ps_trusted r) (ps_lastSeen r) (ps_muxers r).

Record LibP2PNode := mkLibP2PNode {
  ln_privKey : list byte; ln_pubKey : list byte; ln_peerID : string; ln_addr : string;
  ln_strictMode : bool; ln_validatorSet : gset string; ln_peers : gmap string peerSession }.

#[export] Instance LibP2PNode_rebuild : Rebuild LibP2PNode := λ r,
  mkLibP2PNode (ln_privKey r) (ln_pubKey r) (ln_peerID r) (ln_addr r) (ln_strictMode r)
    (ln_validatorSet r) (ln_peers r).

Definition lib_peer_id (pub : list byte) : string := "libp2p:" +:+ sha_hex pub.

Definition NewLibP2PNode `{Ed25519} (k : nat) (addr : string) (strictMode : bool) : LibP2PNode :=
  let '(pub, priv) := GenerateKey k in
  mkLibP2PNode priv pub (lib_peer_id pub) addr strictMode ∅ ∅.

Definition ValidatorSet (n : LibP2PNode) (validators : list string) : LibP2PNode :=
  n <| ln_validatorSet ::= λ s, s ∪ list_to_set validators |>.

Definition lib_Peers `{Runtime} (k : nat) (n : LibP2PNode) : list string :=
  map fst (range_map k (ln_peers n)).

Definition lib_TrustedPeers (n : LibP2PNode) : gmap string bool := ps_trusted <$> ln_peers n.

(** ** Handshake *)

Section handshake.
Context `{Ed25519}.

(** The dialling side, with its random nonce: whether it accepts the peer, and
    what it wrote. *)
Definition noiseHandshakeOutbound (n : LibP2PNode) (w : nat → bool) (nonce : option (list byte))
    (remotePub : list byte) (src : list (list byte)) : outcome bool * list (list byte) :=
  match nonce with
  | None => (Ok false, [])
  | Some nonce =>
      let payload := ln_pubKey n ++ nonce in
      let sig := ed_Sign (ln_privKey n) payload in
      if negb (w 0%nat) then (Ok false, []) else
      if negb (w 1%nat) then (Ok false, [sig]) else
      match conn_read (SignatureSize + 32) src with
      | None => (Ok false, [sig; nonce])
      | Some (p, _) =>
          let buf := pad (SignatureSize + 32) p in
          let remoteSig := take SignatureSize buf in
          let remoteNonce := drop SignatureSize buf in
          if negb (length remotePub =? PublicKeySize)%nat then
            (Panic "ed25519: bad public key length", [sig; nonce]) else
          if negb (ed_Verify remotePub (remotePub ++ remoteNonce) remoteSig) then
            (Ok false, [sig; nonce])
          else (Ok (bool_decide (remoteNonce = nonce)), [sig; nonce])
      end
  end.

(** The listening side: the key of the peer, if it accepts it, what it wrote, and
    what is left to read.  The public key is taken from the first bytes of the
    signature. *)
Definition noiseHandshakeInbound (n : LibP2PNode) (w : nat → bool) (src : list (list byte))
    : option (list byte) * list (list byte) * list (list byte) :=
  match conn_read SignatureSize src with
  | None => (None, [], src)
  | Some (p, src) =>
      let sig := pad SignatureSize p in
      match conn_read 32 src with
      | None => (None, [], src)
      | Some (q, src) =>
          let nonce := pad 32 q in
          let remotePub := take PublicKeySize sig in
          if negb (ed_Verify remotePub (remotePub ++ nonce) sig) then (None, [], src) else
          let reply := ln_pubKey n ++ nonce in
          let replySig := ed_Sign (ln_privKey n) reply in
          if negb (w 0%nat) then (None, [], src) else (Some remotePub, [replySig], src)
      end
  end.

(** ** Sessions *)

Definition register (id : string) (now : Z) (n : LibP2PNode) : LibP2PNode :=
  n <| ln_peers ::= <[id := mkpeerSession id true now ∅]> |>.

(** The first test of [handleIncoming] under the lock; in strict mode the lock is
    released after it and taken again. *)
Definition may_join (id : string) (n : LibP2PNode) : bool :=
  match ln_peers n !! id with
  | Some _ => false
  | None => negb (ln_strictMode n) || bool_decide (id ∈ ln_validatorSet n)
  end.

Definition hello (n : LibP2PNode) (id : string) : LibP2PMessage :=
  mkLibP2PMessage "hello" (ln_peerID n) id (EncodeToString (ln_pubKey n)) "" [] None None.

(** Up to the read loop: what is written, the session, and the node. *)
Definition handleIncoming `{LibP2PJson} (n : LibP2PNode) (w : nat → bool) (now : Z) (src : list (list byte))
    : list (list byte) * option (string * reader) * LibP2PNode :=
  match noiseHandshakeInbound n w src with
  | (None, out, _) => (out, None, n)
  | (Some remotePub, out, src) =>
      let id := lib_peer_id remotePub in
      if negb (may_join id n) then (out, None, n) else
      let n := register id now n in
      (out ++ (writeFrame (λ i, w (S i)) (lib_marshal (hello n id))).2, Some (id, mkreader [] src), n)
  end.

(** [Connect] once the connection is open: an error, or the session whose read
    loop is started.  It does not look at the strict mode. *)
Definition Connect `{LibP2PJson} (n : LibP2PNode) (w : nat → bool) (nonce : option (list byte))
    (remotePub : list byte) (now : Z) (src : list (list byte))
    : outcome string * list (list byte) * LibP2PNode :=
  match noiseHandshakeOutbound n w nonce remotePub src with
  | (Panic e, out) => (Panic e, out, n)
  | (Err e, out) => (Err e, out, n)
  | (Ok false, out) => (Err "noise handshake failed", out, n)
  | (Ok true, out) =>
      let id := lib_peer_id remotePub in
      match writeFrame (λ i, w (S (S i))) (lib_marshal (hello n id)) with
      | (Ok _, frame) =>
          (Ok id, out ++ frame,
           if bool_decide (is_Some (ln_peers n !! id)) then n else register id now n)
      | (Err e, frame) | (Panic e, frame) => (Err e, out ++ frame, n)
      end
  end.

(** A message was read; the read loop ended. *)
Definition touch (id : string) (now : Z) (n : LibP2PNode) : LibP2PNode :=
  n <| ln_peers ::= alter (λ s, s <| ps_lastSeen := now |>) id |>.
Definition leave (id : string) (n : LibP2PNode) : LibP2PNode := n <| ln_peers ::= delete id |>.

(** The frames sent, per session in the order of the range. *)
Definition lib_broadcast `{Runtime} `{LibP2PJson} (k : nat) (w : string → nat → bool) (msg : LibP2PMessage)
    (n : LibP2PNode) : list (string * list (list byte)) :=
  map (λ '(id, _), (id, (writeFrame (w id) (lib_marshal msg)).2)) (range_map k (ln_peers n)).
End handshake.

(** ** Frames arrive when a piece holds them *)

Lemma pad_length n l : (length l ≤ n)%nat → length (pad n l) = n.
Proof. intros Hl. unfold pad. rewrite length_app, length_replicate. lia. Qed.

Lemma pad_full n l : length l = n → pad n l = l.
Proof. intros <-. unfold pad. by rewrite Nat.sub_diag, app_nil_r. Qed.

Lemma frame_header_length data : length (frame_header data) = 4%nat.
Proof. apply length_be_bytes. Qed.

Lemma frame_header_value data : blen data ≤ max_frame → be_value (frame_header data) = blen data.
Proof.
  intros Hd. unfold frame_header. pose proof (blen_nonneg data). unfold max_frame in Hd.
  rewrite be_value_be_bytes, u32_small by u64_lia. apply Z.mod_small.
  change (256 ^ Z.of_nat 4) with 4294967296. lia.
Qed.

Lemma blen_to_nat {A} (l : list A) : Z.to_nat (blen l) = length l.
Proof. unfold blen. lia. Qed.

(** A read of what is buffered, of what is about to be buffered. *)
Lemma bufio_read_buffered n b src :
  (0 < n ≤ length b)%nat → bufio_read n (mkreader b src) = Some (take n b, mkreader (drop n b) src).
Proof. intros Hn. unfold bufio_read. destruct n; [lia|]. destruct b; [cbn in Hn; lia|done]. Qed.

Lemma bufio_read_piece n s rest :
  (0 < n < bufio_size)%nat → s ≠ [] → (length s ≤ bufio_size)%nat →
  bufio_read n (mkreader [] (s :: rest)) = bufio_read n (mkreader s rest).
Proof.
  intros Hn Hs Hl. unfold bufio_read. destruct n as [|n]; [lia|]. cbn [Nat.eqb rd_buffer rd_src].
  assert ((bufio_size <=? S n)%nat = false) as -> by (apply Nat.leb_gt; lia).
  unfold conn_read. assert ((length s <=? bufio_size)%nat = true) as -> by by apply Nat.leb_le.
  cbn [mbind option_bind]. rewrite (take_ge s bufio_size Hl). by destruct s.
Qed.

Lemma bufio_read_large n s rest :
  (0 < n < bufio_size)%nat → (bufio_size < length s)%nat →
  bufio_read n (mkreader [] (s :: rest)) =
    Some (take n (take bufio_size s), mkreader (drop n (take bufio_size s)) (drop bufio_size s :: rest)).
Proof.
  intros Hn Hs. unfold bufio_read. destruct n as [|n]; [lia|]. cbn [Nat.eqb rd_buffer rd_src].
  assert ((bufio_size <=? S n)%nat = false) as -> by (apply Nat.leb_gt; lia).
  unfold conn_read. by assert ((length s <=? bufio_size)%nat = false) as -> by by apply Nat.leb_gt.
Qed.

Lemma read_into_exact n b src : (0 < n ≤ length b)%nat →
  read_into n (mkreader b src) = Some (take n b, mkreader (drop n b) src).
Proof.
  intros Hn. unfold read_into. rewrite bufio_read_buffered by done. cbn [mbind option_bind].
  by rewrite pad_full by (rewrite length_take; lia).
Qed.

(** The frame at the front of the buffer. *)
Lemma readFrame_buffered data more src :
  blen data ≤ max_frame →
  readFrame (mkreader (frame_header data ++ data ++ more) src) = Some (data, mkreader more src).
Proof.
  intros Hd. unfold readFrame.
  rewrite read_into_exact by (rewrite length_app, frame_header_length; lia). cbn [mbind option_bind].
  rewrite take_app_length', drop_app_length' by (by rewrite frame_header_length). cbv zeta.
  rewrite frame_header_value, (proj2 (Z.ltb_ge _ _)), blen_to_nat by done.
  destruct data as [|b data]; [done|].
  rewrite read_into_exact by (rewrite length_app; cbn; lia).
  by rewrite take_app_length, drop_app_length.
Qed.

Lemma readFrame_piece s rest :
  s ≠ [] → (length s ≤ bufio_size)%nat → readFrame (mkreader [] (s :: rest)) = readFrame (mkreader s rest).
Proof.
  intros Hs Hl. unfold readFrame, read_into.
  rewrite bufio_read_piece; [done|unfold bufio_size; lia|done|done].
Qed.

Section frames.
Context `{LibP2PJson}.

Definition frame_of (msg : LibP2PMessage) : list byte :=
  frame_header (lib_marshal msg) ++ lib_marshal msg.

Lemma readLoop_buffered msgs : ∀ fuel,
  (length msgs < fuel)%nat →
  Forall (λ m, blen (lib_marshal m) ≤ max_frame ∧ lib_unmarshal (lib_marshal m) = Ok m) msgs →
  readLoop fuel (mkreader (concat (map frame_of msgs)) []) = Some msgs.
Proof.
  induction msgs as [|m msgs IH]; intros [|fuel] Hf Hm; cbn in Hf; try lia; [done|].
  apply Forall_cons in Hm as [[Hs Hd] Hm]. cbn [readLoop map concat]. unfold readMessage, frame_of at 1.
  rewrite <- app_assoc, readFrame_buffered by done. cbn [mbind option_bind]. rewrite Hd.
  rewrite IH by (done || lia). done.
Qed.

(** Messages sent together are read back in order, as long as they arrive in one
    piece of at most 4096 bytes and the decoder reads what the encoder writes. *)
Theorem sent_messages_received fuel msgs :
  msgs ≠ [] → (length msgs < fuel)%nat → (length (concat (map frame_of msgs)) ≤ bufio_size)%nat →
  Forall (λ m, lib_unmarshal (lib_marshal m) = Ok m) msgs →
  readLoop fuel (mkreader [] [concat (map frame_of msgs)]) = Some msgs.
Proof.
  intros Hne Hf Hl Hd.
  assert (Forall (λ m, blen (lib_marshal m) ≤ max_frame) msgs) as Hs.
  { clear -Hl. induction msgs as [|m msgs IH]; constructor; cbn [map concat] in Hl;
      unfold frame_of at 1 in Hl; rewrite !length_app in Hl.
    - unfold blen, max_frame. unfold bufio_size in Hl. lia.
    - apply IH. lia. }
  assert (concat (map frame_of msgs) ≠ []) as Hc.
  { destruct msgs as [|m msgs]; [done|]. intros E%(f_equal length). cbn [map concat] in E.
    unfold frame_of in E at 1. rewrite !length_app, frame_header_length in E. cbn in E. lia. }
  rewrite <- (readLoop_buffered msgs fuel Hf (proj2 (Forall_and _ _) (conj Hs Hd))).
  destruct fuel as [|fuel]; [lia|]. cbn [readLoop]. unfold readMessage. by rewrite readFrame_piece.
Qed.

(** A frame of more than 4092 bytes that arrives together with its header is cut:
    the reader returns its first 4092 bytes and zeros, and takes the rest for the
    next frame. *)
Theorem large_frame_cut data rest :
  4092 < blen data ≤ max_frame →
  readFrame (mkreader [] ((frame_header data ++ data) :: rest)) =
    Some (pad (length data) (take 4092 data), mkreader [] (drop 4092 data :: rest)) ∧
  (zero ∉ data → pad (length data) (take 4092 data) ≠ data).
Proof.
  intros [Hl Hm]. unfold blen in Hl. split.
  - unfold readFrame, read_into.
    rewrite bufio_read_large by (rewrite ?length_app, ?frame_header_length; unfold bufio_size; lia).
    cbn [mbind option_bind]. unfold bufio_size.
    rewrite take_app, frame_header_length, (take_ge (frame_header data)) by (rewrite frame_header_length; lia).
    change (4096 - 4)%nat with 4092%nat.
    rewrite take_app_length', drop_app_length' by (by rewrite frame_header_length).
    rewrite drop_app, frame_header_length, (drop_ge (frame_header data)), app_nil_l
      by (rewrite frame_header_length; lia).
    change (4096 - 4)%nat with 4092%nat.
    rewrite pad_full by apply frame_header_length. cbv zeta.
    rewrite frame_header_value, (proj2 (Z.ltb_ge _ _)), blen_to_nat by done.
    unfold bufio_read. destruct (length data =? 0)%nat eqn:E0; [apply Nat.eqb_eq in E0; lia|].
    cbn [rd_buffer rd_src]. destruct (take 4092 data) as [|b l] eqn:Et.
    { apply (f_equal length) in Et. rewrite length_take in Et. cbn [length] in Et. lia. }
    rewrite <- Et. cbn [mbind option_bind]. rewrite take_ge, drop_ge by (rewrite length_take; lia). done.
  - intros Hz E. apply Hz. rewrite <- E. unfold pad. rewrite length_take.
    apply elem_of_app. right. apply elem_of_replicate. split; [done|lia].
Qed.

(** ** The read loop ends *)

Definition remaining (r : reader) : nat := (length (rd_buffer r) + length (concat (rd_src r)))%nat.
Definition pieces_ok (r : reader) : Prop := Forall (λ s, s ≠ []) (rd_src r).

Lemma conn_read_pieces n src p src' : (0 < n)%nat →
  conn_read n src = Some (p, src') → Forall (λ s : list byte, s ≠ []) src →
  Forall (λ s, s ≠ []) src' ∧ length (concat src) = (length p + length (concat src'))%nat ∧ p ≠ [].
Proof.
  intros Hn E Hs. destruct src as [|s rest]; [done|]. cbn in E. injection E as <- <-.
  apply Forall_cons in Hs as [Hs Hr].
  assert (take n s ≠ []) as Hp by (destruct n, s; [lia..|done|done]).
  destruct (Nat.leb_spec (length s) n) as [Hle|Hlt].
  - rewrite take_ge in * by done. split_and!; [done|cbn; by rewrite length_app|done].
  - split_and!; [|cbn; rewrite !length_app, length_take, length_drop; lia|done].
    constructor; [|done]. intros E%(f_equal length). rewrite length_drop in E. cbn in E. lia.
Qed.

Lemma bufio_read_remaining n r p r' : pieces_ok r → bufio_read n r = Some (p, r') →
  pieces_ok r' ∧ (remaining r' ≤ remaining r)%nat ∧ ((0 < n)%nat → (remaining r' < remaining r)%nat).
Proof.
  intros Hp. unfold bufio_read. destruct n as [|n]; cbn [Nat.eqb]; [intros [= <- <-]; split_and!; [done|lia|lia]|].
  destruct r as [[|b l] src]; cbn [rd_buffer rd_src].
  - destruct (_ <=? _)%nat.
    + destruct (conn_read (S n) src) as [[q src']|] eqn:E; [|done]. intros [= <- <-].
      destruct (conn_read_pieces (S n) _ _ _ ltac:(lia) E Hp) as (H1 & H2 & H3).
      split; [done|]. unfold remaining. cbn. destruct q; [done|]. cbn in H2. lia.
    + destruct (conn_read bufio_size src) as [[q src']|] eqn:E; [|done]. intros [= <- <-].
      destruct (conn_read_pieces bufio_size _ _ _ ltac:(unfold bufio_size; lia) E Hp) as (H1 & H2 & H3).
      split; [done|]. unfold remaining. cbn [rd_buffer rd_src length]. rewrite length_drop.
      destruct q; [done|]. cbn [length] in *. lia.
  - intros [= <- <-]. split; [done|]. unfold remaining. cbn [rd_buffer rd_src]. rewrite length_drop.
    cbn [length]. lia.
Qed.

Lemma readMessage_remaining r msg r' : pieces_ok r → readMessage r = Some (msg, r') →
  pieces_ok r' ∧ (remaining r' < remaining r)%nat.
Proof.
  intros Hp. unfold readMessage, readFrame, read_into.
  destruct (bufio_read 4 r) as [[p r1]|] eqn:E1; [|done]. cbn [mbind option_bind].
  destruct (bufio_read_remaining _ _ _ _ Hp E1) as (Hp1 & _ & Hr1). cbv zeta.
  destruct (_ <? _); [done|].
  destruct (bufio_read _ r1) as [[q r2]|] eqn:E2; [|done]. cbn [mbind option_bind].
  destruct (bufio_read_remaining _ _ _ _ Hp1 E2) as (Hp2 & Hr2 & _).
  destruct (lib_unmarshal _); [|done..]. intros [= <- <-]. split; [done|]. specialize (Hr1 ltac:(lia)). lia.
Qed.

(** C33. Whatever a peer sends, and however the bytes are cut, the read loop of its
    session ends: after at most as many messages as there are bytes. *)
Theorem read_loop_ends r :
  pieces_ok r → ∃ msgs, readLoop (S (remaining r)) r = Some msgs ∧ (length msgs ≤ remaining r)%nat.
Proof.
  remember (remaining r) as m eqn:Em. assert (remaining r ≤ m)%nat as Hm by lia. clear Em.
  revert r Hm. induction m as [m IH] using lt_wf_ind. intros r Hm Hp. cbn [readLoop].
  destruct (readMessage r) as [[msg r']|] eqn:E; [|exists []; split; [done|cbn; lia]].
  destruct (readMessage_remaining _ _ _ Hp E) as [Hp' Hlt]. destruct m as [|m]; [lia|].
  destruct (IH m ltac:(lia) r' ltac:(lia) Hp') as (msgs & -> & Hl).
  exists (msg :: msgs). split; [done|]. cbn. lia.
Qed.
End frames.

(** ** The handshake *)

Section honest.
Context `{Ed25519} `{LibP2PJson}.
Implicit Types (n m : LibP2PNode) (w : nat → bool).

(** What a listening node sends after its signature: nothing, or a frame. *)
Lemma handleIncoming_output m w now src :
  let out := concat (handleIncoming m w now src).1.1 in
  out = [] ∨
  ∃ sig tail, out = sig ++ tail ∧ length sig = SignatureSize ∧
    (tail = [] ∨ ∃ id more, tail = frame_header (lib_marshal (hello m id)) ++ more).
Proof.
  cbv zeta. unfold handleIncoming, noiseHandshakeInbound.
  destruct (conn_read SignatureSize src) as [[p src1]|]; [|by left].
  destruct (conn_read 32 src1) as [[q src2]|]; [|by left]. cbv zeta.
  destruct (negb (ed_Verify _ _ _)); [by left|]. destruct (negb (w 0%nat)); [by left|]. right.
  set (id := lib_peer_id _). set (sig := ed_Sign _ _).
  destruct (negb (may_join id m)); cbn [fst].
  - exists sig, []. split_and!; [cbn; by rewrite app_nil_r|apply ed_Sign_len|by left].
  - exists sig. unfold writeFrame. change (hello (register id now m) id) with (hello m id).
    destruct (negb (w 1%nat)); [exists []; split_and!; [cbn; by rewrite app_nil_r|apply ed_Sign_len|by left]|].
    destruct (negb (w 2%nat)); cbn [snd concat app];
      eexists; (split_and!; [reflexivity|apply ed_Sign_len|right; exists id]).
    + exists []. reflexivity.
    + eexists. reflexivity.
Qed.

Lemma frame_header_head data : blen data < 2 ^ 24 → frame_header data !! 0%nat = Some zero.
Proof.
  intros Hd. pose proof (blen_nonneg data). unfold frame_header. rewrite u32_small by u64_lia.
  unfold be_bytes. cbn [lookup list_lookup]. do 2 f_equal.
  change (8 * Z.of_nat 3) with 24. rewrite Z.shiftr_div_pow2, Z.div_small by lia. reflexivity.
Qed.

(** The byte after the signature is zero, whether it was sent or not. *)
Lemma handshake_gap m w now src p :
  (∀ id, blen (lib_marshal (hello m id)) < 2 ^ 24) →
  p `prefix_of` concat (handleIncoming m w now src).1.1 → (length p ≤ SignatureSize + 32)%nat →
  pad (SignatureSize + 32) p !! SignatureSize = Some zero.
Proof.
  intros Hh [k Ek] Hl. unfold pad. destruct (decide (length p ≤ SignatureSize)%nat) as [Hs|Hs].
  - rewrite lookup_app_r by done. apply lookup_replicate_2. unfold SignatureSize in *. lia.
  - rewrite lookup_app_l by lia. destruct (handleIncoming_output m w now src) as [E|(sig & tail & E & Hsig & Ht)].
    + rewrite E in Ek. destruct p; [cbn in Hs; lia|done].
    + rewrite E in Ek. assert ((sig ++ tail) !! SignatureSize = p !! SignatureSize) as <-
        by (rewrite Ek, lookup_app_l by lia; done).
      rewrite lookup_app_r, Hsig, Nat.sub_diag by lia. destruct Ht as [->|(id & more & ->)].
      * exfalso. rewrite app_nil_r in Ek. apply (f_equal length) in Ek. rewrite length_app in Ek. lia.
      * rewrite lookup_app_l by (rewrite frame_header_length; lia). by apply frame_header_head.
Qed.

(** Two nodes running this code do not complete a handshake: the listening side
    answers with a signature only, where the dialling side looks for its nonce as
    well.  However the answer is cut into pieces, a nonce that does not start with
    a zero byte is refused. *)
Theorem honest_handshake_fails n m w w' now nonce remotePub src src' :
  (∀ id, blen (lib_marshal (hello m id)) < 2 ^ 24) →
  concat src' `prefix_of` concat (handleIncoming m w now src).1.1 →
  head nonce ≠ Some zero →
  (noiseHandshakeOutbound n w' (Some nonce) remotePub src').1 ≠ Ok true.
Proof.
  intros Hh Hp Hn. unfold noiseHandshakeOutbound. cbv zeta.
  destruct (negb (w' 0%nat)); [done|]. destruct (negb (w' 1%nat)); [done|].
  destruct src' as [|s rest]; [done|]. cbn [conn_read].
  destruct (negb (_ =? _)%nat); [done|]. destruct (negb (ed_Verify _ _ _)); [done|]. cbn [fst].
  intros [= E%bool_decide_eq_true]. apply Hn. rewrite <- E, head_lookup, lookup_drop, Nat.add_0_r.
  apply handshake_gap with m w now src; [done| |rewrite length_take; unfold SignatureSize; lia].
  etrans; [apply prefix_take|]. etrans; [|exact Hp]. cbn [concat]. by apply prefix_app_r.
Qed.

(** A peer that fails the handshake leaves the node as it was; so does one that is
    refused. *)
Lemma handleIncoming_refused m w now src :
  (handleIncoming m w now src).1.2 = None → (handleIncoming m w now src).2 = m.
Proof.
  unfold handleIncoming. destruct (noiseHandshakeInbound m w src) as [[[pub|] out] src']; [|done].
  cbv zeta. by destruct (negb (may_join _ m)).
Qed.
End honest.

(** ** The session table *)

(** Goroutines share the node: [ho_checked] are the peers that passed the test in
    strict mode and wait for the lock again, [ho_dialled] those this node
    connected to. *)
Record host := mkhost { ho_node : LibP2PNode; ho_checked : list string; ho_dialled : gset string }.

#[export] Instance host_rebuild : Rebuild host := λ r, mkhost (ho_node r) (ho_checked r) (ho_dialled r).

Inductive host_step : host → host → Prop :=
| host_join id now h :
    ln_strictMode (ho_node h) = false → may_join id (ho_node h) = true →
    host_step h (h <| ho_node ::= register id now |>)
| host_check id h :
    ln_strictMode (ho_node h) = true → may_join id (ho_node h) = true →
    host_step h (h <| ho_checked ::= cons id |>)
| host_register id now before after h :
    ho_checked h = before ++ id :: after →
    host_step h (h <| ho_node ::= register id now |> <| ho_checked := before ++ after |>)
| host_dial id now h :
    host_step h (h <| ho_node ::= λ n, if bool_decide (is_Some (ln_peers n !! id)) then n
                                       else register id now n |>
                   <| ho_dialled ::= union {[id]} |>)
| host_message id now h : host_step h (h <| ho_node ::= touch id now |>)
| host_leave id h : host_step h (h <| ho_node ::= leave id |>)
| host_validators l h : host_step h (h <| ho_node ::= λ n, ValidatorSet n l |>).

(** In strict mode, a session is with a validator or with a peer this node
    dialled; every session is stored under its own identifier and trusted. *)
Definition host_ok (h : host) : Prop :=
  let n := ho_node h in
  map_Forall (λ id s, ps_remotePeerID s = id ∧ ps_trusted s = true ∧
    (ln_strictMode n = true → id ∈ ln_validatorSet n ∨ id ∈ ho_dialled h)) (ln_peers n) ∧
  (ln_strictMode n = true → Forall (λ id, id ∈ ln_validatorSet n) (ho_checked h)).

Lemma host_ok_register id now h :
  host_ok h →
  (ln_strictMode (ho_node h) = true → id ∈ ln_validatorSet (ho_node h) ∨ id ∈ ho_dialled h) →
  host_ok (h <| ho_node ::= register id now |>).
Proof. intros [Hp Hc] Hid. split; [|exact Hc]. by apply map_Forall_insert_2. Qed.

Lemma host_step_ok h h' : host_step h h' → host_ok h → host_ok h'.
Proof.
  intros Hstep Hok. destruct Hstep as [id now h Hs Hj|id h Hs Hj|id now before after h E|id now h|id now h|id h|l h].
  - apply host_ok_register; [done|]. by rewrite Hs.
  - destruct Hok as [Hp Hc]. split; [exact Hp|]. intros _. constructor; [|by apply Hc].
    unfold may_join in Hj. destruct (ln_peers (ho_node h) !! id); [done|]. rewrite Hs in Hj. cbn in Hj.
    by apply bool_decide_eq_true in Hj.
  - destruct (host_ok_register id now h Hok) as [Hp Hc].
    { intros Hs. left. destruct Hok as [_ Hc]. specialize (Hc Hs). rewrite E, Forall_app, Forall_cons in Hc. tauto. }
    split; [exact Hp|]. intros Hs. specialize (Hc Hs). cbn in Hc |- *.
    rewrite E, Forall_app, Forall_cons in Hc. rewrite Forall_app. tauto.
  - assert (host_ok (h <| ho_dialled ::= union {[id]} |>)) as Hd.
    { destruct Hok as [Hp Hc]. split; [|exact Hc]. eapply map_Forall_impl; [exact Hp|]. cbn.
      intros i s (H1 & H2 & H3). split_and!; [done|done|]. intros Hs. destruct (H3 Hs); set_solver. }
    destruct (bool_decide (is_Some (ln_peers (ho_node h) !! id))) eqn:Eb.
    + destruct h as [n c d]. cbn in *. rewrite Eb. exact Hd.
    + assert (host_ok ((h <| ho_dialled ::= union {[id]} |>) <| ho_node ::= register id now |>)) as Hr.
      { apply host_ok_register; [done|]. intros _. right. cbn. set_solver. }
      destruct h as [n c d]. cbn in *. rewrite Eb. exact Hr.
  - destruct Hok as [Hp Hc]. split; [|exact Hc]. cbn. intros i s Hi.
    apply lookup_alter_Some in Hi as [(<- & s0 & Hs0 & ->)|[_ Hs0]]; by apply Hp in Hs0.
  - destruct Hok as [Hp Hc]. split; [|exact Hc]. by apply map_Forall_delete.
  - destruct Hok as [Hp Hc]. split.
    + eapply map_Forall_impl; [exact Hp|]. cbn. intros i s (H1 & H2 & H3).
      split_and!; [done|done|]. intros Hs. destruct (H3 Hs); set_solver.
    + cbn. intros Hs. eapply Forall_impl; [by apply Hc|]. cbn. set_solver.
Qed.

(** C27. Whatever the goroutines of a new node do, in whatever order, a strict node has
    sessions with validators and with peers it dialled only. *)
Theorem strict_host_sessions `{Ed25519} k addr h :
  rtc host_step (mkhost (NewLibP2PNode k addr true) [] ∅) h →
  ∀ id s, ln_peers (ho_node h) !! id = Some s →
    id ∈ ln_validatorSet (ho_node h) ∨ id ∈ ho_dialled h.
Proof.
  intros Hr.
  assert (host_ok h ∧ ln_strictMode (ho_node h) = true) as [[Hp _] Hs].
  { apply (@rtc_ind_r _ host_step (λ h, host_ok h ∧ ln_strictMode (ho_node h) = true)
      (mkhost (NewLibP2PNode k addr true) [] ∅)); [|..|exact Hr].
    - unfold NewLibP2PNode. destruct (GenerateKey k) as [pub priv]. split; [|done]. split; [|by constructor].
      apply map_Forall_empty.
    - intros x y _ Hxy [Hx Hsx]. split; [by eapply host_step_ok|].
      destruct Hxy; cbn in *; try done. by case_bool_decide. }
  intros id s Hi. by apply Hp in Hi as (_ & _ & ?); auto.
Qed.

(** ** Concrete runs *)

#[local] Existing Instance demo_ed25519.
(** Only the type of a message is encoded. *)
#[local] Instance demo_lib_json : LibP2PJson :=
  {| lib_marshal m := bytes_of_string (lm_Type m);
     lib_unmarshal l := Ok (mkLibP2PMessage (string_of_bytes l) "" "" "" "" [] None None) |}.

Definition demo_lib_node (k : nat) : LibP2PNode := NewLibP2PNode k "0.0.0.0:4001" true.
Definition demo_lib_msg (t : string) : LibP2PMessage := mkLibP2PMessage t "" "" "" "" [] None None.

Lemma sent_messages_received_witness :
  readLoop 3 (mkreader [] [concat (map frame_of [demo_lib_msg "tx"; demo_lib_msg "block"])]) =
    Some [demo_lib_msg "tx"; demo_lib_msg "block"].
Proof.
  apply (sent_messages_received 3 [demo_lib_msg "tx"; demo_lib_msg "block"]);
    [done|cbn; lia|vm_compute; lia|repeat constructor].
Defined.

Definition long_data : list byte := replicate 5000 Byte.x7b.

Lemma large_frame_cut_witness :
  ∃ data, data ≠ long_data ∧ fst <$> readFrame (mkreader [] [frame_header long_data ++ long_data]) = Some data.
Proof.
  destruct (large_frame_cut long_data []) as [E Hd];
    [unfold blen, long_data, max_frame; rewrite length_replicate; lia|].
  eexists. split; [apply Hd; unfold long_data; by intros [[=] _]%elem_of_replicate|]. by rewrite E.
Defined.

(** A header that promises more than arrives. *)
Lemma read_loop_ends_witness :
  ∃ msgs, readLoop 7 (mkreader [] [[Byte.x00; Byte.x00]; [Byte.x00; Byte.x09; Byte.x7b; Byte.x7d]]) = Some msgs.
Proof.
  destruct (read_loop_ends (mkreader [] [[Byte.x00; Byte.x00]; [Byte.x00; Byte.x09; Byte.x7b; Byte.x7d]]))
    as (msgs & E & _); [by repeat constructor|]. by exists msgs.
Defined.

Lemma honest_handshake_fails_witness :
  let nonce := replicate 32 Byte.x01 in
  let dialled := (noiseHandshakeOutbound (demo_lib_node 1) (λ _, true) (Some nonce) (ln_pubKey (demo_lib_node 2))
                    (handleIncoming (demo_lib_node 2) (λ _, true) 0 [replicate 64 Byte.x02; nonce]).1.1).1 in
  dialled ≠ Ok true.
Proof.
  apply (honest_handshake_fails (demo_lib_node 1) (demo_lib_node 2) (λ _, true) (λ _, true) 0
    (replicate 32 Byte.x01) (ln_pubKey (demo_lib_node 2)) [replicate 64 Byte.x02; replicate 32 Byte.x01]);
    [done|done|discriminate].
Defined.

(** A validator joins and another peer is dialled. *)
Lemma strict_host_sessions_witness :
  let h0 := mkhost (demo_lib_node 1) [] ∅ in
  let h1 := h0 <| ho_node ::= λ n, ValidatorSet n ["v"] |> in
  let h2 := h1 <| ho_checked ::= cons "v" |> in
  let h3 := h2 <| ho_node ::= register "v" 5 |> <| ho_checked := [] |> in
  is_Some (ln_peers (ho_node h3) !! "v") ∧ ("v" ∈ ln_validatorSet (ho_node h3) ∨ "v" ∈ ho_dialled h3).
Proof.
  intros h0 h1 h2 h3. split; [by eexists|].
  apply (strict_host_sessions 1 "0.0.0.0:4001" h3) with (mkpeerSession "v" true 5 ∅); [|reflexivity].
  apply rtc_l with h1; [apply host_validators|].
  apply rtc_l with h2; [apply (host_check "v" h1); reflexivity|].
  apply rtc_once. exact (host_register "v" 5 [] [] h2 eq_refl).
Defined.
