(* ===== verification/StateStore.v ===== *)
(** * Snapshot stores (go-chain/state_store.go, go-chain/blockchain/domain.go)

    The program [main] and package [blockchain] have a [StateStore] each.  The
    first writes snapshots under the hash of their content, keeps a history of the
    files it wrote and opens the file with the latest modification time.  The
    second only counts and prunes files when it is opened.

    A directory is a map from names to files.  JSON and gzip are the class
    [SnapshotCodec]; [disk] says what the file system answers to one write. *)

From S2P Require Import Prelude Runtime Text Sha256 Domain Merkle Limits.
Open Scope Z_scope.
Open Scope go_scope.

(** ** Data *)

Record SnapshotHeader := mkSnapshotHeader {
  sh_ChainID : string; sh_GenesisHash : string; sh_Height : Z; sh_Timestamp : Z;
  sh_StateRoot : string; sh_TxCount : Z; sh_ValidatorSet : string }.

(** [None] is a null account. *)
Record Snapshot := mkSnapshot {
  sn_Header : SnapshotHeader; sn_Accounts : gmap string (option Account);
  sn_Registry : gmap string ModelRef; sn_Escrows : gmap string Escrow;
  sn_Proposals : gmap string GovernanceProposal; sn_Agreements : gmap string ServiceAgreement;
  sn_UsageMeters : gmap string UsageMeter; sn_UsedNonces : gmap string (gset Z);
  sn_NextNonce : gmap string Z; sn_SeenTxIDs : gset string; sn_Validators : gmap string Validator;
  sn_AuditTrail : list AuditEntry; sn_TokenSupply : Z; sn_Wallets : gmap string ManagedWallet }.

#[export] Instance Snapshot_rebuild : Rebuild Snapshot := λ r,
  mkSnapshot (sn_Header r) (sn_Accounts r) (sn_Registry r) (sn_Escrows r) (sn_Proposals r)
    (sn_Agreements r) (sn_UsageMeters r) (sn_UsedNonces r) (sn_NextNonce r) (sn_SeenTxIDs r)
    (sn_Validators r) (sn_AuditTrail r) (sn_TokenSupply r) (sn_Wallets r).

Definition empty_header : SnapshotHeader := mkSnapshotHeader "" "" 0 0 "" 0 "".
Definition empty_snapshot : Snapshot :=
  mkSnapshot empty_header ∅ ∅ ∅ ∅ ∅ ∅ ∅ ∅ ∅ ∅ [] 0 ∅.

Record file := mkfile { fl_data : list byte; fl_ModTime : Z; fl_IsDir : bool }.
Notation directory := (gmap string file).

(** [history] holds names in the directory of the store. *)
Record StateStore := mkStateStore {
  st_files : directory; st_latest : option Snapshot; st_history : list string; st_maxFiles : Z }.

#[export] Instance StateStore_rebuild : Rebuild StateStore := λ r,
  mkStateStore (st_files r) (st_latest r) (st_history r) (st_maxFiles r).

Class SnapshotCodec := {
  marshal_snapshot : Snapshot → outcome (list byte);
  decode_snapshot : list byte → outcome Snapshot;
  gzip : list byte → list byte;
  gunzip : list byte → option (list byte);
}.

(** What one write meets: success, a file that cannot be opened, or a file left
    with part of the data; and whether a removal succeeds. *)
Inductive write_result := Written | NotOpened | Partial (data : list byte).
Record disk := mkdisk { dk_write : write_result; dk_remove : bool; dk_now : Z }.

(** ** Names *)

Definition HasSuffix (s suffix : string) : bool :=
  let n := String.length s in
  let k := String.length suffix in
  (k <=? n)%nat && bool_decide (String.substring (n - k) k s = suffix).

(** [len(name) >= 12 && name[:8] == "snapshot"] *)
Definition snapshot_named (name : string) : bool :=
  (12 <=? String.length name)%nat && bool_decide (String.substring 0 8 name = "snapshot").

(** Names in the order of [os.ReadDir] and of [sort.Strings]. *)
Definition sort_Strings (l : list string) : list string := merge_sort (not_after string_lt) l.
Definition ReadDir (d : directory) : list string := sort_Strings (map fst (map_to_list d)).

Definition stateRoot (data : list byte) : string := EncodeToString (take 8 (Sum256 data)).

Definition snapshot_name (payload : list byte) : string :=
  "snapshot_" +:+ String.substring 0 12 (stateRoot payload) +:+ ".json.gz".

(** ** The store of the node program *)

Section store.
Context `{SnapshotCodec}.

Definition maxSnapshotSize : Z := 50 * 2 ^ 20.

(** [io.LimitReader] *)
Definition limit_reader (n : Z) (l : list byte) : list byte :=
  if blen l <=? n then l else take (Z.to_nat n) l.

Definition readSnapshot (f : file) : outcome Snapshot :=
  match gunzip (fl_data f) with
  | None => Err "gzip"
  | Some data => decode_snapshot (limit_reader (maxSnapshotSize + 1) data)
  end.

(** One round of the loop of [loadLatest]: the candidate and its time. *)
Definition later_file (d : directory) (acc : option (string * file)) (name : string)
    : option (string * file) :=
  match d !! name with
  | None => acc
  | Some f =>
      if fl_IsDir f || negb (snapshot_named name && HasSuffix name ".json.gz") then acc else
      match acc with
      | Some (_, g) => if fl_ModTime g <? fl_ModTime f then Some (name, f) else acc
      | None => Some (name, f)
      end
  end.

Definition latest_file (d : directory) : option (string * file) := foldl (later_file d) None (ReadDir d).

(** [os.MkdirAll(dir/data)], its error ignored. *)
Definition make_data (now : Z) (d : directory) : directory :=
  if bool_decide (is_Some (d !! "data")) then d else <["data" := mkfile [] now true]> d.

Definition loadLatest (now : Z) (s : StateStore) : outcome StateStore :=
  match latest_file (st_files s) with
  | None => Ok (s <| st_files ::= make_data now |> <| st_latest := Some empty_snapshot |>)
  | Some (_, f) =>
      match readSnapshot f with
      | Ok snap => Ok (s <| st_latest := Some snap |>)
      | Err e => Err e
      | Panic e => Panic e
      end
  end.

Definition NewStateStore (now : Z) (d : directory) : outcome StateStore :=
  loadLatest now (mkStateStore d None [] 64).

Definition WriteSnapshot (io : disk) (snap : Snapshot) (s : StateStore) : outcome string * StateStore :=
  match marshal_snapshot snap with
  | Err e => (Err e, s)
  | Panic e => (Panic e, s)
  | Ok payload =>
      let name := snapshot_name payload in
      let put data := s <| st_files ::= <[name := mkfile data (dk_now io) false]> |> in
      match dk_write io with
      | NotOpened => (Err "open", s)
      | Partial data => (Err "write", put data)
      | Written =>
          let s := put (gzip payload) in
          let s := s <| st_history ::= λ l, l ++ [name] |> <| st_latest := Some snap |> in
          let s := if st_maxFiles s <? blen (st_history s) then
                     match st_history s with
                     | old :: rest =>
                         let s := s <| st_history := rest |> in
                         if dk_remove io then s <| st_files ::= delete old |> else s
                     | [] => s
                     end
                   else s in
          (Ok name, s)
      end
  end.

(** The clone; a null account is dereferenced, and so is a missing snapshot. *)
Definition store_Snapshot (s : StateStore) : outcome Snapshot :=
  match st_latest s with
  | None => Panic "nil pointer dereference"
  | Some l =>
      if bool_decide (map_Forall (λ _ a, is_Some a) (sn_Accounts l)) then
        Ok (mkSnapshot (sn_Header l) (sn_Accounts l) (sn_Registry l) (sn_Escrows l) (sn_Proposals l)
              (sn_Agreements l) (sn_UsageMeters l) (sn_UsedNonces l) (sn_NextNonce l) (sn_SeenTxIDs l)
              (sn_Validators l) (sn_AuditTrail l) (sn_TokenSupply l) ∅)
      else Panic "nil pointer dereference"
  end.
End store.

(** ** The store of package [blockchain] *)

(** The names that are to be removed. *)
Definition removed (maxFiles : Z) (names : list string) : list string :=
  let sorted := sort_Strings names in
  let remove := blen sorted - maxFiles in
  if remove <=? 0 then [] else take (Z.to_nat remove) sorted.

(** [_ = os.Remove(name)]; [removable] says which removals the file system carries
    out. *)
Definition remove_file (removable : string → bool) (d : directory) (name : string) : directory :=
  if removable name then delete name d else d.

Definition pruneSnapshotFiles (removable : string → bool) (names : list string) (s : StateStore) : StateStore :=
  s <| st_files ::= λ d, foldl (remove_file removable) d (removed (st_maxFiles s) names) |>.

Definition is_snapshot (d : directory) (name : string) : bool :=
  match d !! name with
  | Some f => negb (fl_IsDir f) && snapshot_named name
  | None => false
  end.

Definition snapshots (d : directory) : list string := filter (λ name, is_snapshot d name = true) (ReadDir d).

(** [fmt.Sscanf(name, "snapshot_%d.json.gz", &h)]: blanks before the number are
    skipped, and it must be followed by the suffix. *)
Definition blank (c : Ascii.ascii) : bool :=
  bool_decide (c = Ascii.ascii_of_nat 32) || bool_decide (c = Ascii.ascii_of_nat 9).
Fixpoint skip_blanks (s : string) : string :=
  match s with
  | String c t => if blank c then skip_blanks t else s
  | EmptyString => ""
  end.
Fixpoint digits_of (s : string) : string * string :=
  match s with
  | String c t => if is_digit c then let '(d, rest) := digits_of t in (String c d, rest) else ("", s)
  | EmptyString => ("", "")
  end.
Definition scan_height (name : string) : option Z :=
  if negb (HasPrefix name "snapshot_") then None else
  let '(digits, rest) := digits_of (skip_blanks (TrimPrefix name "snapshot_")) in
  match ParseUint digits with
  | (h, None) => if HasPrefix rest ".json.gz" then Some h else None
  | _ => None
  end.

(** The file with the greatest height above 0. *)
Definition highest (acc : string * Z) (name : string) : string * Z :=
  match scan_height name with
  | Some h => if acc.2 <? h then (name, h) else acc
  | None => acc
  end.

(** Nothing is read: [latest] only decides whether a directory is made. *)
Definition pkg_loadLatest (removable : string → bool) (now : Z) (s : StateStore) : StateStore :=
  let l := snapshots (st_files s) in
  let latest := (foldl highest ("", 0) l).1 in
  let s := if st_maxFiles s <? blen l then pruneSnapshotFiles removable l s else s in
  if bool_decide (latest = "") then s <| st_files ::= make_data now |> else s.

Definition pkg_NewStateStore (removable : string → bool) (now : Z) (d : directory) : StateStore :=
  pkg_loadLatest removable now (mkStateStore d None [] 64).

(** ** Opening the file that was written *)

Lemma substring_all s : String.substring 0 (String.length s) s = s.
Proof. induction s as [|c s IH]; [done|]. cbn. by rewrite IH. Qed.

Lemma substring_suffix a b : String.substring (String.length a) (String.length b) (a +:+ b) = b.
Proof. induction a as [|c a IH]; [apply substring_all|exact IH]. Qed.

Lemma HasSuffix_app a b : HasSuffix (a +:+ b) b = true.
Proof.
  unfold HasSuffix. cbv zeta. rewrite string_length_app. apply andb_true_intro. split.
  - apply Nat.leb_le. lia.
  - apply bool_decide_eq_true.
    replace (String.length a + String.length b - String.length b)%nat with (String.length a) by lia.
    apply substring_suffix.
Qed.

Lemma snapshot_name_ok payload :
  snapshot_named (snapshot_name payload) && HasSuffix (snapshot_name payload) ".json.gz" = true.
Proof.
  unfold snapshot_name. apply andb_true_intro. split.
  - unfold snapshot_named. apply andb_true_intro. split; [|by apply bool_decide_eq_true].
    apply Nat.leb_le. rewrite !string_length_app. cbn. lia.
  - change ("snapshot_" +:+ ?x +:+ ?y) with (("snapshot_" +:+ x) +:+ y). apply HasSuffix_app.
Qed.

Lemma snapshot_name_not_data payload : snapshot_name payload ≠ "data".
Proof. discriminate. Qed.

Lemma ReadDir_elem d name : name ∈ ReadDir d ↔ is_Some (d !! name).
Proof.
  unfold ReadDir, sort_Strings. rewrite merge_sort_Permutation, list_elem_of_fmap. split.
  - intros ([n f] & -> & Hf%elem_of_map_to_list). by exists f.
  - intros [f Hf]. exists (name, f). split; [done|]. by apply elem_of_map_to_list.
Qed.

(** The newest snapshot is found. *)
Lemma latest_file_newest d name f :
  d !! name = Some f → fl_IsDir f = false → snapshot_named name && HasSuffix name ".json.gz" = true →
  (∀ n g, d !! n = Some g → n ≠ name → fl_ModTime g < fl_ModTime f) →
  latest_file d = Some (name, f).
Proof.
  intros Hf Hd Hn Hmax. unfold latest_file.
  assert (∀ l acc, (acc = Some (name, f) ∨
      (name ∈ l ∧ ∀ n g, acc = Some (n, g) → d !! n = Some g ∧ n ≠ name)) →
    foldl (later_file d) acc l = Some (name, f)) as Hl.
  { induction l as [|x l IH]; intros acc Ha; cbn [foldl].
    { destruct Ha as [->|[Ha _]]; [done|by apply not_elem_of_nil in Ha]. }
    apply IH. unfold later_file. destruct Ha as [->|[Hin Hacc]].
    - left. destruct (d !! x) as [g|] eqn:Eg; [|done]. destruct (_ || _); [done|].
      destruct (decide (x = name)) as [->|Hne]; [rewrite Hf in Eg; injection Eg as <-; by rewrite Z.ltb_irrefl|].
      rewrite (proj2 (Z.ltb_ge _ _)); [done|]. specialize (Hmax x g Eg Hne). lia.
    - destruct (decide (x = name)) as [->|Hne].
      + left. rewrite Hf, Hd, Hn. cbn [orb negb]. destruct acc as [[n g]|]; [|done].
        destruct (Hacc n g eq_refl) as [Hg Hng]. rewrite (proj2 (Z.ltb_lt _ _)); [done|by eapply Hmax].
      + right. split; [by apply elem_of_cons in Hin as [->|]|]. intros n g.
        destruct (d !! x) as [h|] eqn:Eh; [|by apply Hacc]. destruct (_ || _); [by apply Hacc|].
        destruct acc as [[n' g']|]; [|by intros [= <- <-]].
        destruct (_ <? _); [by intros [= <- <-]|by apply Hacc]. }
  apply Hl. right. split; [apply ReadDir_elem; by exists f|done].
Qed.

Section theorems.
Context `{SnapshotCodec}.
Implicit Types (s : StateStore) (io : disk) (snap : Snapshot).

(** The file of a write. *)
Definition payload_of snap : list byte := match marshal_snapshot snap with Ok p => p | _ => [] end.
Definition file_of io snap : file := mkfile (gzip (payload_of snap)) (dk_now io) false.
Definition name_of snap : string := snapshot_name (payload_of snap).

(** A write that succeeds, of a snapshot that can be encoded. *)
Definition good_write (w : disk * Snapshot) : Prop :=
  marshal_snapshot w.2 = Ok (payload_of w.2) ∧ dk_write w.1 = Written ∧ dk_remove w.1 = true.

Lemma WriteSnapshot_good io snap s :
  good_write (io, snap) →
  WriteSnapshot io snap s =
    (Ok (name_of snap),
     let files := <[name_of snap := file_of io snap]> (st_files s) in
     if st_maxFiles s <? blen (st_history s ++ [name_of snap]) then
       match st_history s ++ [name_of snap] with
       | old :: rest => mkStateStore (delete old files) (Some snap) rest (st_maxFiles s)
       | [] => mkStateStore files (Some snap) [] (st_maxFiles s)
       end
     else mkStateStore files (Some snap) (st_history s ++ [name_of snap]) (st_maxFiles s)).
Proof.
  intros (Hm & Hw & Hr). cbn [fst snd] in *. unfold WriteSnapshot, name_of, file_of. rewrite Hm. cbv zeta. rewrite Hw.
  destruct s as [d l h mx]. cbn. destruct (mx <? _); [|done]. destruct (h ++ _) as [|old rest]; [done|].
  by rewrite Hr.
Qed.

(** C31. A snapshot whose write succeeds, to a store with fewer files in its history than
    it keeps (64), is what the store opened next on the directory holds, when its
    encoding is at most 50 MB, every other file has an earlier modification time, and
    the decoders undo the encoders on it. *)
Theorem written_snapshot_reopens io now snap s :
  good_write (io, snap) → blen (st_history s) < st_maxFiles s →
  blen (payload_of snap) ≤ maxSnapshotSize →
  gunzip (gzip (payload_of snap)) = Some (payload_of snap) → decode_snapshot (payload_of snap) = Ok snap →
  map_Forall (λ name f, name ≠ name_of snap → fl_ModTime f < dk_now io) (st_files s) →
  ∃ s', NewStateStore now (st_files (WriteSnapshot io snap s).2) = Ok s' ∧ st_latest s' = Some snap.
Proof.
  intros Hw Hh Hs Hg Hd Ht. rewrite WriteSnapshot_good by done. cbv zeta. cbn [snd].
  rewrite (proj2 (Z.ltb_ge _ _)) by (rewrite blen_app; unfold blen in *; cbn; lia). cbn [st_files].
  unfold NewStateStore, loadLatest. cbn [st_files].
  rewrite (latest_file_newest _ (name_of snap) (file_of io snap));
    [|apply lookup_insert_eq|done|apply snapshot_name_ok|].
  - unfold readSnapshot, file_of, limit_reader. cbn [fl_data]. rewrite Hg, (proj2 (Z.leb_le _ _)), Hd by lia.
    eexists. split; reflexivity.
  - intros n g Hn Hne. rewrite lookup_insert_ne in Hn by done. by eapply Ht.
Qed.

(** ** What is kept *)

Definition run_writes (ws : list (disk * Snapshot)) s : StateStore :=
  foldl (λ s w, (WriteSnapshot w.1 w.2 s).2) s ws.

Definition wname (w : disk * Snapshot) : string := name_of w.2.

(** The specification: the writes whose files the directory holds. *)
Definition kept (ws : list (disk * Snapshot)) : list (disk * Snapshot) := drop (length ws - 64) ws.

Lemma kept_snoc ws w :
  kept (ws ++ [w]) = if (length ws <? 64)%nat then ws ++ [w] else drop 1 (kept ws) ++ [w].
Proof.
  unfold kept. rewrite length_app. cbn [length]. destruct (Nat.ltb_spec (length ws) 64).
  - by replace (length ws + 1 - 64)%nat with 0%nat by lia.
  - rewrite drop_app_le by lia. rewrite drop_drop. do 2 f_equal. lia.
Qed.

Definition store_holds (ws : list (disk * Snapshot)) s : Prop :=
  st_history s = map wname (kept ws) ∧ st_maxFiles s = 64 ∧
  Forall (λ w, st_files s !! wname w = Some (file_of w.1 w.2)) (kept ws).

Lemma store_holds_step ws w s :
  good_write w → wname w ∉ map wname ws → NoDup (map wname ws) →
  store_holds ws s → store_holds (ws ++ [w]) (WriteSnapshot w.1 w.2 s).2.
Proof.
  intros Hw Hfresh Hnd (Hh & Hm & Hf). destruct w as [io snap]. unfold store_holds.
  rewrite kept_snoc, WriteSnapshot_good by done. cbn [fst snd]. cbv zeta. rewrite Hm, Hh, blen_app.
  change (name_of snap) with (wname (io, snap)) in *. cbn [snd] in Hfresh.
  assert (∀ l, l ⊆ ws → Forall (λ w, st_files s !! wname w = Some (file_of w.1 w.2)) l →
    Forall (λ w, <[wname (io, snap) := file_of io snap]> (st_files s) !! wname w =
      Some (file_of w.1 w.2)) (l ++ [(io, snap)])) as Hins.
  { intros l Hl Hfl. apply Forall_app. split; [|apply Forall_singleton, lookup_insert_eq].
    rewrite Forall_forall in *. intros x Hx. rewrite lookup_insert_ne; [by apply Hfl|].
    intros E. apply Hfresh. rewrite E. apply list_elem_of_fmap. eauto. }
  destruct (Nat.ltb_spec (length ws) 64) as [Hlt|Hge].
  - assert (kept ws = ws) as Ek by (unfold kept; by replace (length ws - 64)%nat with 0%nat by lia).
    rewrite Ek in *. unfold blen. rewrite length_map.
    rewrite (proj2 (Z.ltb_ge _ _)) by (cbn; lia). cbn [st_history st_maxFiles st_files].
    split_and!; [by rewrite map_app|done|by apply Hins].
  - assert (length (kept ws) = 64%nat) as El by (unfold kept; rewrite length_drop; lia).
    unfold blen. rewrite length_map, El. change (64 <? Z.of_nat 64 + Z.of_nat (length [wname (io, snap)])) with true.
    assert (NoDup (map wname (kept ws))) as Hk.
    { unfold kept. rewrite fmap_drop. revert Hnd. rewrite <- (take_drop (length ws - 64) (map wname ws)) at 1.
      rewrite NoDup_app. tauto. }
    assert (kept ws ⊆ ws) as Hsub by (intros x; apply subseteq_drop).
    destruct (kept ws) as [|old rest] eqn:Ek; [done|]. cbn [map app st_history st_maxFiles st_files].
    change (drop 1 (old :: rest)) with rest. split_and!; [by rewrite map_app|done|].
    apply Forall_cons in Hf as [_ Hf]. cbn [map] in Hk. apply NoDup_cons in Hk as [Hold _].
    assert (rest ⊆ ws) as Hr by set_solver.
    specialize (Hins rest Hr Hf). rewrite Forall_forall in *. intros x Hx.
    rewrite lookup_delete_ne; [by apply Hins|]. intros E. apply elem_of_app in Hx as [Hx|Hx].
    + apply Hold. rewrite E. apply list_elem_of_fmap. eauto.
    + apply list_elem_of_singleton in Hx as ->. apply Hfresh. rewrite <- E. apply list_elem_of_fmap.
      exists old. split; [done|]. apply Hsub, list_elem_of_here.
Qed.

(** C28. Snapshots whose file names (48 bits of a hash of the content) are different,
    written one after the other by a store that starts with an empty history on a disk
    that works, refine a list of the last 64: the history is their names, and each of
    them is on the disk. *)
Theorem last_snapshots_kept ws d :
  Forall good_write ws → NoDup (map wname ws) →
  let s := run_writes ws (mkStateStore d None [] 64) in
  st_history s = map wname (kept ws) ∧
  Forall (λ w, st_files s !! wname w = Some (file_of w.1 w.2)) (kept ws).
Proof.
  intros Hg Hnd s.
  assert (store_holds ws s) as (H1 & _ & H2); [|done]. unfold s, run_writes. clear s.
  induction ws as [|w ws IH] using rev_ind; [by repeat split|].
  rewrite Forall_app, Forall_singleton in Hg. destruct Hg as [Hg Hw].
  rewrite map_app, NoDup_app in Hnd. destruct Hnd as (Hnd & Hd & _).
  rewrite foldl_app. cbn [foldl]. apply store_holds_step; [done| |done|by apply IH].
  intros Hin. apply (Hd _ Hin). by apply list_elem_of_singleton.
Qed.

(** ** The same snapshot again and again *)

(** Writing the same state more than 64 times deletes it: the name in front of the
    history is the name of the file just written. *)
Theorem same_snapshot_lost ios snap s :
  Forall (λ io, good_write (io, snap)) ios → (64 < length ios)%nat →
  st_history s = [] → st_maxFiles s = 64 →
  st_files (run_writes (map (λ io, (io, snap)) ios) s) = delete (name_of snap) (st_files s).
Proof.
  intros Hg Hl Hh Hm.
  assert (st_history (run_writes (map (λ io, (io, snap)) ios) s) =
      replicate (length ios `min` 64) (name_of snap) ∧
    st_maxFiles (run_writes (map (λ io, (io, snap)) ios) s) = 64 ∧
    delete (name_of snap) (st_files (run_writes (map (λ io, (io, snap)) ios) s)) =
      delete (name_of snap) (st_files s) ∧
    ((64 < length ios)%nat → st_files (run_writes (map (λ io, (io, snap)) ios) s) !! name_of snap = None))
    as Hk.
  { clear Hl. induction ios as [|io ios IH] using rev_ind; [split_and!; [done|done|done|cbn; lia]|].
    rewrite Forall_app, Forall_singleton in Hg. destruct Hg as [Hg Hio].
    destruct (IH Hg) as (H1 & H2 & H3 & _). unfold run_writes in *. rewrite map_app, foldl_app.
    cbn [map foldl fst snd]. set (s1 := foldl _ s _) in *. clearbody s1.
    rewrite WriteSnapshot_good by done. cbv zeta. cbn [snd]. rewrite H1, H2, length_app. cbn [length].
    replace (replicate (length ios `min` 64) (name_of snap) ++ [name_of snap])
      with (replicate (S (length ios `min` 64)) (name_of snap)) by (by rewrite replicate_S_end).
    unfold blen. rewrite length_replicate. destruct (Nat.ltb_spec (length ios) 64) as [Hlt|Hge].
    - rewrite (proj2 (Z.ltb_ge _ _)) by lia. cbn [st_history st_maxFiles st_files].
      split_and!; [f_equal; lia|done|by rewrite delete_insert_eq|lia].
    - rewrite (proj2 (Z.ltb_lt _ _)) by lia. cbn [replicate st_history st_maxFiles st_files].
      rewrite delete_insert_eq.
      split_and!; [f_equal; lia|done|by rewrite delete_delete_eq|intros _; apply lookup_delete_eq]. }
  destruct Hk as (_ & _ & E & En). rewrite <- E. symmetry. apply delete_id. by apply En.
Qed.
End theorems.

(** ** Pruning *)

Lemma sort_Strings_Permutation l : sort_Strings l ≡ₚ l.
Proof. apply merge_sort_Permutation. Qed.

Lemma sort_Strings_sorted l : StronglySorted (not_after string_lt) (sort_Strings l).
Proof.
  assert (Transitive (not_after string_lt)).
  { intros x y z Hxy Hyz. unfold not_after in *. by eapply string_lt_trans_neg. }
  assert (Total (not_after string_lt)).
  { intros x y. unfold not_after. destruct (string_lt y x) eqn:E; [|by left].
    right. by apply string_lt_asym. }
  apply Sorted_StronglySorted; [done|]. by apply Sorted_merge_sort.
Qed.

Lemma snapshots_NoDup d : NoDup (snapshots d).
Proof.
  unfold snapshots, ReadDir. apply NoDup_filter. rewrite sort_Strings_Permutation. apply NoDup_fst_map_to_list.
Qed.

Lemma snapshots_elem d name : name ∈ snapshots d ↔ is_snapshot d name = true.
Proof.
  unfold snapshots. rewrite list_elem_of_filter, ReadDir_elem. split; [by intros [? _]|].
  intros E. split; [done|]. unfold is_snapshot in E. by destruct (d !! name).
Qed.

Section pruning.
Context (removable : string → bool).

(** The removals that are carried out. *)
Definition gone (names : list string) : list string := filter (λ name, removable name = true) names.

Lemma foldl_remove_lookup (l : list string) (d : directory) name :
  foldl (remove_file removable) d l !! name = if bool_decide (name ∈ gone l) then None else d !! name.
Proof.
  revert d. induction l as [|x l IH]; intros d; cbn [foldl]; [done|]. rewrite IH. unfold remove_file, gone.
  rewrite filter_cons. destruct (removable x) eqn:Ex; [rewrite decide_True by done|by rewrite decide_False by done].
  destruct (decide (name ∈ filter (λ name, removable name = true) l)) as [Hin|Hin].
  - rewrite !bool_decide_true; [done|by apply elem_of_cons; right|done].
  - rewrite bool_decide_false by done. destruct (decide (x = name)) as [->|Hne].
    + by rewrite bool_decide_true, lookup_delete_eq by (apply elem_of_cons; by left).
    + rewrite bool_decide_false, lookup_delete_ne by (done || set_solver). done.
Qed.

(** The files after pruning. *)
Lemma pkg_files now d name :
  name ≠ "data" →
  st_files (pkg_NewStateStore removable now d) !! name =
    if bool_decide (name ∈ gone (removed 64 (snapshots d))) then None else d !! name.
Proof.
  intros Hne. unfold pkg_NewStateStore, pkg_loadLatest. cbv zeta.
  change (st_files (mkStateStore d None [] 64)) with d. change (st_maxFiles (mkStateStore d None [] 64)) with 64.
  assert (∀ s : StateStore, st_files (s <| st_files ::= make_data now |>) !! name = st_files s !! name) as Hdata.
  { intros s. cbn. unfold make_data. case_bool_decide; [done|]. by rewrite lookup_insert_ne. }
  assert (st_files (if 64 <? blen (snapshots d)
      then pruneSnapshotFiles removable (snapshots d) (mkStateStore d None [] 64)
      else mkStateStore d None [] 64) !! name =
    if bool_decide (name ∈ gone (removed 64 (snapshots d))) then None else d !! name) as E.
  { destruct (Z.ltb_spec 64 (blen (snapshots d))) as [Hlt|Hge].
    - unfold pruneSnapshotFiles. cbn. apply foldl_remove_lookup.
    - rewrite bool_decide_false; [done|]. unfold removed, blen in *. cbv zeta.
      rewrite sort_Strings_Permutation, (proj2 (Z.leb_le _ _)) by lia. apply not_elem_of_nil. }
  destruct (bool_decide (_ = "")); [rewrite Hdata|]; exact E.
Qed.

Lemma snapshots_pkg now d name :
  name ∈ snapshots (st_files (pkg_NewStateStore removable now d)) ↔
  name ∈ snapshots d ∧ name ∉ gone (removed 64 (snapshots d)).
Proof.
  rewrite !snapshots_elem. unfold is_snapshot. destruct (decide (name = "data")) as [->|Hne].
  { split; [|intros [E _]; revert E]; destruct (_ !! "data") as [f|]; try done; by destruct (fl_IsDir f). }
  rewrite pkg_files by done. case_bool_decide; naive_solver.
Qed.

(** The names in order, of which those in front go. *)
Lemma removed_take d :
  let l := sort_Strings (snapshots d) in removed 64 (snapshots d) = take (Z.to_nat (blen l - 64)) l.
Proof.
  intros l. unfold removed. fold l. cbv zeta. destruct (Z.leb_spec (blen l - 64) 0); [|done].
  by replace (Z.to_nat (blen l - 64)) with 0%nat by lia.
Qed.

Lemma left_over now d name :
  let l := sort_Strings (snapshots d) in
  name ∈ snapshots (st_files (pkg_NewStateStore removable now d)) → removable name = true →
  name ∈ drop (Z.to_nat (blen l - 64)) l.
Proof.
  intros l [Hin Hr]%snapshots_pkg Hrm. rewrite removed_take in Hr. fold l in Hr.
  unfold gone in Hr. rewrite list_elem_of_filter in Hr.
  assert (name ∈ l) as Hl by (unfold l; by rewrite sort_Strings_Permutation).
  rewrite <- (take_drop (Z.to_nat (blen l - 64)) l) in Hl. apply elem_of_app in Hl as [|]; [|done].
  exfalso. by apply Hr.
Qed.

(** C40. Opening the store leaves at most 64 snapshot files that could have been removed:
    those that are removed come before each of these in the order of their names, and
    were removable.  No other file is touched. *)
Theorem pruning_keeps_last now d :
  let d' := st_files (pkg_NewStateStore removable now d) in
  blen (filter (λ name, removable name = true) (snapshots d')) ≤ 64 ∧
  (∀ x, x ∈ snapshots d → x ∉ snapshots d' → removable x = true ∧
     ∀ y, y ∈ snapshots d' → removable y = true → string_lt y x = false) ∧
  (∀ name, name ∉ snapshots d → name ≠ "data" → d' !! name = d !! name).
Proof.
  intros d'. pose proof (removed_take d) as Er. pose proof (left_over now d) as Hd. cbv zeta in Er, Hd.
  set (l := sort_Strings (snapshots d)) in *. set (k := Z.to_nat (blen l - 64)) in *. split_and!.
  - assert (filter (λ name, removable name = true) (snapshots d') ⊆+ drop k l) as Hs.
    { apply NoDup_submseteq; [apply NoDup_filter, snapshots_NoDup|].
      intros name [Hr Hin]%list_elem_of_filter. by apply Hd. }
    apply submseteq_length in Hs. rewrite length_drop in Hs. unfold k, blen in *. lia.
  - intros x Hx Hx'. assert (x ∈ gone (take k l)) as [Hrx Ht]%list_elem_of_filter.
    { rewrite <- Er. destruct (decide (x ∈ gone (removed 64 (snapshots d)))); [done|].
      exfalso. apply Hx'. by apply snapshots_pkg. }
    split; [done|]. intros y Hy Hry.
    pose proof (sort_Strings_sorted (snapshots d)) as Hs. fold l in Hs. rewrite <- (take_drop k l) in Hs.
    change (not_after string_lt x y). by eapply StronglySorted_app_1_elem_of; [exact Hs| |apply Hd].
  - intros name Hn Hne. unfold d'. rewrite pkg_files by done. rewrite bool_decide_false; [done|].
    rewrite Er. intros [_ Hin]%list_elem_of_filter. apply Hn. apply subseteq_take in Hin. unfold l in Hin.
    by rewrite sort_Strings_Permutation in Hin.
Qed.
End pruning.

(** ** Examples *)

(** Snapshots of the heights 936 to 1000: the newest is the one that is deleted,
    since [snapshot_1000] comes before [snapshot_936] as a string. *)
Definition height_name (h : nat) : string := "snapshot_" +:+ FormatInt (Z.of_nat h) +:+ ".json.gz".
Definition many_files : directory :=
  list_to_map (map (λ h, (height_name h, mkfile [] (Z.of_nat h) false)) (seq 936 65)).

Lemma newest_snapshot_pruned :
  is_Some (many_files !! height_name 1000) ∧
  scan_height (height_name 1000) = Some 1000 ∧
  Forall (λ name, option_map (λ h, h <=? 1000) (scan_height name) = Some true) (snapshots many_files) ∧
  st_files (pkg_NewStateStore (λ _, true) 0 many_files) !! height_name 1000 = None.
Proof.
  split_and!; [vm_compute; by eexists|vm_compute; reflexivity| |vm_compute; reflexivity].
  apply Forall_forall. intros name Hin.
  assert (forallb (λ name, bool_decide (option_map (λ h, h <=? 1000) (scan_height name) = Some true))
    (snapshots many_files) = true) as Hall by (vm_compute; reflexivity).
  rewrite List.forallb_forall in Hall. specialize (Hall name (proj1 (list_elem_of_In _ _) Hin)).
  by apply bool_decide_eq_true in Hall.
Qed.

(** A codec that knows the token supply only, one byte. *)
#[local] Instance demo_codec : SnapshotCodec :=
  {| marshal_snapshot s := Ok [byte_of_Z (sn_TokenSupply s)];
     decode_snapshot l := Ok (empty_snapshot <| sn_TokenSupply := Z_of_byte (default Byte.x00 (head l)) |>);
     gzip l := l; gunzip l := Some l |}.

Definition demo_snap (n : Z) : Snapshot := empty_snapshot <| sn_TokenSupply := n |>.
Definition demo_store : StateStore := mkStateStore ∅ None [] 64.
Definition demo_disk (now : Z) : disk := mkdisk Written true now.

Lemma written_snapshot_reopens_witness :
  ∃ s', NewStateStore 9 (st_files (WriteSnapshot (demo_disk 5) (demo_snap 7) demo_store).2) = Ok s' ∧
    st_latest s' = Some (demo_snap 7).
Proof.
  apply (written_snapshot_reopens (demo_disk 5) 9 (demo_snap 7) demo_store);
    [done|done|done|done|vm_compute; reflexivity|apply map_Forall_empty].
Defined.

Lemma last_snapshots_kept_witness :
  let ws := [(demo_disk 1, demo_snap 1); (demo_disk 2, demo_snap 2)] in
  st_history (run_writes ws demo_store) = map wname (kept ws) ∧
  Forall (λ w, st_files (run_writes ws demo_store) !! wname w = Some (file_of w.1 w.2)) (kept ws).
Proof.
  apply (last_snapshots_kept [(demo_disk 1, demo_snap 1); (demo_disk 2, demo_snap 2)] ∅);
    [by repeat constructor|].
  apply (bool_decide_unpack _). vm_compute. exact I.
Defined.

Lemma same_snapshot_lost_witness :
  st_files (run_writes (map (λ io, (io, demo_snap 1)) (replicate 65 (demo_disk 1))) demo_store) =
    delete (name_of (demo_snap 1)) ∅.
Proof.
  apply (same_snapshot_lost (replicate 65 (demo_disk 1)) (demo_snap 1) demo_store);
    [by apply Forall_replicate|rewrite length_replicate; lia|reflexivity|reflexivity].
Defined.
