(* ===== verification/Node.v ===== *)
(** * The node program: state, genesis, disk and accounts (go-chain/main.go)

    The program [main] has a [Blockchain] of its own beside the one of the
    package: the same data types, fewer fields, other constants, and methods
    that differ in places.  This file holds its state, the genesis block and
    genesis file, the copy on disk, and the methods outside of blocks.

    As in [State], [nd_ticks] counts the readings of the runtime and [nd_disk]
    is the file [chain.json].  [NewBlockchain] makes every map but
    [PendingReversals] and [IrreversibleTxs]: these two are [None] while they
    are nil, reading from them finds nothing, and assigning to them panics.
    The global variable [CurrencyName] is a field. *)

From S2P Require Import Prelude Runtime Float64 Text Sha256 Domain Json JsonText Tendermint State Accounts.
Open Scope Z_scope.
Open Scope go_scope.

(** ** Constants *)

Definition HogohogoPerTender : Z := 100000000.
Definition BaseFee : Z := 5.
Definition FeeMultiplier : Z := 2.
Definition BurnRatePercent : Z := 1.
Definition RewardRatePercent : Z := 4.
Definition MinStake : Z := 100.
Definition MaxSupply : Z := 18446744073709551615.
Definition InitialSupply : Z := 50000000000.
Definition AIBurnScaling : Z := 20.
Definition AIModelStake : Z := 50 * HogohogoPerTender.
Definition AgentMinBalance : Z := 10 * HogohogoPerTender.
Definition AlucardBaseEmission : Z := 20.
Definition AlucardBonusStart : Z := 80.
Definition AlucardDecayFactor : Z := 70.
Definition AlucardCycleBlocks : Z := 78914000.

(** ** Records *)

Record nodeState := mknodeState {
  ns_Chain : list Block; ns_Pending : list Transaction; ns_Ledger : gmap string Account;
  ns_Registry : gmap string ModelRef; ns_Consensus : string; ns_Authorities : list string;
  ns_TokenSupply : Z; ns_Escrows : gmap string Escrow;
  ns_Proposals : gmap string GovernanceProposal;
  ns_Agreements : gmap string ServiceAgreement; ns_UsageMeters : gmap string UsageMeter;
  ns_UsedNonces : gmap string (gset Z); ns_SeenTxIDs : gset string;
  ns_AuditTrail : list AuditEntry; ns_NextNonce : gmap string Z;
  ns_PendingReversals : option (gmap string PendingReversal);
  ns_IrreversibleTxs : option (gset string) }.

(** The state that is read back from the file. *)
#[export, refine] Instance json_node_state : JsonData nodeState :=
  {| json_value s := mknodeState (json_value (ns_Chain s)) (json_value (ns_Pending s)) (json_value (ns_Ledger s))
       (json_value (ns_Registry s)) (json_value (ns_Consensus s)) (json_value (ns_Authorities s))
       (ns_TokenSupply s) (json_value (ns_Escrows s)) (json_value (ns_Proposals s)) (json_value
       (ns_Agreements s)) (json_value (ns_UsageMeters s)) (json_value (ns_UsedNonces s)) (json_value
       (ns_SeenTxIDs s)) (json_value (ns_AuditTrail s)) (json_value (ns_NextNonce s)) (json_value
       (ns_PendingReversals s)) (json_value (ns_IrreversibleTxs s));
     json_strings s := json_strings (ns_Chain s) ++ json_strings (ns_Pending s) ++ json_strings (ns_Ledger s) ++
       json_strings (ns_Registry s) ++ json_strings (ns_Consensus s) ++ json_strings (ns_Authorities
       s) ++ json_strings (ns_Escrows s) ++ json_strings (ns_Proposals s) ++ json_strings
       (ns_Agreements s) ++ json_strings (ns_UsageMeters s) ++ json_strings (ns_UsedNonces s) ++
       json_strings (ns_SeenTxIDs s) ++ json_strings (ns_AuditTrail s) ++ json_strings (ns_NextNonce
       s) ++ json_strings (ns_PendingReversals s) ++ json_strings (ns_IrreversibleTxs s) |}.
Proof. json_fields. Defined.

Record Blockchain := mkBlockchain {
  nd_Chain : list Block; nd_Pending : list Transaction; nd_Ledger : gmap string Account;
  nd_Registry : gmap string ModelRef; nd_Consensus : ConsensusType;
  nd_Authorities : list string; nd_validatorIdx : Z; nd_DataDir : string;
  nd_TokenSupply : Z; nd_Escrows : gmap string Escrow;
  nd_Proposals : gmap string GovernanceProposal;
  nd_Agreements : gmap string ServiceAgreement; nd_UsageMeters : gmap string UsageMeter;
  nd_UsedNonces : gmap string (gset Z); nd_NextNonce : gmap string Z;
  nd_SeenTxIDs : gset string; nd_AuditTrail : list AuditEntry;
  nd_Wallets : gmap string ManagedWallet; nd_Validators : gmap string Validator;
  nd_GenesisHash : string; nd_ChainID : string; nd_BlockTime : Z; nd_Difficulty : Z;
  nd_MintPaused : bool; nd_MintPauseUntil : Z; nd_AgentTxCount : Z;
  nd_PendingReversals : option (gmap string PendingReversal);
  nd_IrreversibleTxs : option (gset string); nd_metrics : serverMetrics;
  nd_CurrencyName : string; nd_ticks : nat; nd_disk : option nodeState }.

#[export] Instance Blockchain_rebuild : Rebuild Blockchain := λ r,
  mkBlockchain (nd_Chain r) (nd_Pending r) (nd_Ledger r) (nd_Registry r) (nd_Consensus r)
  (nd_Authorities r) (nd_validatorIdx r) (nd_DataDir r) (nd_TokenSupply r) (nd_Escrows r)
  (nd_Proposals r) (nd_Agreements r) (nd_UsageMeters r) (nd_UsedNonces r) (nd_NextNonce r)
  (nd_SeenTxIDs r) (nd_AuditTrail r) (nd_Wallets r) (nd_Validators r) (nd_GenesisHash r)
  (nd_ChainID r) (nd_BlockTime r) (nd_Difficulty r) (nd_MintPaused r) (nd_MintPauseUntil r)
  (nd_AgentTxCount r) (nd_PendingReversals r) (nd_IrreversibleTxs r) (nd_metrics r)
  (nd_CurrencyName r) (nd_ticks r) (nd_disk r).

(** The state message of the peer protocol; [None] is a null account. *)
Record LedgerState := mkLedgerState {
  ls_Ledger : gmap string (option Account); ls_Authorities : list string; ls_TokenSupply : Z }.

(** The genesis file; only some of its fields are used. *)
Record genesisToken := mkgenesisToken {
  gnto_Name : string; gnto_Symbol : string; gnto_Decimals : Z }.
Record genesisAllocation := mkgenesisAllocation {
  gnal_Address : string; gnal_PublicKey : string; gnal_Amount : Z; gnal_Description : string;
  gnal_LockupUntil : Z; gnal_Vesting : string }.
Record genesisValidator := mkgenesisValidator {
  gnva_Address : string; gnva_PublicKey : string; gnva_Stake : Z; gnva_Country : string;
  gnva_City : string; gnva_Contact : string }.
Record genesisEconomics := mkgenesisEconomics {
  gnec_BaseGasFee : Z; gnec_BurnRatePercent : Z; gnec_RewardRatePercent : Z; gnec_MinStake : Z;
  gnec_BlockTimeSeconds : Z; gnec_InflationStartYear : Z; gnec_InflationDecayPerYear : float64 }.
Record genesisMultisig := mkgenesisMultisig {
  gnmu_Threshold : Z; gnmu_Signers : list string; gnmu_Signatures : list string;
  gnmu_Finalized : bool; gnmu_FinalizedAt : Z }.
Record genesisFile := mkgenesisFile {
  gnf_ChainID : string; gnf_GenesisTime : Z; gnf_Consensus : string; gnf_InitialSupply : Z;
  gnf_MaxSupply : Z; gnf_Token : genesisToken; gnf_Allocations : list genesisAllocation;
  gnf_Validators : list genesisValidator; gnf_Economics : genesisEconomics;
  gnf_Multisig : genesisMultisig }.

Section node.
Context `{Runtime}.

(** ** Clock and audit trail *)

Definition tick (bc : Blockchain) : Blockchain := bc <| nd_ticks ::= S |>.

Definition UnixNano (bc : Blockchain) : Z * Blockchain := (clock (nd_ticks bc), tick bc).

Definition Unix (bc : Blockchain) : Z * Blockchain :=
  (clock (nd_ticks bc) `div` 10 ^ 9, tick bc).

Definition appendAuditEntry (bc : Blockchain) (event actor details : string) : Blockchain :=
  let '(now, bc) := Unix bc in
  bc <| nd_AuditTrail ::= λ l, l ++ [mkAuditEntry now event actor details] |>.

(** ** Accounts *)

Definition on_account (f : Account → Account) (address : string) (bc : Blockchain) : Blockchain :=
  bc <| nd_Ledger ::= alter f address |>.

Definition addAccountLocked (bc : Blockchain) (address : string) (balance : Z) (isAgent : bool)
    : Blockchain :=
  let bc := bc <| nd_Ledger ::= <[address := mkAccount address balance 0 isAgent]> |> in
  appendAuditEntry bc "account_created" address
    ("balance=" +:+ FormatInt balance +:+ " agent=" +:+ FormatBool isAgent).

Definition AddAccount (bc : Blockchain) (address : string) (balance : Z) (isAgent : bool)
    : Blockchain :=
  addAccountLocked bc address balance isAgent.

Definition CreateManagedWallet `{Ed25519} (bc : Blockchain) (label : string) (isAgent : bool)
    : outcome ManagedWallet * Blockchain :=
  let wallet := NewWallet (nd_ticks bc) in
  let bc := tick bc in
  let address := WalletAddress wallet in
  let bc := addAccountLocked bc address 1000 isAgent in
  let '(now, bc) := UnixNano bc in
  let managed := mkManagedWallet ("wallet-" +:+ FormatInt now) address
                   (EncodeToString (w_PublicKey wallet)) label isAgent in
  let bc := bc <| nd_Wallets ::= <[mw_ID managed := managed]> |> in
  let bc := appendAuditEntry bc "wallet_created" address
              ("label=" +:+ label +:+ " agent=" +:+ FormatBool isAgent) in
  (Ok managed, bc).

Definition Stake (bc : Blockchain) (address : string) (amount : Z) : Blockchain :=
  match nd_Ledger bc !! address with
  | None => bc
  | Some account =>
      if acc_Balance account <? amount then bc else
      let bc := on_account (lock_stake amount) address bc in
      appendAuditEntry bc "stake" address ("amount=" +:+ FormatInt amount)
  end.

(** [account.Staked -= amount; account.Balance -= amount] *)
Definition Slash (bc : Blockchain) (address : string) (amount : Z) : Blockchain :=
  match nd_Ledger bc !! address with
  | None => bc
  | Some account =>
      if acc_Staked account <? amount then bc else
      let bc := on_account (λ a, debit amount (a <| acc_Staked ::= λ s, s -! amount |>)) address bc in
      appendAuditEntry bc "slash" address ("amount=" +:+ FormatInt amount)
  end.

(** [bc.IrreversibleTxs[txID] = struct{}{}] *)
Definition MarkIrreversible (bc : Blockchain) (txID : string) : outcome unit * Blockchain :=
  match nd_IrreversibleTxs bc with
  | None => (Panic "assignment to entry in nil map", bc)
  | Some s => (Ok tt, bc <| nd_IrreversibleTxs := Some ({[txID]} ∪ s) |>)
  end.

(** ** Rewards, burning, buyback *)

Definition reward_account (bc : Blockchain) (entry : string * Account) : Blockchain :=
  let '(address, account) := entry in
  if 0 <? acc_Staked account then
    let reward := (acc_Staked account *! RewardRatePercent) `div` 100 in
    let bc := on_account (credit reward) address bc in
    bc <| nd_TokenSupply ::= λ s, s +! reward |>
  else bc.

Definition distributeRewards (bc : Blockchain) : Blockchain :=
  let entries := range_map (nd_ticks bc) (nd_Ledger bc) in
  foldl reward_account (tick bc) entries.

Definition DistributeRewards (bc : Blockchain) : Blockchain := distributeRewards bc.

Definition Burn (bc : Blockchain) (amount : Z) : Blockchain :=
  let amount := if nd_TokenSupply bc <? amount then nd_TokenSupply bc else amount in
  bc <| nd_TokenSupply ::= λ s, s -! amount |>.

(** [for i := 0; i < era && bonus > 1; i++]: every round lowers the bonus, so from
    80 it makes fewer than 80 rounds and stops by itself
    ([decay_bonus_enough]). *)
Fixpoint decay_bonus (rounds : nat) (era bonus : Z) : Z :=
  match rounds with
  | O => bonus
  | S rounds =>
      if (0 <? era) && (1 <? bonus)
      then decay_bonus rounds (era - 1) ((bonus *! AlucardDecayFactor) `div` 100) else bonus
  end.

Definition BlockReward (blockHeight : Z) : Z :=
  if blockHeight =? 0 then AlucardBaseEmission +! AlucardBonusStart else
  let era := blockHeight `div` AlucardCycleBlocks in
  AlucardBaseEmission +! decay_bonus 80 era AlucardBonusStart.

Definition treasuryBuyback (bc : Blockchain) : Blockchain :=
  if nd_TokenSupply bc <=? 0 then bc else
  match nd_Ledger bc !! CommunityFundAddress with
  | None => bc
  | Some cfAcct =>
      if acc_Balance cfAcct =? 0 then bc else
      let burn := acc_Balance cfAcct `div` 10 in
      let burn := if nd_TokenSupply bc `div` 100 <? burn then nd_TokenSupply bc `div` 100 else burn in
      if 0 <? burn then
        let bc := on_account (debit burn) CommunityFundAddress bc in
        let bc := bc <| nd_TokenSupply ::= λ s, s -! burn |> in
        appendAuditEntry bc "treasury_buyback" CommunityFundAddress ("amount=" +:+ FormatInt burn)
      else bc
  end.

(** ** Escrows, proposals, authorities, agreements *)

(** The escrow is paid for and stored before the assignment to
    [IrreversibleTxs]. *)
Definition CreateEscrow (bc : Blockchain) (from to : string) (amount : Z) (serviceID : string)
    : outcome Escrow * Blockchain :=
  match nd_Ledger bc !! from with
  | None => (Err "insufficient funds", bc)
  | Some fromAccount =>
      if acc_Balance fromAccount <? amount then (Err "insufficient funds", bc) else
      let bc := on_account (debit amount) from bc in
      let '(now, bc) := UnixNano bc in
      let id := "escrow-" +:+ FormatInt now in
      let escrow := mkEscrow id from to amount serviceID "active" true in
      let bc := bc <| nd_Escrows ::= <[id := escrow]> |> in
      match MarkIrreversible bc id with
      | (Ok _, bc) =>
          let bc := appendAuditEntry bc "escrow_created" from
            ("to=" +:+ to +:+ " amount=" +:+ FormatInt amount +:+ " service_id=" +:+ serviceID +:+
             " irreversible=true") in
          (Ok escrow, bc)
      | (Err e, bc) => (Err e, bc)
      | (Panic e, bc) => (Panic e, bc)
      end
  end.

Definition CreateProposal (bc : Blockchain) (title description : string)
    : GovernanceProposal * Blockchain :=
  let '(now, bc) := UnixNano bc in
  let id := "proposal-" +:+ FormatInt now in
  let proposal := mkGovernanceProposal id title description ∅ "open" in
  let bc := bc <| nd_Proposals ::= <[id := proposal]> |> in
  let bc := appendAuditEntry bc "proposal_created" "governance"
              ("id=" +:+ id +:+ " title=" +:+ title) in
  (proposal, bc).

Definition VoteProposal (bc : Blockchain) (id voter : string) : Blockchain :=
  match nd_Proposals bc !! id with
  | None => bc
  | Some proposal =>
      if bool_decide (prop_ID proposal = "") then bc else
      let proposal := proposal <| prop_Votes ::= <[voter := true]> |> in
      let bc := bc <| nd_Proposals ::= <[id := proposal]> |> in
      appendAuditEntry bc "proposal_voted" voter ("proposal_id=" +:+ id)
  end.

Definition AddAuthority (bc : Blockchain) (address : string) : Blockchain :=
  bc <| nd_Authorities ::= λ l, l ++ [address] |>.

Definition RegisterValidator (bc : Blockchain) (address : string) (stake : Z)
    : outcome unit * Blockchain :=
  match nd_Ledger bc !! address with
  | None => (Err "insufficient funds or stake below minimum", bc)
  | Some account =>
      if (acc_Balance account <? stake) || (stake <? MinStake) then
        (Err "insufficient funds or stake below minimum", bc) else
      let bc := on_account (lock_stake stake) address bc in
      let '(joined, bc) := Unix bc in
      let '(rotated, bc) := Unix bc in
      let '(now, bc) := Unix bc in
      let v := mkValidator "" address stake true joined 100 0 rotated
                 (i64 (now + 30 * 24 * 60 * 60)) in
      let bc := bc <| nd_Validators ::= <[address := v]> |> in
      (Ok tt, appendAuditEntry bc "validator_registered" address ("stake=" +:+ FormatInt stake))
  end.

Definition CreateServiceAgreement (bc : Blockchain) (provider consumer modelID : string)
    (pricePerCall maxCalls : Z) : outcome ServiceAgreement * Blockchain :=
  match nd_Agreements bc !! modelID with
  | Some _ => (Err "agreement already exists", bc)
  | None =>
      let '(now, bc) := UnixNano bc in
      let agreement := mkServiceAgreement ("agreement-" +:+ FormatInt now) provider consumer
                         modelID pricePerCall maxCalls "active" in
      (Ok agreement, bc <| nd_Agreements ::= <[agr_ID agreement := agreement]> |>)
  end.

Definition RecordUsage (bc : Blockchain) (agreementID : string) (usageCount : Z)
    : outcome UsageMeter * Blockchain :=
  match nd_Agreements bc !! agreementID with
  | None => (Err "agreement not found", bc)
  | Some agreement =>
      let bc := if (0 <? agr_MaxCalls agreement) && (agr_MaxCalls agreement <? usageCount)
                then bc <| nd_Agreements ::=
                       <[agreementID := agreement <| agr_Status := "over_limit" |>]> |>
                else bc in
      let meter := default (mkUsageMeter "" 0 0) (nd_UsageMeters bc !! agreementID) in
      let meter := mkUsageMeter agreementID (met_UsageCount meter +! usageCount)
                     (met_TotalCost meter +! (usageCount *! agr_PricePerCall agreement)) in
      (Ok meter, bc <| nd_UsageMeters ::= <[agreementID := meter]> |>)
  end.

(** ** Genesis *)

(** [1700000000 + int64(sum[0])%157680000] *)
Definition ChainGenesisTime (bc : Blockchain) : Z :=
  match Sum256 (bytes_of_string (nd_ChainID bc)) with
  | b :: _ => 1700000000 + Z_of_byte b mod 157680000
  | [] => 1700000000
  end.

Definition genesisPayload (chainID : string) (consensus : ConsensusType) (supply timestamp : Z)
    : string :=
  json_object
    [str_field "chain_id" chainID; str_field "consensus" (ConsensusName consensus);
     int_field "initial_supply" supply; int_field "timestamp" timestamp].

Definition createGenesisBlock (bc : Blockchain) : Blockchain :=
  let genesisTime := ChainGenesisTime bc in
  let genesisHash := sha_hex (bytes_of_string
    (genesisPayload (nd_ChainID bc) (nd_Consensus bc) (nd_TokenSupply bc) genesisTime)) in
  let genesis := mkBlock 0 "genesis" "" "0" genesisTime [] 0 genesisHash "" in
  bc <| nd_Chain ::= λ l, l ++ [genesis] |> <| nd_GenesisHash := blk_BlockHash genesis |>.

Definition DeterministicGenesisHash (bc : Blockchain) : string :=
  sha_hex (bytes_of_string
    (genesisPayload (nd_ChainID bc) (nd_Consensus bc) InitialSupply (ChainGenesisTime bc))).

(** ** Disk *)

Definition to_nodeState (bc : Blockchain) : nodeState :=
  mknodeState (nd_Chain bc) (nd_Pending bc) (nd_Ledger bc) (nd_Registry bc)
    (ConsensusName (nd_Consensus bc)) (nd_Authorities bc) (nd_TokenSupply bc) (nd_Escrows bc)
    (nd_Proposals bc) (nd_Agreements bc) (nd_UsageMeters bc) (nd_UsedNonces bc)
    (nd_SeenTxIDs bc) (nd_AuditTrail bc) (nd_NextNonce bc) (nd_PendingReversals bc)
    (nd_IrreversibleTxs bc).

(** [os.WriteFile] truncates the file and writes it in place: when it fails, the
    old file is still there or what is left does not decode.  [None] stands for
    a file that is missing or does not decode. *)
Definition saveToDisk (bc : Blockchain) : outcome unit * Blockchain :=
  let state := to_nodeState bc in
  let written := disk_write (nd_ticks bc) in
  let bc := tick bc in
  if written then (Ok tt, bc <| nd_disk := Some (json_value state) |>) else
  let untouched := disk_write (nd_ticks bc) in
  let bc := tick bc in
  (Err "write failed", if untouched then bc else bc <| nd_disk := None |>).

Definition saveToDiskSafe (bc : Blockchain) : outcome unit * Blockchain := saveToDisk bc.

(** The number of blocks, from the first, that follow each other. *)
Fixpoint linked_prefix (prev : Block) (chain : list Block) : nat :=
  match chain with
  | [] => O
  | block :: chain =>
      if negb (blk_Index block =? blk_Index prev +! 1) ||
         negb (bool_decide (blk_PreviousHash block = blk_BlockHash prev)) then O
      else S (linked_prefix block chain)
  end.

Definition trimInvalidBlocks (bc : Blockchain) : Blockchain :=
  match nd_Chain bc with
  | [] => bc
  | genesis :: rest =>
      let valid := S (linked_prefix genesis rest) in
      if Z.of_nat valid <? blen (nd_Chain bc) then
        let bc := bc <| nd_Chain ::= take valid |> in
        let bc := (saveToDisk bc).2 in
        appendAuditEntry bc "chain_trimmed" "startup" ("height=" +:+ FormatInt (Z.of_nat valid))
      else bc
  end.

(** What a chain of another genesis is reset to. *)
Definition reset_chain (bc : Blockchain) : Blockchain :=
  let renamed := disk_write (nd_ticks bc) in
  let bc := tick bc in
  let bc := if renamed then bc <| nd_disk := None |> else bc in
  let bc := bc <| nd_Chain := [] |> <| nd_Pending := [] |> <| nd_Ledger := ∅ |>
               <| nd_Authorities := [] |> <| nd_TokenSupply := InitialSupply |>
               <| nd_AuditTrail := [] |> <| nd_UsedNonces := ∅ |> <| nd_SeenTxIDs := ∅ |>
               <| nd_NextNonce := ∅ |> in
  appendAuditEntry bc "genesis_mismatch_reset" "system"
    ("backup=" +:+ nd_DataDir bc +:+ "/chain.json.mismatched-genesis.bak").

Definition restored (bc : Blockchain) (state : nodeState) : Blockchain :=
  bc <| nd_Chain := ns_Chain state |> <| nd_Pending := ns_Pending state |>
     <| nd_Ledger := ns_Ledger state |> <| nd_Registry := ns_Registry state |>
     <| nd_Authorities := ns_Authorities state |> <| nd_TokenSupply := ns_TokenSupply state |>
     <| nd_Escrows := ns_Escrows state |> <| nd_Proposals := ns_Proposals state |>
     <| nd_Agreements := ns_Agreements state |> <| nd_UsageMeters := ns_UsageMeters state |>
     <| nd_UsedNonces := ns_UsedNonces state |> <| nd_SeenTxIDs := ns_SeenTxIDs state |>
     <| nd_AuditTrail := ns_AuditTrail state |> <| nd_NextNonce := ns_NextNonce state |>
     <| nd_PendingReversals := ns_PendingReversals state |>
     <| nd_IrreversibleTxs := ns_IrreversibleTxs state |> <| nd_Wallets := ∅ |>.

Definition loadFromDisk (bc : Blockchain) : outcome unit * Blockchain :=
  match nd_disk bc with
  | None => (Err "open chain.json: no such file", bc)
  | Some state =>
      let bc := restored bc state in
      let expectedGenesis := DeterministicGenesisHash bc in
      let bc :=
        match nd_Chain bc with
        | genesis :: _ =>
            if negb (bool_decide (blk_BlockHash genesis = "")) &&
               negb (bool_decide (blk_BlockHash genesis = expectedGenesis))
            then reset_chain bc else bc
        | [] => bc
        end in
      let bc := bc <| nd_NextNonce ::= rebuildNextNonce (nd_UsedNonces bc) |> in
      let bc := match nd_Chain bc with
                | [] => bc
                | b :: _ => bc <| nd_GenesisHash := blk_BlockHash b |>
                end in
      let bc := bc <| nd_Consensus := if bool_decide (ns_Consensus state = "poa")
                                      then ProofOfAuthority else ProofOfStake |> in
      let bc := match nd_Chain bc with [] => createGenesisBlock bc | _ => trimInvalidBlocks bc end in
      (Ok tt, bc)
  end.

Definition seedDemoState (bc : Blockchain) : Blockchain :=
  let bc := AddAccount bc "human1" 1000000 false in
  let bc := AddAccount bc "agentA" 100000 true in
  let bc := AddAccount bc "agentB" 50000 true in
  let bc := Stake bc "agentA" 10000 in
  AddAuthority bc "agentA".

(** ** Genesis files *)

Fixpoint load_allocations (bc : Blockchain) (l : list genesisAllocation)
    : outcome unit * Blockchain :=
  match l with
  | [] => (Ok tt, bc)
  | alloc :: l =>
      if bool_decide (gnal_Address alloc = "") then (Err "genesis allocation missing address", bc)
      else if MaxSupply <? gnal_Amount alloc then (Err "genesis allocation exceeds max supply", bc)
      else
        let bc := addAccountLocked bc (gnal_Address alloc) (gnal_Amount alloc) false in
        load_allocations (bc <| nd_TokenSupply ::= λ s, s +! gnal_Amount alloc |>) l
  end.

Definition load_validator (bc : Blockchain) (val : genesisValidator) : Blockchain :=
  let bc := bc <| nd_TokenSupply ::= λ s, s +! gnva_Stake val |> in
  let bc :=
    match nd_Ledger bc !! gnva_Address val with
    | Some _ =>
        on_account (λ a, debit (gnva_Stake val)
          (a <| acc_IsAgent := false |> <| acc_Staked := gnva_Stake val |>)) (gnva_Address val) bc
    | None =>
        let bc := addAccountLocked bc (gnva_Address val) (gnva_Stake val) false in
        on_account (λ a, a <| acc_Staked := gnva_Stake val |>) (gnva_Address val) bc
    end in
  let '(joined, bc) := Unix bc in
  let v := mkValidator "" (gnva_Address val) (gnva_Stake val) true joined 100 0 0 0 in
  let bc := bc <| nd_Validators ::= <[gnva_Address val := v]> |> in
  AddAuthority bc (gnva_Address val).

Fixpoint load_validators (bc : Blockchain) (l : list genesisValidator) : outcome unit * Blockchain :=
  match l with
  | [] => (Ok tt, bc)
  | val :: l =>
      if bool_decide (gnva_Address val = "") then (Err "genesis validator missing address", bc)
      else if gnva_Stake val <? MinStake then (Err "genesis validator stake below minimum", bc)
      else load_validators (load_validator bc val) l
  end.

(** [file] is the outcome of reading and decoding the file. *)
Definition loadGenesis (bc : Blockchain) (file : outcome genesisFile) : outcome unit * Blockchain :=
  match file with
  | Err e => (Err e, bc)
  | Panic e => (Panic e, bc)
  | Ok genesis =>
      let bc := if bool_decide (gnf_ChainID genesis = "") then bc
                else bc <| nd_ChainID := gnf_ChainID genesis |> in
      let bc :=
        if bool_decide (gnf_Consensus genesis = "") then bc
        else if bool_decide (gnf_Consensus genesis = "poa")
             then bc <| nd_Consensus := ProofOfAuthority |>
        else if bool_decide (gnf_Consensus genesis = "pow")
             then bc <| nd_Consensus := ProofOfWork |>
        else bc <| nd_Consensus := ProofOfStake |> in
      let bc := if bool_decide (gnto_Symbol (gnf_Token genesis) = "") then bc
                else bc <| nd_CurrencyName := gnto_Symbol (gnf_Token genesis) |> in
      let bc := bc <| nd_TokenSupply := 0 |> in
      match load_allocations bc (gnf_Allocations genesis) with
      | (Ok _, bc) =>
          match load_validators bc (gnf_Validators genesis) with
          | (Ok _, bc) =>
              if MaxSupply <? nd_TokenSupply bc then
                (Err ("genesis total supply exceeds max supply: " +:+
                      FormatInt (nd_TokenSupply bc) +:+ " > " +:+ FormatInt MaxSupply), bc)
              else
                (Ok tt, appendAuditEntry bc "genesis_loaded" "system"
                  ("chain_id=" +:+ nd_ChainID bc +:+ " supply=" +:+ FormatInt (nd_TokenSupply bc) +:+
                   " allocations=" +:+ FormatInt (blen (gnf_Allocations genesis)) +:+
                   " validators=" +:+ FormatInt (blen (gnf_Validators genesis))))
          | (e, bc) => (e, bc)
          end
      | (e, bc) => (e, bc)
      end
  end.

(** ** Construction *)

Definition empty_blockchain (consensus : ConsensusType) (dataDir chainID : string)
    (file : option nodeState) : Blockchain :=
  mkBlockchain [] [] ∅ ∅ consensus [] 0 dataDir InitialSupply ∅ ∅ ∅ ∅ ∅ ∅ ∅ [] ∅ ∅ "" chainID
    (5 * 10 ^ 9) 8 false 0 0 None None new_metrics "TENDER" 0 file.

(** [genesis] is [None] when no path is given. *)
Definition NewBlockchain (consensus : ConsensusType) (dataDir chainID : string)
    (file : option nodeState) (genesis : option (outcome genesisFile)) : Blockchain :=
  let bc := createGenesisBlock (empty_blockchain consensus dataDir chainID file) in
  match loadFromDisk bc with
  | (Ok _, bc) => bc
  | (_, bc) =>
      let bc :=
        match genesis with
        | Some g => match loadGenesis bc g with (Ok _, bc) => bc | (_, bc) => seedDemoState bc end
        | None => seedDemoState bc
        end in
      (saveToDisk bc).2
  end.

(** ** Views *)

(** The fields the literal of [snapshot] leaves out are zero. *)
Definition snapshot (bc : Blockchain) : nodeState :=
  mknodeState (nd_Chain bc) (nd_Pending bc) (nd_Ledger bc) (nd_Registry bc)
    (ConsensusName (nd_Consensus bc)) (nd_Authorities bc) (nd_TokenSupply bc) (nd_Escrows bc)
    (nd_Proposals bc) (nd_Agreements bc) (nd_UsageMeters bc) ∅ ∅ [] (nd_NextNonce bc) None None.

Definition ledgerState (bc : Blockchain) : LedgerState :=
  mkLedgerState (Some <$> nd_Ledger bc) (nd_Authorities bc) (nd_TokenSupply bc).

(** One account of a state message. *)
Definition sync_account (bc : Blockchain) (entry : string * option Account) : Blockchain :=
  let '(addr, acct) := entry in
  match acct with
  | None => bc
  | Some acct =>
      match nd_Ledger bc !! addr with
      | None =>
          let bc := bc <| nd_Ledger ::= <[addr := acct]> |> in
          appendAuditEntry bc "state_synced_account" addr
            ("balance=" +:+ FormatInt (acc_Balance acct) +:+ " staked=" +:+
             FormatInt (acc_Staked acct) +:+ " agent=" +:+ FormatBool (acc_IsAgent acct))
      | Some _ =>
          on_account (λ existing, existing <| acc_Balance := acc_Balance acct |>
            <| acc_Staked := acc_Staked acct |> <| acc_IsAgent := acc_IsAgent acct |>) addr bc
      end
  end.

Definition applyLedgerState (bc : Blockchain) (state : LedgerState) : Blockchain :=
  let entries := range_map (nd_ticks bc) (ls_Ledger state) in
  let bc := foldl sync_account (tick bc) entries in
  let bc := match ls_Authorities state with
            | [] => bc
            | l => bc <| nd_Authorities := l |>
            end in
  let bc := if 0 <? ls_TokenSupply state
            then bc <| nd_TokenSupply := ls_TokenSupply state |> else bc in
  appendAuditEntry bc "state_synced" "network"
    ("accounts=" +:+ FormatInt (Z.of_nat (size (ls_Ledger state))) +:+ " supply=" +:+
     FormatInt (ls_TokenSupply state)).
End node.
