(* ===== verification/NodeChain.v ===== *)
(** * The node program: validation, blocks, the pool and mining
    (go-chain/main.go)

    The transaction and block checks of the program [main], applying blocks,
    reversals, the pool, author selection, proof of work, [MineBlockFor],
    [SubmitMinedBlock] and [replaceChain].

    Validation reads the clock (a transaction is stale after ten minutes), so it
    passes the state on.  Applying a reversal request assigns to
    [PendingReversals], which panics while that map is nil; the functions below
    a panic return the state it leaves behind. *)

From S2P Require Import Prelude Runtime Float64 Text Sha256 Domain Json Merkle Tendermint State Accounts Validation Mempool Mining Node.
Open Scope Z_scope.
Open Scope go_scope.

(** ** Replays *)

Definition next_nonce (bc : Blockchain) (from : string) : Z := default 0 (nd_NextNonce bc !! from).
Definition used_nonces (bc : Blockchain) (from : string) : gset Z :=
  default ∅ (nd_UsedNonces bc !! from).

Definition isReplay (bc : Blockchain) (tx : Transaction) : bool :=
  if tx_Nonce tx =? 0 then false
  else if bool_decide (tx_Nonce tx ∈ used_nonces bc (tx_From tx)) then true
  else if tx_Nonce tx <? next_nonce bc (tx_From tx) then true
  else negb (bool_decide (tx_ID tx = "")) && bool_decide (tx_ID tx ∈ nd_SeenTxIDs bc).

Definition markTransactionSeen (bc : Blockchain) (tx : Transaction) : Blockchain :=
  let bc := if bool_decide (tx_ID tx = "") then bc
            else bc <| nd_SeenTxIDs ::= union {[tx_ID tx]} |> in
  if 0 <? tx_Nonce tx then
    let used := used_nonces bc (tx_From tx) in
    let bc := bc <| nd_UsedNonces ::= <[tx_From tx := {[tx_Nonce tx]} ∪ used]> |> in
    if next_nonce bc (tx_From tx) <=? tx_Nonce tx then
      bc <| nd_NextNonce ::= <[tx_From tx := tx_Nonce tx +! 1]> |>
    else bc
  else bc.

(** ** Fees *)

Definition agents_active (bc : Blockchain) : bool :=
  (0 <? nd_AgentTxCount bc) && (0 <? nd_TokenSupply bc).

(** [float64(bc.AgentTxCount) / float64(bc.TokenSupply) * 1_000_000_000] *)
Definition agent_ratio (bc : Blockchain) : float64 :=
  f64_mul (f64_div (f64_of_Z (nd_AgentTxCount bc)) (f64_of_Z (nd_TokenSupply bc)))
    (f64_of_Z 1000000000).

Definition estimateFee `{Runtime} (bc : Blockchain) (tx : Transaction) (congestion : Z) : Z :=
  let baseComplexity :=
    match switch_tx (tx_TxType tx) with
    | CaseRegisterModel => 3
    | CaseUpdateModel | CasePurchaseApiKey => 2
    | _ => 1
    end in
  let congestionFactor := u64 congestion in
  let congestionFactor := if 10 <? congestionFactor then 10 else congestionFactor in
  let baseFee := BaseFee +! (baseComplexity *! FeeMultiplier) +! congestionFactor in
  let baseFee :=
    if 0 <? nd_TokenSupply bc then
      if nd_TokenSupply bc <? 1000000 then baseFee +! 2
      else if 10000000 <? nd_TokenSupply bc then baseFee -! 1
      else baseFee
    else baseFee in
  if isAITransaction (tx_TxType tx) && agents_active bc then
    baseFee +! u64_of_f64 (agent_ratio bc)
  else baseFee.

(** ** Reversals *)

(** Reading a nil map finds nothing. *)
Definition pending_reversal (bc : Blockchain) (id : string) : option PendingReversal :=
  nd_PendingReversals bc ≫= λ m, m !! id.
Definition irreversible (bc : Blockchain) (id : string) : bool :=
  match nd_IrreversibleTxs bc with Some s => bool_decide (id ∈ s) | None => false end.

Definition findOriginalTransaction (bc : Blockchain) (txID : string) : option Transaction :=
  list_find (λ tx, tx_ID tx = txID) (mjoin (blk_Transactions <$> nd_Chain bc)) ≫= λ p, Some p.2.

Definition validateRequestReversal (bc : Blockchain) (tx : Transaction) : bool :=
  if (tx_Amount tx =? 0) || bool_decide (tx_Payload tx = "") then false else
  if irreversible bc (tx_Payload tx) then false else
  match findOriginalTransaction bc (tx_Payload tx) with
  | None => false
  | Some original =>
      if negb (bool_decide (tx_From original = tx_From tx)) ||
         negb (bool_decide (tx_To original = tx_To tx)) ||
         negb (tx_Amount original =? tx_Amount tx) then false else
      if negb (bool_decide (tx_TxType original = Transfer)) then false else
      match nd_Ledger bc !! tx_To tx with
      | None => false
      | Some receiver =>
          if acc_Balance receiver <? tx_Amount tx then false else
          match pending_reversal bc (tx_Payload tx) with Some _ => false | None => true end
      end
  end.

Definition validateConfirmReversal (bc : Blockchain) (tx : Transaction) : bool :=
  if bool_decide (tx_Payload tx = "") then false else
  match pending_reversal bc (tx_Payload tx) with
  | None => false
  | Some reversal =>
      if negb (bool_decide (rev_Status reversal = "requested")) then false else
      if negb (bool_decide (rev_To reversal = tx_From tx)) then false else true
  end.

Definition validateCommitReversal (bc : Blockchain) (tx : Transaction) : bool :=
  if bool_decide (tx_Payload tx = "") then false else
  match pending_reversal bc (tx_Payload tx) with
  | None => false
  | Some reversal =>
      if negb (bool_decide (rev_Status reversal = "confirmed")) then false else
      if negb (bool_decide (rev_From reversal = tx_From tx)) &&
         negb (bool_decide (rev_To reversal = tx_From tx)) then false else true
  end.

Section chain.
Context `{Runtime} `{Ed25519}.

(** ** Transactions and blocks *)

(** [time.Unix(ts, 0).Before(now.Add(-10*time.Minute))]: the seconds are kept
    from the year 1 in an [int64]. *)
Definition stale (ts now : Z) : bool :=
  (i64 (ts + 62135596800) - 62135596800) * 10 ^ 9 <? now - 600 * 10 ^ 9.

(** The checks after the clock was read. *)
Definition sender_ok (bc : Blockchain) (tx : Transaction) : bool :=
  match nd_Ledger bc !! tx_From tx with
  | None => false
  | Some sender =>
      if negb (bool_decide (tx_From tx = tx_To tx)) && (tx_Amount tx =? 0) then false else
      if isAITransaction (tx_TxType tx) && (acc_Balance sender <? AgentMinBalance) then false else
      match switch_tx (tx_TxType tx) with
      | CaseTransfer =>
          match nd_Ledger bc !! tx_To tx with
          | Some _ => tx_Amount tx <=? acc_Balance sender
          | None => false
          end
      | CaseRegisterModel =>
          acc_IsAgent sender && negb (bool_decide (is_Some (nd_Registry bc !! tx_To tx))) &&
          (AIModelStake <=? acc_Staked sender)
      | CaseUpdateModel =>
          match nd_Registry bc !! tx_To tx with
          | Some entry =>
              bool_decide (mdl_Owner entry = tx_From tx) && (AIModelStake <=? acc_Staked sender)
          | None => false
          end
      | CasePurchaseApiKey =>
          match nd_Registry bc !! tx_To tx with
          | Some entry => (tx_Amount tx <=? acc_Balance sender) && mdl_Active entry
          | None => false
          end
      | CaseRequestReversal => validateRequestReversal bc tx
      | CaseConfirmReversal => validateConfirmReversal bc tx
      | CaseCommitReversal => validateCommitReversal bc tx
      | CaseDefault => false
      end
  end.

Definition validateTransaction (bc : Blockchain) (tx : Transaction) : bool * Blockchain :=
  if negb (bool_decide (tx_ChainID tx = nd_ChainID bc)) then (false, bc) else
  if negb (VerifyTransaction tx) then (false, bc) else
  if isReplay bc tx then (false, bc) else
  if tx_Timestamp tx =? 0 then (false, bc) else
  let '(now, bc) := UnixNano bc in
  if stale (tx_Timestamp tx) now then (false, bc) else (sender_ok bc tx, bc).

Fixpoint validate_txs (bc : Blockchain) (seen : gset string) (txs : list Transaction)
    : outcome unit * Blockchain :=
  match txs with
  | [] => (Ok tt, bc)
  | tx :: txs =>
      if bool_decide (tx_ID tx = "") then (Err "missing transaction id", bc) else
      if bool_decide (tx_ID tx ∈ seen) then (Err "duplicate transaction", bc) else
      let '(valid, bc) := validateTransaction bc tx in
      if negb valid then (Err "invalid transaction", bc) else
      validate_txs bc ({[tx_ID tx]} ∪ seen) txs
  end.

Definition validateBlock (bc : Blockchain) (block prev : Block) : outcome unit * Blockchain :=
  if negb (blk_Index block =? blk_Index prev +! 1) then (Err "invalid index", bc) else
  if negb (bool_decide (blk_PreviousHash block = blk_BlockHash prev)) then
    (Err "invalid previous hash", bc) else
  if bool_decide (blk_BlockHash block = "") then (Err "missing block hash", bc) else
  if negb (bool_decide (calculateHash block = blk_BlockHash block)) then
    (Err "invalid block hash", bc) else
  validate_txs bc ∅ (blk_Transactions block).

Fixpoint validate_links (bc : Blockchain) (prev : Block) (chain : list Block)
    : outcome unit * Blockchain :=
  match chain with
  | [] => (Ok tt, bc)
  | block :: chain =>
      match validateBlock bc block prev with
      | (Ok _, bc) => validate_links bc block chain
      | (e, bc) => (e, bc)
      end
  end.

Definition validateChain (bc : Blockchain) (chain : list Block) : outcome unit * Blockchain :=
  match chain with
  | [] => (Err "empty chain", bc)
  | genesis :: rest =>
      if negb (blk_Index genesis =? 0) then (Err "invalid genesis", bc)
      else validate_links bc genesis rest
  end.

Definition replaceChain (bc : Blockchain) (newChain : list Block) : bool * Blockchain :=
  match validateChain bc newChain with
  | (Ok _, bc) =>
      if blen newChain <=? blen (nd_Chain bc) then (false, bc) else
      let bc := bc <| nd_Chain := newChain |> in
      let bc := appendAuditEntry bc "chain_replaced" "network"
                  ("height=" +:+ FormatInt (blen newChain)) in
      (true, (saveToDisk bc).2)
  | (_, bc) => (false, bc)
  end.

(** ** Applying blocks *)

Definition move (from to : string) (amount : Z) (bc : Blockchain) : Blockchain :=
  on_account (credit amount) to (on_account (debit amount) from bc).

Definition can_pay (bc : Blockchain) (from to : string) (amount : Z) : bool :=
  match nd_Ledger bc !! from, nd_Ledger bc !! to with
  | Some sender, Some _ => amount <=? acc_Balance sender
  | _, _ => false
  end.

Definition apply_tx (bc : Blockchain) (tx : Transaction) : Blockchain :=
  match switch_tx (tx_TxType tx) with
  | CaseTransfer =>
      if can_pay bc (tx_From tx) (tx_To tx) (tx_Amount tx)
      then move (tx_From tx) (tx_To tx) (tx_Amount tx) bc else bc
  | CaseRegisterModel =>
      let bc :=
        match nd_Ledger bc !! tx_From tx with
        | Some staker =>
            if AIModelStake <=? acc_Balance staker
            then on_account (lock_stake AIModelStake) (tx_From tx) bc else bc
        | None => bc
        end in
      let cid := model_cid (tx_To tx) (tx_From tx) (tx_Payload tx) in
      bc <| nd_Registry ::= <[tx_To tx := mkModelRef (tx_To tx) (tx_From tx) cid true (tx_Amount tx)]> |>
  | CaseUpdateModel =>
      let entry := default zero_ModelRef (nd_Registry bc !! tx_To tx) in
      let cid := model_cid (tx_To tx) (tx_From tx) (tx_Payload tx) in
      bc <| nd_Registry ::=
        <[tx_To tx := entry <| mdl_CID := cid |> <| mdl_PricePerCall := tx_Amount tx |>]> |>
  | CasePurchaseApiKey =>
      let entry := default zero_ModelRef (nd_Registry bc !! tx_To tx) in
      if can_pay bc (tx_From tx) (mdl_Owner entry) (tx_Amount tx)
      then move (tx_From tx) (mdl_Owner entry) (tx_Amount tx) bc else bc
  | _ => bc
  end.

Definition process_reversal (bc : Blockchain) (tx : Transaction) : outcome unit * Blockchain :=
  match switch_tx (tx_TxType tx) with
  | CaseRequestReversal =>
      match pending_reversal bc (tx_Payload tx), nd_PendingReversals bc with
      | Some _, _ => (Ok tt, bc)
      | None, None => (Panic "assignment to entry in nil map", bc)
      | None, Some m =>
          let r := mkPendingReversal (tx_ID tx) (tx_Payload tx) (tx_From tx) (tx_To tx)
                     (tx_Amount tx) (tx_From tx) "" "requested" false in
          let bc := bc <| nd_PendingReversals := Some (<[tx_Payload tx := r]> m) |> in
          (Ok tt, appendAuditEntry bc "reversal_requested" (tx_From tx)
            ("original_tx=" +:+ tx_Payload tx +:+ " amount=" +:+ FormatInt (tx_Amount tx)))
      end
  | CaseConfirmReversal =>
      match pending_reversal bc (tx_Payload tx) with
      | None => (Ok tt, bc)
      | Some reversal =>
          if bool_decide (rev_Status reversal = "requested") then
            let reversal := reversal <| rev_Status := "confirmed" |>
                                     <| rev_Confirmer := tx_From tx |> in
            let bc := bc <| nd_PendingReversals ::= fmap (M:=option) <[tx_Payload tx := reversal]> |> in
            (Ok tt, appendAuditEntry bc "reversal_confirmed" (tx_From tx)
              ("original_tx=" +:+ tx_Payload tx))
          else (Ok tt, bc)
      end
  | CaseCommitReversal =>
      match pending_reversal bc (tx_Payload tx) with
      | None => (Ok tt, bc)
      | Some reversal =>
          if bool_decide (rev_Status reversal = "confirmed") &&
             can_pay bc (rev_To reversal) (rev_From reversal) (rev_Amount reversal) then
            let bc := move (rev_To reversal) (rev_From reversal) (rev_Amount reversal) bc in
            let bc := bc <| nd_PendingReversals ::= fmap (M:=option) (delete (tx_Payload tx)) |> in
            (Ok tt, appendAuditEntry bc "reversal_committed" (tx_From tx)
              ("original_tx=" +:+ tx_Payload tx +:+ " amount=" +:+ FormatInt (rev_Amount reversal)))
          else (Ok tt, bc)
      end
  | _ => (Ok tt, bc)
  end.

Fixpoint process_reversals (bc : Blockchain) (txs : list Transaction) : outcome unit * Blockchain :=
  match txs with
  | [] => (Ok tt, bc)
  | tx :: txs =>
      match process_reversal bc tx with
      | (Ok _, bc) => process_reversals bc txs
      | (e, bc) => (e, bc)
      end
  end.

Definition ProcessReversals (bc : Blockchain) (block : Block) : outcome unit * Blockchain :=
  process_reversals bc (blk_Transactions block).

Definition applyBlock (bc : Blockchain) (block : Block) : outcome unit * Blockchain :=
  ProcessReversals (foldl apply_tx bc (blk_Transactions block)) block.

(** ** The pool *)

Definition SubmitTransaction (bc : Blockchain) (tx : Transaction) : Blockchain :=
  let next := next_nonce bc (tx_From tx) in
  if tx_Nonce tx <? next then
    appendAuditEntry bc "transaction_rejected" (tx_From tx)
      ("tx_id=" +:+ tx_ID tx +:+ " nonce=" +:+ FormatInt (tx_Nonce tx) +:+
       " expected=" +:+ FormatInt next)
  else
    let bc := bc <| nd_Pending ::= λ l, l ++ [tx] |> in
    appendAuditEntry bc "transaction_submitted" (tx_From tx)
      ("tx_id=" +:+ tx_ID tx +:+ " nonce=" +:+ FormatInt (tx_Nonce tx)).

Definition with_ID (bc : Blockchain) (tx : Transaction) : Transaction * Blockchain :=
  if bool_decide (tx_ID tx = "") then
    let '(now, bc) := UnixNano bc in (tx <| tx_ID := "tx-" +:+ FormatInt now |>, bc)
  else (tx, bc).

Definition with_nonce (bc : Blockchain) (tx : Transaction) : Transaction :=
  if tx_Nonce tx =? 0 then tx <| tx_Nonce := next_nonce bc (tx_From tx) |> else tx.

Definition enqueue (bc : Blockchain) (tx : Transaction) : Blockchain :=
  if isReplay bc tx then
    appendAuditEntry bc "transaction_rejected" (tx_From tx)
      ("tx_id=" +:+ tx_ID tx +:+ " nonce=" +:+ FormatInt (tx_Nonce tx))
  else
  match list_find (same_pending tx) (nd_Pending bc) with
  | Some (i, pending) =>
      if tx_Fee pending <? tx_Fee tx then
        let bc := bc <| nd_Pending ::= <[i := tx]> |> in
        appendAuditEntry bc "transaction_replaced" (tx_From tx) ("tx_id=" +:+ tx_ID tx)
      else bc
  | None =>
      let queued bc :=
        appendAuditEntry bc "transaction_queued" (tx_From tx)
          ("tx_id=" +:+ tx_ID tx +:+ " fee=" +:+ FormatInt (tx_Fee tx)) in
      if 5000 <=? u64 (blen (nd_Pending bc)) then
        let i := lowestFeeIdx (nd_Pending bc) in
        match nd_Pending bc !! i with
        | Some lowest =>
            if tx_Fee tx <=? tx_Fee lowest then bc
            else queued (bc <| nd_Pending ::= <[i := tx]> |>)
        | None => bc
        end
      else queued (bc <| nd_Pending ::= λ l, l ++ [tx] |>)
  end.

Definition EnqueueTransaction (bc : Blockchain) (tx : Transaction) : Blockchain :=
  let '(tx, bc) := with_ID bc tx in
  enqueue bc (with_nonce bc tx).

(** ** The author *)

Definition validator_at (bc : Blockchain) (address : string) : Validator :=
  default zero_Validator (nd_Validators bc !! address).

Definition pubkey_less (bc : Blockchain) (x y : string) : bool :=
  let left := validator_at bc x in
  let right := validator_at bc y in
  if val_Stake left =? val_Stake right then string_lt x y
  else val_Stake right <? val_Stake left.

Definition selectValidatorPubKey (bc : Blockchain) : string * Blockchain :=
  let candidates := map fst (filter (λ p, staked_validator p.2 = true)
                               (range_map (nd_ticks bc) (nd_Validators bc))) in
  let bc := tick bc in
  match candidates with
  | [] => ("", bc)
  | _ =>
      match sort_Slice (nd_ticks bc) (pubkey_less bc) candidates with
      | [] => ("", tick bc)
      | c :: _ => (val_PublicKey (validator_at bc c), tick bc)
      end
  end.

Definition candidate_less (bc : Blockchain) (x y : string) : bool :=
  let left := validator_at bc x in
  let right := validator_at bc y in
  if val_Stake left =? val_Stake right then
    if val_Performance left =? val_Performance right then string_lt x y
    else val_Performance right <? val_Performance left
  else val_Stake right <? val_Stake left.

Definition candidates (bc : Blockchain) : list string * Blockchain :=
  let c := map fst (filter (λ p, staked_validator p.2 = true)
                      (range_map (nd_ticks bc) (nd_Validators bc))) in
  let bc := tick bc in
  match c with
  | _ :: _ => (c, bc)
  | [] =>
      let c := map fst (filter (λ p, 0 < acc_Staked p.2) (range_map (nd_ticks bc) (nd_Ledger bc))) in
      let bc := tick bc in
      match c with
      | _ :: _ => (c, bc)
      | [] => (map fst (range_map (nd_ticks bc) (nd_Ledger bc)), tick bc)
      end
  end.

Definition selectValidator (bc : Blockchain) : string * Blockchain :=
  let round_robin (l : list string) (bc : Blockchain) :=
    let idx := (nd_validatorIdx bc + 1) mod blen l in
    (nth (Z.to_nat idx) l "", bc <| nd_validatorIdx := idx |>) in
  if bool_decide (nd_Consensus bc = ProofOfAuthority) then
    match nd_Authorities bc with
    | [] => ("authority", bc)
    | l => round_robin l bc
    end
  else
    let '(c, bc) := candidates bc in
    match c with
    | [] => ("validator", bc)
    | _ => round_robin (sort_Slice (nd_ticks bc) (candidate_less bc) c) (tick bc)
    end.

Definition isActiveValidatorPubKey (bc : Blockchain) (pubKey : string) : bool :=
  existsb (λ p, staked_validator p.2 && bool_decide (val_PublicKey p.2 = pubKey))
    (map_to_list (nd_Validators bc)).

(** ** Proof of work and difficulty *)

Definition proofOfWork (fuel : nat) (bc : Blockchain) (block : Block) : option Block :=
  target ← pow_target (nd_Difficulty bc);
  pow_search fuel target block.

(** [time.Duration] saturates at 2^63 nanoseconds, which does not change the
    comparisons with the block time. *)
Definition adjustDifficulty (bc : Blockchain) : Blockchain :=
  if blen (nd_Chain bc) <? 2 then bc else
  match nd_Chain bc !! pred (length (nd_Chain bc)),
        nd_Chain bc !! pred (pred (length (nd_Chain bc))) with
  | Some last, Some prev =>
      let actualTime := (blk_Timestamp last - blk_Timestamp prev) * 10 ^ 9 in
      if (actualTime <? nd_BlockTime bc) && (nd_Difficulty bc <? 64) then
        bc <| nd_Difficulty ::= λ d, u32 (d + 1) |>
      else if (nd_BlockTime bc * 2 <? actualTime) && (0 <? nd_Difficulty bc) then
        bc <| nd_Difficulty ::= λ d, u32 (d - 1) |>
      else bc
  | _, _ => bc
  end.

(** ** Mining *)

Definition on_metrics (f : serverMetrics → serverMetrics) (bc : Blockchain) : Blockchain :=
  bc <| nd_metrics ::= f |>.

Definition credit_community (amount : Z) (bc : Blockchain) : Blockchain :=
  match nd_Ledger bc !! CommunityFundAddress with
  | Some _ => on_account (credit amount) CommunityFundAddress bc
  | None => bc <| nd_Ledger ::= <[CommunityFundAddress :=
                   mkAccount CommunityFundAddress amount 0 false]> |>
  end.

Definition burn_rate (bc : Blockchain) (tx : Transaction) : Z :=
  if isAITransaction (tx_TxType tx) && agents_active bc
  then BurnRatePercent +! AIBurnScaling else BurnRatePercent.

Definition charge_fee (bc : Blockchain) (tx : Transaction) : Blockchain :=
  if 0 <? tx_Fee tx then
    let totalBurn := (tx_Fee tx *! burn_rate bc tx) `div` 100 in
    let permanentBurn := (totalBurn *! 70) `div` 100 in
    let communityFund := totalBurn -! permanentBurn in
    let permanentBurn := if nd_TokenSupply bc <? permanentBurn then nd_TokenSupply bc
                         else permanentBurn in
    let bc := bc <| nd_TokenSupply ::= λ s, s -! permanentBurn |> in
    credit_community communityFund bc
  else bc.

Definition include_tx (n : Z) (acc : Blockchain * list Transaction) (tx : Transaction)
    : Blockchain * list Transaction :=
  let '(bc, txs) := acc in
  let '(valid, bc) := validateTransaction bc tx in
  if negb valid then (bc, txs) else
  if tx_Fee tx <? estimateFee bc tx n then
    (on_metrics (λ m, m <| sm_txRejected ::= λ c, i64 (c + 1) |>) bc, txs)
  else
    let bc := charge_fee bc tx in
    let bc := markTransactionSeen bc tx in
    (on_metrics (λ m, m <| sm_txAccepted ::= λ c, i64 (c + 1) |>) bc, txs ++ [tx]).

Definition select_txs (bc : Blockchain) : Blockchain * list Transaction :=
  let pending := sort_Slice (nd_ticks bc) pending_less (nd_Pending bc) in
  foldl (include_tx (blen pending)) (tick bc, []) pending.

Definition seal_block (fuel : nat) (bc : Blockchain) (minerAddress : string) (block : Block)
    : option Block :=
  if bool_decide (minerAddress = "") || bool_decide (nd_Consensus bc = ProofOfWork)
  then proofOfWork fuel bc block
  else Some (block <| blk_BlockHash := calculateHash block |>).

(** [account.Balance += reward; bc.TokenSupply += reward], below the maximal
    supply and for a known account. *)
Definition pay_author (author : string) (reward : Z) (bc : Blockchain) : Blockchain :=
  if nd_TokenSupply bc +! reward <=? MaxSupply then
    match nd_Ledger bc !! author with
    | Some _ => (on_account (credit reward) author bc) <| nd_TokenSupply ::= λ s, s +! reward |>
    | None => bc
    end
  else bc.

Definition count_mined (bc : Blockchain) : Blockchain :=
  on_metrics (λ m, m <| sm_blocksMined ::= λ c, i64 (c + 1) |>) bc.

(** [applyBlock], the appended block and the emptied pool. *)
Definition extend (bc : Blockchain) (block : Block) : outcome unit * Blockchain :=
  match applyBlock bc block with
  | (Ok _, bc) =>
      let bc := bc <| nd_Chain ::= λ l, l ++ [block] |> <| nd_Pending := [] |> in
      (Ok tt, adjustDifficulty bc)
  | (e, bc) => (e, bc)
  end.

Definition commit_mined (bc : Blockchain) (block : Block) (author : string)
    : outcome Block * Blockchain :=
  let reward := BlockReward (blk_Index block) in
  match extend (pay_author author reward bc) block with
  | (Ok _, bc) =>
      let bc := distributeRewards bc in
      let bc := if 0 <? nd_AgentTxCount bc then treasuryBuyback bc else bc in
      let bc := appendAuditEntry bc "block_mined" author
        ("index=" +:+ FormatInt (blk_Index block) +:+ " txs=" +:+
         FormatInt (blen (blk_Transactions block)) +:+ " miner=" +:+ author +:+
         " reward=" +:+ FormatInt reward) in
      match saveToDisk (count_mined bc) with
      | (Ok _, bc) => (Ok block, bc)
      | (Err e, bc) => (Err e, bc)
      | (Panic e, bc) => (Panic e, bc)
      end
  | (Err e, bc) => (Err e, bc)
  | (Panic e, bc) => (Panic e, bc)
  end.

Definition minting_paused (bc : Blockchain) : bool * Blockchain :=
  if nd_MintPaused bc && (0 <? nd_MintPauseUntil bc) then
    let '(now, bc) := Unix bc in (now <? nd_MintPauseUntil bc, bc)
  else (false, bc).

Definition assemble (bc : Blockchain) (prevHash minerAddress : string) : Blockchain * Block :=
  let '(author, bc) := selectValidator bc in
  let author := if bool_decide (minerAddress = "") then author else minerAddress in
  let '(now, bc) := Unix bc in
  let index := u64 (blen (nd_Chain bc)) in
  let '(bc, txs) := select_txs bc in
  (bc, mkBlock index author author prevHash now txs 0 "" "").

Definition MineBlockFor (fuel : nat) (bc : Blockchain) (minerAddress : string)
    : option (outcome Block * Blockchain) :=
  let '(paused, bc) := minting_paused bc in
  if paused : bool then Some (Err "minting is currently paused", bc) else
  let bc := match nd_Chain bc with [] => createGenesisBlock bc | _ => bc end in
  match last (nd_Chain bc) with
  | None => Some (Panic "index out of range", bc)
  | Some prev =>
      let '(bc, block) := assemble bc (blk_BlockHash prev) minerAddress in
      block ← seal_block fuel bc minerAddress block;
      match validateBlock bc block prev with
      | (Ok _, bc) => Some (commit_mined bc block (blk_Author block))
      | (Err e, bc) => Some (Err e, bc)
      | (Panic e, bc) => Some (Panic e, bc)
      end
  end.

Definition MineBlock (fuel : nat) (bc : Blockchain) : option (outcome Block * Blockchain) :=
  MineBlockFor fuel bc "".

Definition SubmitMinedBlock (bc : Blockchain) (block : Block) : outcome unit * Blockchain :=
  match last (nd_Chain bc) with
  | None => (Err "invalid block index", bc)
  | Some prev =>
      if negb (blk_Index block =? u64 (blen (nd_Chain bc))) then (Err "invalid block index", bc) else
      if negb (bool_decide (blk_PreviousHash block = blk_BlockHash prev)) then
        (Err "invalid previous hash", bc) else
      if negb (bool_decide (calculateHash block = blk_BlockHash block)) then
        (Err "invalid block hash", bc) else
      match validateBlock bc block prev with
      | (Err e, bc) | (Panic e, bc) => (Err ("invalid block transactions: " +:+ e), bc)
      | (Ok _, bc) =>
          let author := if bool_decide (blk_Author block = "") then blk_MinerAddress block
                        else blk_Author block in
          if bool_decide (author = "") then (Err "missing miner address", bc) else
          let reward := BlockReward (blk_Index block) in
          match extend (pay_author author reward bc) block with
          | (Ok _, bc) =>
              let bc := appendAuditEntry bc "block_submitted" author
                ("index=" +:+ FormatInt (blk_Index block) +:+ " txs=" +:+
                 FormatInt (blen (blk_Transactions block)) +:+ " reward=" +:+ FormatInt reward) in
              saveToDisk (count_mined bc)
          | (e, bc) => (e, bc)
          end
      end
  end.
End chain.
