(* ===== verification/NodeLedger.v ===== *)
(** * The node program: ledger, rewards, state messages, disk (go-chain/main.go)

    Theorems on [Node] and [NodeChain]: applying blocks conserves the holdings,
    also when it panics; the block reward decays within its bounds; a state
    message of a peer replaces the accounts it names; a restart keeps the longest
    chain of blocks that follow each other. *)

From S2P Require Import Prelude Runtime Float64 Text Sha256 Domain Json Merkle Tendermint State Accounts Validation Mempool Mining Node NodeChain.
Open Scope Z_scope.
Open Scope go_scope.

Implicit Types (bc : Blockchain) (tx : Transaction) (block : Block) (m : gmap string Account).

Section ledger.
Context `{Runtime}.

(** ** Blocks conserve holdings *)

Definition reversals_ok bc : Prop :=
  ∀ id r, pending_reversal bc id = Some r → is_u64 (rev_Amount r).

Lemma appendAuditEntry_ledger bc e a d : nd_Ledger (appendAuditEntry bc e a d) = nd_Ledger bc.
Proof. done. Qed.

Lemma can_pay_moves_nothing bc from to amount :
  sound_ledger (nd_Ledger bc) → 0 ≤ amount → can_pay bc from to amount = true →
  moves_nothing (nd_Ledger bc) (nd_Ledger (move from to amount bc)).
Proof.
  intros Hm Hn Hpay. unfold can_pay in Hpay. inv_cases Hpay. prop_bools.
  eapply sound_ledger_move; [done..| |]; eauto.
Qed.

Lemma apply_tx_moves_nothing bc tx :
  sound_ledger (nd_Ledger bc) → is_u64 (tx_Amount tx) →
  moves_nothing (nd_Ledger bc) (nd_Ledger (apply_tx bc tx)).
Proof.
  intros Hm [Hn _]. pose proof (moves_nothing_refl _ Hm) as Hr. unfold apply_tx.
  destruct (switch_tx (tx_TxType tx)); try done.
  - destruct (can_pay _ _ _ _) eqn:E; [by apply can_pay_moves_nothing|done].
  - destruct (nd_Ledger bc !! tx_From tx) as [a|] eqn:Ea; [|done].
    destruct (AIModelStake <=? acc_Balance a) eqn:Eb; prop_bools; [|done].
    eapply moves_nothing_lock; [done..|]. unfold AIModelStake, HogohogoPerTender in *. lia.
  - cbv zeta. destruct (can_pay _ _ _ _) eqn:E; [by apply can_pay_moves_nothing|done].
Qed.

Lemma apply_tx_reversals bc tx : nd_PendingReversals (apply_tx bc tx) = nd_PendingReversals bc.
Proof. unfold apply_tx. cbv zeta. by repeat case_match. Qed.

Lemma reversals_ok_map bc rm :
  nd_PendingReversals bc = Some rm →
  reversals_ok bc ↔ map_Forall (λ _ r, is_u64 (rev_Amount r)) rm.
Proof. intros E. unfold reversals_ok, pending_reversal. by rewrite E. Qed.

Lemma process_reversal_keeps bc tx :
  sound_ledger (nd_Ledger bc) → reversals_ok bc → is_u64 (tx_Amount tx) →
  moves_nothing (nd_Ledger bc) (nd_Ledger (process_reversal bc tx).2) ∧
  reversals_ok (process_reversal bc tx).2.
Proof.
  intros Hm Hr Hn. pose proof (moves_nothing_refl _ Hm) as Hrefl. unfold process_reversal.
  destruct (nd_PendingReversals bc) as [rm|] eqn:Em; cycle 1.
  { unfold pending_reversal. rewrite Em. by destruct (switch_tx (tx_TxType tx)). }
  pose proof (proj1 (reversals_ok_map bc rm Em) Hr) as Hrm.
  assert (∀ id, pending_reversal bc id = rm !! id) as Ep
    by (intros; unfold pending_reversal; by rewrite Em).
  destruct (switch_tx (tx_TxType tx)); rewrite ?Ep; try done;
    destruct (rm !! tx_Payload tx) as [r|] eqn:Er; try done.
  - split; [done|]. eapply reversals_ok_map; [done|]. by apply map_Forall_insert_2.
  - case_bool_decide; [|done]. split; [done|].
    eapply reversals_ok_map; [cbn; by rewrite Em|]. apply map_Forall_insert_2; [|done].
    exact (Hrm _ _ Er).
  - destruct (_ && _) eqn:Ec; [|done]. prop_bools. split.
    + apply can_pay_moves_nothing; [done| |done]. by destruct (Hrm _ _ Er).
    + eapply reversals_ok_map; [cbn; by rewrite Em|]. by apply map_Forall_delete.
Qed.

(** Applying a block, whether it succeeds or panics half way, keeps the ledger
    sound and creates and destroys no tokens. *)
Lemma applyBlock_keeps bc block :
  sound_ledger (nd_Ledger bc) → reversals_ok bc →
  Forall (λ tx, is_u64 (tx_Amount tx)) (blk_Transactions block) →
  moves_nothing (nd_Ledger bc) (nd_Ledger (applyBlock bc block).2) ∧
  reversals_ok (applyBlock bc block).2.
Proof.
  intros Hm Hr Htx. unfold applyBlock, ProcessReversals. set (txs := blk_Transactions block) in *.
  assert (moves_nothing (nd_Ledger bc) (nd_Ledger (foldl apply_tx bc txs)) ∧
          reversals_ok (foldl apply_tx bc txs)) as [Ha Hra].
  { apply (foldl_inv (λ b, moves_nothing (nd_Ledger bc) (nd_Ledger b) ∧ reversals_ok b)).
    - intros b tx Hin [[Hs Hh] Hrb]. rewrite Forall_forall in Htx.
      destruct (apply_tx_moves_nothing b tx Hs (Htx tx Hin)) as [Hs' Hh'].
      split; [split; [done|congruence]|]. intros id r. unfold pending_reversal.
      rewrite apply_tx_reversals. apply Hrb.
    - split; [by apply moves_nothing_refl|done]. }
  destruct Ha as [Hs Hh]. revert Hra Hs Hh. generalize (foldl apply_tx bc txs). clear Hm Hr.
  induction Htx as [|tx l Hn _ IH]; intros b Hrb Hs Hh; [done|]. cbn [process_reversals].
  destruct (process_reversal_keeps b tx Hs Hrb Hn) as [[Hs' Hh'] Hr'].
  destruct (process_reversal b tx) as [[[]|e|e] b']; cbn [snd] in *;
    [apply IH; [done..|congruence]| |]; (split; [split; [done|congruence]|done]).
Qed.

Definition total_holdings bc : Z := holdings (nd_Ledger bc).

(** C21. From a ledger whose accounts are in range and whose total is below 2^64, with
    pending reversals and transactions of [uint64] amounts: however many blocks a node
    applies, in whatever order and whether or not some of them panic on the missing
    reversal table, the ledger stays so and the total of all balances and stakes does
    not change. *)
Theorem node_blocks_conserve bc blocks :
  sound_ledger (nd_Ledger bc) → reversals_ok bc →
  Forall (λ b, Forall (λ tx, is_u64 (tx_Amount tx)) (blk_Transactions b)) blocks →
  let bc' := foldl (λ b block, (applyBlock b block).2) bc blocks in
  sound_ledger (nd_Ledger bc') ∧ total_holdings bc' = total_holdings bc.
Proof.
  intros Hm Hr Hb bc'. unfold bc', total_holdings. rewrite Forall_forall in Hb.
  assert (moves_nothing (nd_Ledger bc) (nd_Ledger bc') ∧ reversals_ok bc') as [[??] _]; [|done].
  apply (foldl_inv (λ b, moves_nothing (nd_Ledger bc) (nd_Ledger b) ∧ reversals_ok b)).
  - intros b block Hin [[Hs Hh] Hrb].
    destruct (applyBlock_keeps b block Hs Hrb (Hb block Hin)) as [[??] ?].
    split; [split; [done|congruence]|done].
  - split; [by apply moves_nothing_refl|done].
Qed.

(** ** The block reward *)

Lemma decay_step bonus : 1 < bonus ≤ 80 → 0 < (bonus *! AlucardDecayFactor) `div` 100 < bonus.
Proof.
  intros Hb. unfold AlucardDecayFactor. rewrite u64_small by u64_lia.
  split; [apply Z.div_str_pos; lia|]. apply Z.div_lt_upper_bound; lia.
Qed.

(** The cut-off of the loop is never reached: more rounds change nothing. *)
Lemma decay_bonus_enough n k era bonus :
  0 < bonus ≤ 80 → bonus ≤ Z.of_nat n → decay_bonus (n + k) era bonus = decay_bonus n era bonus.
Proof.
  revert era bonus. induction n as [|n IH]; intros era bonus Hb Hn; [lia|]. cbn [decay_bonus Nat.add].
  destruct ((0 <? era) && (1 <? bonus)) eqn:E; [|done]. prop_bools.
  pose proof (decay_step bonus ltac:(lia)). apply IH; lia.
Qed.

Lemma decay_bonus_bounds n era bonus :
  0 < bonus ≤ 80 → 0 < decay_bonus n era bonus ≤ bonus.
Proof.
  revert era bonus. induction n as [|n IH]; intros era bonus Hb; cbn [decay_bonus]; [lia|].
  destruct ((0 <? era) && (1 <? bonus)) eqn:E; [|lia]. prop_bools.
  pose proof (decay_step bonus ltac:(lia)). specialize (IH (era - 1) ((bonus *! AlucardDecayFactor) `div` 100)). lia.
Qed.

(** A later era pays no more. *)
Lemma decay_bonus_antitone n era era' bonus :
  0 < bonus ≤ 80 → era ≤ era' → decay_bonus n era' bonus ≤ decay_bonus n era bonus.
Proof.
  revert era era' bonus. induction n as [|n IH]; intros era era' bonus Hb He; cbn [decay_bonus]; [lia|].
  destruct ((0 <? era) && (1 <? bonus)) eqn:E1, ((0 <? era') && (1 <? bonus)) eqn:E2;
    rewrite ?andb_true_iff, ?andb_false_iff, ?Z.ltb_lt, ?Z.ltb_ge in E1, E2; try lia.
  - pose proof (decay_step bonus ltac:(lia)). apply IH; lia.
  - pose proof (decay_step bonus ltac:(lia)).
    pose proof (decay_bonus_bounds n (era' - 1) ((bonus *! AlucardDecayFactor) `div` 100)). lia.
Qed.

(** One era more is one decay more. *)
Lemma decay_bonus_next n era bonus :
  0 < bonus ≤ 80 → bonus ≤ Z.of_nat n → 0 ≤ era →
  decay_bonus (S n) (era + 1) bonus =
  let x := decay_bonus n era bonus in if 1 <? x then (x * 70) `div` 100 else x.
Proof.
  revert era bonus. induction n as [|n IH]; intros era bonus Hb Hn He; [lia|].
  change (decay_bonus (S (S n)) (era + 1) bonus) with
    (if (0 <? era + 1) && (1 <? bonus)
     then decay_bonus (S n) (era + 1 - 1) ((bonus *! AlucardDecayFactor) `div` 100) else bonus).
  change (decay_bonus (S n) era bonus) with
    (if (0 <? era) && (1 <? bonus)
     then decay_bonus n (era - 1) ((bonus *! AlucardDecayFactor) `div` 100) else bonus).
  rewrite (proj2 (Z.ltb_lt 0 (era + 1))) by lia. cbn [andb].
  destruct (1 <? bonus) eqn:E; prop_bools; [|by rewrite andb_false_r, (proj2 (Z.ltb_ge 1 bonus))].
  pose proof (decay_step bonus ltac:(lia)) as Hs. rewrite andb_true_r.
  destruct (0 <? era) eqn:E0; prop_bools.
  - replace (era + 1 - 1) with (era - 1 + 1) by lia. apply IH; lia.
  - replace (era + 1 - 1) with 0 by lia. cbv zeta. rewrite (proj2 (Z.ltb_lt 1 bonus)) by lia.
    unfold AlucardDecayFactor. rewrite u64_small by u64_lia. reflexivity.
Qed.

Lemma BlockReward_eq h :
  0 ≤ h → BlockReward h = 20 + decay_bonus 80 (h `div` AlucardCycleBlocks) 80.
Proof.
  intros Hh. pose proof (decay_bonus_bounds 80 (h `div` AlucardCycleBlocks) 80).
  unfold BlockReward, AlucardBaseEmission, AlucardBonusStart.
  destruct (Z.eqb_spec h 0) as [->|]; [reflexivity|]. cbv zeta. rewrite u64_small by u64_lia. done.
Qed.

(** What a block pays above the base emission. *)
Definition block_bonus (h : Z) : Z := BlockReward h - AlucardBaseEmission.

(** The bonus above the base emission lies between 1 and 80 at every height,
    never rises from one height to a later one, and one era later is 70 percent of
    what it was, rounded down, until it reaches 1. *)
Theorem block_reward_decays h h' :
  0 ≤ h ≤ h' →
  1 ≤ block_bonus h' ≤ block_bonus h ≤ 80 ∧
  (h' = h + AlucardCycleBlocks → 1 < block_bonus h →
   block_bonus h' = (block_bonus h * 70) `div` 100).
Proof.
  intros Hh. unfold block_bonus, AlucardBaseEmission. rewrite !BlockReward_eq by lia.
  pose proof (decay_bonus_bounds 80 (h `div` AlucardCycleBlocks) 80).
  pose proof (decay_bonus_bounds 80 (h' `div` AlucardCycleBlocks) 80).
  assert (h `div` AlucardCycleBlocks ≤ h' `div` AlucardCycleBlocks)
    by (apply Z.div_le_mono; unfold AlucardCycleBlocks; lia).
  pose proof (decay_bonus_antitone 80 (h `div` AlucardCycleBlocks) (h' `div` AlucardCycleBlocks) 80).
  split_and!; try lia. intros -> Hlt.
  replace ((h + AlucardCycleBlocks) `div` AlucardCycleBlocks) with (h `div` AlucardCycleBlocks + 1)
    by (rewrite <- (Z.mul_1_l AlucardCycleBlocks) at 2; by rewrite Z.div_add).
  rewrite <- (decay_bonus_enough 80 1 _ 80) by lia.
  rewrite (decay_bonus_next 80) by (try apply Z.div_pos; unfold AlucardCycleBlocks in *; lia).
  cbv zeta. rewrite (proj2 (Z.ltb_lt _ _)) by lia.
  rewrite !Z.add_simpl_l. done.
Qed.

(** ** State messages *)

Definition synced (existing : option Account) (message : option (option Account)) : option Account :=
  match message with
  | Some (Some acct) =>
      Some (mkAccount (match existing with Some e => acc_Address e | None => acc_Address acct end)
              (acc_Balance acct) (acc_Staked acct) (acc_IsAgent acct))
  | _ => existing
  end.

Lemma sync_account_lookup bc addr acct k :
  nd_Ledger (sync_account bc (addr, acct)) !! k =
  synced (nd_Ledger bc !! k) (if bool_decide (k = addr) then Some acct else None).
Proof.
  unfold sync_account. destruct acct as [[ad bal st ag]|]; [|by case_bool_decide].
  destruct (nd_Ledger bc !! addr) as [[ad0 bal0 st0 ag0]|] eqn:E; case_bool_decide as Hk; try subst k.
  - cbn. by rewrite lookup_alter_eq, E.
  - cbn. by rewrite lookup_alter_ne by done.
  - rewrite E. cbn. by rewrite lookup_insert_eq.
  - cbn. by rewrite lookup_insert_ne by done.
Qed.

Lemma sync_accounts_lookup (l : list (string * option Account)) bc k :
  NoDup l.*1 →
  nd_Ledger (foldl sync_account bc l) !! k =
  synced (nd_Ledger bc !! k) ((list_to_map l : gmap string (option Account)) !! k).
Proof.
  revert bc. induction l as [|[addr acct] l IH]; intros bc Hnd; [done|].
  cbn in Hnd. apply NoDup_cons in Hnd as [Hni Hnd].
  change (foldl sync_account bc ((addr, acct) :: l))
    with (foldl sync_account (sync_account bc (addr, acct)) l).
  rewrite IH, sync_account_lookup by done. cbn [list_to_map foldr].
  change (list_to_map ((addr, acct) :: l)) with
    (<[addr := acct]> (list_to_map l : gmap string (option Account))).
  case_bool_decide as Hk.
  - subst k. rewrite lookup_insert_eq. by rewrite (not_elem_of_list_to_map_1 l addr Hni).
  - rewrite lookup_insert_ne by done. done.
Qed.

Lemma sync_account_frame bc e :
  nd_Authorities (sync_account bc e) = nd_Authorities bc ∧
  nd_TokenSupply (sync_account bc e) = nd_TokenSupply bc ∧ nd_Chain (sync_account bc e) = nd_Chain bc.
Proof. destruct e as [addr [acct|]]; [|done]. cbn. by destruct (nd_Ledger bc !! addr). Qed.

Lemma sync_accounts_frame l bc :
  nd_Authorities (foldl sync_account bc l) = nd_Authorities bc ∧
  nd_TokenSupply (foldl sync_account bc l) = nd_TokenSupply bc ∧
  nd_Chain (foldl sync_account bc l) = nd_Chain bc.
Proof.
  apply (foldl_inv (λ b, nd_Authorities b = nd_Authorities bc ∧
    nd_TokenSupply b = nd_TokenSupply bc ∧ nd_Chain b = nd_Chain bc)); [|done].
  intros b e _ (E1 & E2 & E3). destruct (sync_account_frame b e) as (-> & -> & ->). done.
Qed.

(** A state message decides the accounts it names, in whatever order it is
    traversed: balance, stake and kind become those of the message, accounts that
    do not exist are created, the others stay; a non-empty list of authorities
    and a positive supply replace those of the node.  The chain is not touched. *)
Theorem state_message_decides bc state :
  let bc' := applyLedgerState bc state in
  (∀ k, nd_Ledger bc' !! k = synced (nd_Ledger bc !! k) (ls_Ledger state !! k)) ∧
  (ls_Authorities state ≠ [] → nd_Authorities bc' = ls_Authorities state) ∧
  (0 < ls_TokenSupply state → nd_TokenSupply bc' = ls_TokenSupply state) ∧
  nd_Chain bc' = nd_Chain bc.
Proof.
  intros bc'. unfold bc', applyLedgerState. cbv zeta.
  set (l := range_map (nd_ticks bc) (ls_Ledger state)).
  destruct (sync_accounts_frame l (tick bc)) as (E1 & E2 & E3).
  set (b := foldl sync_account (tick bc) l) in *.
  assert (∀ k, nd_Ledger b !! k = synced (nd_Ledger bc !! k) (ls_Ledger state !! k)) as El.
  { intros k. pose proof (range_map_Permutation (nd_ticks bc) (ls_Ledger state)) as Hl.
    fold l in Hl. assert (NoDup l.*1) as Hnd by (rewrite Hl; apply NoDup_fst_map_to_list).
    unfold b. rewrite sync_accounts_lookup by done.
    rewrite (list_to_map_proper _ _ Hnd Hl), list_to_map_to_list. done. }
  split_and!.
  - intros k. rewrite <- El. destruct (ls_Authorities state), (0 <? ls_TokenSupply state); done.
  - intros Ha. destruct (ls_Authorities state), (0 <? ls_TokenSupply state); done.
  - intros Hs. apply Z.ltb_lt in Hs. rewrite Hs. by destruct (ls_Authorities state).
  - destruct (ls_Authorities state), (0 <? ls_TokenSupply state); cbn; exact E3.
Qed.

(** ** Trimming *)

(** Blocks that follow each other. *)
Definition follows (b c : Block) : Prop :=
  blk_Index c = blk_Index b +! 1 ∧ blk_PreviousHash c = blk_BlockHash b.

Definition linked (chain : list Block) : Prop :=
  ∀ i b c, chain !! i = Some b → chain !! S i = Some c → follows b c.

Lemma follows_dec b c :
  negb (blk_Index c =? blk_Index b +! 1) || negb (bool_decide (blk_PreviousHash c = blk_BlockHash b))
  = false ↔ follows b c.
Proof.
  unfold follows. split.
  - intros E. by prop_bools.
  - intros [E1 E2]. rewrite E1, Z.eqb_refl, bool_decide_true by done. done.
Qed.

Lemma node_linked_cons b c chain : linked (b :: c :: chain) ↔ follows b c ∧ linked (c :: chain).
Proof.
  split.
  - intros Hl. split; [by apply (Hl 0%nat)|]. intros i x y Ex Ey. by apply (Hl (S i)).
  - intros [Hf Hl] [|i] x y Ex Ey; [by simplify_eq/=|]. by apply (Hl i).
Qed.

Lemma linked_singleton b : linked [b].
Proof. intros [|i] x y; done. Qed.

Lemma linked_prefix_spec b chain :
  let n := linked_prefix b chain in
  linked (b :: take n chain) ∧
  (∀ c, chain !! n = Some c → ∃ x, last (b :: take n chain) = Some x ∧ ¬ follows x c) ∧
  (n ≤ length chain)%nat.
Proof.
  revert b. induction chain as [|c chain IH]; intros b; cbn [linked_prefix].
  { split; [apply linked_singleton|done]. }
  destruct (_ || _) eqn:E.
  - split; [apply linked_singleton|]. split; [|cbn; lia]. cbn. intros ? [= <-]. exists b.
    split; [done|]. rewrite <- follows_dec, E. done.
  - apply follows_dec in E. destruct (IH c) as (H1 & H2 & H3). cbv zeta in *.
    split; [by apply node_linked_cons|]. split; [|cbn; lia]. intros d Hd. cbn in Hd.
    destruct (H2 d Hd) as (x & Ex & Hx). exists x. by rewrite <- Ex.
Qed.

Lemma trim_chain bc genesis rest :
  nd_Chain bc = genesis :: rest →
  nd_Chain (trimInvalidBlocks bc) = genesis :: take (linked_prefix genesis rest) rest.
Proof.
  intros Ec. unfold trimInvalidBlocks. rewrite Ec. destruct (linked_prefix_spec genesis rest) as (_ & _ & H3).
  cbv zeta in *. set (n := linked_prefix genesis rest) in *.
  assert (∀ b, nd_Chain (saveToDisk b).2 = nd_Chain b) as Hs
    by (intros b; unfold saveToDisk; by repeat case_match).
  destruct (_ <? _) eqn:E; prop_bools.
  - transitivity (nd_Chain (saveToDisk (bc <| nd_Chain ::= take (S n) |>)).2); [done|].
    rewrite Hs. cbn. by rewrite Ec.
  - rewrite Ec. f_equal. rewrite take_ge; [done|]. unfold blen in E. cbn in E. lia.
Qed.

Lemma trim_linked bc genesis rest :
  nd_Chain bc = genesis :: rest →
  let kept := nd_Chain (trimInvalidBlocks bc) in
  linked kept ∧ kept `prefix_of` nd_Chain bc ∧
  ∀ c, nd_Chain bc !! length kept = Some c → ∃ x, last kept = Some x ∧ ¬ follows x c.
Proof.
  intros Ec kept. unfold kept. rewrite (trim_chain bc genesis rest Ec), Ec.
  destruct (linked_prefix_spec genesis rest) as (H1 & H2 & H3). cbv zeta in *.
  split; [done|]. split.
  - exists (drop (linked_prefix genesis rest) rest). cbn. by rewrite take_drop.
  - intros c. cbn [length]. rewrite length_take_le by done. cbn. apply H2.
Qed.

(** What [trimInvalidBlocks] keeps is the longest prefix of blocks that follow
    each other: it is linked, and the first block it drops, if any, does not
    follow the last one it keeps. *)
Theorem trim_keeps_longest_linked bc genesis rest :
  nd_Chain bc = genesis :: rest →
  let kept := nd_Chain (trimInvalidBlocks bc) in
  linked kept ∧ kept `prefix_of` nd_Chain bc ∧
  ∀ c, nd_Chain bc !! length kept = Some c → ∃ x, last kept = Some x ∧ ¬ follows x c.
Proof. exact (trim_linked bc genesis rest). Qed.
End ledger.
