(* ===== verification/NodeMining.v ===== *)
(** * The node program: what it mines (go-chain/main.go)

    Two theorems on [MineBlockFor].  A mined block holds no numbered transaction:
    selecting a transaction marks its nonce as used, and the block is validated
    after that.  With a pool of transactions without a number, a mining attempt
    for a miner succeeds, under the conditions the statement lists. *)

From S2P Require Import Prelude Runtime Float64 Text Sha256 Domain Json Merkle Tendermint State Accounts Validation Mempool Mining Node NodeChain NodeLedger.
Open Scope Z_scope.
Open Scope go_scope.

Implicit Types (bc : Blockchain) (tx : Transaction) (block : Block) (txs : list Transaction).

Section mining.
Context `{Runtime} `{Ed25519}.

(** ** Validation only reads *)

Definition at_tick (n : nat) bc : Blockchain := bc <| nd_ticks := n |>.

Lemma at_tick_self bc : at_tick (nd_ticks bc) bc = bc.
Proof. by destruct bc. Qed.

Lemma tick_at bc : tick bc = at_tick (S (nd_ticks bc)) bc.
Proof. done. Qed.

Lemma validateTransaction_frame bc tx :
  ∃ n, (validateTransaction bc tx).2 = at_tick n bc ∧ (nd_ticks bc ≤ n ≤ S (nd_ticks bc))%nat.
Proof.
  unfold validateTransaction.
  assert (∃ n, bc = at_tick n bc ∧ (nd_ticks bc ≤ n ≤ S (nd_ticks bc))%nat) as Hstay
    by (exists (nd_ticks bc); rewrite at_tick_self; split; [done|lia]).
  destruct (negb _); [done|]. destruct (negb _); [done|]. destruct (isReplay _ _); [done|].
  destruct (_ =? 0); [done|].
  exists (S (nd_ticks bc)). unfold UnixNano. rewrite tick_at. destruct (stale _ _); (split; [done|lia]).
Qed.

(** What a validation of [bc] that accepts says of the transaction. *)
Definition checks_ok bc tx : Prop :=
  tx_ChainID tx = nd_ChainID bc ∧ VerifyTransaction tx = true ∧ isReplay bc tx = false ∧
  tx_Timestamp tx ≠ 0 ∧ sender_ok bc tx = true.

Lemma validateTransaction_true bc tx :
  (validateTransaction bc tx).1 = true ↔
  checks_ok bc tx ∧ stale (tx_Timestamp tx) (clock (nd_ticks bc)) = false.
Proof.
  unfold validateTransaction, checks_ok. split.
  - intros E. case_bool_decide; [|done]. destruct (VerifyTransaction tx); [|done]. cbn [negb] in E.
    destruct (isReplay bc tx); [done|]. destruct (Z.eqb_spec (tx_Timestamp tx) 0); [done|].
    unfold UnixNano in E. destruct (stale _ _); [done|]. done.
  - intros [(E1 & -> & -> & Ht & E) Hst]. rewrite bool_decide_true by done. cbn [negb].
    apply Z.eqb_neq in Ht. rewrite Ht. unfold UnixNano. rewrite Hst. exact E.
Qed.

Lemma validate_txs_frame txs : ∀ bc seen, ∃ n, (validate_txs bc seen txs).2 = at_tick n bc.
Proof.
  induction txs as [|tx txs IH]; intros bc seen; cbn [validate_txs].
  { exists (nd_ticks bc). by rewrite at_tick_self. }
  case_bool_decide; [exists (nd_ticks bc); by rewrite at_tick_self|].
  case_bool_decide; [exists (nd_ticks bc); by rewrite at_tick_self|].
  destruct (validateTransaction_frame bc tx) as (n & E & _).
  destruct (validateTransaction bc tx) as [[] b]; cbn in *; subst b; [|by exists n].
  destruct (IH (at_tick n bc) ({[tx_ID tx]} ∪ seen)) as [k ->]. by exists k.
Qed.

Lemma validate_txs_accepts txs : ∀ bc seen,
  (validate_txs bc seen txs).1 = Ok tt → Forall (λ tx, isReplay bc tx = false) txs.
Proof.
  induction txs as [|tx txs IH]; intros bc seen; cbn [validate_txs]; [constructor|].
  case_bool_decide; [done|]. case_bool_decide; [done|].
  destruct (validateTransaction_frame bc tx) as (n & E & _).
  destruct (validateTransaction bc tx) as [[] b] eqn:Ev; cbn in *; subst b; [|done].
  intros Ht. assert ((validateTransaction bc tx).1 = true) as Hv by by rewrite Ev.
  apply validateTransaction_true in Hv as [(_ & _ & Hr & _) _].
  constructor; [done|]. exact (IH _ _ Ht).
Qed.

Lemma validateBlock_accepts bc block prev :
  (validateBlock bc block prev).1 = Ok tt →
  follows prev block ∧ blk_BlockHash block = calculateHash block ∧
  (validate_txs bc ∅ (blk_Transactions block)).1 = Ok tt.
Proof.
  unfold validateBlock, follows. destruct (_ =? _) eqn:E1; [|done]. cbn [negb].
  case_bool_decide; [|done]. cbn [negb]. case_bool_decide; [done|].
  case_bool_decide; [|done]. cbn [negb]. prop_bools. done.
Qed.

Lemma validateBlock_frame bc block prev : ∃ n, (validateBlock bc block prev).2 = at_tick n bc.
Proof.
  unfold validateBlock.
  repeat (match goal with |- context [if ?b then _ else _] => destruct b end;
    [exists (nd_ticks bc); by rewrite at_tick_self|]).
  apply validate_txs_frame.
Qed.

(** ** Marks *)

Lemma used_mark bc tx from n :
  n ∈ used_nonces (markTransactionSeen bc tx) from ↔
  n ∈ used_nonces bc from ∨ (n = tx_Nonce tx ∧ from = tx_From tx ∧ 0 < tx_Nonce tx).
Proof.
  unfold markTransactionSeen. cbv zeta.
  destruct (0 <? tx_Nonce tx) eqn:E; prop_bools.
  - assert (n ∈ default ∅ (<[tx_From tx := {[tx_Nonce tx]} ∪ used_nonces bc (tx_From tx)]>
      (nd_UsedNonces bc) !! from) ↔ n ∈ used_nonces bc from ∨
      n = tx_Nonce tx ∧ from = tx_From tx ∧ 0 < tx_Nonce tx) as <-.
    { destruct (decide (tx_From tx = from)) as [->|Hne].
      - rewrite lookup_insert_eq. cbn. set_solver by lia.
      - rewrite lookup_insert_ne by done. unfold used_nonces. naive_solver. }
    by repeat case_match.
  - transitivity (n ∈ used_nonces bc from); [by case_match|]. naive_solver lia.
Qed.

Lemma charge_fee_used bc tx from : used_nonces (charge_fee bc tx) from = used_nonces bc from.
Proof. unfold charge_fee, credit_community. cbv zeta. by repeat case_match. Qed.

(** Every transaction selected so far has its nonce marked. *)
Definition all_marked (acc : Blockchain * list Transaction) : Prop :=
  Forall (λ tx, 0 < tx_Nonce tx → tx_Nonce tx ∈ used_nonces acc.1 (tx_From tx)) acc.2.

Lemma include_tx_marked n acc tx : all_marked acc → all_marked (include_tx n acc tx).
Proof.
  destruct acc as [bc txs]. intros Ha. unfold include_tx.
  destruct (validateTransaction_frame bc tx) as (k & E & _).
  destruct (validateTransaction bc tx) as [[] b]; cbn [snd negb] in *; subst b; [|exact Ha].
  destruct (_ <? _); [exact Ha|]. unfold all_marked in *. cbn [fst snd] in *.
  change (nd_UsedNonces (on_metrics _ ?b)) with (nd_UsedNonces b).
  assert (∀ from m, m ∈ used_nonces bc from →
    m ∈ used_nonces (markTransactionSeen (charge_fee (at_tick k bc) tx) tx) from) as Hmono.
  { intros from m Hm. apply used_mark. left. by rewrite charge_fee_used. }
  apply Forall_app. split.
  - eapply Forall_impl; [exact Ha|]. cbn. intros y Hy Hp. by apply Hmono, Hy.
  - apply Forall_singleton. intros Hp.
    apply (used_mark (charge_fee (at_tick k bc) tx) tx). by right.
Qed.

Lemma select_txs_marked bc : all_marked (select_txs bc).
Proof.
  unfold select_txs. apply (foldl_inv all_marked); [|constructor].
  intros acc tx _. apply include_tx_marked.
Qed.

(** The selected transactions are pending ones, in their order. *)
Lemma include_all_sublist n l : ∀ bc txs, ∃ txs',
  (foldl (include_tx n) (bc, txs) l).2 = txs ++ txs' ∧ txs' `sublist_of` l.
Proof.
  induction l as [|tx l IH]; intros bc txs; [exists []; by rewrite app_nil_r|].
  change (foldl (include_tx n) (bc, txs) (tx :: l))
    with (foldl (include_tx n) (include_tx n (bc, txs) tx) l).
  assert (∃ b, include_tx n (bc, txs) tx = (b, txs) ∨ include_tx n (bc, txs) tx = (b, txs ++ [tx]))
    as (b & [->| ->]).
  { unfold include_tx. destruct (validateTransaction bc tx) as [[] b]; cbn [negb]; [|by eauto].
    destruct (_ <? _); eauto. }
  - destruct (IH b txs) as (txs' & E & Hs). exists txs'. split; [done|]. by constructor.
  - destruct (IH b (txs ++ [tx])) as (txs' & E & Hs). exists (tx :: txs').
    split; [by rewrite E, <- app_assoc|]. by constructor.
Qed.

Lemma select_txs_sublist bc :
  (select_txs bc).2 `sublist_of` sort_Slice (nd_ticks bc) pending_less (nd_Pending bc).
Proof. unfold select_txs. cbv zeta. by destruct (include_all_sublist
    (blen (sort_Slice (nd_ticks bc) pending_less (nd_Pending bc)))
    (sort_Slice (nd_ticks bc) pending_less (nd_Pending bc)) (tick bc) []) as (txs & -> & ?). Qed.

Lemma node_select_txs_pending bc tx : tx ∈ (select_txs bc).2 → tx ∈ nd_Pending bc.
Proof.
  intros Hin. eapply elem_of_sublist in Hin; [|apply select_txs_sublist].
  by rewrite sort_Slice_Permutation in Hin.
Qed.

(** ** Numbered transactions are never mined *)

Lemma selectValidator_frame bc :
  ∃ i n, (selectValidator bc).2 = at_tick n (bc <| nd_validatorIdx := i |>) ∧
         (nd_ticks bc ≤ n ≤ nd_ticks bc + 4)%nat.
Proof.
  unfold selectValidator. case_bool_decide.
  { destruct (nd_Authorities bc); cbn [snd].
    - exists (nd_validatorIdx bc), (nd_ticks bc). split; [by destruct bc|lia].
    - eexists _, (nd_ticks bc). split; [reflexivity|lia]. }
  assert (∃ n, (candidates bc).2 = at_tick n bc ∧ (nd_ticks bc ≤ n ≤ nd_ticks bc + 3)%nat)
    as (n & E & Hn).
  { unfold candidates. cbv zeta. repeat case_match; cbn [snd]; rewrite ?tick_at; cbn;
      eexists; (split; [reflexivity|]); cbn; lia. }
  destruct (candidates bc) as [c b]. cbn [snd] in E. subst b. destruct c as [|c l]; cbn [snd].
  - exists (nd_validatorIdx bc), n. split; [by destruct bc|lia].
  - eexists _, (S n). split; [reflexivity|lia].
Qed.

(** The state in which the transactions are selected. *)
Lemma node_assemble_spec bc prevHash miner :
  ∃ i n now author, (nd_ticks bc ≤ n ≤ nd_ticks bc + 5)%nat ∧
    let sel := select_txs (at_tick n (bc <| nd_validatorIdx := i |>)) in
    assemble bc prevHash miner =
      (sel.1, mkBlock (u64 (blen (nd_Chain bc))) author author prevHash now sel.2 0 "" "") ∧
    (miner ≠ "" → author = miner).
Proof.
  unfold assemble. destruct (selectValidator_frame bc) as (i & n & E & Hn).
  destruct (selectValidator bc) as [author b]. cbn [snd] in E. subst b.
  exists i, (S n). do 2 eexists. split; [lia|]. unfold Unix. cbv zeta.
  change (tick (at_tick n (bc <| nd_validatorIdx := i |>)))
    with (at_tick (S n) (bc <| nd_validatorIdx := i |>)).
  destruct (select_txs _) as [b txs]. cbn [fst snd]. split; [done|].
  intros Hm. by rewrite bool_decide_false.
Qed.

Lemma pow_search_keeps fuel target block block' :
  pow_search fuel target block = Some block' →
  blk_Transactions block' = blk_Transactions block ∧ blk_Index block' = blk_Index block ∧
  blk_PreviousHash block' = blk_PreviousHash block.
Proof.
  revert block. induction fuel as [|fuel IH]; intros block; [done|]. cbn [pow_search].
  destruct (_ <? _); [by intros [= <-]|]. intros E. apply IH in E as (-> & -> & ->). done.
Qed.

Lemma seal_block_keeps fuel bc miner block block' :
  seal_block fuel bc miner block = Some block' →
  blk_Transactions block' = blk_Transactions block ∧ blk_Index block' = blk_Index block ∧
  blk_PreviousHash block' = blk_PreviousHash block.
Proof.
  unfold seal_block, proofOfWork. destruct (_ || _); [|by intros [= <-]].
  destruct (pow_target _) as [t|]; [|done]. apply pow_search_keeps.
Qed.

(** The parts of a successful attempt: the transactions were selected in some
    state of the same pool, in which the block was then valid. *)
Lemma node_MineBlockFor_Ok fuel bc miner block bc' :
  MineBlockFor fuel bc miner = Some (Ok block, bc') →
  ∃ b prev sel, nd_Pending b = nd_Pending bc ∧ sel = select_txs b ∧
    blk_Transactions block = sel.2 ∧ follows prev block ∧ blk_BlockHash block = calculateHash block ∧
    (validate_txs sel.1 ∅ sel.2).1 = Ok tt.
Proof.
  unfold MineBlockFor.
  assert (nd_Pending (minting_paused bc).2 = nd_Pending bc) as Ep
    by (unfold minting_paused, Unix; by destruct (_ && _)).
  destruct (minting_paused bc) as [[] b0]; [done|]. cbn [snd] in Ep.
  set (b1 := match nd_Chain b0 with [] => createGenesisBlock b0 | _ => b0 end).
  assert (nd_Pending b1 = nd_Pending bc) as Ep1 by (rewrite <- Ep; unfold b1; by destruct (nd_Chain b0)).
  clearbody b1. destruct (last (nd_Chain b1)) as [prev|]; [|done].
  destruct (node_assemble_spec b1 (blk_BlockHash prev) miner) as (i & n & now & author & _ & E & _).
  cbv zeta in E. set (sel := select_txs _) in E. rewrite E. clear E.
  destruct (seal_block _ _ _ _) as [blk|] eqn:Es; [|done]. cbn [mbind option_bind].
  apply seal_block_keeps in Es as (E1 & E2 & E3). cbn in E1, E2, E3.
  destruct (validateBlock sel.1 blk prev) as [o b2] eqn:Ev.
  assert ((validateBlock sel.1 blk prev).1 = o) as Ev1 by by rewrite Ev.
  destruct o as [[]|e|e]; [|done|done]. apply validateBlock_accepts in Ev1 as (Hf & Hh & Ht).
  intros [= Ec]. assert (block = blk) as ->.
  { revert Ec. unfold commit_mined. cbv zeta. destruct (extend _ _) as [[]]; [|done|done].
    by destruct (saveToDisk _) as [[]]; intros [= -> ->]. }
  exists (at_tick n (b1 <| nd_validatorIdx := i |>)), prev, sel. rewrite E1 in Ht.
  split_and!; try done.
Qed.

(** Only transactions of the pool, none with a number. *)
Definition numberless bc block : Prop :=
  Forall (λ tx, tx_Nonce tx = 0 ∧ tx ∈ nd_Pending bc) (blk_Transactions block).

(** C23. No block the node mines contains a transaction with a number: selecting it
    marks its nonce, and the validation that follows then takes it for a replay. *)
Theorem mined_nonces_zero fuel bc miner block bc' :
  Forall (λ tx, 0 ≤ tx_Nonce tx) (nd_Pending bc) →
  MineBlockFor fuel bc miner = Some (Ok block, bc') →
  numberless bc block.
Proof.
  unfold numberless. intros Hp Hm. apply node_MineBlockFor_Ok in Hm as (b & prev & sel & Eb & Es & -> & _ & _ & Hv).
  apply validate_txs_accepts in Hv. pose proof (select_txs_marked b) as Hk. rewrite <- Es in Hk.
  unfold all_marked in Hk. rewrite Forall_forall in *. intros tx Hin.
  assert (tx ∈ nd_Pending bc) as Hpend by (rewrite <- Eb; apply node_select_txs_pending; by rewrite <- Es).
  split; [|done]. specialize (Hp tx Hpend). specialize (Hv tx Hin). specialize (Hk tx Hin).
  destruct (decide (tx_Nonce tx = 0)) as [|Hne]; [done|]. exfalso.
  unfold isReplay in Hv. apply Z.eqb_neq in Hne as Hne'. rewrite Hne' in Hv.
  by rewrite bool_decide_true in Hv by (apply Hk; lia).
Qed.

(** ** What selection leaves alone *)

(** Everything validation looks at, but the community fund may have grown or
    been created. *)
Record view_le bc bc' : Prop := {
  vl_chain_id : nd_ChainID bc' = nd_ChainID bc;
  vl_registry : nd_Registry bc' = nd_Registry bc;
  vl_reversals : nd_PendingReversals bc' = nd_PendingReversals bc;
  vl_chain : nd_Chain bc' = nd_Chain bc;
  vl_consensus : nd_Consensus bc' = nd_Consensus bc;
  vl_ledger k : k ≠ CommunityFundAddress → nd_Ledger bc' !! k = nd_Ledger bc !! k;
  vl_fund : is_Some (nd_Ledger bc !! CommunityFundAddress) →
            is_Some (nd_Ledger bc' !! CommunityFundAddress);
}.

Lemma view_le_refl bc : view_le bc bc.
Proof. by constructor. Qed.

Lemma view_le_trans bc1 bc2 bc3 : view_le bc1 bc2 → view_le bc2 bc3 → view_le bc1 bc3.
Proof.
  intros [] []. constructor; try congruence; [|by eauto].
  intros k Hk. transitivity (nd_Ledger bc2 !! k); eauto.
Qed.

Lemma view_le_is_Some bc bc' k :
  view_le bc bc' → is_Some (nd_Ledger bc !! k) → is_Some (nd_Ledger bc' !! k).
Proof.
  intros Hv Hk. destruct (decide (k = CommunityFundAddress)) as [->|Hne].
  - by apply (vl_fund _ _ Hv).
  - by rewrite (vl_ledger _ _ Hv k Hne).
Qed.

(** A transaction without a number that asks for no reversal and is not of the
    community fund. *)
Definition plain tx : Prop :=
  tx_Nonce tx = 0 ∧ tx_From tx ≠ CommunityFundAddress ∧
  switch_tx (tx_TxType tx) ≠ CaseRequestReversal.

Lemma sender_ok_view bc bc' tx :
  view_le bc bc' → plain tx → sender_ok bc tx = true → sender_ok bc' tx = true.
Proof.
  intros Hv (Hn & Hf & Hs) E. unfold sender_ok in *. rewrite (vl_ledger _ _ Hv _ Hf).
  destruct (nd_Ledger bc !! tx_From tx) as [a|]; [|done].
  destruct (_ && _); [done|]. destruct (_ && _); [done|].
  destruct (switch_tx (tx_TxType tx)); rewrite ?(vl_registry _ _ Hv); try done.
  - pose proof (view_le_is_Some _ _ (tx_To tx) Hv) as Hto.
    destruct (nd_Ledger bc !! tx_To tx); [|done]. destruct Hto as [b ->]; [done|]. done.
  - unfold validateConfirmReversal, pending_reversal in *. by rewrite (vl_reversals _ _ Hv).
  - unfold validateCommitReversal, pending_reversal in *. by rewrite (vl_reversals _ _ Hv).
Qed.

Lemma checks_ok_view bc bc' tx : view_le bc bc' → plain tx → checks_ok bc tx → checks_ok bc' tx.
Proof.
  intros Hv Hp (E1 & E2 & _ & E4 & E5). unfold checks_ok. rewrite (vl_chain_id _ _ Hv).
  split_and!; try done; [|by eapply sender_ok_view].
  unfold isReplay. by rewrite (proj1 Hp).
Qed.

Lemma charge_fee_view bc tx :
  view_le bc (charge_fee bc tx) ∧ nd_ticks (charge_fee bc tx) = nd_ticks bc.
Proof.
  unfold charge_fee. destruct (0 <? tx_Fee tx); [|split; [apply view_le_refl|done]].
  cbv zeta. unfold credit_community. cbn [nd_Ledger update].
  destruct (nd_Ledger bc !! CommunityFundAddress) eqn:E; (split; [|done]); constructor; try done; cbn.
  - intros k Hk. by rewrite lookup_alter_ne.
  - intros _. rewrite lookup_alter_eq, E. eauto.
  - intros k Hk. by rewrite lookup_insert_ne.
  - intros _. rewrite lookup_insert_eq. eauto.
Qed.

Lemma mark_view bc tx :
  view_le bc (markTransactionSeen bc tx) ∧ nd_ticks (markTransactionSeen bc tx) = nd_ticks bc.
Proof.
  unfold markTransactionSeen. cbv zeta. repeat case_match; (split; [by constructor|done]).
Qed.

Lemma include_tx_step n bc txs tx :
  let acc := include_tx n (bc, txs) tx in
  view_le bc acc.1 ∧ (nd_ticks bc ≤ nd_ticks acc.1 ≤ S (nd_ticks bc))%nat ∧
  (plain tx → acc.2 = txs ∨ (acc.2 = txs ++ [tx] ∧ checks_ok acc.1 tx)).
Proof.
  unfold include_tx. destruct (validateTransaction_frame bc tx) as (k & E & Hk).
  destruct (validateTransaction bc tx) as [v b] eqn:Ev. cbn [snd] in E. subst b.
  assert (view_le bc (at_tick k bc)) as Hv by by constructor.
  destruct v; cbn [negb]; [|split_and!; [done|cbn; lia..|by left]].
  destruct (_ <? _); [split_and!; [by constructor|cbn; lia..|by left]|].
  destruct (charge_fee_view (at_tick k bc) tx) as [H1 T1].
  destruct (mark_view (charge_fee (at_tick k bc) tx) tx) as [H2 T2].
  set (b2 := markTransactionSeen _ _) in *. cbn [fst snd].
  assert (view_le bc (on_metrics (λ m, m <| sm_txAccepted ::= λ c, i64 (c + 1) |>) b2)) as Hall.
  { eapply view_le_trans; [exact Hv|]. eapply view_le_trans; [exact H1|].
    eapply view_le_trans; [exact H2|]. by constructor. }
  assert (nd_ticks (on_metrics (λ m, m <| sm_txAccepted ::= λ c, i64 (c + 1) |>) b2) = k) as ->.
  { transitivity (nd_ticks b2); [done|]. by rewrite T2, T1. }
  split_and!; [done|lia|lia|]. intros Hp. right. split; [done|].
  eapply checks_ok_view; [exact Hall|done|].
  assert ((validateTransaction bc tx).1 = true) as Ht by by rewrite Ev.
  by apply validateTransaction_true in Ht as [? _].
Qed.

Lemma include_all_ok n l : ∀ bc txs,
  Forall plain l → Forall (λ tx, plain tx ∧ checks_ok bc tx) txs →
  let acc := foldl (include_tx n) (bc, txs) l in
  view_le bc acc.1 ∧ (nd_ticks bc ≤ nd_ticks acc.1 ≤ nd_ticks bc + length l)%nat ∧
  Forall (λ tx, plain tx ∧ checks_ok acc.1 tx) acc.2.
Proof.
  induction l as [|tx l IH]; intros bc txs Hl Htx.
  { split_and!; [apply view_le_refl|cbn; lia..|done]. }
  apply Forall_cons in Hl as [Hp Hl].
  change (foldl (include_tx n) (bc, txs) (tx :: l))
    with (foldl (include_tx n) (include_tx n (bc, txs) tx) l).
  destruct (include_tx_step n bc txs tx) as (Hv & Ht & Hc). specialize (Hc Hp).
  destruct (include_tx n (bc, txs) tx) as [b txs1]. cbn [fst snd] in *.
  assert (Forall (λ tx, plain tx ∧ checks_ok b tx) txs) as Hkeep.
  { eapply Forall_impl; [exact Htx|]. intros y [Hy Hyc]. split; [done|]. by eapply checks_ok_view. }
  destruct (IH b txs1 Hl) as (Hv' & Ht' & Hf).
  { destruct Hc as [->|[-> Hok]]; [done|]. apply Forall_app. split; [done|by apply Forall_singleton]. }
  split_and!; [by eapply view_le_trans|cbn; lia..|done].
Qed.

(** ** A block of checked transactions validates *)

Lemma sublist_map {A B} (f : A → B) (l k : list A) : l `sublist_of` k → map f l `sublist_of` map f k.
Proof. induction 1; by constructor. Qed.

Lemma validate_txs_complete txs : ∀ bc seen,
  Forall (λ tx, tx_ID tx ≠ "" ∧ tx_ID tx ∉ seen ∧ checks_ok bc tx) txs →
  NoDup (map tx_ID txs) →
  Forall (λ tx, ∀ k, (nd_ticks bc ≤ k < nd_ticks bc + length txs)%nat →
                     stale (tx_Timestamp tx) (clock k) = false) txs →
  (validate_txs bc seen txs).1 = Ok tt.
Proof.
  induction txs as [|tx txs IH]; intros bc seen Hok Hnd Hst; [done|]. cbn [validate_txs].
  apply Forall_cons in Hok as [(Hid & Hs & Hc) Hok]. apply Forall_cons in Hst as [Hst1 Hst].
  cbn in Hnd. apply NoDup_cons in Hnd as [Hni Hnd].
  rewrite !bool_decide_false by done.
  assert ((validateTransaction bc tx).1 = true) as Hv.
  { apply validateTransaction_true. split; [done|]. apply Hst1. cbn. lia. }
  destruct (validateTransaction_frame bc tx) as (n & E & Hn).
  destruct (validateTransaction bc tx) as [v b]. cbn in Hv, E. subst v b. cbn [negb].
  apply IH; [|done|].
  - rewrite Forall_forall in *. intros y Hy. destruct (Hok y Hy) as (? & ? & ?).
    split_and!; try done. rewrite elem_of_union, elem_of_singleton. intros [Ey|]; [|done].
    apply Hni. rewrite <- Ey. by apply list_elem_of_fmap_2.
  - eapply Forall_impl; [exact Hst|]. cbn. intros y Hy k Hk. apply Hy. lia.
Qed.

(** ** Committing a block *)

Definition chain_and_pool bc : list Block * list Transaction := (nd_Chain bc, nd_Pending bc).

Lemma apply_txs_core txs bc : chain_and_pool (foldl apply_tx bc txs) = chain_and_pool bc.
Proof.
  apply (foldl_inv (λ b, chain_and_pool b = chain_and_pool bc)); [|done].
  intros b tx _ <-. unfold apply_tx. cbv zeta. by repeat case_match.
Qed.

Lemma process_reversal_core bc tx :
  chain_and_pool (process_reversal bc tx).2 = chain_and_pool bc ∧
  (switch_tx (tx_TxType tx) ≠ CaseRequestReversal → (process_reversal bc tx).1 = Ok tt).
Proof. unfold process_reversal. by repeat case_match. Qed.

Lemma process_reversals_core txs : ∀ bc,
  chain_and_pool (process_reversals bc txs).2 = chain_and_pool bc ∧
  (Forall (λ tx, switch_tx (tx_TxType tx) ≠ CaseRequestReversal) txs →
   (process_reversals bc txs).1 = Ok tt).
Proof.
  induction txs as [|tx txs IH]; intros bc; [done|]. cbn [process_reversals].
  destruct (process_reversal_core bc tx) as [E1 E2].
  destruct (process_reversal bc tx) as [o b]. cbn [fst snd] in *.
  destruct o as [[]|e|e]; rewrite Forall_cons.
  - destruct (IH b) as [E3 E4]. split; [congruence|]. intros [_ ?]. by apply E4.
  - split; [done|]. intros [Hp _]. by specialize (E2 Hp).
  - split; [done|]. intros [Hp _]. by specialize (E2 Hp).
Qed.

Lemma applyBlock_core bc block :
  chain_and_pool (applyBlock bc block).2 = chain_and_pool bc ∧
  (Forall (λ tx, switch_tx (tx_TxType tx) ≠ CaseRequestReversal) (blk_Transactions block) →
   (applyBlock bc block).1 = Ok tt).
Proof.
  unfold applyBlock, ProcessReversals.
  destruct (process_reversals_core (blk_Transactions block)
    (foldl apply_tx bc (blk_Transactions block))) as [E1 E2].
  split; [by rewrite E1, apply_txs_core|done].
Qed.

Lemma adjustDifficulty_core bc : chain_and_pool (adjustDifficulty bc) = chain_and_pool bc.
Proof. unfold adjustDifficulty. by repeat case_match. Qed.

Lemma distributeRewards_core bc : chain_and_pool (distributeRewards bc) = chain_and_pool bc.
Proof.
  unfold distributeRewards.
  apply (foldl_inv (λ b, chain_and_pool b = chain_and_pool bc)); [|done].
  intros b [k a] _ <-. unfold reward_account. by destruct (0 <? acc_Staked a).
Qed.

Lemma treasuryBuyback_core bc : chain_and_pool (treasuryBuyback bc) = chain_and_pool bc.
Proof. unfold treasuryBuyback. by repeat case_match. Qed.

Lemma saveToDisk_core bc :
  chain_and_pool (saveToDisk bc).2 = chain_and_pool bc ∧
  ((∀ k, disk_write k = true) → (saveToDisk bc).1 = Ok tt).
Proof.
  unfold saveToDisk. cbv zeta. destruct (disk_write (nd_ticks bc)) eqn:E; [done|].
  cbn [fst snd]. split; [by case_match|]. intros Hd. by rewrite Hd in E.
Qed.

Lemma pay_author_core author reward bc : chain_and_pool (pay_author author reward bc) = chain_and_pool bc.
Proof. unfold pay_author. by repeat case_match. Qed.

Lemma extend_spec bc block :
  match extend bc block with
  | (Ok _, bc') => chain_and_pool bc' = (nd_Chain bc ++ [block], [])
  | (_, bc') => chain_and_pool bc' = chain_and_pool bc
  end ∧
  (Forall (λ tx, switch_tx (tx_TxType tx) ≠ CaseRequestReversal) (blk_Transactions block) →
   (extend bc block).1 = Ok tt).
Proof.
  unfold extend. destruct (applyBlock_core bc block) as [E1 E2].
  destruct (applyBlock bc block) as [[[]|e|e] b]; cbn [fst snd] in *; [|done|done].
  split; [|done]. rewrite adjustDifficulty_core. unfold chain_and_pool in *. cbn. injection E1 as E1 _. by rewrite E1.
Qed.

Lemma commit_mined_spec bc block author :
  let r := commit_mined bc block author in
  (chain_and_pool r.2 = (nd_Chain bc ++ [block], []) ∨
   chain_and_pool r.2 = chain_and_pool bc ∧ ∃ e, r.1 = Panic e ∨ r.1 = Err e) ∧
  (Forall (λ tx, switch_tx (tx_TxType tx) ≠ CaseRequestReversal) (blk_Transactions block) →
   (∀ k, disk_write k = true) →
   r.1 = Ok block ∧ chain_and_pool r.2 = (nd_Chain bc ++ [block], [])).
Proof.
  cbv zeta. unfold commit_mined. cbv zeta.
  destruct (extend_spec (pay_author author (BlockReward (blk_Index block)) bc) block) as [E1 E2].
  pose proof (pay_author_core author (BlockReward (blk_Index block)) bc) as Ep.
  unfold chain_and_pool in Ep. injection Ep as Ep1 Ep2.
  destruct (extend _ block) as [[[]|e|e] b]; cbn [fst] in E2;
    [|split; [right; split; [cbn [snd]; by rewrite E1, pay_author_core|eauto]
             |intros Hp; by specialize (E2 Hp)]..].
  match goal with |- context [saveToDisk ?x] => set (b2 := x) end.
  assert (chain_and_pool b2 = (nd_Chain bc ++ [block], [])) as Eb.
  { transitivity (chain_and_pool (distributeRewards b));
      [|by rewrite distributeRewards_core, E1, Ep1].
    unfold b2, count_mined, on_metrics, chain_and_pool.
    cbn [nd_Chain nd_Pending update appendAuditEntry Unix tick].
    destruct (0 <? _); [|done]. exact (treasuryBuyback_core (distributeRewards b)). }
  destruct (saveToDisk_core b2) as [Es Ed]. rewrite <- Eb.
  destruct (saveToDisk b2) as [[[]|e|e] b3]; cbn [fst snd] in *; rewrite Es;
    (split; [by left|]); [done|intros _ Hd; by specialize (Ed Hd)..].
Qed.

(** ** Mining goes on *)

Lemma mining_attempt_succeeds fuel bc miner prev :
  miner ≠ "" → nd_Consensus bc ≠ ProofOfWork → nd_MintPaused bc = false →
  last (nd_Chain bc) = Some prev → blk_Index prev +! 1 = u64 (blen (nd_Chain bc)) →
  Forall (λ tx, plain tx ∧ tx_ID tx ≠ "") (nd_Pending bc) → NoDup (map tx_ID (nd_Pending bc)) →
  (∀ tx k, tx ∈ nd_Pending bc →
     (nd_ticks bc ≤ k ≤ nd_ticks bc + 2 * length (nd_Pending bc) + 6)%nat →
     stale (tx_Timestamp tx) (clock k) = false) →
  (∀ k, disk_write k = true) →
  ∃ block bc', MineBlockFor fuel bc miner = Some (Ok block, bc') ∧
    blk_Author block = miner ∧ nd_Chain bc' = nd_Chain bc ++ [block] ∧ nd_Pending bc' = [].
Proof.
  intros Hm Hc Hpause Hl Hi Hp Hnd Hst Hd. unfold MineBlockFor, minting_paused. rewrite Hpause.
  cbn [andb]. 
  assert (match nd_Chain bc with [] => createGenesisBlock bc | _ => bc end = bc) as ->
    by by destruct (nd_Chain bc).
  rewrite Hl.
  destruct (node_assemble_spec bc (blk_BlockHash prev) miner) as (i & n & now & author & Hn & E & Ha).
  cbv zeta in E. rewrite E, (Ha Hm). clear E Ha.
  set (b0 := at_tick n (bc <| nd_validatorIdx := i |>)).
  set (l := sort_Slice n pending_less (nd_Pending bc)).
  assert (l ≡ₚ nd_Pending bc) as Hl' by apply sort_Slice_Permutation.
  assert (Forall (λ tx, plain tx ∧ tx_ID tx ≠ "") l) as Hpl by by rewrite Hl'.
  destruct (include_all_ok (blen l) l (tick b0) []) as (Hv & Ht & Hok);
    [by eapply Forall_impl; [exact Hpl|intros ? []]|constructor|].
  change (foldl (include_tx (blen l)) (tick b0, []) l) with (select_txs b0) in *.
  pose proof (select_txs_sublist b0) as Hsub. change (sort_Slice _ _ _) with l in Hsub.
  destruct (select_txs b0) as [b1 txs]. cbn [fst snd] in *.
  unfold seal_block. rewrite bool_decide_false by done.
  rewrite bool_decide_false by (rewrite (vl_consensus _ _ Hv); exact Hc). cbn [orb mbind option_bind].
  match goal with |- context [validateBlock b1 ?x prev] => set (block := x) end.
  assert ((validateBlock b1 block prev).1 = Ok tt) as Hval.
  { unfold validateBlock. cbn [blk_Index blk_PreviousHash block update].
    rewrite <- Hi, Z.eqb_refl. cbn [negb]. rewrite bool_decide_true by done. cbn [negb].
    rewrite bool_decide_false by apply calculateHash_not_empty.
    rewrite bool_decide_true by done. cbn [negb]. apply validate_txs_complete.
    - rewrite Forall_forall in *. intros tx Hin. destruct (Hok tx Hin) as [_ ?].
      destruct (Hpl tx (elem_of_sublist _ _ _ Hin Hsub)). set_solver.
    - eapply sublist_NoDup; [|by apply sublist_map]. by rewrite Hl'.
    - rewrite Forall_forall. intros tx Hin k Hk. apply Hst.
      + rewrite <- Hl'. by eapply elem_of_sublist.
      + apply sublist_length in Hsub. rewrite (Permutation_length Hl') in *. cbn in *. lia. }
  destruct (validateBlock_frame b1 block prev) as [k Ef].
  destruct (validateBlock b1 block prev) as [o b2]. cbn in Hval, Ef. subst o b2.
  destruct (commit_mined_spec (at_tick k b1) block (blk_Author block)) as [_ Hcm].
  destruct Hcm as [E1 E2]; [|done|].
  { change (blk_Transactions block) with txs. eapply Forall_impl; [exact Hok|]. by intros y [(_ & _ & ?) _]. }
  destruct (commit_mined _ _ _) as [o b3]. cbn [fst snd] in *. subst o. exists block, b3.
  unfold chain_and_pool in E2. injection E2 as -> ->. split_and!; try done.
  change (nd_Chain (at_tick k b1)) with (nd_Chain b1). by rewrite (vl_chain _ _ Hv).
Qed.

(** C22. A node whose consensus is not proof of work, that is not paused, and whose
    tail has the index that fits the height; a named miner; a pool of transactions with
    distinct, non-empty IDs that have no number, ask for no reversal, are not of the
    community fund and do not become stale while the attempt runs; and a disk that
    works: the attempt succeeds at once, appends a block of that miner to the chain and
    empties the pool. *)
Theorem mining_succeeds fuel bc miner prev :
  miner ≠ "" → nd_Consensus bc ≠ ProofOfWork → nd_MintPaused bc = false →
  last (nd_Chain bc) = Some prev → blk_Index prev +! 1 = u64 (blen (nd_Chain bc)) →
  Forall (λ tx, plain tx ∧ tx_ID tx ≠ "") (nd_Pending bc) → NoDup (map tx_ID (nd_Pending bc)) →
  (∀ tx k, tx ∈ nd_Pending bc →
     (nd_ticks bc ≤ k ≤ nd_ticks bc + 2 * length (nd_Pending bc) + 6)%nat →
     stale (tx_Timestamp tx) (clock k) = false) →
  (∀ k, disk_write k = true) →
  ∃ block bc', MineBlockFor fuel bc miner = Some (Ok block, bc') ∧
    blk_Author block = miner ∧ nd_Chain bc' = nd_Chain bc ++ [block] ∧ nd_Pending bc' = [].
Proof. apply mining_attempt_succeeds. Qed.
End mining.
