(* ===== verification/NodeP2P.v ===== *)
(** * The node program: peers and the relay (go-chain/main.go)

    The gossip of the program [main]: [processMessage], which the TCP handler
    and the HTTP relay share, the broadcasts, the hello protocol with its
    replies, and the polling of the relay.

    The network is the class of oracles of [P2P].  A reply or a push is a value
    the functions return; what the transport does with it is I/O. *)

From S2P Require Import Prelude Runtime Float64 Text Sha256 Domain Json Merkle Tendermint State Accounts Validation Mempool Mining Limits P2P Node NodeChain NodeLedger NodeMining.
Open Scope Z_scope.
Open Scope go_scope.

Record NodeInfo := mkNodeInfo {
  inf_Address : string; inf_Peers : list string; inf_ValidatorPubKey : string; inf_Height : Z }.

Record p2pMessage := mkp2pMessage {
  pm_Type : string; pm_From : string; pm_NodeID : string; pm_To : string;
  pm_Block : option Block; pm_Chain : list Block; pm_Tx : option Transaction;
  pm_Peer : option NodeInfo; pm_State : option LedgerState; pm_StreamID : string }.

#[export] Instance p2pMessage_rebuild : Rebuild p2pMessage := λ r,
  mkp2pMessage (pm_Type r) (pm_From r) (pm_NodeID r) (pm_To r) (pm_Block r) (pm_Chain r) (pm_Tx r)
    (pm_Peer r) (pm_State r) (pm_StreamID r).

(** [p2_conns] are the targets with a connection and its writer. *)
Record P2PNode := mkP2PNode {
  p2_addr : string; p2_advertiseAddr : string; p2_peers : list string;
  p2_peerScores : gmap string Z; p2_trustedPeers : gmap string bool; p2_chain : Blockchain;
  p2_maxPeers : Z; p2_strictMode : bool; p2_seenMsgIDs : gmap string Z; p2_conns : gset string;
  p2_dialBackoff : gmap string Z; p2_helloReplies : gmap string Z; p2_relayURL : string;
  p2_nodeID : string; p2_relayLastPull : Z }.

#[export] Instance P2PNode_rebuild : Rebuild P2PNode := λ r,
  mkP2PNode (p2_addr r) (p2_advertiseAddr r) (p2_peers r) (p2_peerScores r) (p2_trustedPeers r)
    (p2_chain r) (p2_maxPeers r) (p2_strictMode r) (p2_seenMsgIDs r) (p2_conns r)
    (p2_dialBackoff r) (p2_helloReplies r) (p2_relayURL r) (p2_nodeID r) (p2_relayLastPull r).

Definition advertisedAddr (p : P2PNode) : string :=
  if bool_decide (p2_advertiseAddr p = "") then p2_addr p else p2_advertiseAddr p.

Definition Addr (p : P2PNode) : string := p2_addr p.
Definition Peers (p : P2PNode) : list string := p2_peers p.
Definition TrustedPeers (p : P2PNode) : gmap string bool := p2_trustedPeers p.
Definition StrictMode (p : P2PNode) : bool := p2_strictMode p.

(** Without the test of the package for a time in the future: that doubles a
    negative duration. *)
Definition recordDialFailure (backoffs : gmap string Z) (since now : Z) (target : string)
    : gmap string Z :=
  let backoff :=
    match backoffs !! target with
    | None => Second
    | Some prev =>
        let d := time_Sub since prev in
        if d <? max_backoff then Z.min (i64 (d * 2)) max_backoff else Second
    end in
  <[target := now + backoff]> backoffs.

Section p2p.
Context `{Runtime} `{Ed25519} `{Network}.

Definition Now (p : P2PNode) : Z * P2PNode :=
  let '(now, bc) := UnixNano (p2_chain p) in (now, p <| p2_chain := bc |>).

Definition net (f : nat → string → bool) (target : string) (p : P2PNode) : bool * P2PNode :=
  (f (nd_ticks (p2_chain p)) target, p <| p2_chain ::= tick |>).

Definition seenMessageID (id : string) (p : P2PNode) : bool * P2PNode :=
  let '(now, p) := Now p in
  let '(cutNow, p) := Now p in
  let '(b, seen) := P2P.seenMessageID (p2_seenMsgIDs p) now cutNow id in
  (b, p <| p2_seenMsgIDs := seen |>).

(** ** Connections *)

Definition cleanupPeerLocked (target : string) (p : P2PNode) : P2PNode :=
  p <| p2_conns ::= λ c, c ∖ {[target]} |>.

Definition ensurePeerConn (target : string) (p : P2PNode) : bool * P2PNode :=
  let '(alive, p) := if bool_decide (target ∈ p2_conns p) then net conn_alive target p
                     else (false, p) in
  if alive : bool then (true, p) else
  let p := cleanupPeerLocked target p in
  let '(now, p) := Now p in
  if negb (allowDial (p2_dialBackoff p) now target) then (false, p) else
  let '(dialed, p) := net dial target p in
  if negb dialed then
    let '(since, p) := Now p in
    let '(now, p) := Now p in
    (false, p <| p2_dialBackoff ::= λ b, recordDialFailure b since now target |>)
  else (true, p <| p2_conns ::= union {[target]} |>).

Definition writePeer (target : string) (p : P2PNode) : bool * P2PNode :=
  let '(connected, p) := ensurePeerConn target p in
  if negb connected then (false, cleanupPeerLocked target p) else
  let '(written, p) := net write_ok target p in
  if negb written then (false, cleanupPeerLocked target p) else (true, p).

Definition pubKey (p : P2PNode) : string * P2PNode :=
  let '(k, bc) := selectValidatorPubKey (p2_chain p) in (k, p <| p2_chain := bc |>).

(** The greeting of [connectToPeers]; the peers it goes to, one goroutine each.
    The loop stops at the first peer when there are more than [maxPeers]. *)
Definition hello (p : P2PNode) (key : string) (height : Z) : p2pMessage :=
  mkp2pMessage "hello" (p2_addr p) "" "" None [] None
    (Some (mkNodeInfo (advertisedAddr p) (p2_peers p) key height)) None "".

Definition connect_peer (p : P2PNode) (target : string) : P2PNode :=
  let '(_, p) := pubKey p in (writePeer target p).2.

Definition connectToPeers (p : P2PNode) : P2PNode :=
  if p2_maxPeers p <? blen (p2_peers p) then p else
  foldl connect_peer p (filter (λ peer, peer ≠ "" ∧ peer ≠ p2_addr p) (p2_peers p)).

Definition trusts (p : P2PNode) (peer : string) : bool := default false (p2_trustedPeers p !! peer).

(** ** Messages *)

(** One peer of [relayToPeers]. *)
Definition relay_one (msg : p2pMessage) (remote : string) (acc : P2PNode * list string) (peer : string)
    : P2PNode * list string :=
  let '(p, sent) := acc in
  if bool_decide (peer = "") || bool_decide (peer = p2_addr p) || bool_decide (peer = remote) ||
     negb (trusts p peer) then (p, sent) else
  let '(seen, p) := if bool_decide (pm_StreamID msg = "") then (false, p)
                    else seenMessageID (pm_StreamID msg) p in
  if seen : bool then (p, sent) else
  let '(_, p) := writePeer peer p in (p, sent ++ [peer]).

Definition relayToPeers (msg : p2pMessage) (remote : string) (p : P2PNode) : P2PNode * list string :=
  foldl (relay_one msg remote) (p, []) (p2_peers p).

(** What a message leads to: the replies to its sender, the peers it was relayed
    to, and the new state. *)
Definition result : Type := list p2pMessage * list string * P2PNode.

Definition relayed (msg : p2pMessage) (remote : string) (p : P2PNode) : result :=
  let '(p, sent) := relayToPeers msg remote p in ([], sent, p).

(** The section under [chain.mu] that appends a block that fits. *)
Definition append_block (block : Block) (bc : Blockchain) : Blockchain :=
  match last (nd_Chain bc) with
  | Some tail =>
      if (i64 (blk_Index block) =? blen (nd_Chain bc)) &&
         bool_decide (blk_BlockHash tail = blk_PreviousHash block)
      then (saveToDisk (bc <| nd_Chain ::= λ l, l ++ [block] |>)).2
      else bc
  | None => bc
  end.

Definition handle_block (msg : p2pMessage) (block : Block) (remote : string) (p : P2PNode) : result :=
  let p := match pm_State msg with
           | Some state => p <| p2_chain ::= λ bc, applyLedgerState bc state |>
           | None => p
           end in
  let '(replaced, p) :=
    match pm_Chain msg with
    | [] => (false, p)
    | chain => let '(b, bc) := replaceChain (p2_chain p) chain in (b, p <| p2_chain := bc |>)
    end in
  if replaced : bool then ([], [], p) else relayed msg remote (p <| p2_chain ::= append_block block |>).

(** The block message a newcomer is sent: the whole chain and the ledger. *)
Definition sync_message (p : P2PNode) : list p2pMessage * P2PNode :=
  match last (nd_Chain (p2_chain p)) with
  | None => ([], p)
  | Some tail =>
      let '(now, p) := Now p in
      ([mkp2pMessage "block" "" "" "" (Some tail) (nd_Chain (p2_chain p)) None None
          (Some (ledgerState (p2_chain p))) ("sync-" +:+ FormatInt now)], p)
  end.

Definition handle_hello (info : NodeInfo) (conn : bool) (p : P2PNode) : list p2pMessage * P2PNode :=
  let address := inf_Address info in
  if p2_strictMode p && (p2_maxPeers p <=? blen (p2_peers p)) then ([], p) else
  if bool_decide (address = "") || bool_decide (address = p2_addr p) ||
     bool_decide (address = advertisedAddr p) then ([], p) else
  if p2_strictMode p && negb (bool_decide (inf_ValidatorPubKey info = "")) &&
     negb (isActiveValidatorPubKey (p2_chain p) (inf_ValidatorPubKey info)) then ([], p) else
  let known := bool_decide (address ∈ p2_peers p) in
  let p := p <| p2_peerScores ::= <[address := 1]> |> <| p2_trustedPeers ::= <[address := true]> |> in
  let p := if known then p else p <| p2_peers ::= λ l, l ++ [address] |> in
  let p := if conn then p <| p2_conns ::= union {[address]} |> else p in
  let '(since, p) := Now p in
  let '(now, p) := Now p in
  let due := match p2_helloReplies p !! address with
             | None => true
             | Some last => 20 * Second <? time_Sub since last
             end in
  let p := if due then p <| p2_helloReplies ::= <[address := now]> |> else p in
  if negb known || due then
    let '(key, p) := pubKey p in
    let greeting := hello p key (u64 (blen (nd_Chain (p2_chain p)))) in
    let '(sync, p) := sync_message p in (greeting :: sync, p)
  else if inf_Height info <? u64 (blen (nd_Chain (p2_chain p))) then sync_message p
  else ([], p).

Definition processMessage (msg : p2pMessage) (remote : string) (conn : bool) (p : P2PNode) : result :=
  let '(duplicate, p) := if bool_decide (pm_StreamID msg = "") then (false, p)
                         else seenMessageID (pm_StreamID msg) p in
  if duplicate : bool then ([], [], p) else
  match (if bool_decide (pm_Type msg = "block") then pm_Block msg else None) with
  | Some block => handle_block msg block remote p
  | None =>
  match (if bool_decide (pm_Type msg = "tx") then pm_Tx msg else None) with
  | Some tx => relayed msg remote (p <| p2_chain ::= λ bc, EnqueueTransaction bc tx |>)
  | None =>
  match (if bool_decide (pm_Type msg = "state") then pm_State msg else None) with
  | Some state => relayed msg remote (p <| p2_chain ::= λ bc, applyLedgerState bc state |>)
  | None =>
  match (if bool_decide (pm_Type msg = "hello") then pm_Peer msg else None) with
  | Some info => let '(replies, p) := handle_hello info conn p in (replies, [], p)
  | None => ([], [], p)
  end end end end.

(** The loop over the lines of a connection; a line that is too long or does not
    decode ends it.  The replies are written to the connection. *)
Fixpoint handleConn (decode : string → option p2pMessage) (remote : string) (lines : list string)
    (p : P2PNode) : list p2pMessage * P2PNode :=
  match lines with
  | [] => ([], p)
  | line :: lines =>
      let line := TrimSpace line in
      if bool_decide (line = "") then handleConn decode remote lines p else
      if 5 * 1024 * 1024 <? Z.of_nat (String.length line) then ([], p) else
      match decode line with
      | None => ([], p)
      | Some msg =>
          let '(replies, _, p) := processMessage msg remote true p in
          let '(more, p) := handleConn decode remote lines p in (replies ++ more, p)
      end
  end.

(** ** Broadcasts and the relay *)

Definition broadcast_one (acc : P2PNode * list string) (peer : string) : P2PNode * list string :=
  let '(p, sent) := acc in
  if bool_decide (peer = "") || bool_decide (peer = p2_addr p) || negb (trusts p peer)
  then (p, sent) else
  let '(written, p) := writePeer peer p in (p, if written : bool then sent ++ [peer] else sent).

(** The message that goes to the relay; nothing without one. *)
Definition relayPush (p : P2PNode) (msg : p2pMessage) : option p2pMessage :=
  if bool_decide (p2_relayURL p = "") then None
  else Some (msg <| pm_NodeID := p2_nodeID p |> <| pm_From := p2_nodeID p |>).

(** The message with its identifier, the peers it was written to, and what is
    pushed to the relay. *)
Definition broadcastMessage (msg : p2pMessage) (p : P2PNode)
    : p2pMessage * list string * option p2pMessage * P2PNode :=
  let '(now, p) := Now p in
  let msg := msg <| pm_StreamID := FormatInt now +:+ "-" +:+ FormatInt (blen (p2_peers p)) |> in
  let '(p, sent) := foldl broadcast_one (p, []) (p2_peers p) in
  (msg, sent, relayPush p msg, p).

Definition broadcastTransaction (tx : Transaction) (p : P2PNode) :=
  broadcastMessage (mkp2pMessage "tx" "" "" "" None [] (Some tx) None None "") p.

Definition broadcastBlock (block : Block) (p : P2PNode) :=
  broadcastMessage (mkp2pMessage "block" "" "" "" (Some block) [] None None
    (Some (ledgerState (p2_chain p))) "") p.

Definition broadcastState (state : LedgerState) (p : P2PNode) :=
  broadcastMessage (mkp2pMessage "state" "" "" "" None [] None None (Some state) "") p.

Definition announceRelay (p : P2PNode) : option p2pMessage * P2PNode :=
  if bool_decide (p2_relayURL p = "") then (None, p) else
  let '(key, p) := pubKey p in
  let msg := (hello p key (u64 (blen (nd_Chain (p2_chain p))))) <| pm_From := "" |> in
  let '(now, p) := Now p in
  (relayPush p (msg <| pm_StreamID := "announce-" +:+ FormatInt now |>), p).

(** One message of a pull, and what is pushed back. *)
Definition pulled_one (acc : list (option p2pMessage) * P2PNode) (msg : p2pMessage)
    : list (option p2pMessage) * P2PNode :=
  let '(pushed, p) := acc in
  if bool_decide (pm_NodeID msg = p2_nodeID p) then (pushed, p) else
  let '(replies, _, p) := processMessage msg ("relay:" +:+ pm_NodeID msg) false p in
  (pushed ++ map (λ reply, relayPush p (reply <| pm_To := pm_NodeID msg |>)) replies, p).

(** [pull] is what the relay answers: [None] when the request or the decoding
    fails. *)
Definition relayPollOnce (pull : option (list p2pMessage)) (p : P2PNode)
    : list (option p2pMessage) * P2PNode :=
  if bool_decide (p2_relayURL p = "") then ([], p) else
  let '(since, p) := Now p in
  if time_Sub since (p2_relayLastPull p) <? Second then ([], p) else
  let '(now, p) := Now p in
  let p := p <| p2_relayLastPull := now |> in
  match pull with
  | None => ([], p)
  | Some msgs => foldl pulled_one ([], p) msgs
  end.
End p2p.

Implicit Types (p : P2PNode) (msg : p2pMessage) (bc : Blockchain) (block : Block).

Section safety.
Context `{Runtime} `{Ed25519} `{Network}.

(** ** Frames *)

(** What network operations leave alone. *)
Definition io_frame p p' : Prop :=
  p2_peers p' = p2_peers p ∧ p2_strictMode p' = p2_strictMode p ∧ p2_maxPeers p' = p2_maxPeers p ∧
  ∃ n, p2_chain p' = at_tick n (p2_chain p).

Lemma io_frame_refl p : io_frame p p.
Proof. split_and!; try done. exists (nd_ticks (p2_chain p)). by rewrite at_tick_self. Qed.

Lemma io_frame_trans p1 p2 p3 : io_frame p1 p2 → io_frame p2 p3 → io_frame p1 p3.
Proof.
  intros (E1 & E2 & E3 & n & E4) (F1 & F2 & F3 & k & F4). unfold io_frame.
  rewrite F1, F2, F3, F4, E1, E2, E3, E4. split_and!; try done. by exists k.
Qed.

Lemma writePeer_frame target p :
  io_frame p (writePeer target p).2 ∧ p2_seenMsgIDs (writePeer target p).2 = p2_seenMsgIDs p.
Proof.
  assert (∀ q, io_frame p q ∧ p2_seenMsgIDs q = p2_seenMsgIDs p →
    io_frame p (cleanupPeerLocked target q) ∧
    p2_seenMsgIDs (cleanupPeerLocked target q) = p2_seenMsgIDs p) as Hc by done.
  assert (io_frame p (ensurePeerConn target p).2 ∧
          p2_seenMsgIDs (ensurePeerConn target p).2 = p2_seenMsgIDs p) as He.
  { unfold ensurePeerConn, net, Now, UnixNano. cbv zeta. unfold io_frame.
    repeat case_match; simplify_eq; cbn; (split; [split_and!; try done|done]);
      eexists; rewrite ?tick_at; first [reflexivity|by rewrite at_tick_self]. }
  unfold writePeer. destruct (ensurePeerConn target p) as [[] q]; cbn [snd negb] in *; [|by apply Hc].
  unfold net. cbn. destruct He as [(E1 & E2 & E3 & n & E4) E5].
  assert (io_frame p (q <| p2_chain ::= tick |>) ∧
          p2_seenMsgIDs (q <| p2_chain ::= tick |>) = p2_seenMsgIDs p) as Hq.
  { split; [|done]. split_and!; try done. cbn. rewrite E4. eexists. rewrite tick_at. reflexivity. }
  destruct (write_ok _ _); cbn [negb snd]; [done|by apply Hc].
Qed.

Lemma seenMessageID_frame id p :
  io_frame p (seenMessageID id p).2 ∧
  p2_seenMsgIDs (seenMessageID id p).2 =
    (P2P.seenMessageID (p2_seenMsgIDs p) (clock (nd_ticks (p2_chain p)))
       (clock (S (nd_ticks (p2_chain p)))) id).2 ∧
  (seenMessageID id p).1 =
    (P2P.seenMessageID (p2_seenMsgIDs p) (clock (nd_ticks (p2_chain p)))
       (clock (S (nd_ticks (p2_chain p)))) id).1.
Proof.
  unfold seenMessageID, Now, UnixNano. cbv zeta. cbn.
  destruct (P2P.seenMessageID _ _ _ _) as [b seen]. cbn. split; [|done].
  split_and!; try done. eexists. rewrite !tick_at. reflexivity.
Qed.

Lemma node_relay_one_frame msg remote p sent peer : io_frame p (relay_one msg remote (p, sent) peer).1.
Proof.
  unfold relay_one. destruct (_ || _); [apply io_frame_refl|].
  assert (∃ b q, (if bool_decide (pm_StreamID msg = "") then (false, p)
    else seenMessageID (pm_StreamID msg) p) = (b, q) ∧ io_frame p q) as (b & q & -> & Hq).
  { case_bool_decide; [exists false, p; split; [done|apply io_frame_refl]|].
    destruct (seenMessageID_frame (pm_StreamID msg) p) as [Hf _].
    destruct (seenMessageID _ p) as [b q]. by exists b, q. }
  destruct b; [done|]. destruct (writePeer_frame peer q) as [Hw _].
  destruct (writePeer peer q) as [w r]. cbn in *. by eapply io_frame_trans.
Qed.

Lemma relayToPeers_frame msg remote p : io_frame p (relayToPeers msg remote p).1.
Proof.
  unfold relayToPeers. generalize (p2_peers p). intros l.
  apply (foldl_inv (λ acc : P2PNode * list string, io_frame p acc.1)); [|apply io_frame_refl].
  intros [q sent] peer _ Hq. eapply io_frame_trans; [exact Hq|]. apply node_relay_one_frame.
Qed.

Lemma relayed_frame msg remote p :
  io_frame p (relayed msg remote p).2 ∧
  (relayed msg remote p).1 = ([], (relayToPeers msg remote p).2).
Proof.
  unfold relayed. pose proof (relayToPeers_frame msg remote p) as Hf.
  destruct (relayToPeers msg remote p) as [q sent]. done.
Qed.

(** ** Chains stay linked *)

(** Never empty, from index 0, every block following the one before. *)
Definition chain_ok bc : Prop :=
  (∃ genesis rest, nd_Chain bc = genesis :: rest ∧ blk_Index genesis = 0) ∧ linked (nd_Chain bc).

Lemma chain_ok_same bc bc' : nd_Chain bc' = nd_Chain bc → chain_ok bc → chain_ok bc'.
Proof. unfold chain_ok. by intros ->. Qed.

Lemma node_linked_index l genesis rest :
  l = genesis :: rest → blk_Index genesis = 0 → linked l →
  ∀ i b, l !! i = Some b → blk_Index b = u64 (Z.of_nat i).
Proof.
  intros -> Hg Hl i. induction i as [|i IH]; intros b Hb.
  - cbn in Hb. injection Hb as <-. by rewrite Hg.
  - destruct (lookup_lt_is_Some_2 (genesis :: rest) i) as [c Hc].
    { apply lookup_lt_Some in Hb. lia. }
    destruct (Hl i c b Hc Hb) as [-> _]. rewrite (IH c Hc), u64_add_l. f_equal. lia.
Qed.

Lemma linked_snoc l x c : linked l → last l = Some x → follows x c → linked (l ++ [c]).
Proof.
  intros Hl Hx Hf i a b Ha Hb. rewrite last_lookup in Hx.
  destruct (decide (S i < length l)%nat) as [Hlt|Hge].
  - rewrite lookup_app_l in Ha, Hb by lia. by eapply Hl.
  - assert (S i = length l) as Hi.
    { apply lookup_lt_Some in Hb. rewrite length_app in Hb. cbn in Hb. lia. }
    rewrite lookup_app_l in Ha by lia. rewrite Hi, list_lookup_middle in Hb by done.
    rewrite <- Hi in Hx. cbn in Hx. by simplify_eq.
Qed.

Lemma chain_ok_snoc bc bc' prev block :
  chain_ok bc → last (nd_Chain bc) = Some prev → follows prev block →
  nd_Chain bc' = nd_Chain bc ++ [block] → chain_ok bc'.
Proof.
  intros [(g & rest & E & Hg) Hl] Hp Hf Hc. unfold chain_ok. rewrite Hc. split.
  - exists g, (rest ++ [block]). by rewrite E.
  - by eapply linked_snoc.
Qed.

Lemma validate_links_linked chain : ∀ bc prev,
  (validate_links bc prev chain).1 = Ok tt → linked (prev :: chain).
Proof.
  induction chain as [|b chain IH]; intros bc prev; [intros _; apply linked_singleton|].
  cbn [validate_links]. destruct (validateBlock bc b prev) as [o bc2] eqn:Ev.
  assert ((validateBlock bc b prev).1 = o) as Eo by by rewrite Ev.
  destruct o as [[]|e|e]; [|done|done]. apply validateBlock_accepts in Eo as (Hf & _ & _).
  intros Hc. apply node_linked_cons. split; [done|]. by eapply IH.
Qed.

Lemma validate_links_frame chain : ∀ bc prev, ∃ n, (validate_links bc prev chain).2 = at_tick n bc.
Proof.
  induction chain as [|b chain IH]; intros bc prev; cbn [validate_links].
  { exists (nd_ticks bc). by rewrite at_tick_self. }
  destruct (validateBlock_frame bc b prev) as [n E].
  destruct (validateBlock bc b prev) as [[[]|e|e] bc2]; cbn [snd] in E; subst bc2; [|by exists n..].
  destruct (IH (at_tick n bc) b) as [k ->]. by exists k.
Qed.

Lemma replaceChain_ok bc chain : chain_ok bc → chain_ok (replaceChain bc chain).2.
Proof.
  intros Hok. unfold replaceChain.
  assert (∃ n, (validateChain bc chain).2 = at_tick n bc) as [n E].
  { unfold validateChain. destruct chain as [|g rest]; [exists (nd_ticks bc); by rewrite at_tick_self|].
    destruct (negb _); [exists (nd_ticks bc); by rewrite at_tick_self|]. apply validate_links_frame. }
  destruct (validateChain bc chain) as [o b] eqn:Ev. cbn [snd] in E. subst b.
  destruct o as [[]|e|e]; [|done|done]. destruct (_ <=? _); [done|]. cbn [snd].
  assert (nd_Chain (saveToDisk (appendAuditEntry ((at_tick n bc) <| nd_Chain := chain |>)
    "chain_replaced" "network" ("height=" +:+ FormatInt (blen chain)))).2 = chain) as Hc.
  { match goal with |- nd_Chain (saveToDisk ?x).2 = _ =>
      destruct (saveToDisk_core x) as [Ec _] end. unfold chain_and_pool in Ec. by injection Ec. }
  unfold chain_ok. rewrite Hc. unfold validateChain in Ev.
  destruct chain as [|g rest]; [done|]. destruct (blk_Index g =? 0) eqn:Eg; [|done]. prop_bools.
  split; [by exists g, rest|]. eapply (validate_links_linked rest bc). cbn [negb] in Ev. by rewrite Ev.
Qed.

Lemma applyLedgerState_chain bc state : nd_Chain (applyLedgerState bc state) = nd_Chain bc.
Proof.
  unfold applyLedgerState. cbv zeta.
  destruct (sync_accounts_frame (range_map (nd_ticks bc) (ls_Ledger state)) (tick bc)) as (_ & _ & E).
  destruct (ls_Authorities state), (0 <? ls_TokenSupply state); cbn; exact E.
Qed.

Lemma EnqueueTransaction_chain bc tx : nd_Chain (EnqueueTransaction bc tx) = nd_Chain bc.
Proof.
  unfold EnqueueTransaction, with_ID, enqueue, UnixNano. cbv zeta. by repeat case_match; simplify_eq.
Qed.

Lemma io_frame_chain_ok p p' : io_frame p p' → chain_ok (p2_chain p) → chain_ok (p2_chain p').
Proof. intros (_ & _ & _ & n & E). rewrite E. by apply chain_ok_same. Qed.

(** The index of a decoded block is a [uint64]. *)
Definition typed_message msg : Prop :=
  ∀ block, pm_Block msg = Some block → is_u64 (blk_Index block).

Lemma append_block_ok block bc : is_u64 (blk_Index block) → chain_ok bc → chain_ok (append_block block bc).
Proof.
  intros Hu Hok. unfold append_block. destruct (last (nd_Chain bc)) as [tail|] eqn:El; [|done].
  destruct (_ && _) eqn:Ec; [|done]. prop_bools. destruct Hok as [(g & rest & Eg & Hg) Hl].
  destruct (saveToDisk_core (bc <| nd_Chain ::= λ l, l ++ [block] |>)) as [Es _].
  unfold chain_and_pool in Es. injection Es as Es _.
  eapply (chain_ok_snoc bc _ tail block); [split; [by exists g, rest|done]|done| |exact Es].
  split; [|done]. rewrite last_lookup in El.
  rewrite (node_linked_index _ g rest Eg Hg Hl _ _ El), u64_add_l.
  rewrite <- (u64_small (blk_Index block) Hu). unfold i64 in *. unfold u64.
  assert (blen (nd_Chain bc) = Z.of_nat (Init.Nat.pred (length (nd_Chain bc))) + 1) as Eb.
  { unfold blen. rewrite Eg. cbn. lia. }
  rewrite <- Eb. match goal with E : _ = blen _ |- _ => rewrite <- E end.
  rewrite Zminus_mod_idemp_l. f_equal. lia.
Qed.

Lemma sync_message_frame p : io_frame p (sync_message p).2.
Proof.
  unfold sync_message. destruct (last _); [|apply io_frame_refl]. unfold Now, UnixNano. cbn.
  split_and!; try done. eexists. rewrite tick_at. reflexivity.
Qed.

Lemma pubKey_frame p : io_frame p (pubKey p).2.
Proof.
  unfold pubKey. assert (∃ n, (selectValidatorPubKey (p2_chain p)).2 = at_tick n (p2_chain p)) as [n E].
  { unfold selectValidatorPubKey. cbv zeta. repeat case_match; cbn; eexists; rewrite ?tick_at; reflexivity. }
  destruct (selectValidatorPubKey (p2_chain p)) as [k bc]. cbn [snd] in *. subst bc.
  split_and!; try done. by exists n.
Qed.

Lemma Now_frame p : io_frame p (Now p).2.
Proof.
  unfold Now, UnixNano. cbn. split_and!; try done. eexists. rewrite tick_at. reflexivity.
Qed.

(** What a greeting does to the peers: nothing, or it adds an unknown address,
    which a strict node at its limit does not. *)
Definition greeted p p' : Prop :=
  p2_strictMode p' = p2_strictMode p ∧ p2_maxPeers p' = p2_maxPeers p ∧
  (∃ n, p2_chain p' = at_tick n (p2_chain p)) ∧
  (p2_peers p' = p2_peers p ∨
   ∃ address, p2_peers p' = p2_peers p ++ [address] ∧ address ∉ p2_peers p ∧
     (p2_strictMode p = true → blen (p2_peers p) < p2_maxPeers p)).

Lemma greeted_io p p1 p2 : greeted p p1 → io_frame p1 p2 → greeted p p2.
Proof.
  intros (E1 & E2 & (n & E3) & E4) (F1 & F2 & F3 & k & F4). unfold greeted.
  rewrite F1, F2, F3, F4, E1, E2, E3. split_and!; try done. by exists k.
Qed.

Lemma io_greeted p p' : io_frame p p' → greeted p p'.
Proof. intros (F1 & F2 & F3 & k & F4). split_and!; try done; [by exists k|by left]. Qed.

Lemma handle_hello_greeted info conn p : greeted p (handle_hello info conn p).2.
Proof.
  unfold handle_hello. cbv zeta. pose proof (io_greeted p p (io_frame_refl p)) as Hself.
  destruct (p2_strictMode p && (p2_maxPeers p <=? blen (p2_peers p))) eqn:Efull; [done|].
  destruct (_ || _); [done|]. destruct (_ && negb (isActiveValidatorPubKey _ _)); [done|].
  set (address := inf_Address info).
  match goal with |- context [Now ?x] => set (p1 := x) end.
  assert (greeted p p1) as Hp1.
  { unfold p1. case_bool_decide as Hk; destruct conn; cbn.
    1,2: split_and!; try done; [exists (nd_ticks (p2_chain p)); cbn; by rewrite at_tick_self|by left].
    all: split_and!; try done; [exists (nd_ticks (p2_chain p)); cbn; by rewrite at_tick_self|right];
      exists address; split_and!; try done; intros Hs; rewrite Hs in Efull; cbn in Efull;
      prop_bools; lia. }
  clearbody p1. pose proof (Now_frame p1) as Hn1. destruct (Now p1) as [since p2]. cbn [snd] in Hn1.
  pose proof (Now_frame p2) as Hn2. destruct (Now p2) as [now q]. cbn [snd] in Hn2.
  match goal with |- context [if ?b then q <| p2_helloReplies ::= ?f |> else q] =>
    set (r := if b then q <| p2_helloReplies ::= f |> else q) end.
  assert (io_frame p1 r) as Hr.
  { eapply io_frame_trans; [exact Hn1|]. eapply io_frame_trans; [exact Hn2|].
    unfold r. case_match; [|apply io_frame_refl]. apply (io_frame_refl q). }
  pose proof (greeted_io _ _ _ Hp1 Hr) as Hgr. clearbody r. destruct (negb _ || _).
  - pose proof (pubKey_frame r) as Hk. destruct (pubKey r) as [key r1]. cbn [snd] in Hk.
    pose proof (sync_message_frame r1) as Hs. destruct (sync_message r1) as [sync r2].
    cbn [snd] in *. by repeat (eapply greeted_io; [|done]).
  - destruct (_ <? _); [|done]. eapply greeted_io; [done|apply sync_message_frame].
Qed.

(** ** Messages *)

Lemma processMessage_cases msg remote conn p :
  let p' := (processMessage msg remote conn p).2 in
  (∃ q, io_frame p q ∧ ∃ block, pm_Block msg = Some block ∧ p' = (handle_block msg block remote q).2) ∨
  (∃ q, io_frame p q ∧ greeted q p') ∨
  (∃ q bc, io_frame p q ∧ nd_Chain bc = nd_Chain (p2_chain q) ∧
     io_frame (q <| p2_chain := bc |>) p').
Proof.
  unfold processMessage. cbv zeta.
  assert (∃ b q, (if bool_decide (pm_StreamID msg = "") then (false, p)
    else seenMessageID (pm_StreamID msg) p) = (b, q) ∧ io_frame p q) as (b & q & -> & Hq).
  { case_bool_decide; [exists false, p; split; [done|apply io_frame_refl]|].
    destruct (seenMessageID_frame (pm_StreamID msg) p) as [Hf _].
    destruct (seenMessageID _ p) as [b q]. by exists b, q. }
  assert (∃ q', io_frame p q' ∧ greeted q' q) as Hsame
    by (exists q; split; [done|apply io_greeted, io_frame_refl]).
  destruct b; [by right; left|].
  destruct (if bool_decide (pm_Type msg = "block") then pm_Block msg else None) as [block|] eqn:E1.
  { left. exists q. split; [done|]. exists block. by case_bool_decide. }
  destruct (if bool_decide (pm_Type msg = "tx") then pm_Tx msg else None) as [tx|].
  { right; right. exists q, (EnqueueTransaction (p2_chain q) tx).
    split; [done|]. split; [apply EnqueueTransaction_chain|]. apply relayed_frame. }
  destruct (if bool_decide (pm_Type msg = "state") then pm_State msg else None) as [st|].
  { right; right. exists q, (applyLedgerState (p2_chain q) st).
    split; [done|]. split; [apply applyLedgerState_chain|]. apply relayed_frame. }
  destruct (if bool_decide (pm_Type msg = "hello") then pm_Peer msg else None) as [info|];
    [|by right; left].
  right; left. exists q. split; [done|]. pose proof (handle_hello_greeted info conn q) as Hg.
  by destruct (handle_hello info conn q).
Qed.

Lemma handle_block_peers msg block remote p :
  let p' := (handle_block msg block remote p).2 in
  p2_peers p' = p2_peers p ∧ p2_strictMode p' = p2_strictMode p ∧ p2_maxPeers p' = p2_maxPeers p.
Proof.
  cbv zeta. unfold handle_block. cbv zeta.
  set (p1 := match pm_State msg with Some _ => _ | None => p end).
  assert (p2_peers p1 = p2_peers p ∧ p2_strictMode p1 = p2_strictMode p ∧
          p2_maxPeers p1 = p2_maxPeers p) as Hp1 by (unfold p1; by destruct (pm_State msg)).
  clearbody p1.
  assert (∃ b q, match pm_Chain msg with
    | [] => (false, p1)
    | chain => let '(b, bc) := replaceChain (p2_chain p1) chain in (b, p1 <| p2_chain := bc |>)
    end = (b, q) ∧ p2_peers q = p2_peers p ∧ p2_strictMode q = p2_strictMode p ∧
    p2_maxPeers q = p2_maxPeers p) as (b & q & E & Hq).
  { destruct (pm_Chain msg) as [|c l]; [by exists false, p1|].
    destruct (replaceChain (p2_chain p1) (c :: l)) as [b bc]. by eexists _, _. }
  rewrite E. destruct b; [done|].
  match goal with |- context [relayed msg remote ?x] =>
    destruct (relayed_frame msg remote x) as [(-> & -> & -> & _) _] end.
  by repeat case_match.
Qed.

(** Distinct peers within the limit of a strict node. *)
Definition peers_ok p : Prop :=
  NoDup (p2_peers p) ∧ (p2_strictMode p = true → blen (p2_peers p) ≤ p2_maxPeers p).

Lemma node_peers_ok_same p p' :
  p2_peers p' = p2_peers p → p2_strictMode p' = p2_strictMode p → p2_maxPeers p' = p2_maxPeers p →
  peers_ok p → peers_ok p'.
Proof. unfold peers_ok. by intros -> -> ->. Qed.

Lemma greeted_peers_ok p p' : greeted p p' → peers_ok p → peers_ok p'.
Proof.
  intros (E1 & E2 & _ & [E|(address & E & Hni & Hlt)]) [Hnd Hle]; [by eapply node_peers_ok_same|].
  unfold peers_ok. rewrite E, E1, E2. split.
  - apply NoDup_app. split_and!; [done|set_solver|apply NoDup_singleton].
  - intros Hs. specialize (Hlt Hs). rewrite blen_app. unfold blen in *. cbn [length]. lia.
Qed.

Lemma processMessage_peers_ok msg remote conn p :
  peers_ok p → peers_ok (processMessage msg remote conn p).2.
Proof.
  intros Hok. destruct (processMessage_cases msg remote conn p)
    as [(q & Hq & block & Eb & ->)|[(q & Hq & Hg)|(q & bc & Hq & Ec & Hf)]];
    destruct Hq as (F1 & F2 & F3 & _); pose proof (node_peers_ok_same p q F1 F2 F3 Hok) as Hq.
  - destruct (handle_block_peers msg block remote q) as (E1 & E2 & E3). by eapply node_peers_ok_same.
  - by eapply greeted_peers_ok.
  - destruct Hf as (E1 & E2 & E3 & _). by eapply (node_peers_ok_same q).
Qed.

(** ** Broadcasts travel one hop *)

Lemma relayed_seen_nothing msg remote p :
  pm_StreamID msg ≠ "" → is_Some (p2_seenMsgIDs p !! pm_StreamID msg) →
  (relayToPeers msg remote p).2 = [].
Proof.
  intros Hid Hs. unfold relayToPeers. generalize (p2_peers p). intros l.
  apply (foldl_inv (λ acc : P2PNode * list string,
    is_Some (p2_seenMsgIDs acc.1 !! pm_StreamID msg) ∧ acc.2 = []) _ (p, []) l); [|done].
  intros [q sent] peer _ [[t Ht] E]. cbn [fst snd] in *. subst sent. unfold relay_one.
  destruct (_ || _); [by eauto|]. rewrite bool_decide_false by done.
  destruct (seenMessageID_frame (pm_StreamID msg) q) as (_ & E1 & E2).
  unfold P2P.seenMessageID in E1, E2. rewrite bool_decide_false, Ht in E1, E2 by done.
  destruct (seenMessageID (pm_StreamID msg) q) as [b q2]. cbn [fst snd] in *. subst b.
  split; [|done]. cbn [fst]. rewrite E1, Ht. by eauto.
Qed.

Lemma handle_block_unrelayed msg block remote p :
  pm_StreamID msg ≠ "" → is_Some (p2_seenMsgIDs p !! pm_StreamID msg) →
  (handle_block msg block remote p).1.2 = [].
Proof.
  intros Hid Hs. unfold handle_block. cbv zeta.
  set (p1 := match pm_State msg with Some _ => _ | None => p end).
  assert (p2_seenMsgIDs p1 = p2_seenMsgIDs p) as E1 by (unfold p1; by destruct (pm_State msg)).
  clearbody p1.
  assert (∃ b q, match pm_Chain msg with
    | [] => (false, p1)
    | chain => let '(b, bc) := replaceChain (p2_chain p1) chain in (b, p1 <| p2_chain := bc |>)
    end = (b, q) ∧ p2_seenMsgIDs q = p2_seenMsgIDs p) as (b & q & E & Eq).
  { destruct (pm_Chain msg) as [|c l]; [by exists false, p1|].
    destruct (replaceChain (p2_chain p1) (c :: l)) as [b bc]. by eexists _, _. }
  rewrite E. destruct b; [done|].
  match goal with |- context [relayed msg remote ?x] =>
    destruct (relayed_frame msg remote x) as [_ ->]; apply (relayed_seen_nothing msg remote x) end;
    [done|]. rewrite <- Eq in Hs. by repeat case_match.
Qed.

Lemma processMessage_unrelayed msg remote conn p :
  steady_clock → pm_StreamID msg ≠ "" → (processMessage msg remote conn p).1.2 = [].
Proof.
  intros Hclock Hid. unfold processMessage. rewrite bool_decide_false by done.
  destruct (seenMessageID_frame (pm_StreamID msg) p) as (_ & E1 & _).
  pose proof (seenMessageID_new (p2_seenMsgIDs p) (clock (nd_ticks (p2_chain p)))
    (clock (S (nd_ticks (p2_chain p)))) (pm_StreamID msg) Hid (Hclock _)) as Hs.
  rewrite <- E1 in Hs. destruct (seenMessageID (pm_StreamID msg) p) as [[] q]; [done|].
  cbn [snd] in *.
  destruct (if bool_decide (pm_Type msg = "block") then pm_Block msg else None) as [block|].
  { by apply handle_block_unrelayed. }
  assert (∀ bc, (relayed msg remote (q <| p2_chain := bc |>)).1.2 = []) as Hr.
  { intros bc. destruct (relayed_frame msg remote (q <| p2_chain := bc |>)) as [_ ->].
    by apply (relayed_seen_nothing msg remote). }
  destruct (if bool_decide (pm_Type msg = "tx") then pm_Tx msg else None) as [tx|]; [apply Hr|].
  destruct (if bool_decide (pm_Type msg = "state") then pm_State msg else None) as [st|]; [apply Hr|].
  destruct (if bool_decide (pm_Type msg = "hello") then pm_Peer msg else None) as [info|]; [|done].
  by destruct (handle_hello info conn q).
Qed.

(** Whatever a node broadcasts, no node that receives it passes it on: the
    broadcast gives it an identifier, and the loop that relays a message finds its
    identifier already marked as seen by the reception itself. *)
Theorem broadcasts_travel_one_hop msg sender remote conn p :
  steady_clock →
  let '(sent, _, _, _) := broadcastMessage msg sender in
  (processMessage sent remote conn p).1.2 = [].
Proof.
  intros Hclock. unfold broadcastMessage, Now, UnixNano.
  destruct (foldl _ _ _) as [q sent]. apply processMessage_unrelayed; [done|].
  change (pm_StreamID _) with (FormatInt (clock (nd_ticks (p2_chain sender))) +:+ "-" +:+
    FormatInt (blen (p2_peers sender))).
  destruct (FormatInt (clock _)); done.
Qed.
End safety.
