(* ===== verification/NodeApi.v ===== *)
(** * The node program: the HTTP server (go-chain/main.go)

    [serverConfigFromEnv], the flags of [main] and the peer node it starts with,
    and [startAPI] as a function of a request and the state of the server: one
    definition [h_...] per endpoint, [mux] and the outer handler [serve], which
    asks for the key before any method that writes.

    The handlers run in the monad of [Api]: they may answer early, panic or
    block on [chain.mu].  A search for a proof of work that does not end holds the
    lock.  What is broadcast is computed by [NodeP2P]; the handlers drop it. *)

From S2P Require Import Prelude Runtime Float64 Text Sha256 Domain Json Merkle Tendermint State Accounts Validation Mempool Mining Keys Limits P2P Node NodeChain NodeLedger NodeMining NodeP2P.
From S2P Require Api.
Open Scope Z_scope.
Open Scope go_scope.

(** ** Configuration *)

Record serverConfig := mkserverConfig {
  nc_APIKey : string; nc_EnableAuth : bool; nc_RateLimit : Z; nc_RateWindow : Z;
  nc_EnableTLS : bool; nc_MetricsPath : string; nc_APIPort : Z; nc_P2PPort : Z;
  nc_DataDir : string; nc_Consensus : string; nc_StrictP2P : bool; nc_BootstrapPeers : string;
  nc_AdvertiseAddr : string; nc_RelayURL : string; nc_NodeID : string }.

#[export] Instance serverConfig_rebuild : Rebuild serverConfig := λ r,
  mkserverConfig (nc_APIKey r) (nc_EnableAuth r) (nc_RateLimit r) (nc_RateWindow r)
    (nc_EnableTLS r) (nc_MetricsPath r) (nc_APIPort r) (nc_P2PPort r) (nc_DataDir r)
    (nc_Consensus r) (nc_StrictP2P r) (nc_BootstrapPeers r) (nc_AdvertiseAddr r) (nc_RelayURL r)
    (nc_NodeID r).

Definition serverConfigFromEnv `{Runtime} (env : string → string) : serverConfig :=
  mkserverConfig (getEnvOrDefault env "TENDER_API_KEY" "")
    (getEnvBoolOrDefault env "TENDER_ENABLE_AUTH" true)
    (getEnvIntOrDefault env "TENDER_RATE_LIMIT" 60)
    (i64 (getEnvIntOrDefault env "TENDER_RATE_WINDOW_SECONDS" 60 * Second))
    false
    (getEnvOrDefault env "TENDER_METRICS_PATH" "/metrics")
    (getEnvIntOrDefault env "TENDER_API_PORT" 8080)
    (getEnvIntOrDefault env "TENDER_P2P_PORT" 3030)
    (getEnvOrDefault env "TENDER_DATA_DIR" "./data")
    (ToLower (getEnvOrDefault env "TENDER_CONSENSUS" "pos"))
    (getEnvBoolOrDefault env "TENDER_STRICT_P2P" true)
    (getEnvOrDefault env "TENDER_BOOTSTRAP_PEERS" "")
    (getEnvOrDefault env "TENDER_ADVERTISE_ADDR" "")
    (getEnvOrDefault env "TENDER_RELAY_URL" "")
    (getEnvOrDefault env "TENDER_NODE_ID" "").

(** The command line, parsed. *)
Record nodeFlags := mknodeFlags {
  fl_apiPort : Z; fl_p2pPort : Z; fl_peer : string; fl_bootstrapPeers : string;
  fl_dataDir : string; fl_consensus : string; fl_strictP2P : bool; fl_apiKey : string;
  fl_enableAuth : bool; fl_rateLimit : Z; fl_chainID : string; fl_p2pAdvertise : string;
  fl_relayURL : string; fl_nodeID : string }.

(** A flag that was given replaces the value of the environment. *)
Definition override (flag value : string) : string := if bool_decide (flag = "") then value else flag.
Definition overrideZ (flag value : Z) : Z := if flag =? 0 then value else flag.

(** [log.Fatal] without a key. *)
Definition node_config `{Runtime} (env : string → string) (fl : nodeFlags) : outcome serverConfig :=
  let cfg := serverConfigFromEnv env in
  let cfg := cfg <| nc_APIPort ::= overrideZ (fl_apiPort fl) |>
                 <| nc_P2PPort ::= overrideZ (fl_p2pPort fl) |>
                 <| nc_DataDir ::= override (fl_dataDir fl) |>
                 <| nc_Consensus ::= λ c, if bool_decide (fl_consensus fl = "") then c
                                          else ToLower (fl_consensus fl) |>
                 <| nc_StrictP2P ::= orb (fl_strictP2P fl) |>
                 <| nc_APIKey ::= override (fl_apiKey fl) |>
                 <| nc_EnableAuth ::= orb (fl_enableAuth fl) |>
                 <| nc_RateLimit ::= overrideZ (fl_rateLimit fl) |>
                 <| nc_AdvertiseAddr ::= override (fl_p2pAdvertise fl) |>
                 <| nc_RelayURL ::= override (fl_relayURL fl) |>
                 <| nc_NodeID ::= override (fl_nodeID fl) |> in
  if bool_decide (nc_APIKey cfg = "")
  then Err "API key must be set via --api-key or TENDER_API_KEY env var" else Ok cfg.

Definition node_consensus (cfg : serverConfig) : ConsensusType :=
  if bool_decide (nc_Consensus cfg = "poa") then ProofOfAuthority else ProofOfStake.

(** The elements of a comma-separated list ([,] is 44), trimmed, without the
    empty ones. *)
Definition comma : Ascii.ascii := Ascii.ascii_of_nat 44.

Definition bootstrap_list `{Runtime} (s : string) : list string :=
  if bool_decide (s = "") then []
  else filter (λ peer, peer ≠ "") (map TrimSpace (split_on comma s)).

(** The zero [time.Time], in nanoseconds since 1970. *)
Definition zero_time : Z := -62135596800 * Second.

(** The literal of the peer node and the peers of the command line and the
    environment. *)
Definition start_node `{Runtime} (cfg : serverConfig) (fl : nodeFlags) (chain : Blockchain) : P2PNode :=
  let peers := (if bool_decide (fl_peer fl = "") then [] else [fl_peer fl]) ++
    bootstrap_list (fl_bootstrapPeers fl) ++ bootstrap_list (nc_BootstrapPeers cfg) in
  mkP2PNode ("0.0.0.0:" +:+ FormatInt (nc_P2PPort cfg)) (nc_AdvertiseAddr cfg) peers ∅ ∅ chain 50
    (nc_StrictP2P cfg) ∅ ∅ ∅ ∅ (nc_RelayURL cfg) (nc_NodeID cfg) zero_time.

(** What [main] starts: the configuration, the chain, the check of the security
    module, to which the digest [snapshot] of the state is given, and the peers. *)
Definition start_main `{Runtime} (env : string → string) (fl : nodeFlags) (sec : SecurityModule)
    (snapshot : list byte) (file : option nodeState) (genesis : option (outcome genesisFile))
    : outcome (serverConfig * P2PNode) :=
  match node_config env fl with
  | Err e => Err e
  | Panic e => Panic e
  | Ok cfg =>
      let chain := NewBlockchain (node_consensus cfg) (nc_DataDir cfg) (fl_chainID fl) file genesis in
      if getEnvBoolOrDefault env "TENDER_SEALED_MODE" true && IsSealed sec &&
         negb (VerifyIntegrity sec "blockchain_state" snapshot)
      then Err "sealed-mode integrity check failed" else Ok (cfg, start_node cfg fl chain)
  end.

Definition requireAuth `{Runtime} (header : string) (cfg : serverConfig) : outcome unit :=
  if negb (nc_EnableAuth cfg) then Ok tt else
  if bool_decide (nc_APIKey cfg = "") then Err "missing api key" else
  let authorization := TrimSpace header in
  if bool_decide (authorization = "") then Err "missing authorization" else
  if negb (HasPrefix authorization "Bearer ") then Err "invalid authorization scheme" else
  let provided := TrimPrefix authorization "Bearer " in
  if bool_decide (provided = nc_APIKey cfg) then Ok tt else Err "invalid api key".

(** ** Requests and answers *)

(** [rq_address] is the query parameter, empty when absent. *)
Record request := mkrequest {
  rq_Method : string; rq_Path : string; rq_RemoteAddr : string; rq_Authorization : string;
  rq_address : string; rq_Body : list byte }.

Record walletView := mkwalletView { wv_Label : string; wv_Address : string; wv_ID : string }.

(** The values of [Api] and those only this server encodes. *)
Inductive value :=
| V (v : Api.value)
| VNodeState (st : nodeState)
| VViews (l : list walletView).

Inductive reply :=
| Text (msg : string)
| Json (v : value)
| Object (fields : list (string * value))
| Metrics (m : serverMetrics)
| File (path : string).

Record response := mkresponse { rs_code : Z; rs_body : reply }.

Record registerPayload := mkregisterPayload { rgp_Address : string; rgp_Stake : Z }.
Record byNamePayload := mkbyNamePayload {
  bnp_From : string; bnp_ToLabel : string; bnp_Amount : Z; bnp_Fee : Z; bnp_FromPubKey : string;
  bnp_Signature : string }.

(** The structs that differ from those of [Api]. *)
Class NodeDecoders := {
  decode_register : list byte → outcome registerPayload;
  decode_byName : list byte → outcome byNamePayload;
}.

(** ** The server *)

(** [sv_locked] says that a handler that will never return holds [chain.mu]. *)
Record server := mkserver {
  sv_cfg : serverConfig; sv_p2p : P2PNode; sv_locked : bool; sv_limiter : rateLimiter;
  sv_breaker : circuitBreaker }.

#[export] Instance server_rebuild : Rebuild server := λ r,
  mkserver (sv_cfg r) (sv_p2p r) (sv_locked r) (sv_limiter r) (sv_breaker r).

Definition sv_chain (s : server) : Blockchain := p2_chain (sv_p2p s).

Definition newServer (cfg : serverConfig) (p2p : P2PNode) : server :=
  mkserver cfg p2p false (newRateLimiter (nc_RateLimit cfg) (nc_RateWindow cfg))
    (newCircuitBreaker 5 (10 * Second)).

Inductive step (A : Type) :=
| Continue (a : A)
| Respond (r : response)
| Abort
| Hang.
Arguments Continue {A} _.
Arguments Respond {A} _.
Arguments Abort {A}.
Arguments Hang {A}.

Definition handler (A : Type) : Type := server → step A * server.

#[export] Instance handler_ret : MRet handler := λ A a s, (Continue a, s).
#[export] Instance handler_bind : MBind handler := λ A B f m s,
  match m s with
  | (Continue a, s) => f a s
  | (Respond r, s) => (Respond r, s)
  | (Abort, s) => (Abort, s)
  | (Hang, s) => (Hang, s)
  end.

Definition ok (body : reply) : handler response := mret (mkresponse 200 body).
Definition json (v : Api.value) : handler response := ok (Json (V v)).
Definition object (fields : list (string * Api.value)) : handler response :=
  ok (Object (map (λ '(k, v), (k, V v)) fields)).

(** [http.Error(w, msg, code); return] *)
Definition http_error {A} (code : Z) (msg : string) : handler A :=
  λ s, (Respond (mkresponse code (Text msg)), s).

Definition gets {A} (f : server → A) : handler A := λ s, (Continue (f s), s).

(** On the chain, on the peer node; a method that takes [chain.mu] blocks when it
    is held. *)
Definition on_chain {A} (f : Blockchain → A * Blockchain) : handler A := λ s,
  let '(a, bc) := f (sv_chain s) in (Continue a, s <| sv_p2p ::= λ p, p <| p2_chain := bc |> |>).
Definition locked {A} (f : Blockchain → A * Blockchain) : handler A := λ s,
  if sv_locked s then (Hang, s) else on_chain f s.
Definition locked_do (f : Blockchain → Blockchain) : handler unit := locked (λ bc, (tt, f bc)).
Definition read_locked {A} (f : Blockchain → A) : handler A := locked (λ bc, (f bc, bc)).

Definition or_error {A} (code : Z) (o : outcome A) : handler A :=
  match o with
  | Ok a => mret a
  | Err e => http_error code e
  | Panic _ => λ s, (Abort, s)
  end.

(** [chain.addAccountLocked] and [chain.TokenSupply += amount], under the lock of
    the handler; an error when the supply would pass the maximum. *)
Definition mint `{Runtime} (bc : Blockchain) (address : string) (amount : Z)
    : outcome unit * Blockchain :=
  if MaxSupply <? nd_TokenSupply bc +! amount then (Err "mint would exceed max supply", bc) else
  let bc := addAccountLocked bc address amount false in
  (Ok tt, bc <| nd_TokenSupply ::= λ s, s +! amount |>).

(** The wallets in the order of a range over the map. *)
Definition ranged_wallets `{Runtime} (bc : Blockchain) : list ManagedWallet * Blockchain :=
  (map snd (range_map (nd_ticks bc) (nd_Wallets bc)), tick bc).

Definition recordRequest `{Runtime} (bc : Blockchain) (ok : bool) : Blockchain :=
  let bc := on_metrics (λ m, m <| sm_requestCount ::= λ n, i64 (n + 1) |>) bc in
  let bc := if ok then bc else on_metrics (λ m, m <| sm_errorCount ::= λ n, i64 (n + 1) |>) bc in
  let '(now, bc) := UnixNano bc in
  on_metrics (λ m, m <| sm_lastRequestAt := now |>) bc.

Section api.
Context `{Runtime} `{Ed25519} `{Network} `{Api.Decoders} `{NodeDecoders}.

Definition save : handler unit := locked_do (λ bc, (saveToDiskSafe bc).2).

Definition broadcast {A} (f : P2PNode → A * P2PNode) : handler unit := λ s,
  (Continue tt, s <| sv_p2p ::= λ p, (f p).2 |>).

(** [p2p.broadcastState(chain.ledgerState())], after [chain.saveToDiskSafe()]. *)
Definition save_and_broadcast : handler unit :=
  _ ← save;
  state ← read_locked ledgerState;
  broadcast (broadcastState state).

(** ** Guards *)

Definition post_only (r : request) : handler unit :=
  if bool_decide (rq_Method r = "POST") then mret tt else http_error 405 "method not allowed".

Definition authorized (r : request) : handler unit :=
  o ← gets (λ s, requireAuth (rq_Authorization r) (sv_cfg s)); or_error 401 o.

Definition allowed (r : request) : handler bool := λ s,
  let '(now, p) := Now (sv_p2p s) in
  let '(b, rl) := allow (sv_limiter s) now (rq_RemoteAddr r) in
  (Continue b, s <| sv_p2p := p |> <| sv_limiter := rl |>).

Definition limited (r : request) : handler unit :=
  b ← allowed r; if b : bool then mret tt else http_error 429 "rate limit exceeded".

Definition decoded {A} (decode : list byte → outcome A) (r : request) : handler A :=
  or_error 400 (decode (rq_Body r)).

Definition failure : handler unit := λ s,
  let '(now, p) := Now (sv_p2p s) in
  (Continue tt, s <| sv_p2p := p |> <| sv_breaker ::= λ cb, RecordFailure cb now |>).

Definition success : handler unit := λ s, (Continue tt, s <| sv_breaker ::= RecordSuccess |>).

Definition breaker_allows : handler bool := λ s,
  let '(now, p) := Now (sv_p2p s) in
  let '(b, cb) := Allow (sv_breaker s) now in
  (Continue b, s <| sv_p2p := p |> <| sv_breaker := cb |>).

(** ** Endpoints that read *)

Import Api(VString, VInt, VBool, VStrings, VBools, VAudit, VTxs, VTx, VBlock, VValidators, VRegistry,
  VLedger, VWallet, VEscrow, VEscrows, VProposal, VProposals, VAgreement, VMeter).

Definition h_health : handler response := object [("status", VString "ok")].

Definition h_chain (r : request) : handler response :=
  b ← breaker_allows;
  if negb b then http_error 503 "circuit breaker open" else
  b ← allowed r;
  if negb b then _ ← failure; http_error 429 "rate limit exceeded" else
  _ ← success;
  _ ← on_chain (λ bc, (tt, recordRequest bc true));
  st ← read_locked snapshot;
  ok (Json (VNodeState st)).

Definition h_audit : handler response := l ← read_locked nd_AuditTrail; json (VAudit l).

Definition h_monitoring (r : request) : handler response :=
  _ ← limited r;
  p ← gets sv_p2p;
  fields ← read_locked (λ bc,
    [("height", VInt (blen (nd_Chain bc))); ("pending_transactions", VInt (blen (nd_Pending bc)));
     ("token_supply", VInt (nd_TokenSupply bc)); ("audit_entries", VInt (blen (nd_AuditTrail bc)));
     ("peer_count", VInt (blen (p2_peers p)));
     ("trusted_peer_count", VInt (Z.of_nat (size (p2_trustedPeers p))));
     ("strict_p2p", VBool (p2_strictMode p)); ("consensus", VString (ConsensusName (nd_Consensus bc)))]);
  object fields.

Definition h_mempool : handler response := l ← read_locked nd_Pending; json (VTxs l).

(** [selectValidator] advances the index of the next author under the read lock. *)
Definition h_validators : handler response :=
  fields ← locked (λ bc,
    let '(next, bc) := selectValidator bc in
    ([("consensus", VString (ConsensusName (nd_Consensus bc)));
      ("authorities", VStrings (nd_Authorities bc)); ("next_validator", VString next);
      ("validators", VValidators (nd_Validators bc))], bc));
  object fields.

Definition h_bootstrap : handler response :=
  p ← gets sv_p2p;
  next ← on_chain selectValidator;
  object [("node", VString (p2_addr p)); ("peers", VStrings (p2_peers p));
          ("trusted", VBools (p2_trustedPeers p)); ("validator", VString next)].

Definition h_registry : handler response := m ← read_locked nd_Registry; json (VRegistry m).
Definition h_accounts : handler response := m ← read_locked nd_Ledger; json (VLedger m).

Definition h_account (r : request) : handler response :=
  let addr := rq_address r in
  if bool_decide (addr = "") then http_error 400 "missing address query param" else
  acct ← read_locked (λ bc, (nd_Ledger bc !! addr, next_nonce bc addr));
  match acct with
  | (None, _) => http_error 404 "address not found"
  | (Some a, next) =>
      object [("address", VString (acc_Address a)); ("balance", VInt (acc_Balance a));
              ("staked", VInt (acc_Staked a)); ("is_agent", VBool (acc_IsAgent a));
              ("next_nonce", VInt next)]
  end.

Definition h_wallets : handler response :=
  l ← locked ranged_wallets;
  ok (Json (VViews (map (λ w, mkwalletView (mw_Label w) (mw_Address w) (mw_ID w)) l))).

Definition h_tokenomics : handler response :=
  fields ← read_locked (λ bc,
    [("currency", VString (nd_CurrencyName bc)); ("token_supply", VInt (nd_TokenSupply bc));
     ("burn_rate_percent", VInt BurnRatePercent); ("reward_rate_percent", VInt RewardRatePercent);
     ("base_fee", VInt BaseFee); ("escrows", VEscrows (nd_Escrows bc));
     ("proposals", VProposals (nd_Proposals bc))]);
  object fields.

(** [currencySymbol] is the name. *)
Definition h_token : handler response :=
  name ← gets (λ s, nd_CurrencyName (sv_chain s));
  object [("currency_name", VString name); ("currency_symbol", VString name);
          ("currency_subunit", VString CurrencySubunit); ("subunit_factor", VInt HogohogoPerTender);
          ("base_fee", VInt BaseFee); ("burn_rate_percent", VInt BurnRatePercent);
          ("reward_rate_percent", VInt RewardRatePercent)].

(** The text of the counters. *)
Definition h_metrics : handler response :=
  m ← gets (λ s, nd_metrics (sv_chain s)); ok (Metrics m).

(** ** Endpoints that write *)

(** Queue, save, broadcast: what the three transfer endpoints share. *)
Definition submit_tx (tx : Transaction) : handler unit :=
  _ ← locked_do (λ bc, EnqueueTransaction bc tx);
  _ ← save;
  broadcast (broadcastTransaction tx).

(** [/api/transactions] and [/api/transfer] have the same body. *)
Definition h_transactions (r : request) : handler response :=
  _ ← authorized r;
  _ ← limited r;
  _ ← post_only r;
  tx ← decoded Api.decode_tx r;
  _ ← submit_tx tx;
  json (VTx tx).

Definition h_transfer (r : request) : handler response :=
  _ ← authorized r;
  _ ← limited r;
  _ ← post_only r;
  tx ← decoded Api.decode_tx r;
  _ ← submit_tx tx;
  json (VTx tx).

(** The transaction of [/api/transfer-by-name]: everything but the listed fields
    is zero. *)
Definition by_name_tx (p : byNamePayload) (toAddr chainID : string) (now : Z) : Transaction :=
  mkTransaction "" (bnp_From p) (bnp_FromPubKey p) toAddr (bnp_Amount p) (bnp_Fee p) 0 Transfer ""
    (bnp_Signature p) now chainID.

Definition h_transfer_by_name (r : request) : handler response :=
  _ ← authorized r;
  _ ← post_only r;
  p ← decoded decode_byName r;
  if bool_decide (bnp_From p = "") || bool_decide (bnp_ToLabel p = "") || (bnp_Amount p =? 0) then
    http_error 400 "missing from, to_label, or amount" else
  wallets ← locked ranged_wallets;
  let toAddr := match list_find (λ w, mw_Label w = bnp_ToLabel p) wallets with
                | Some (_, w) => mw_Address w
                | None => ""
                end in
  if bool_decide (toAddr = "") then http_error 404 "wallet label not found" else
  tx ← on_chain (λ bc, let '(now, bc) := UnixNano bc in (by_name_tx p toAddr (nd_ChainID bc) now, bc));
  _ ← submit_tx tx;
  object [("status", VString "queued"); ("to", VString toAddr); ("to_label", VString (bnp_ToLabel p));
          ("amount", VInt (bnp_Amount p))].

(** [MineBlockFor] holds the lock while it searches. *)
Definition mine (fuel : nat) (miner : string) : handler (outcome Block) := λ s,
  if sv_locked s then (Hang, s) else
  match MineBlockFor fuel (sv_chain s) miner with
  | None => (Hang, s <| sv_locked := true |>)
  | Some (o, bc) => (Continue o, s <| sv_p2p ::= λ p, p <| p2_chain := bc |> |>)
  end.

(** [broadcastBlock] takes the read lock for the ledger. *)
Definition broadcast_block (block : Block) : handler unit :=
  _ ← read_locked ledgerState; broadcast (broadcastBlock block).

Definition h_mine (fuel : nat) (r : request) : handler response :=
  _ ← post_only r;
  miner ← decoded Api.decode_miner r;
  o ← mine fuel miner;
  block ← or_error 500 o;
  _ ← broadcast_block block;
  json (VBlock block).

Definition h_miner_submit (r : request) : handler response :=
  _ ← post_only r;
  block ← decoded Api.decode_block r;
  o ← locked (λ bc, SubmitMinedBlock bc block);
  _ ← or_error 400 o;
  _ ← broadcast_block block;
  object [("status", VString "accepted"); ("hash", VString (blk_BlockHash block))].

Definition h_validators_register (r : request) : handler response :=
  _ ← post_only r;
  p ← decoded decode_register r;
  o ← locked (λ bc, RegisterValidator bc (rgp_Address p) (rgp_Stake p));
  _ ← or_error 400 o;
  _ ← save_and_broadcast;
  object [("status", VString "registered")].

Definition h_stake (r : request) : handler response :=
  _ ← post_only r;
  p ← decoded Api.decode_amount r;
  _ ← locked_do (λ bc, Stake bc (Api.amp_Address p) (Api.amp_Amount p));
  _ ← save_and_broadcast;
  object [("address", VString (Api.amp_Address p)); ("amount", VInt (Api.amp_Amount p))].

(** Any method. *)
Definition h_wallet (r : request) : handler response :=
  _ ← authorized r;
  wallet ← on_chain (λ bc, (NewWallet (nd_ticks bc), tick bc));
  let address := WalletAddress wallet in
  _ ← locked_do (λ bc, AddAccount bc address 1000 false);
  _ ← save_and_broadcast;
  object [("address", VString address);
          ("public_key", VString (EncodeToString (w_PublicKey wallet)))].

Definition h_managed_wallets (r : request) : handler response :=
  _ ← post_only r;
  p ← decoded Api.decode_wallet r;
  o ← locked (λ bc, CreateManagedWallet bc (Api.wlp_Label p) (Api.wlp_IsAgent p));
  wallet ← or_error 400 o;
  _ ← save_and_broadcast;
  json (VWallet wallet).

Definition h_faucet (r : request) : handler response :=
  _ ← post_only r;
  p ← decoded Api.decode_amount r;
  if bool_decide (Api.amp_Address p = "") then http_error 400 "missing address" else
  let amount := if Api.amp_Amount p =? 0 then 1000 else Api.amp_Amount p in
  _ ← locked_do (λ bc, AddAccount bc (Api.amp_Address p) amount false);
  _ ← save_and_broadcast;
  balance ← read_locked (λ bc,
    match nd_Ledger bc !! Api.amp_Address p with Some acct => acc_Balance acct | None => 0 end);
  object [("address", VString (Api.amp_Address p)); ("amount", VInt amount); ("balance", VInt balance)].

Definition h_admin_mint (r : request) : handler response :=
  _ ← post_only r;
  p ← decoded Api.decode_amount r;
  if bool_decide (Api.amp_Address p = "") || (Api.amp_Amount p =? 0) then
    http_error 400 "missing address or amount" else
  o ← locked (λ bc, mint bc (Api.amp_Address p) (Api.amp_Amount p));
  _ ← or_error 400 o;
  _ ← save_and_broadcast;
  object [("address", VString (Api.amp_Address p)); ("amount", VInt (Api.amp_Amount p));
          ("status", VString "minted")].

Definition h_escrow (r : request) : handler response :=
  _ ← post_only r;
  p ← decoded Api.decode_escrow r;
  o ← locked (λ bc, CreateEscrow bc (Api.esp_From p) (Api.esp_To p) (Api.esp_Amount p)
                      (Api.esp_ServiceID p));
  escrow ← or_error 400 o;
  _ ← save;
  json (VEscrow escrow).

Definition h_proposals (r : request) : handler response :=
  _ ← post_only r;
  p ← decoded Api.decode_proposal r;
  proposal ← locked (λ bc, CreateProposal bc (Api.prp_Title p) (Api.prp_Description p));
  _ ← save;
  json (VProposal proposal).

Definition h_agreements (r : request) : handler response :=
  _ ← post_only r;
  p ← decoded Api.decode_agreement r;
  o ← locked (λ bc, CreateServiceAgreement bc (Api.agp_Provider p) (Api.agp_Consumer p)
                      (Api.agp_ModelID p) (Api.agp_PricePerCall p) (Api.agp_MaxCalls p));
  agreement ← or_error 400 o;
  _ ← save;
  json (VAgreement agreement).

Definition h_usage (r : request) : handler response :=
  _ ← post_only r;
  p ← decoded Api.decode_usage r;
  o ← locked (λ bc, RecordUsage bc (Api.usp_AgreementID p) (Api.usp_UsageCount p));
  meter ← or_error 400 o;
  _ ← save;
  json (VMeter meter).

(** ** Dispatch *)

Definition routes (fuel : nat) : list (string * (request → handler response)) :=
  [("/health", λ _, h_health); ("/api/chain", h_chain); ("/api/audit", λ _, h_audit);
   ("/api/monitoring", h_monitoring); ("/api/mempool", λ _, h_mempool);
   ("/api/transactions", h_transactions); ("/api/mine", h_mine fuel);
   ("/api/miner/submit", h_miner_submit); ("/api/validators", λ _, h_validators);
   ("/api/validators/register", h_validators_register); ("/api/bootstrap", λ _, h_bootstrap);
   ("/api/registry", λ _, h_registry); ("/api/accounts", λ _, h_accounts);
   ("/api/account", h_account); ("/api/stake", h_stake); ("/api/wallet", h_wallet);
   ("/api/managed-wallets", h_managed_wallets); ("/api/wallets", λ _, h_wallets);
   ("/api/transfer-by-name", h_transfer_by_name); ("/api/transfer", h_transfer);
   ("/api/tokenomics", λ _, h_tokenomics); ("/api/token", λ _, h_token);
   ("/api/faucet", h_faucet); ("/api/admin/mint", h_admin_mint); ("/api/escrow", h_escrow);
   ("/api/proposals", h_proposals); ("/api/agreements", h_agreements); ("/api/usage", h_usage)].

Fixpoint find_route (path metrics : string) (l : list (string * (request → handler response)))
    : request → handler response :=
  match l with
  | [] => λ r, if bool_decide (path = metrics) then h_metrics else ok (File (rq_Path r))
  | (p, h) :: l => if bool_decide (path = p) then h else find_route path metrics l
  end.

Definition mux (fuel : nat) (r : request) : handler response :=
  metrics ← gets (λ s, nc_MetricsPath (sv_cfg s)); find_route (rq_Path r) metrics (routes fuel) r.

Definition writes (method : string) : bool :=
  bool_decide (method ∈ ["POST"; "PUT"; "DELETE"; "PATCH"]).

Definition serve (fuel : nat) (r : request) : handler response :=
  if writes (rq_Method r) then _ ← authorized r; mux fuel r else mux fuel r.
End api.
