(* ===== verification/NodeSafety.v ===== *)
(** * The node program: requests, messages and what they preserve

    The chain of the node is written under one lock.  [node_step] is one critical
    section, with any arguments, so that a run is any interleaving of the sections of
    requests, messages and polls that are served at the same time; every handler is
    shown to do nothing else to the chain.  From the start of [main], the chain stays
    linked.  A request without the key changes no account, block, transaction or
    peer.  The endpoints that issue coins replace the account they pay, and an escrow
    takes the money and then fails. *)

From S2P Require Import Prelude Runtime Float64 Text Sha256 Domain Json Merkle Tendermint State Accounts Validation Mempool Mining Keys Limits P2P Node NodeChain NodeLedger NodeMining NodeP2P NodeApi.
From S2P Require Api.
Open Scope Z_scope.
Open Scope go_scope.

Implicit Types (s : server) (r : request) (p : P2PNode) (bc : Blockchain).

Section safety.
Context `{Runtime} `{Ed25519} `{Network} `{Api.Decoders} `{NodeDecoders}.

(** ** The program as steps *)

(** One critical section of [chain.mu]: mining, a submitted block, a chain or a block
    of a peer, or a section that leaves the blocks alone. *)
Inductive node_step : Blockchain → Blockchain → Prop :=
| step_mine fuel miner o bc bc' : MineBlockFor fuel bc miner = Some (o, bc') → node_step bc bc'
| step_submit block bc : node_step bc (SubmitMinedBlock bc block).2
| step_replace chain bc : node_step bc (replaceChain bc chain).2
| step_append block bc : is_u64 (blk_Index block) → node_step bc (append_block block bc)
| step_other bc bc' : nd_Chain bc' = nd_Chain bc → node_step bc bc'.

(** What a message carries, when it comes from the JSON decoder. *)
Definition typed_pull (pull : option (list p2pMessage)) : Prop :=
  match pull with Some msgs => Forall typed_message msgs | None => True end.

(** A handler that runs without interruption: a request, a message of a peer, a poll of
    the relay, or a round of greetings. *)
Inductive handled : server → server → Prop :=
| on_request fuel r s : handled s (serve fuel r s).2
| on_message msg remote conn s :
    typed_message msg → handled s (s <| sv_p2p ::= λ p, (processMessage msg remote conn p).2 |>)
| on_poll pull s :
    typed_pull pull → handled s (s <| sv_p2p ::= λ p, (relayPollOnce pull p).2 |>)
| on_announce s : handled s (s <| sv_p2p ::= λ p, (announceRelay p).2 |>)
| on_connect s : handled s (s <| sv_p2p ::= connectToPeers |>).

(** ** Operations of the chain *)

Lemma steps_trans bc1 bc2 bc3 : rtc node_step bc1 bc2 → rtc node_step bc2 bc3 → rtc node_step bc1 bc3.
Proof. apply transitivity. Qed.

(** A method that is a sequence of sections. *)
Definition keeps_chain {A} (f : Blockchain → A * Blockchain) : Prop := ∀ bc, rtc node_step bc (f bc).2.

Lemma node_keeps_same {A} (f : Blockchain → A * Blockchain) :
  (∀ bc, nd_Chain (f bc).2 = nd_Chain bc) → keeps_chain f.
Proof. intros Hf bc. by apply rtc_once, step_other. Qed.

Lemma select_txs_chain bc : nd_Chain (select_txs bc).1 = nd_Chain bc.
Proof.
  unfold select_txs.
  apply (foldl_inv (λ acc : Blockchain * list Transaction, nd_Chain acc.1 = nd_Chain bc)); [|done].
  intros [b txs] tx _ Hb. destruct (include_tx_step (blen (sort_Slice (nd_ticks bc) pending_less
    (nd_Pending bc))) b txs tx) as (Hv & _ & _). by rewrite (vl_chain _ _ Hv).
Qed.

(** A mined block follows the tail it was mined on. *)
Lemma MineBlockFor_chain_ok fuel bc miner o bc' :
  MineBlockFor fuel bc miner = Some (o, bc') → chain_ok bc → chain_ok bc'.
Proof.
  unfold MineBlockFor. intros E Hok.
  assert (∃ n, (minting_paused bc).2 = at_tick n bc) as [n0 E0].
  { unfold minting_paused, Unix. destruct (_ && _); cbn [snd];
      [eexists; by rewrite tick_at|exists (nd_ticks bc); by rewrite at_tick_self]. }
  destruct (minting_paused bc) as [paused b0]. cbn [snd] in E0. subst b0.
  assert (chain_ok (at_tick n0 bc)) as Hok0 by by apply chain_ok_same with bc.
  destruct paused; [by simplify_eq|].
  replace (match nd_Chain (at_tick n0 bc) with [] => createGenesisBlock (at_tick n0 bc)
           | _ => at_tick n0 bc end) with (at_tick n0 bc) in E
    by (destruct Hok0 as [(g & rest & -> & _) _]; done).
  set (b0 := at_tick n0 bc) in *.
  destruct (last (nd_Chain b0)) as [prev|] eqn:El; [|by simplify_eq].
  destruct (node_assemble_spec b0 (blk_BlockHash prev) miner) as (i & n & now & author & _ & Ea & _).
  cbv zeta in Ea. rewrite Ea in E. set (b1 := at_tick n (b0 <| nd_validatorIdx := i |>)) in *.
  destruct (seal_block _ _ _ _) as [blk|]; [|done]. cbn [mbind option_bind] in E.
  assert (nd_Chain (select_txs b1).1 = nd_Chain b0) as Ec
    by (rewrite select_txs_chain; done).
  destruct (validateBlock_frame (select_txs b1).1 blk prev) as [k Ef].
  destruct (validateBlock (select_txs b1).1 blk prev) as [v b2] eqn:Ev. cbn [snd] in Ef. subst b2.
  assert (nd_Chain (at_tick k (select_txs b1).1) = nd_Chain b0) as Ek by exact Ec.
  assert (chain_ok (at_tick k (select_txs b1).1)) as Hk by by eapply chain_ok_same.
  destruct v as [[]|e|e]; [|by simplify_eq..]. injection E as E.
  assert ((validateBlock (select_txs b1).1 blk prev).1 = Ok tt) as Hv by by rewrite Ev.
  apply validateBlock_accepts in Hv as (Hf & _ & _).
  destruct (commit_mined_spec (at_tick k (select_txs b1).1) blk (blk_Author blk)) as [Hc _].
  rewrite E in Hc. cbn [snd] in Hc. unfold chain_and_pool in Hc.
  destruct Hc as [Hc|[Hc _]]; injection Hc as Hc _; [|by eapply chain_ok_same].
  eapply (chain_ok_snoc (at_tick k (select_txs b1).1)); [done| |exact Hf|exact Hc]. by rewrite Ek.
Qed.

Lemma SubmitMinedBlock_chain_ok block bc : chain_ok bc → chain_ok (SubmitMinedBlock bc block).2.
Proof.
  intros Hok. unfold SubmitMinedBlock. destruct (last (nd_Chain bc)) as [prev|] eqn:El; [|done].
  destruct (negb _); [done|]. destruct (negb _); [done|]. destruct (negb _); [done|].
  destruct (validateBlock_frame bc block prev) as [k Ef].
  destruct (validateBlock bc block prev) as [v b2] eqn:Ev. cbn [snd] in Ef. subst b2.
  assert (chain_ok (at_tick k bc)) as Hk by by eapply chain_ok_same.
  destruct v as [[]|e|e]; [|done|done]. case_bool_decide; [done|].
  assert ((validateBlock bc block prev).1 = Ok tt) as Hv by by rewrite Ev.
  apply validateBlock_accepts in Hv as (Hf & _ & _).
  match goal with |- context [extend (pay_author ?a ?w ?b) block] =>
    destruct (extend_spec (pay_author a w b) block) as [E1 _];
    pose proof (pay_author_core a w b) as Ep end.
  unfold chain_and_pool in Ep. injection Ep as Ep _.
  destruct (extend _ block) as [[[]|e|e] b]; unfold chain_and_pool in E1; injection E1 as E1 _;
    rewrite Ep in E1; [|by eapply (chain_ok_same (at_tick k bc))..].
  cbv zeta. match goal with |- context [saveToDisk ?x] => destruct (saveToDisk_core x) as [Es _] end.
  unfold chain_and_pool in Es. injection Es as Es _.
  eapply (chain_ok_snoc (at_tick k bc)); [done|exact El|exact Hf|].
  exact (eq_trans Es E1).
Qed.

Lemma selectValidator_chain bc : nd_Chain (selectValidator bc).2 = nd_Chain bc.
Proof. by destruct (selectValidator_frame bc) as (i & n & -> & _). Qed.

Lemma saveToDisk_chain bc : nd_Chain (saveToDiskSafe bc).2 = nd_Chain bc.
Proof. unfold saveToDiskSafe. destruct (saveToDisk_core bc) as [E _]. unfold chain_and_pool in E. by injection E. Qed.

(** The other methods leave the blocks alone. *)
Lemma Stake_chain a n bc : nd_Chain (Stake bc a n) = nd_Chain bc.
Proof. unfold Stake. destruct (nd_Ledger bc !! a) as [acct|]; [|done]. by destruct (_ <? _). Qed.
Lemma RegisterValidator_chain a n bc : nd_Chain (RegisterValidator bc a n).2 = nd_Chain bc.
Proof. unfold RegisterValidator. destruct (nd_Ledger bc !! a) as [acct|]; [|done]. by destruct (_ || _). Qed.
Lemma CreateEscrow_chain a b n x bc : nd_Chain (CreateEscrow bc a b n x).2 = nd_Chain bc.
Proof.
  unfold CreateEscrow, UnixNano, MarkIrreversible. destruct (nd_Ledger bc !! a) as [acct|]; [|done].
  destruct (acc_Balance acct <? n); [done|]. cbn. by destruct (nd_IrreversibleTxs bc).
Qed.
Lemma CreateServiceAgreement_chain a b m x n bc :
  nd_Chain (CreateServiceAgreement bc a b m x n).2 = nd_Chain bc.
Proof. unfold CreateServiceAgreement. by destruct (nd_Agreements bc !! m). Qed.
Lemma RecordUsage_chain a n bc : nd_Chain (RecordUsage bc a n).2 = nd_Chain bc.
Proof. unfold RecordUsage. destruct (nd_Agreements bc !! a); [|done]. cbv zeta. by destruct (_ && _). Qed.
Lemma mint_chain a n bc : nd_Chain (mint bc a n).2 = nd_Chain bc.
Proof. unfold mint. by destruct (_ <? _). Qed.

(** ** Network operations *)

(** A section keeps the chain linked. *)
Lemma node_step_ok bc bc' : node_step bc bc' → chain_ok bc → chain_ok bc'.
Proof.
  destruct 1 as [fuel miner o bc bc' E|block bc|chain bc|block bc Hu|bc bc' E].
  - by eapply MineBlockFor_chain_ok.
  - apply SubmitMinedBlock_chain_ok.
  - apply replaceChain_ok.
  - by apply append_block_ok.
  - by apply chain_ok_same.
Qed.

Definition chain_steps p p' : Prop := rtc node_step (p2_chain p) (p2_chain p').

Lemma chain_steps_frame p p' : io_frame p p' → chain_steps p p'.
Proof. intros (_ & _ & _ & n & E). apply rtc_once, step_other. by rewrite E. Qed.

Lemma broadcastMessage_frame msg p : io_frame p (broadcastMessage msg p).2.
Proof.
  unfold broadcastMessage. pose proof (Now_frame p) as Hn. destruct (Now p) as [now q]. cbn [snd] in Hn.
  assert (io_frame q (foldl broadcast_one (q, []) (p2_peers q)).1) as Hf.
  { apply (foldl_inv (λ acc : P2PNode * list string, io_frame q acc.1)); [|apply io_frame_refl].
    intros [x sent] peer _ Hx. unfold broadcast_one. destruct (_ || _); [done|].
    destruct (writePeer_frame peer x) as [Hw _]. destruct (writePeer peer x) as [w y]. cbn in *.
    by eapply io_frame_trans. }
  destruct (foldl broadcast_one (q, []) (p2_peers q)) as [x sent]. cbn in *. by eapply io_frame_trans.
Qed.

Lemma announceRelay_frame p : io_frame p (announceRelay p).2.
Proof.
  unfold announceRelay. case_bool_decide; [apply io_frame_refl|].
  pose proof (pubKey_frame p) as Hk. destruct (pubKey p) as [key q]. cbn [snd] in Hk.
  pose proof (Now_frame q) as Hn. destruct (Now q) as [now q']. cbn [snd] in *. by eapply io_frame_trans.
Qed.

Lemma connectToPeers_frame p : io_frame p (connectToPeers p).
Proof.
  unfold connectToPeers. destruct (_ <? _); [apply io_frame_refl|].
  apply (foldl_inv (λ q, io_frame p q)); [|apply io_frame_refl].
  intros q peer _ Hq. unfold connect_peer. pose proof (pubKey_frame q) as Hk.
  destruct (pubKey q) as [key q1]. cbn [snd] in Hk. destruct (writePeer_frame peer q1) as [Hw _].
  eapply io_frame_trans; [exact Hq|]. by eapply io_frame_trans.
Qed.

Lemma handle_block_steps msg block remote p :
  is_u64 (blk_Index block) → chain_steps p (handle_block msg block remote p).2.
Proof.
  intros Hu. unfold handle_block. cbv zeta.
  set (p1 := match pm_State msg with Some _ => _ | None => p end).
  assert (chain_steps p p1) as Hp1.
  { unfold p1. destruct (pm_State msg) as [st|]; [|apply rtc_refl]. apply rtc_once, step_other, applyLedgerState_chain. }
  clearbody p1.
  assert (∃ b q, match pm_Chain msg with
    | [] => (false, p1)
    | chain => let '(b, bc) := replaceChain (p2_chain p1) chain in (b, p1 <| p2_chain := bc |>)
    end = (b, q) ∧ chain_steps p q) as (b & q & E & Hq).
  { destruct (pm_Chain msg) as [|c l]; [by exists false, p1|].
    pose proof (step_replace (c :: l) (p2_chain p1)) as Hr.
    destruct (replaceChain (p2_chain p1) (c :: l)) as [b bc]. eexists _, _. split; [done|]. by eapply rtc_r. }
  rewrite E. destruct b; [done|]. eapply steps_trans; [exact Hq|].
  eapply rtc_l; [by apply (step_append block)|].
  destruct (relayed_frame msg remote (q <| p2_chain ::= append_block block |>)) as [Hf _].
  exact (chain_steps_frame _ _ Hf).
Qed.

Lemma processMessage_steps msg remote conn p :
  typed_message msg → chain_steps p (processMessage msg remote conn p).2.
Proof.
  intros Ht. destruct (processMessage_cases msg remote conn p)
    as [(q & Hq & block & Eb & ->)|[(q & Hq & _ & _ & (n & E) & _)|(q & bc & Hq & Ec & Hf)]];
    apply chain_steps_frame in Hq; (eapply steps_trans; [exact Hq|]).
  - apply handle_block_steps. by apply Ht.
  - apply rtc_once, step_other. by rewrite E.
  - eapply rtc_l; [by apply (step_other _ bc)|]. exact (chain_steps_frame _ _ Hf).
Qed.

Lemma relayPollOnce_steps pull p : typed_pull pull → chain_steps p (relayPollOnce pull p).2.
Proof.
  intros Ht. unfold relayPollOnce. case_bool_decide; [apply rtc_refl|].
  pose proof (chain_steps_frame _ _ (Now_frame p)) as Hn. destruct (Now p) as [since q]. cbn [snd] in Hn.
  destruct (_ <? _); [done|].
  pose proof (chain_steps_frame _ _ (Now_frame q)) as Hn2. destruct (Now q) as [now q2]. cbn [snd] in Hn2.
  assert (chain_steps p (q2 <| p2_relayLastPull := now |>)) as Hq by by eapply steps_trans.
  destruct pull as [msgs|]; [|done]. cbn in Ht.
  apply (foldl_inv (λ acc : list (option p2pMessage) * P2PNode, chain_steps p acc.2)); [|done].
  intros [pushed x] msg Hin Hx. rewrite Forall_forall in Ht. unfold pulled_one.
  case_bool_decide; [done|].
  pose proof (processMessage_steps msg ("relay:" +:+ pm_NodeID msg) false x (Ht msg Hin)) as Hm.
  destruct (processMessage _ _ _ x) as [[replies sent] y]. by eapply steps_trans.
Qed.

(** ** Handlers *)

(** A handler that does nothing to the chain but sections. *)
Definition keeps {A} (m : handler A) : Prop := ∀ s, rtc node_step (sv_chain s) (sv_chain (m s).2).

Lemma node_keeps_bind {A B} (m : handler A) (k : A → handler B) :
  keeps m → (∀ a, keeps (k a)) → keeps (m ≫= k).
Proof.
  intros Hm Hk s. specialize (Hm s). unfold mbind, handler_bind.
  destruct (m s) as [[a|rs| |] s']; cbn [snd] in *; [|done..]. eapply steps_trans; [exact Hm|apply Hk].
Qed.

Lemma keeps_pure {A} (m : handler A) : (∀ s, (m s).2 = s) → keeps m.
Proof. intros Hm s. rewrite Hm. apply rtc_refl. Qed.

Lemma keeps_on_chain {A} (f : Blockchain → A * Blockchain) : keeps_chain f → keeps (on_chain f).
Proof. intros Hf s. unfold on_chain. specialize (Hf (sv_chain s)). by destruct (f (sv_chain s)) as [a bc]. Qed.

Lemma keeps_locked {A} (f : Blockchain → A * Blockchain) : keeps_chain f → keeps (locked f).
Proof. intros Hf s. unfold locked. destruct (sv_locked s); [apply rtc_refl|]. by apply keeps_on_chain. Qed.

Lemma keeps_broadcast msg : keeps (broadcast (broadcastMessage msg)).
Proof. intros s. exact (chain_steps_frame _ _ (broadcastMessage_frame _ (sv_p2p s))). Qed.

Lemma keeps_broadcast_block block : keeps (broadcast (broadcastBlock block)).
Proof. intros s. exact (chain_steps_frame _ _ (broadcastMessage_frame _ (sv_p2p s))). Qed.

Lemma keeps_ret {A} (a : A) : keeps (mret a).
Proof. by apply keeps_pure. Qed.
Lemma keeps_error {A} code msg : keeps (@http_error A code msg).
Proof. by apply keeps_pure. Qed.
Lemma keeps_gets {A} (f : server → A) : keeps (gets f).
Proof. by apply keeps_pure. Qed.
Lemma node_keeps_or_error {A} code (o : outcome A) : keeps (or_error code o).
Proof. destruct o; by apply keeps_pure. Qed.
Lemma keeps_read {A} (f : Blockchain → A) : keeps (read_locked f).
Proof. by apply keeps_locked, node_keeps_same. Qed.
Lemma keeps_locked_do f : (∀ bc, nd_Chain (f bc) = nd_Chain bc) → keeps (locked_do f).
Proof. intros Hf. by apply keeps_locked, node_keeps_same. Qed.

Lemma keeps_save : keeps save.
Proof. apply keeps_locked_do, saveToDisk_chain. Qed.

Lemma keeps_clock {A} (f : server → Z → step A * server) :
  (∀ s now, sv_p2p (f s now).2 = sv_p2p s) →
  keeps (λ s, let '(now, p) := Now (sv_p2p s) in f (s <| sv_p2p := p |>) now).
Proof.
  intros Hf s. pose proof (chain_steps_frame _ _ (Now_frame (sv_p2p s))) as Hn.
  unfold sv_chain at 2. destruct (Now (sv_p2p s)) as [now p]. by rewrite Hf.
Qed.

Lemma node_keeps_allowed r : keeps (allowed r).
Proof.
  apply (keeps_clock (λ s now, let '(b, rl) := allow (sv_limiter s) now (rq_RemoteAddr r) in
    (Continue b, s <| sv_limiter := rl |>))).
  intros s now. by destruct (allow _ _ _).
Qed.

Lemma keeps_failure : keeps failure.
Proof. by apply (keeps_clock (λ s now, (Continue tt, s <| sv_breaker ::= λ cb, RecordFailure cb now |>))). Qed.

Lemma keeps_success : keeps success.
Proof. intros s. apply rtc_refl. Qed.

Lemma node_keeps_breaker : keeps breaker_allows.
Proof.
  apply (keeps_clock (λ s now, let '(b, cb) := Allow (sv_breaker s) now in
    (Continue b, s <| sv_breaker := cb |>))).
  intros s now. by destruct (Allow _ _).
Qed.

Lemma node_keeps_mine fuel miner : keeps (mine fuel miner).
Proof.
  intros s. unfold mine. destruct (sv_locked s); [apply rtc_refl|].
  destruct (MineBlockFor fuel (sv_chain s) miner) as [[o bc]|] eqn:E; [|apply rtc_refl].
  eapply rtc_once, step_mine. exact E.
Qed.

Lemma keeps_submit block : keeps (locked (λ bc, SubmitMinedBlock bc block)).
Proof. apply keeps_locked. intros bc. apply rtc_once, step_submit. Qed.
End safety.

Create HintDb node_keeps.
#[export] Hint Resolve keeps_ret keeps_error keeps_gets node_keeps_or_error keeps_read keeps_save
  node_keeps_allowed keeps_failure keeps_success node_keeps_breaker node_keeps_mine keeps_submit keeps_broadcast
  keeps_broadcast_block : node_keeps.
#[export] Hint Resolve saveToDisk_chain EnqueueTransaction_chain Stake_chain RegisterValidator_chain
  CreateEscrow_chain CreateServiceAgreement_chain RecordUsage_chain mint_chain selectValidator_chain
  : node_keeps.

(** Walk through a handler: binds, tests, and the lemmas above for its calls. *)
Ltac keep :=
  repeat first
    [ progress intros
    | apply node_keeps_bind
    | solve [eauto with node_keeps]
    | match goal with
      | |- keeps (if ?b then _ else _) => destruct b
      | |- keeps (match ?x with _ => _ end) => destruct x
      end
    | progress cbv zeta ].

Create HintDb harmless.

Section requests.
Context `{Runtime} `{Ed25519} `{Network} `{Api.Decoders} `{NodeDecoders}.

Lemma keeps_chain_call {A} (f : Blockchain → A * Blockchain) :
  (∀ bc, nd_Chain (f bc).2 = nd_Chain bc) → keeps (locked f).
Proof. intros Hf. by apply keeps_locked, node_keeps_same. Qed.

Lemma keeps_save_and_broadcast : keeps save_and_broadcast.
Proof. unfold save_and_broadcast. keep. Qed.

Lemma keeps_submit_tx tx : keeps (submit_tx tx).
Proof.
  unfold submit_tx. keep. apply keeps_locked_do. eauto with node_keeps.
Qed.

#[local] Hint Resolve keeps_save_and_broadcast keeps_submit_tx : node_keeps.

Lemma routes_keep fuel : Forall (λ e, ∀ r, keeps (e.2 r)) (routes fuel).
Proof.
  unfold routes. repeat (apply Forall_cons; split; cbn [snd]); [..|constructor].
  all: intros r; unfold h_health, h_chain, h_audit, h_monitoring, h_mempool, h_transactions, h_mine,
    h_miner_submit, h_validators, h_validators_register, h_bootstrap, h_registry, h_accounts, h_account,
    h_stake, h_wallet, h_managed_wallets, h_wallets, h_transfer_by_name, h_transfer, h_tokenomics,
    h_token, h_faucet, h_admin_mint, h_escrow, h_proposals, h_agreements, h_usage.
  all: unfold authorized, limited, post_only, decoded, broadcast_block, json, object, ok.
  all: keep; first [apply keeps_locked_do | apply keeps_chain_call | apply keeps_on_chain, node_keeps_same];
    intros bc; first [solve [eauto with node_keeps] | done | idtac].
  pose proof (selectValidator_chain bc). by destruct (selectValidator bc).
Qed.

Lemma node_find_route_Forall (P : (request → handler response) → Prop) path metrics l :
  Forall (λ e : string * _, P e.2) l → P (λ _, h_metrics) → P (λ r, ok (File (rq_Path r))) →
  P (λ r, find_route path metrics l r).
Proof.
  intros Hl Hm Hf. induction l as [|[q h] l IH]; cbn [find_route].
  - by case_bool_decide.
  - apply Forall_cons in Hl as [Hh Hl]. case_bool_decide; [exact Hh|by apply IH].
Qed.

Lemma serve_keeps fuel r : keeps (serve fuel r).
Proof.
  assert (keeps (mux fuel r)) as Hm.
  { unfold mux. apply node_keeps_bind; [apply keeps_gets|]. intros metrics.
    generalize (rq_Path r) as path. intros path. revert r.
    apply (node_find_route_Forall (λ h, ∀ r, keeps (h r))); [apply routes_keep|..];
      intros r; unfold h_metrics, ok; keep. }
  unfold serve. destruct (writes _); [|exact Hm].
  apply node_keeps_bind; [unfold authorized; keep|intros _; exact Hm].
Qed.

(** ** Reachable states *)

Lemma handled_steps s s' : handled s s' → rtc node_step (sv_chain s) (sv_chain s').
Proof.
  destruct 1 as [fuel r s|msg remote conn s Ht|pull s Ht|s|s].
  - apply serve_keeps.
  - exact (processMessage_steps msg remote conn (sv_p2p s) Ht).
  - exact (relayPollOnce_steps pull (sv_p2p s) Ht).
  - exact (chain_steps_frame _ _ (announceRelay_frame (sv_p2p s))).
  - exact (chain_steps_frame _ _ (connectToPeers_frame (sv_p2p s))).
Qed.

(** *** The start *)

(** A file of the node, when there is one, holds a chain that starts at index 0. *)
Definition starts_at_zero (file : option nodeState) : Prop :=
  ∀ state genesis rest, file = Some state → ns_Chain state = genesis :: rest → blk_Index genesis = 0.

Lemma trimInvalidBlocks_ok bc genesis rest :
  nd_Chain bc = genesis :: rest → blk_Index genesis = 0 → chain_ok (trimInvalidBlocks bc).
Proof.
  intros Ec Hg. destruct (trim_linked bc genesis rest Ec) as (Hl & _). split; [|exact Hl].
  rewrite (trim_chain bc genesis rest Ec). by eexists _, _.
Qed.

Lemma createGenesisBlock_ok bc : nd_Chain bc = [] → chain_ok (createGenesisBlock bc).
Proof.
  intros Ec. unfold createGenesisBlock. cbv zeta. unfold chain_ok.
  match goal with |- context [_ ++ [?g]] => set (genesis := g) end.
  change (nd_Chain (bc <| nd_Chain ::= ?f |> <| nd_GenesisHash := ?h |>)) with (f (nd_Chain bc)).
  rewrite Ec. split; [by exists genesis, []|apply linked_singleton].
Qed.

Lemma loadGenesis_chain bc file : nd_Chain (loadGenesis bc file).2 = nd_Chain bc.
Proof.
  unfold loadGenesis. destruct file as [g|e|e]; [|done|done]. cbv zeta.
  set (b0 := _ <| nd_TokenSupply := 0 |>).
  assert (nd_Chain b0 = nd_Chain bc) as <- by (unfold b0; by repeat case_bool_decide).
  clearbody b0.
  assert (nd_Chain (load_allocations b0 (gnf_Allocations g)).2 = nd_Chain b0) as Ea.
  { generalize b0. induction (gnf_Allocations g) as [|a l IH]; intros b; cbn [load_allocations]; [done|].
    case_bool_decide; [done|]. destruct (_ <? _); [done|]. by rewrite IH. }
  destruct (load_allocations b0 _) as [[]  b1]; cbn [snd] in Ea; [|done|done]. rewrite <- Ea.
  assert (nd_Chain (load_validators b1 (gnf_Validators g)).2 = nd_Chain b1) as Ev.
  { generalize b1. induction (gnf_Validators g) as [|v l IH]; intros b; cbn [load_validators]; [done|].
    case_bool_decide; [done|]. destruct (_ <? _); [done|]. rewrite IH. unfold load_validator, Unix, AddAuthority. cbv zeta.
    by repeat case_match. }
  destruct (load_validators b1 _) as [[] b2]; cbn [snd] in Ev; [|done|done]. by destruct (_ <? _).
Qed.

Lemma loadFromDisk_ok bc : starts_at_zero (nd_disk bc) → chain_ok bc → chain_ok (loadFromDisk bc).2.
Proof.
  intros Hz Hok. unfold loadFromDisk. destruct (nd_disk bc) as [st|] eqn:Ed; [|done]. cbv zeta. cbn [snd].
  set (b1 := restored bc st). assert (nd_Chain b1 = ns_Chain st) as E1 by done.
  set (b2 := match nd_Chain b1 with [] => b1 | _ => _ end).
  assert (nd_Chain b2 = [] ∨ nd_Chain b2 = ns_Chain st) as E2.
  { unfold b2. rewrite E1. destruct (ns_Chain st) as [|g l]; [by left|]. destruct (_ && _); [by left|by right]. }
  clearbody b2 b1. set (b3 := match nd_Chain (b2 <| nd_NextNonce ::= _ |>) with [] => _ | _ => _ end).
  assert (nd_Chain b3 = nd_Chain b2) as E3.
  { unfold b3. change (nd_Chain (b2 <| nd_NextNonce ::= ?f |>)) with (nd_Chain b2).
    destruct (nd_Chain b2) eqn:E; (exact E || (cbn; congruence)). }
  clearbody b3. set (b4 := b3 <| nd_Consensus := _ |>).
  assert (nd_Chain b4 = nd_Chain b2) as E4 by exact E3. clearbody b4.
  destruct (nd_Chain b4) as [|g l] eqn:Ec; [by apply createGenesisBlock_ok|].
  apply (trimInvalidBlocks_ok b4 g l Ec). apply (Hz st g l eq_refl). destruct E2; congruence.
Qed.

Lemma seedDemoState_chain bc : nd_Chain (seedDemoState bc) = nd_Chain bc.
Proof. unfold seedDemoState. cbv zeta. unfold AddAuthority. cbn. by rewrite Stake_chain. Qed.

Lemma first_state_chain (genesis : option (outcome genesisFile)) bc :
  nd_Chain (match genesis with
            | Some g => match loadGenesis bc g with (Ok _, bc) => bc | (_, bc) => seedDemoState bc end
            | None => seedDemoState bc
            end) = nd_Chain bc.
Proof.
  destruct genesis as [g|]; [|apply seedDemoState_chain]. pose proof (loadGenesis_chain bc g) as Eg.
  destruct (loadGenesis bc g) as [[] b]; cbn [snd] in Eg; rewrite ?seedDemoState_chain; exact Eg.
Qed.

Lemma NewBlockchain_ok consensus dataDir chainID file genesis :
  starts_at_zero file → chain_ok (NewBlockchain consensus dataDir chainID file genesis).
Proof.
  intros Hz. unfold NewBlockchain.
  set (b0 := createGenesisBlock _).
  assert (chain_ok b0) as Hb0 by (by apply createGenesisBlock_ok).
  assert (nd_disk b0 = file) as Ed by done. clearbody b0. rewrite <- Ed in Hz.
  pose proof (loadFromDisk_ok b0 Hz Hb0) as Hok.
  assert (∀ b b', nd_Chain b' = nd_Chain b → chain_ok b → chain_ok (saveToDisk b').2) as Hsave.
  { intros b b' Eb. apply chain_ok_same. by rewrite <- Eb, <- (saveToDisk_chain b'). }
  destruct (loadFromDisk b0) as [[[]|e|e] b1]; cbn [snd] in Hok; [exact Hok| |];
    exact (Hsave b1 _ (first_state_chain genesis b1) Hok).
Qed.

Lemma start_main_chain env fl sec snapshot file genesis cfg p :
  start_main env fl sec snapshot file genesis = Ok (cfg, p) →
  ∃ consensus dataDir, p2_chain p = NewBlockchain consensus dataDir (fl_chainID fl) file genesis.
Proof.
  unfold start_main. destruct (node_config env fl) as [c|e|e]; [|done|done]. cbv zeta.
  intros E. exists (node_consensus c), (nc_DataDir c). revert E.
  generalize (NewBlockchain (node_consensus c) (nc_DataDir c) (fl_chainID fl) file genesis). intros chain.
  destruct (_ && _); [done|]. by intros [= <- <-].
Qed.

(** C19. From the start of [main], when the file it finds (if any) holds a chain that starts
    at index 0, and under any interleaving of the critical sections of requests,
    messages and polls: the chain starts at index 0 and every block follows the one
    before it by index and hash.  And no handler does anything to the chain but such
    sections. *)
Theorem reachable_node_ok env fl sec snapshot file genesis cfg p bc :
  start_main env fl sec snapshot file genesis = Ok (cfg, p) → starts_at_zero file →
  rtc node_step (p2_chain p) bc →
  chain_ok bc ∧ ∀ s s', sv_chain s = bc → handled s s' → rtc node_step bc (sv_chain s').
Proof.
  intros Hs Hz Hr. split; [|intros s s' <-; apply handled_steps].
  assert (chain_ok (p2_chain p)) as Hok.
  { destruct (start_main_chain _ _ _ _ _ _ _ _ Hs) as (consensus & dataDir & ->). by apply NewBlockchain_ok. }
  clear Hs. induction Hr as [|x y z Hxy _ IH]; [done|]. apply IH. by eapply node_step_ok.
Qed.

(** ** Requests without the key *)

(** The node without the index of the next author, the clock and the counters. *)
Definition settled bc : Blockchain :=
  bc <| nd_validatorIdx := 0 |> <| nd_ticks := O |> <| nd_metrics := new_metrics |>.
Definition book s : P2PNode * bool * serverConfig :=
  ((sv_p2p s) <| p2_chain ::= settled |>, sv_locked s, sv_cfg s).

(** For clients whose header [hdr] is not accepted. *)
Definition keyless (hdr : string) s : Prop := requireAuth hdr (sv_cfg s) ≠ Ok tt.
Definition harmless {A} (hdr : string) (m : handler A) : Prop :=
  ∀ s, keyless hdr s → book (m s).2 = book s.

Lemma harmless_bind {A B} hdr (m : handler A) (k : A → handler B) :
  harmless hdr m → (∀ a, harmless hdr (k a)) → harmless hdr (m ≫= k).
Proof.
  intros Hm Hk s Hs. specialize (Hm s Hs). unfold mbind, handler_bind.
  destruct (m s) as [[a|rs| |] s']; cbn [snd] in *; [|done..].
  rewrite Hk; [done|]. unfold keyless, book in *. congruence.
Qed.

Lemma harmless_pure {A} hdr (m : handler A) : (∀ s, (m s).2 = s) → harmless hdr m.
Proof. intros Hm s _. by rewrite Hm. Qed.

Lemma harmless_on_chain {A} hdr (f : Blockchain → A * Blockchain) :
  (∀ bc, settled (f bc).2 = settled bc) → harmless hdr (on_chain f).
Proof.
  intros Hf s _. unfold on_chain. specialize (Hf (sv_chain s)).
  destruct (f (sv_chain s)) as [a bc]. cbn [snd] in *. unfold book. f_equal. f_equal.
  destruct s as [cfg q l rl cb]. unfold sv_chain in *. cbn in *. rewrite <- Hf. by destruct q.
Qed.

Lemma harmless_locked {A} hdr (f : Blockchain → A * Blockchain) :
  (∀ bc, settled (f bc).2 = settled bc) → harmless hdr (locked f).
Proof.
  intros Hf s Hs. unfold locked. destruct (sv_locked s); [done|]. by apply (harmless_on_chain hdr).
Qed.

Lemma harmless_ret {A} hdr (a : A) : harmless hdr (mret a).
Proof. by apply harmless_pure. Qed.
Lemma harmless_error {A} hdr code msg : harmless hdr (@http_error A code msg).
Proof. by apply harmless_pure. Qed.
Lemma harmless_gets {A} hdr (f : server → A) : harmless hdr (gets f).
Proof. by apply harmless_pure. Qed.
Lemma harmless_read {A} hdr (f : Blockchain → A) : harmless hdr (read_locked f).
Proof. by apply harmless_locked. Qed.

Lemma harmless_clock {A} hdr (f : server → Z → step A * server) :
  (∀ s now, book (f s now).2 = book s) →
  harmless hdr (λ s, let '(now, p) := Now (sv_p2p s) in f (s <| sv_p2p := p |>) now).
Proof. intros Hf s _. unfold Now, UnixNano. cbn. rewrite Hf. by destruct s as [cfg [] l rl cb]. Qed.

Lemma harmless_allowed hdr r : harmless hdr (allowed r).
Proof.
  apply (harmless_clock hdr (λ s now, let '(b, rl) := allow (sv_limiter s) now (rq_RemoteAddr r) in
    (Continue b, s <| sv_limiter := rl |>))).
  intros s now. by destruct (allow _ _ _).
Qed.

Lemma harmless_failure hdr : harmless hdr failure.
Proof.
  by apply (harmless_clock hdr (λ s now, (Continue tt, s <| sv_breaker ::= λ cb, RecordFailure cb now |>))).
Qed.

Lemma harmless_success hdr : harmless hdr success.
Proof. by intros s _. Qed.

Lemma harmless_breaker hdr : harmless hdr breaker_allows.
Proof.
  apply (harmless_clock hdr (λ s now, let '(b, cb) := Allow (sv_breaker s) now in
    (Continue b, s <| sv_breaker := cb |>))).
  intros s now. by destruct (Allow _ _).
Qed.

(** What stops a client without the key: the test of the key, and the method. *)
Lemma harmless_authorized {A} r (k : unit → handler A) :
  harmless (rq_Authorization r) (a ← authorized r; k a).
Proof.
  intros s Hs. unfold authorized, gets, mbind, handler_bind, or_error. unfold keyless in Hs.
  by destruct (requireAuth _ _) as [[]|e|e].
Qed.

Lemma harmless_post {A} hdr r (k : unit → handler A) :
  writes (rq_Method r) = false → harmless hdr (a ← post_only r; k a).
Proof.
  intros Hw. unfold post_only. case_bool_decide as Hp; [|by intros s _].
  exfalso. rewrite Hp in Hw. unfold writes in Hw. by apply bool_decide_eq_false in Hw; set_solver.
Qed.

Lemma selectValidator_settled bc : settled (selectValidator bc).2 = settled bc.
Proof. by destruct (selectValidator_frame bc) as (i & n & -> & _). Qed.

#[local] Hint Resolve harmless_ret harmless_error harmless_gets harmless_read harmless_allowed
  harmless_failure harmless_success harmless_breaker harmless_authorized harmless_post : harmless.

Lemma routes_harmless fuel :
  Forall (λ e, ∀ r, writes (rq_Method r) = false → harmless (rq_Authorization r) (e.2 r)) (routes fuel).
Proof.
  unfold routes. repeat (apply Forall_cons; split; cbn [snd]); [..|constructor].
  all: intros r Hw; unfold h_health, h_chain, h_audit, h_monitoring, h_mempool, h_transactions, h_mine,
    h_miner_submit, h_validators, h_validators_register, h_bootstrap, h_registry, h_accounts, h_account,
    h_stake, h_wallet, h_managed_wallets, h_wallets, h_transfer_by_name, h_transfer, h_tokenomics,
    h_token, h_faucet, h_admin_mint, h_escrow, h_proposals, h_agreements, h_usage.
  all: unfold limited, json, object, ok.
  all: repeat first
    [ progress intros
    | solve [eauto with harmless]
    | apply harmless_bind
    | match goal with
      | |- harmless _ (if ?b then _ else _) => destruct b
      | |- harmless _ (match ?x with _ => _ end) => destruct x
      end ].
  all: first [apply harmless_locked | apply harmless_on_chain]; intros bc;
    first [apply selectValidator_settled | done | idtac].
  pose proof (selectValidator_settled bc). by destruct (selectValidator bc).
Qed.

Lemma requireAuth_no_panic hdr cfg e : requireAuth hdr cfg ≠ Panic e.
Proof. unfold requireAuth. by repeat case_match. Qed.

(** C20. A client whose [Authorization] header the server does not accept changes
    nothing but the clock, the counters, its own rate limit, the circuit breaker
    and the index of the next author, whatever the path, the method and the
    body; and a method that writes is answered with 401. *)
Theorem keyless_requests_harmless fuel r s :
  requireAuth (rq_Authorization r) (sv_cfg s) ≠ Ok tt →
  book (serve fuel r s).2 = book s ∧
  (writes (rq_Method r) = true →
   ∃ msg, serve fuel r s = (Respond (mkresponse 401 (Text msg)), s)).
Proof.
  intros Hk. unfold serve. destruct (writes (rq_Method r)) eqn:Hw.
  - split; [by apply harmless_authorized|]. intros _.
    pose proof (requireAuth_no_panic (rq_Authorization r) (sv_cfg s)) as Hnp.
    unfold authorized, gets, mbind, handler_bind, or_error.
    destruct (requireAuth _ _) as [[]|e|e]; [done|by exists e|by destruct (Hnp e)].
  - split; [|done]. unfold mux.
    apply (harmless_bind (rq_Authorization r)); [apply harmless_gets| |exact Hk]. intros metrics.
    generalize (rq_Path r) as path. intros path. revert r Hk Hw. intros r _.
    revert r. apply (node_find_route_Forall
      (λ h, ∀ r, writes (rq_Method r) = false → harmless (rq_Authorization r) (h r)));
      [apply routes_harmless|..]; intros r _; unfold h_metrics, ok;
      [apply harmless_bind; eauto with harmless|eauto with harmless].
Qed.

(** ** Endpoints that issue coins *)

(** Accounts and supply. *)
Definition money_of s : gmap string Account * Z :=
  (nd_Ledger (sv_chain s), nd_TokenSupply (sv_chain s)).

Lemma saveToDisk_ledger bc :
  nd_Ledger (saveToDiskSafe bc).2 = nd_Ledger bc ∧ nd_TokenSupply (saveToDiskSafe bc).2 = nd_TokenSupply bc.
Proof. unfold saveToDiskSafe, saveToDisk. cbv zeta. split; by repeat case_match. Qed.

Definition set_chain bc s : server := s <| sv_p2p ::= λ p, p <| p2_chain := bc |> |>.

Lemma bind_Continue {A B} (m : handler A) (k : A → handler B) s a s' :
  m s = (Continue a, s') → (m ≫= k) s = k a s'.
Proof. unfold mbind, handler_bind. by intros ->. Qed.

Lemma locked_run {A} (f : Blockchain → A * Blockchain) s :
  sv_locked s = false → locked f s = (Continue (f (sv_chain s)).1, set_chain (f (sv_chain s)).2 s).
Proof. intros Hl. unfold locked, on_chain. rewrite Hl. by destruct (f (sv_chain s)). Qed.

(** Saving and broadcasting end in an answer and leave the money alone. *)
Lemma save_and_broadcast_money s :
  sv_locked s = false →
  ∃ s', save_and_broadcast s = (Continue tt, s') ∧ money_of s' = money_of s ∧ sv_locked s' = false.
Proof.
  intros Hl. unfold save_and_broadcast, save, locked_do, read_locked.
  rewrite (bind_Continue _ _ _ _ _ (locked_run _ s Hl)). set (s1 := set_chain _ s).
  rewrite (bind_Continue _ _ _ _ _ (locked_run _ s1 Hl)). set (s2 := set_chain _ s1).
  eexists. split; [reflexivity|]. split; [|exact Hl].
  destruct (saveToDisk_ledger (sv_chain s)) as [E1 E2].
  match goal with |- context [broadcastState ?st] => set (state := st) end.
  destruct (broadcastMessage_frame (mkp2pMessage "state" "" "" "" None [] None None (Some state) "")
    (sv_p2p s2)) as (_ & _ & _ & n & E).
  unfold money_of at 1, sv_chain.
  change (p2_chain (sv_p2p (s2 <| sv_p2p ::= λ p, (broadcastState state p).2 |>)))
    with (p2_chain (broadcastState state (sv_p2p s2)).2).
  unfold broadcastState. rewrite E. exact (f_equal2 pair E1 E2).
Qed.

(** A POST request with the key, to a node that is not blocked. *)
Definition accepted_post (path : string) r s : Prop :=
  rq_Method r = "POST" ∧ rq_Path r = path ∧
  requireAuth (rq_Authorization r) (sv_cfg s) = Ok tt ∧ sv_locked s = false.

(** It goes to its endpoint. *)
Lemma serve_post fuel r s h :
  rq_Method r = "POST" → requireAuth (rq_Authorization r) (sv_cfg s) = Ok tt →
  find_route (rq_Path r) (nc_MetricsPath (sv_cfg s)) (routes fuel) r = h r →
  serve fuel r s = h r s.
Proof.
  intros Hm Ha Hf. unfold serve. rewrite Hm. replace (writes "POST") with true by done.
  rewrite (bind_Continue _ _ s tt s) by (unfold authorized, gets, mbind, handler_bind; by rewrite Ha).
  unfold mux. rewrite (bind_Continue _ _ s (nc_MetricsPath (sv_cfg s)) s) by done. by rewrite Hf.
Qed.

(** The endpoint [/api/admin/mint] carried out. *)
Lemma admin_mint_runs fuel r s pl :
  accepted_post "/api/admin/mint" r s →
  Api.decode_amount (rq_Body r) = Ok pl → Api.amp_Address pl ≠ "" → Api.amp_Amount pl ≠ 0 →
  let address := Api.amp_Address pl in
  let '(o, s') := serve fuel r s in
  (∃ body, o = Continue (mkresponse 200 body)) ∧
  nd_Ledger (sv_chain s') =
    <[address := mkAccount address (Api.amp_Amount pl) 0 false]> (nd_Ledger (sv_chain s)) ∧
  nd_TokenSupply (sv_chain s') = nd_TokenSupply (sv_chain s) +! Api.amp_Amount pl.
Proof.
  intros (Hm & Hp & Ha & Hl) Hd Hne Hz. cbv zeta.
  rewrite (serve_post fuel r s h_admin_mint Hm Ha) by by rewrite Hp.
  unfold h_admin_mint, post_only, decoded. rewrite Hm, bool_decide_true, Hd by done.
  rewrite (bind_Continue _ _ s tt s), (bind_Continue _ _ s pl s) by done. cbn [or_error].
  rewrite bool_decide_false by done. apply Z.eqb_neq in Hz. rewrite Hz. cbn [orb].
  rewrite (bind_Continue _ _ _ _ _ (locked_run _ s Hl)). unfold mint.
  assert (MaxSupply <? nd_TokenSupply (sv_chain s) +! Api.amp_Amount pl = false) as ->.
  { apply Z.ltb_ge. pose proof (u64_range (nd_TokenSupply (sv_chain s) + Api.amp_Amount pl)).
    unfold MaxSupply. u64_lia. }
  cbv zeta. cbn [fst snd or_error]. set (s1 := set_chain _ s).
  rewrite (bind_Continue _ _ s1 tt s1) by done.
  destruct (save_and_broadcast_money s1 Hl) as (s' & Es & Hmoney & _).
  rewrite (bind_Continue _ _ _ _ _ Es). unfold money_of in Hmoney. injection Hmoney as E1 E2.
  split; [by eexists|]. by rewrite E1, E2.
Qed.

(** [/api/admin/mint] replaces the account it is told to credit: whatever it held
    and had staked is gone.  The supply grows modulo 2^64, and its test against
    the maximal supply never fails. *)
Theorem mint_replaces_account fuel r s pl :
  accepted_post "/api/admin/mint" r s →
  Api.decode_amount (rq_Body r) = Ok pl → Api.amp_Address pl ≠ "" → Api.amp_Amount pl ≠ 0 →
  let address := Api.amp_Address pl in
  let '(o, s') := serve fuel r s in
  (∃ body, o = Continue (mkresponse 200 body)) ∧
  nd_Ledger (sv_chain s') =
    <[address := mkAccount address (Api.amp_Amount pl) 0 false]> (nd_Ledger (sv_chain s)) ∧
  nd_TokenSupply (sv_chain s') = nd_TokenSupply (sv_chain s) +! Api.amp_Amount pl.
Proof. exact (admin_mint_runs fuel r s pl). Qed.

(** [/api/faucet] replaces the account as well, with 1000 units when no amount is
    given, and does not count them in the supply. *)
Theorem faucet_replaces_account fuel r s pl :
  accepted_post "/api/faucet" r s →
  Api.decode_amount (rq_Body r) = Ok pl → Api.amp_Address pl ≠ "" →
  let address := Api.amp_Address pl in
  let amount := if Api.amp_Amount pl =? 0 then 1000 else Api.amp_Amount pl in
  let '(o, s') := serve fuel r s in
  (∃ body, o = Continue (mkresponse 200 body)) ∧
  nd_Ledger (sv_chain s') = <[address := mkAccount address amount 0 false]> (nd_Ledger (sv_chain s)) ∧
  nd_TokenSupply (sv_chain s') = nd_TokenSupply (sv_chain s).
Proof.
  intros (Hm & Hp & Ha & Hl) Hd Hne. cbv zeta.
  rewrite (serve_post fuel r s h_faucet Hm Ha) by by rewrite Hp.
  unfold h_faucet, post_only, decoded, locked_do, read_locked. rewrite Hm, bool_decide_true, Hd by done.
  rewrite (bind_Continue _ _ s tt s), (bind_Continue _ _ s pl s) by done. cbn [or_error].
  rewrite bool_decide_false by done. cbv zeta.
  rewrite (bind_Continue _ _ _ _ _ (locked_run _ s Hl)). set (s1 := set_chain _ s).
  destruct (save_and_broadcast_money s1 Hl) as (s' & Es & Hmoney & Hl').
  rewrite (bind_Continue _ _ _ _ _ Es), (bind_Continue _ _ _ _ _ (locked_run _ s' Hl')).
  unfold money_of in Hmoney. injection Hmoney as E1 E2. split; [by eexists|].
  change (sv_chain (set_chain _ s')) with (sv_chain s'). by rewrite E1, E2.
Qed.

(** ** Escrows *)

(** On a node whose map [IrreversibleTxs] was never made, as [NewBlockchain]
    leaves it, an escrow takes the amount, is recorded, and then the assignment
    to the map panics: no answer, no audit entry, nothing saved. *)
Theorem escrow_takes_and_panics fuel r s pl account :
  accepted_post "/api/escrow" r s →
  Api.decode_escrow (rq_Body r) = Ok pl → nd_IrreversibleTxs (sv_chain s) = None →
  nd_Ledger (sv_chain s) !! Api.esp_From pl = Some account →
  Api.esp_Amount pl ≤ acc_Balance account →
  let '(o, s') := serve fuel r s in
  o = Abort ∧
  nd_Ledger (sv_chain s') = alter (debit (Api.esp_Amount pl)) (Api.esp_From pl) (nd_Ledger (sv_chain s)) ∧
  nd_AuditTrail (sv_chain s') = nd_AuditTrail (sv_chain s) ∧
  nd_disk (sv_chain s') = nd_disk (sv_chain s).
Proof.
  intros (Hm & Hp & Ha & Hl) Hd Hi Hacc Hle.
  rewrite (serve_post fuel r s h_escrow Hm Ha) by by rewrite Hp.
  unfold h_escrow, post_only, decoded. rewrite Hm, bool_decide_true, Hd by done.
  rewrite (bind_Continue _ _ s tt s), (bind_Continue _ _ s pl s) by done. cbn [or_error].
  rewrite (bind_Continue _ _ _ _ _ (locked_run _ s Hl)). unfold CreateEscrow. rewrite Hacc.
  apply Z.ltb_ge in Hle. rewrite Hle. unfold UnixNano, MarkIrreversible. cbv zeta.
  match goal with |- context [match nd_IrreversibleTxs ?b with _ => _ end] =>
    change (nd_IrreversibleTxs b) with (nd_IrreversibleTxs (sv_chain s)) end.
  rewrite Hi. done.
Qed.
End requests.
