(* ===== verification/NodeDemo.v ===== *)
(** * The node program: concrete runs

    A node with two accounts, a server with a key, and the theorems on the node
    program applied to them. *)

From S2P Require Import Prelude Runtime Float64 Text Sha256 Domain Json Merkle Tendermint State Accounts Validation Mempool Mining Keys Limits P2P Node NodeChain NodeLedger NodeMining NodeP2P NodeApi NodeSafety.
From S2P Require Api.
Open Scope Z_scope.
Open Scope go_scope.

#[local] Existing Instance demo_runtime.
#[local] Existing Instance demo_ed25519.
#[local] Instance demo_net : Network :=
  {| conn_alive _ _ := true; dial _ peer := bool_decide (peer ≠ "down"); write_ok _ _ := true |}.

(** ** Accounts and blocks *)

Definition node_ledger : gmap string Account :=
  {[demo_alice := mkAccount demo_alice 1000000000 30 false; "bob" := mkAccount "bob" 20 7 false]}.

(** A transfer without a number. *)
Definition node_tx : Transaction :=
  @Sign demo_ed25519 (@NewWallet demo_ed25519 7) 1700000000 (demo_transfer <| tx_Nonce := 0 |>).

Definition node_chain : Blockchain :=
  (NewBlockchain ProofOfStake "data" "tender" None None)
    <| nd_Ledger := node_ledger |> <| nd_Pending := [node_tx] |>.

Definition node_block : Block := mkBlock 1 demo_alice demo_alice "g" 1700000005 [node_tx] 0 "" "".

Lemma node_ledger_sound : sound_ledger node_ledger.
Proof. apply sound_ledger_b_true. vm_compute. reflexivity. Qed.

Lemma node_blocks_conserve_witness :
  sound_ledger (nd_Ledger (foldl (λ b block, (applyBlock b block).2) node_chain [node_block; node_block])) ∧
  total_holdings (foldl (λ b block, (applyBlock b block).2) node_chain [node_block; node_block]) =
    total_holdings node_chain.
Proof.
  apply (node_blocks_conserve node_chain [node_block; node_block]).
  - exact node_ledger_sound.
  - intros id rev E. vm_compute in E. discriminate.
  - repeat constructor; vm_compute; congruence.
Defined.

(** Two eras on: 80, 56, 39. *)
Lemma block_reward_decays_witness :
  block_bonus AlucardCycleBlocks = 56 ∧
  block_bonus (AlucardCycleBlocks + AlucardCycleBlocks) = (56 * 70) `div` 100.
Proof.
  split; [vm_compute; reflexivity|].
  destruct (block_reward_decays AlucardCycleBlocks (AlucardCycleBlocks + AlucardCycleBlocks))
    as (_ & E); [vm_compute; split; congruence|].
  rewrite E; [vm_compute; reflexivity|reflexivity|vm_compute; reflexivity].
Defined.

(** The second block does not follow the first. *)
Definition broken_chain : Blockchain := node_chain <| nd_Chain := [demo_genesis_block; node_block] |>.

Lemma trim_keeps_longest_linked_witness :
  nd_Chain (trimInvalidBlocks broken_chain) `prefix_of` [demo_genesis_block; node_block] ∧
  linked (nd_Chain (trimInvalidBlocks broken_chain)).
Proof.
  destruct (trim_keeps_longest_linked broken_chain demo_genesis_block [node_block] eq_refl)
    as (Hl & Hp & _). split; [exact Hp|exact Hl].
Defined.

(** ** Mining *)

Definition node_prev : Block := default node_block (last (nd_Chain node_chain)).

Lemma node_not_stale k : (k ≤ 100)%nat → stale 1700000000 (@clock demo_runtime k) = false.
Proof.
  intros Hk. unfold stale. cbn [clock demo_runtime]. apply Z.ltb_ge.
  replace (i64 (1700000000 + 62135596800)) with (1700000000 + 62135596800) by reflexivity. lia.
Qed.

Lemma node_facts :
  nd_ticks node_chain = 5%nat ∧ tx_ID node_tx ≠ "" ∧ tx_Timestamp node_tx = 1700000000 ∧ plain node_tx ∧
  last (nd_Chain node_chain) = Some node_prev ∧ blk_Index node_prev = 0 ∧ blen (nd_Chain node_chain) = 1.
Proof. vm_compute. repeat split; congruence. Qed.

Lemma node_pool_fresh tx k :
  tx ∈ nd_Pending node_chain →
  (nd_ticks node_chain ≤ k ≤ nd_ticks node_chain + 2 * length (nd_Pending node_chain) + 6)%nat →
  stale (tx_Timestamp tx) (@clock demo_runtime k) = false.
Proof.
  intros Hin Hk. destruct node_facts as (Et & _ & Es & _). change (nd_Pending node_chain) with [node_tx] in *.
  apply list_elem_of_singleton in Hin as ->. rewrite Es. apply node_not_stale.
  rewrite Et in Hk. cbn [length] in Hk. lia.
Qed.

Lemma node_next_index : blk_Index node_prev +! 1 = u64 (blen (nd_Chain node_chain)).
Proof. by destruct node_facts as (_ & _ & _ & _ & _ & -> & ->). Qed.

Lemma node_pool_plain : Forall (λ tx, plain tx ∧ tx_ID tx ≠ "") (nd_Pending node_chain).
Proof. apply Forall_singleton. by destruct node_facts as (_ & ? & _ & ? & _). Qed.

Lemma mining_succeeds_witness :
  ∃ block bc', MineBlockFor 0 node_chain "carol" = Some (Ok block, bc') ∧ blk_Author block = "carol" ∧
    nd_Chain bc' = nd_Chain node_chain ++ [block] ∧ nd_Pending bc' = [].
Proof.
  apply (mining_succeeds 0 node_chain "carol" node_prev).
  - done.
  - done.
  - reflexivity.
  - apply node_facts.
  - exact node_next_index.
  - exact node_pool_plain.
  - apply NoDup_singleton.
  - exact node_pool_fresh.
  - done.
Defined.

(** The block that attempt mines. *)
Lemma mined_nonces_zero_witness :
  ∃ block bc', MineBlockFor 0 node_chain "carol" = Some (Ok block, bc') ∧
    numberless node_chain block.
Proof.
  destruct (mining_attempt_succeeds 0 node_chain "carol" node_prev) as (block & bc' & E & _);
    [done|done|reflexivity|apply node_facts|exact node_next_index|exact node_pool_plain
    |apply NoDup_singleton|exact node_pool_fresh|done|].
  exists block, bc'. split; [exact E|].
  apply (mined_nonces_zero 0 node_chain "carol" block bc'); [|exact E].
  apply Forall_singleton. destruct node_facts as (_ & _ & _ & (-> & _) & _). done.
Defined.

(** ** The server *)

(** Bodies are not looked at: amounts are 5 for bob, escrows take 5 from bob. *)
#[local] Instance demo_bodies : Api.Decoders :=
  {| Api.decode_finality := λ _, Err "json"; Api.decode_index := λ _, Err "json";
     Api.decode_tx := λ _, Err "json"; Api.decode_miner := λ _, Err "json";
     Api.decode_block := λ _, Err "json"; Api.decode_register := λ _, Err "json";
     Api.decode_model := λ _, Err "json"; Api.decode_purchase := λ _, Err "json";
     Api.decode_amount := λ _, Ok (Api.mkamountPayload "bob" 5);
     Api.decode_directory := λ _, Err "json"; Api.decode_universal := λ _, Err "json";
     Api.decode_wallet := λ _, Err "json";
     Api.decode_escrow := λ _, Ok (Api.mkescrowPayload "bob" "carol" 5 "service");
     Api.decode_reversal := λ _, Err "json"; Api.decode_proposal := λ _, Err "json";
     Api.decode_agreement := λ _, Err "json"; Api.decode_usage := λ _, Err "json";
     Api.decode_ingest := λ _, Err "json" |}.
#[local] Instance demo_node_bodies : NodeDecoders :=
  {| decode_register := λ _, Err "json"; decode_byName := λ _, Err "json" |}.

Definition demo_flags : nodeFlags :=
  mknodeFlags 0 0 "b:1" "c:1, d:1,," "" "" false "secret" false 0 "tender" "" "" "".

(** What [main] starts with these flags, an empty environment and no file. *)
Definition started : outcome (serverConfig * P2PNode) :=
  start_main (λ _, "") demo_flags NewSecurityModule [] None None.

Definition start_config : serverConfig :=
  match started with Ok (cfg, _) => cfg | _ => serverConfigFromEnv (λ _, "") end.

Definition start_peer : P2PNode :=
  match started with
  | Ok (_, p) => p
  | _ => start_node start_config demo_flags node_chain
  end.

Lemma started_facts :
  started = Ok (start_config, start_peer) ∧ p2_peers start_peer = ["b:1"; "c:1"; "d:1"] ∧
  p2_strictMode start_peer = true ∧ nc_EnableAuth start_config = true.
Proof. vm_compute. done. Qed.

Definition node_server : server := newServer start_config (start_peer <| p2_chain := node_chain |>).

Definition node_request (method path key : string) : request := mkrequest method path "10.0.0.1:5000" key "" [].

Lemma node_server_ok : chain_ok (sv_chain node_server).
Proof.
  destruct node_facts as (_ & _ & _ & _ & El & Ei & Eb).
  unfold chain_ok. change (sv_chain node_server) with node_chain.
  revert El Ei Eb. generalize node_prev as prev. generalize (nd_Chain node_chain) as l.
  intros l prev El Ei Eb.
  destruct l as [|g [|b l]]; [done| |unfold blen in Eb; cbn in Eb; lia].
  cbn in El. injection El as ->. split; [by exists prev, []|apply linked_singleton].
Qed.

(** A request and a message. *)
Definition node_message : p2pMessage :=
  mkp2pMessage "tx" "b:1" "" "" None [] (Some node_tx) None None "".

Definition faucet_request : request := node_request "POST" "/api/faucet" "Bearer secret".

Lemma node_message_typed : typed_message node_message.
Proof. intros block E. discriminate E. Qed.

Lemma main_starts :
  start_main (λ _, "") demo_flags NewSecurityModule [] None None = Ok (start_config, start_peer).
Proof. vm_compute. reflexivity. Qed.

Lemma no_file_at_zero : starts_at_zero None.
Proof. intros state g rest E. discriminate E. Qed.

(** The node [main] starts without a file serves the request and then the message. *)
Definition fresh_server : server := newServer start_config start_peer.

Lemma reachable_node_ok_witness :
  let s1 := (serve 0 faucet_request fresh_server).2 in
  let s2 := s1 <| sv_p2p ::= λ p, (processMessage node_message "b:1" true p).2 |> in
  chain_ok (sv_chain s2).
Proof.
  intros s1 s2.
  pose proof (λ bc, reachable_node_ok _ _ _ _ _ _ _ _ bc main_starts no_file_at_zero) as Hr.
  assert (rtc node_step (p2_chain start_peer) (sv_chain s1)) as H1.
  { apply (Hr (p2_chain start_peer) (rtc_refl _ _)) with fresh_server; [reflexivity|apply on_request]. }
  assert (rtc node_step (sv_chain s1) (sv_chain s2)) as H2.
  { apply (Hr (sv_chain s1) H1) with s1; [reflexivity|apply on_message, node_message_typed]. }
  apply Hr. exact (steps_trans _ _ _ H1 H2).
Defined.

(** A GET request for a new wallet and a POST request to mint, both without the key. *)
Lemma keyless_requests_harmless_witness :
  book (serve 0 (node_request "GET" "/api/wallet" "") node_server).2 = book node_server ∧
  ∃ msg, serve 0 (node_request "POST" "/api/admin/mint" "Bearer wrong") node_server =
    (Respond (mkresponse 401 (Text msg)), node_server).
Proof.
  split.
  - apply (keyless_requests_harmless 0 (node_request "GET" "/api/wallet" "") node_server).
    vm_compute. discriminate.
  - apply (keyless_requests_harmless 0 (node_request "POST" "/api/admin/mint" "Bearer wrong")
      node_server); [vm_compute; discriminate|reflexivity].
Defined.

(** Bob had 20 and 7 staked, and is left with 5. *)
Lemma mint_replaces_account_witness :
  nd_Ledger (sv_chain node_server) !! "bob" = Some (mkAccount "bob" 20 7 false) ∧
  nd_Ledger (sv_chain (serve 0 (node_request "POST" "/api/admin/mint" "Bearer secret") node_server).2)
    !! "bob" = Some (mkAccount "bob" 5 0 false).
Proof.
  split; [vm_compute; reflexivity|].
  pose proof (mint_replaces_account 0 (node_request "POST" "/api/admin/mint" "Bearer secret") node_server
    (Api.mkamountPayload "bob" 5) ltac:(split_and!; reflexivity) eq_refl) as Hm.
  destruct (serve 0 _ node_server) as [o s'].
  destruct Hm as (_ & E & _); [discriminate|discriminate|]. cbn [snd]. rewrite E. vm_compute. reflexivity.
Defined.

Lemma faucet_replaces_account_witness :
  nd_Ledger (sv_chain (serve 0 (node_request "POST" "/api/faucet" "Bearer secret") node_server).2)
    !! "bob" = Some (mkAccount "bob" 5 0 false).
Proof.
  pose proof (faucet_replaces_account 0 (node_request "POST" "/api/faucet" "Bearer secret") node_server
    (Api.mkamountPayload "bob" 5) ltac:(split_and!; reflexivity) eq_refl) as Hm.
  destruct (serve 0 _ node_server) as [o s'].
  destruct Hm as (_ & E & _); [discriminate|]. cbn [snd]. rewrite E. vm_compute. reflexivity.
Defined.

Lemma escrow_takes_and_panics_witness :
  let '(o, s') := serve 0 (node_request "POST" "/api/escrow" "Bearer secret") node_server in
  o = Abort ∧ acc_Balance <$> nd_Ledger (sv_chain s') !! "bob" = Some 15.
Proof.
  pose proof (escrow_takes_and_panics 0 (node_request "POST" "/api/escrow" "Bearer secret") node_server
    (Api.mkescrowPayload "bob" "carol" 5 "service") (mkAccount "bob" 20 7 false)
    ltac:(split_and!; reflexivity) eq_refl eq_refl eq_refl) as Hm.
  destruct (serve 0 _ node_server) as [o s'].
  destruct Hm as (E1 & E2 & _); [vm_compute; congruence|]. split; [exact E1|].
  rewrite E2. vm_compute. reflexivity.
Defined.

(** The broadcast of a transfer, received by the same node. *)
Lemma demo_steady_clock : @steady_clock demo_runtime.
Proof. intros k. cbn [clock demo_runtime]. unfold Minute, Second. lia. Qed.

Lemma broadcasts_travel_one_hop_witness :
  let '(sent, _, _, _) := broadcastMessage node_message start_peer in
  (processMessage sent "b:1" true start_peer).1.2 = [].
Proof.
  exact (broadcasts_travel_one_hop node_message start_peer "b:1" true start_peer demo_steady_clock).
Defined.
