(* ===== verification/Bridge.v ===== *)
(** * The bridge relayer (go-chain/tools/bridge-relayer)

    [relayer.go], [token.go] and [ethereum_listener.go]: the lock and mint
    requests, the listener of Ethereum logs, and the adapter that asks the node to
    mint.

    The node is behind the class [MintNode]: what a POST request with an address
    and an amount is answered and what it does to the node.  The node program of
    [NodeApi] is an instance, so that a minted amount can be followed into its
    ledger.  JSON bodies are decoded by [BridgeJson]; [address_hex] and [hash_hex]
    are go-ethereum's. *)

From S2P Require Import Prelude Runtime Float64 Text Sha256 Domain Mining Limits P2P Node NodeChain NodeP2P NodeApi NodeSafety NodeDemo.
From S2P Require Api.
Open Scope Z_scope.
Open Scope go_scope.

(** ** Interfaces *)

Record http_reply := mkhttp_reply { hr_code : Z; hr_body : list byte }.

(** [node_post n path address amount], and a transfer with its two addresses.
    [None] is a request that failed or timed out; the node may have acted on it. *)
Class MintNode (N : Type) := {
  node_post : N → string → string → Z → option http_reply * N;
  node_transfer : N → string → string → Z → option http_reply * N;
}.

Record MintResult := mkMintResult {
  mr_Address : string; mr_Amount : Z; mr_TxHash : string; mr_Timestamp : Z }.

(** Decoding into a struct overwrites the fields that are present.  [faucet_ids]
    is what a JSON object holds under ["tx_id"] and ["tx_hash"]. *)
Class BridgeJson := {
  decode_mint_result : MintResult → list byte → MintResult;
  faucet_ids : list byte → option (option string * option string);
}.

Class Ethereum := {
  address_hex : list byte → string;
  hash_hex : string → string;
}.

(** ** The token adapter *)

Section adapter.
Context {N : Type} `{MintNode N} `{BridgeJson}.

Definition mintViaFaucet (node : N) (to : string) (amount now : Z) : outcome MintResult * N :=
  let '(resp, node) := node_post node "/api/faucet" to amount in
  match resp with
  | None => (Err "faucet mint failed", node)
  | Some resp =>
      if negb (hr_code resp =? 200) then
        (Err ("faucet mint failed: " +:+ string_of_bytes (hr_body resp)), node) else
      match faucet_ids (hr_body resp) with
      | None => (Ok (mkMintResult to amount "" 0), node)
      | Some (txID, txHash) =>
          let txHash := match txID with Some h => h | None => default "" txHash end in
          (Ok (mkMintResult to amount txHash now), node)
      end
  end.

Definition Mint (node : N) (to : string) (amount now : Z) : outcome MintResult * N :=
  let mintResult := mkMintResult to amount "" now in
  let '(resp, node) := node_post node "/api/admin/mint" to amount in
  match resp with
  | None => (Err "admin mint request failed", node)
  | Some resp =>
      if (hr_code resp =? 200) || (hr_code resp =? 201) then
        (Ok (decode_mint_result mintResult (hr_body resp)), node) else
      if hr_code resp =? 404 then mintViaFaucet node to amount now
      else (Err ("admin mint failed: " +:+ string_of_bytes (hr_body resp)), node)
  end.

Definition burn_address : string := zeros 64.

(** A transfer without key, nonce or signature. *)
Definition Burn (node : N) (from : string) (amount : Z) : outcome unit * N :=
  let '(resp, node) := node_transfer node from burn_address amount in
  match resp with
  | None => (Err "burn via transfer failed", node)
  | Some resp =>
      if negb (hr_code resp =? 200) then
        (Err ("burn via transfer failed: " +:+ string_of_bytes (hr_body resp)), node)
      else (Ok tt, node)
  end.

(** ** The relayer *)

Record lockRequest := mklockRequest {
  lr_TxHash : string; lr_From : string; lr_Amount : Z; lr_Recipient : string }.
Record mintRequest := mkmintRequest { mq_TxHash : string; mq_To : string; mq_Amount : Z }.

Record relayer := mkrelayer {
  rl_privKey : list byte; rl_processedHashes : gset string; rl_node : N }.

#[export] Instance relayer_rebuild : Rebuild relayer := λ r,
  mkrelayer (rl_privKey r) (rl_processedHashes r) (rl_node r).

Inductive reply :=
| Refused (code : Z) (msg : string)
| AlreadyProcessed (txHash : string)
| LockRecorded (req : lockRequest) (signature : string)
| MintExecuted (req : mintRequest) (signature : string) (result : MintResult).

Context `{Ed25519}.

Definition sign (r : relayer) (payload : string) : string :=
  EncodeToString (ed_Sign (rl_privKey r) (Sum256 (bytes_of_string payload))).

Definition handleLock (method : string) (req : outcome lockRequest) (r : relayer) : reply * relayer :=
  if negb (bool_decide (method = "POST")) then (Refused 405 "method not allowed", r) else
  match req with
  | Err e | Panic e => (Refused 400 e, r)
  | Ok lr =>
      if bool_decide (lr_TxHash lr = "") || bool_decide (lr_From lr = "") || (lr_Amount lr =? 0) ||
         bool_decide (lr_Recipient lr = "") then (Refused 400 "missing required fields", r) else
      if bool_decide (lr_TxHash lr ∈ rl_processedHashes r) then (AlreadyProcessed (lr_TxHash lr), r) else
      let r := r <| rl_processedHashes ::= union {[lr_TxHash lr]} |> in
      (LockRecorded lr (sign r (lr_TxHash lr +:+ ":" +:+ lr_From lr +:+ ":" +:+
         FormatInt (lr_Amount lr) +:+ ":" +:+ lr_Recipient lr)), r)
  end.

Definition handleMint (method : string) (req : outcome mintRequest) (now : Z) (r : relayer)
    : reply * relayer :=
  if negb (bool_decide (method = "POST")) then (Refused 405 "method not allowed", r) else
  match req with
  | Err e | Panic e => (Refused 400 e, r)
  | Ok mr =>
      if bool_decide (mq_TxHash mr = "") || bool_decide (mq_To mr = "") || (mq_Amount mr =? 0)
      then (Refused 400 "missing required fields", r) else
      if bool_decide (mq_TxHash mr ∈ rl_processedHashes r) then (AlreadyProcessed (mq_TxHash mr), r) else
      let r := r <| rl_processedHashes ::= union {[mq_TxHash mr]} |> in
      let signature := sign r (mq_TxHash mr +:+ ":" +:+ mq_To mr +:+ ":" +:+ FormatInt (mq_Amount mr)) in
      let '(o, node) := Mint (rl_node r) (mq_To mr) (mq_Amount mr) now in
      let r := r <| rl_node := node |> in
      match o with
      | Ok result => (MintExecuted mr signature result, r)
      | Err e | Panic e => (Refused 500 ("mint failed: " +:+ e), r)
      end
  end.

Definition handleStatus (r : relayer) : Z := Z.of_nat (size (rl_processedHashes r)).

(** ** The key of the relayer (main.go) *)

Record keyFile := mkkeyFile { kf_PublicKey : string; kf_PrivateKey : string }.

(** [file] is [None] when the key file cannot be read, whatever the reason; the
    key and, when a new one was saved, the file. *)
Definition loadOrGenerateKey (k : nat) (written : bool) (file : option (outcome keyFile))
    : outcome (list byte * list byte) * option keyFile :=
  match file with
  | Some (Ok kf) =>
      match DecodeString (kf_PrivateKey kf) with
      | Ok priv =>
          match DecodeString (kf_PublicKey kf) with
          | Ok pub =>
              if negb (length priv =? PrivateKeySize)%nat then (Err "invalid private key size", None)
              else (Ok (priv, pub), None)
          | Err e | Panic e => (Err e, None)
          end
      | Err e | Panic e => (Err e, None)
      end
  | Some (Err e) | Some (Panic e) => (Err e, None)
  | None =>
      let '(pub, priv) := GenerateKey k in
      let kf := mkkeyFile (EncodeToString pub) (EncodeToString priv) in
      if negb written then (Err "write", None) else (Ok (priv, pub), Some kf)
  end.

(** ** The Ethereum listener *)

Record ethereumLog := mkethereumLog {
  lg_TxHash : string; lg_BlockNumber : Z; lg_Index : Z; lg_Data : list byte }.

Record ethereumLockEvent := mkethereumLockEvent {
  ev_TxHash : string; ev_Block : Z; ev_LogIndex : Z; ev_From : string; ev_To : string;
  ev_Amount : Z; ev_Recipient : string }.

#[export] Instance ethereumLockEvent_rebuild : Rebuild ethereumLockEvent := λ r,
  mkethereumLockEvent (ev_TxHash r) (ev_Block r) (ev_LogIndex r) (ev_From r) (ev_To r) (ev_Amount r)
    (ev_Recipient r).

Context `{Ethereum}.

(** [Data[a:b]] of a slice without spare capacity. *)
Definition slice (a b : nat) (l : list byte) : outcome (list byte) :=
  if (b <=? length l)%nat then Ok (take (b - a) (drop a l)) else Panic "slice bounds out of range".

(** The words of the data are an address each; the amount is the low 64 bits of
    the fourth.  The test asks for three. *)
Definition decodeLockEvent (lg : ethereumLog) : outcome ethereumLockEvent :=
  let data := lg_Data lg in
  let out := mkethereumLockEvent (hash_hex (lg_TxHash lg)) (lg_BlockNumber lg) (lg_Index lg) "" "" 0 "" in
  let out := if (64 <=? length data)%nat
             then out <| ev_From := address_hex (take 32 data) |>
                      <| ev_To := address_hex (take 32 (drop 32 data)) |>
             else out in
  if (96 <=? length data)%nat then
    match slice 96 128 data with
    | Ok word => Ok (out <| ev_Recipient := address_hex (take 32 (drop 64 data)) |>
                         <| ev_Amount := u64 (be_value word) |>)
    | Err e => Err e
    | Panic e => Panic e
    end
  else Ok out.

(** The mint goes to [ev_To]. *)
Definition handleEthereumLock (event : ethereumLockEvent) (now : Z) (r : relayer) : relayer :=
  r <| rl_node := (Mint (rl_node r) (ev_To event) (ev_Amount event) now).2 |>.

Record bridge := mkbridge { br_relayer : relayer; br_processed : gset string }.

#[export] Instance bridge_rebuild : Rebuild bridge := λ r, mkbridge (br_relayer r) (br_processed r).

(** The panic of the decoder is not recovered: it ends the program. *)
Definition handleLog (lg : ethereumLog) (now : Z) (b : bridge) : outcome unit * bridge :=
  if bool_decide (lg_TxHash lg ∈ br_processed b) then (Ok tt, b) else
  let b := b <| br_processed ::= union {[lg_TxHash lg]} |> in
  match decodeLockEvent lg with
  | Err _ => (Ok tt, b)
  | Panic e => (Panic e, b)
  | Ok event =>
      let event := if bool_decide (ev_Recipient event = "")
                   then event <| ev_Recipient := ev_From event |> else event in
      (Ok tt, b <| br_relayer ::= handleEthereumLock event now |>)
  end.
End adapter.
Arguments relayer : clear implicits.
Arguments bridge : clear implicits.

(** ** Runs of the relayer *)

Inductive bridge_event :=
| EvLock (method : string) (req : outcome lockRequest)
| EvMint (method : string) (req : outcome mintRequest) (now : Z)
| EvLog (lg : ethereumLog) (now : Z).

Section runs.
Context {N : Type} `{MintNode N} `{BridgeJson} `{Ed25519} `{Ethereum}.
Implicit Types (r : relayer N) (b : bridge N).

Definition run_event b (e : bridge_event) : bridge N :=
  match e with
  | EvLock method req => b <| br_relayer ::= λ r, (handleLock method req r).2 |>
  | EvMint method req now => b <| br_relayer ::= λ r, (handleMint method req now r).2 |>
  | EvLog lg now => (handleLog lg now b).2
  end.

(** A mint request either changes nothing, or is the first for its transaction and
    one [Mint] is all it does to the node. *)
Lemma handleMint_spec method req now r :
  (handleMint method req now r).2 = r ∨
  ∃ mr, req = Ok mr ∧ mq_TxHash mr ∉ rl_processedHashes r ∧
    (handleMint method req now r).2 =
      r <| rl_processedHashes ::= union {[mq_TxHash mr]} |>
        <| rl_node := (Mint (rl_node r) (mq_To mr) (mq_Amount mr) now).2 |>.
Proof.
  unfold handleMint. destruct (negb _); [by left|]. destruct req as [mr|e|e]; [|by left..].
  destruct (_ || _); [by left|]. case_bool_decide as Hin; [by left|]. right. exists mr.
  split_and!; [done|done|]. cbv zeta.
  change (rl_node (r <| rl_processedHashes ::= ?f |>)) with (rl_node r).
  by destruct (Mint _ _ _ _) as [[res|e|e] node].
Qed.

(** A log either changes nothing but the set, or is the first of its transaction
    and one [Mint] is all it does to the node. *)
Lemma handleLog_spec lg now b :
  (handleLog lg now b).2 = b ∨
  lg_TxHash lg ∉ br_processed b ∧
  ((handleLog lg now b).2 = b <| br_processed ::= union {[lg_TxHash lg]} |> ∨
   ∃ to amount, (handleLog lg now b).2 =
     b <| br_processed ::= union {[lg_TxHash lg]} |>
       <| br_relayer ::= λ r, r <| rl_node := (Mint (rl_node r) to amount now).2 |> |>).
Proof.
  unfold handleLog. case_bool_decide as Hin; [by left|]. right. split; [done|]. cbv zeta.
  destruct (decodeLockEvent lg) as [ev|e|e]; [|by left..]. right. by do 2 eexists.
Qed.

Lemma handleLock_spec method req r :
  rl_node (handleLock method req r).2 = rl_node r ∧
  rl_processedHashes r ⊆ rl_processedHashes (handleLock method req r).2.
Proof.
  unfold handleLock. destruct (negb _); [done|]. destruct req as [lr|e|e]; [|done..].
  destruct (_ || _); [done|]. case_bool_decide; [done|]. cbn. split; [done|set_solver].
Qed.
End runs.

(** ** What the node is asked *)

(** A node with a record of the mint requests it was sent: the path, the address and
    the amount of each. *)
Record recorder (N : Type) := mkrecorder { rc_node : N; rc_posts : list (string * string * Z) }.
Arguments mkrecorder {N} _ _.
Arguments rc_node {N} _.
Arguments rc_posts {N} _.

Section safety.
Context {N : Type} `{MintNode N} `{BridgeJson} `{Ed25519} `{Ethereum}.

#[local] Instance recording : MintNode (recorder N) :=
  {| node_post n path address amount :=
       let '(o, node) := node_post (rc_node n) path address amount in
       (o, mkrecorder node (rc_posts n ++ [(path, address, amount)]));
     node_transfer n from to amount :=
       let '(o, node) := node_transfer (rc_node n) from to amount in
       (o, mkrecorder node (rc_posts n)) |}.

Implicit Types (r : relayer (recorder N)) (b : bridge (recorder N)).

Definition posts b : list (string * string * Z) := rc_posts (rl_node (br_relayer b)).

(** An attempt to mint, as the node sees it: for a request or for a log, of which
    transaction, and on which path. *)
Inductive origin := ByRequest | ByLog.
Definition attempt : Type := origin * string * string.

Definition attempt_of (e : bridge_event) (post : string * string * Z) : attempt :=
  match e with
  | EvLock _ (Ok req) => (ByRequest, lr_TxHash req, post.1.1)
  | EvMint _ (Ok req) _ => (ByRequest, mq_TxHash req, post.1.1)
  | EvLog lg _ => (ByLog, lg_TxHash lg, post.1.1)
  | _ => (ByRequest, "", post.1.1)
  end.

(** The attempts of one event are what it adds to the record of the node. *)
Definition attempts_of (e : bridge_event) b : list attempt :=
  map (attempt_of e) (drop (length (posts b)) (posts (run_event b e))).

Fixpoint run_attempts b (es : list bridge_event) : list attempt :=
  match es with
  | [] => []
  | e :: es => attempts_of e b ++ run_attempts (run_event b e) es
  end.

(** What has been processed already. *)
Definition done_with b (a : attempt) : Prop :=
  match a.1.1 with
  | ByRequest => a.1.2 ∈ rl_processedHashes (br_relayer b)
  | ByLog => a.1.2 ∈ br_processed b
  end.

(** One [Mint] asks on two different paths at most. *)
Lemma Mint_posts (n : recorder N) to amount now :
  ∃ new, rc_posts (Mint n to amount now).2 = rc_posts n ++ new ∧ NoDup (map (λ post, post.1.1) new).
Proof.
  unfold Mint. cbn [node_post recording]. destruct (node_post (rc_node n) "/api/admin/mint" to amount) as [o n1].
  assert (NoDup (map (λ post : string * string * Z, post.1.1) [("/api/admin/mint", to, amount)])) as Hone
    by apply NoDup_singleton.
  destruct o as [resp|]; [|by eexists]. destruct (_ || _); [by eexists|].
  destruct (hr_code resp =? 404); [|by eexists]. unfold mintViaFaucet. cbn [node_post recording rc_node].
  destruct (node_post n1 "/api/faucet" to amount) as [o n2].
  exists [("/api/admin/mint", to, amount); ("/api/faucet", to, amount)]. split.
  - destruct o as [resp'|]; [|cbn; by rewrite <- app_assoc].
    destruct (negb _); [cbn; by rewrite <- app_assoc|].
    destruct (faucet_ids _) as [[? ?]|]; cbn; by rewrite <- app_assoc.
  - cbn. repeat constructor; set_solver.
Qed.

Lemma done_with_mono b e a : done_with b a → done_with (run_event b e) a.
Proof.
  destruct a as [[[] h] path]; unfold done_with; cbn [fst snd]; intros Hd;
    destruct e as [method req|method req now|lg now]; cbn [run_event].
  - by apply (handleLock_spec method req (br_relayer b)).
  - cbn. destruct (handleMint_spec method req now (br_relayer b)) as [->|(mr & -> & _ & ->)]; cbn; set_solver.
  - by destruct (handleLog_spec lg now b) as [->|[_ [->|(to & amount & ->)]]].
  - done.
  - done.
  - destruct (handleLog_spec lg now b) as [->|[_ [->|(to & amount & ->)]]]; cbn; set_solver.
Qed.

(** Attempts with distinct paths, for a transaction that was not processed and is
    now. *)
Definition fresh_attempts (l : list attempt) b b' : Prop :=
  NoDup l ∧ ∀ a, a ∈ l → ¬ done_with b a ∧ done_with b' a.

Lemma fresh_none b b' : fresh_attempts [] b b'.
Proof. split; [constructor|set_solver]. Qed.

Lemma fresh_posts (o : origin) h (new : list (string * string * Z)) b b' :
  NoDup (map (λ post, post.1.1) new) →
  (∀ path, ¬ done_with b (o, h, path) ∧ done_with b' (o, h, path)) →
  fresh_attempts (map (λ post, (o, h, post.1.1)) new) b b'.
Proof.
  intros Hn Hd. split.
  - rewrite <- (map_map (λ post : string * string * Z, post.1.1) (λ path, (o, h, path))).
    apply NoDup_fmap_2; [by intros ?? [=]|done].
  - intros a ([[p x] y] & -> & _)%list_elem_of_fmap. apply Hd.
Qed.

Lemma attempts_fresh b e : fresh_attempts (attempts_of e b) b (run_event b e).
Proof.
  unfold attempts_of, posts. destruct e as [method req|method req now|lg now]; cbn [run_event].
  - cbn. destruct (handleLock_spec method req (br_relayer b)) as [-> _]. rewrite drop_all. apply fresh_none.
  - cbn [br_relayer update bridge_rebuild].
    destruct (handleMint_spec method req now (br_relayer b)) as [E|(mr & -> & Hn & E)].
    { rewrite E, drop_all. apply fresh_none. }
    destruct (Mint_posts (rl_node (br_relayer b)) (mq_To mr) (mq_Amount mr) now) as (new & En & Hnew).
    rewrite E. cbn [rl_node update relayer_rebuild]. rewrite En, drop_app_length.
    apply (fresh_posts ByRequest (mq_TxHash mr)); [done|]. intros path. split; [exact Hn|]. cbn. set_solver.
  - destruct (handleLog_spec lg now b) as [E|[Hn [E|(to & amount & E)]]]; rewrite E.
    1, 2: cbn; rewrite drop_all; apply fresh_none.
    destruct (Mint_posts (rl_node (br_relayer b)) to amount now) as (new & En & Hnew).
    cbn [br_relayer rl_node update bridge_rebuild relayer_rebuild]. rewrite En, drop_app_length.
    apply (fresh_posts ByLog (lg_TxHash lg)); [done|]. intros path. split; [exact Hn|]. cbn. set_solver.
Qed.

Lemma run_attempts_fresh es : ∀ b a, a ∈ run_attempts b es → ¬ done_with b a.
Proof.
  induction es as [|e es IH]; intros b a; cbn [run_attempts]; [set_solver|].
  rewrite elem_of_app. intros [Ha|Ha]; [by apply attempts_fresh in Ha as [? _]|].
  intros Hd. by apply IH in Ha; apply Ha, done_with_mono.
Qed.

(** C29. Whatever requests and logs arrive, in whatever order, and whatever the node
    answers, each of the two minting paths of the node is posted to at most once per
    transaction hash for the mint requests, and at most once per Ethereum transaction
    for the logs. *)
Theorem bridge_mints_once b es : NoDup (run_attempts b es).
Proof.
  revert b. induction es as [|e es IH]; intros b; cbn [run_attempts]; [constructor|].
  destruct (attempts_fresh b e) as [Hn Hf].
  apply NoDup_app. split_and!; [done| |apply IH].
  intros a [_ Hd]%Hf Hin. by apply run_attempts_fresh in Hin.
Qed.

(** A recorded lock uses up its transaction hash: nothing is ever posted to the node
    for a mint request with it, whatever comes in between.  The same holds after a
    mint that failed. *)
Theorem locked_hash_never_mints b req path es :
  (handleLock "POST" (Ok req) (br_relayer b)).1 = LockRecorded req
    (sign (handleLock "POST" (Ok req) (br_relayer b)).2
       (lr_TxHash req +:+ ":" +:+ lr_From req +:+ ":" +:+ FormatInt (lr_Amount req) +:+ ":" +:+
        lr_Recipient req)) →
  (ByRequest, lr_TxHash req, path) ∉ run_attempts (run_event b (EvLock "POST" (Ok req))) es.
Proof.
  intros Hl Hin. apply run_attempts_fresh in Hin. apply Hin. unfold done_with. cbn.
  revert Hl. unfold handleLock. rewrite bool_decide_true by done. cbn [negb].
  destruct (_ || _); [done|]. case_bool_decide; [done|]. intros _. cbn. set_solver.
Qed.

(** Recording changes nothing: without the record, the run is that of the node
    itself. *)
Definition forget b : bridge N :=
  let r := br_relayer b in
  mkbridge (mkrelayer (rl_privKey r) (rl_processedHashes r) (rc_node (rl_node r))) (br_processed b).

Lemma Mint_forget (n : recorder N) to amount now :
  Mint (rc_node n) to amount now = prod_map id rc_node (Mint n to amount now).
Proof.
  unfold Mint. cbn [node_post recording].
  destruct (node_post (rc_node n) "/api/admin/mint" to amount) as [[resp|] n1]; [|done].
  destruct (_ || _); [done|]. destruct (hr_code resp =? 404); [|done].
  unfold mintViaFaucet. cbn [node_post recording rc_node].
  destruct (node_post n1 "/api/faucet" to amount) as [[resp'|] n2]; [|done].
  destruct (negb _); [done|]. by destruct (faucet_ids _) as [[? ?]|].
Qed.

Lemma run_event_forget b e : forget (run_event b e) = run_event (forget b) e.
Proof.
  destruct b as [[key done_ n] seen], e as [method req|method req now|lg now].
  - cbn. unfold handleLock. destruct (negb _); [done|]. destruct req as [lr|e|e]; [|done..].
    destruct (_ || _); [done|]. cbn. by case_bool_decide.
  - unfold run_event, handleMint, forget.
    cbn [br_relayer rl_node rl_privKey rl_processedHashes br_processed update bridge_rebuild].
    destruct (negb _); [done|]. destruct req as [mr|e|e]; [|done..].
    destruct (_ || _); [done|]. case_bool_decide; [done|]. cbv zeta.
    cbn [rl_node update relayer_rebuild]. rewrite Mint_forget. by destruct (Mint n _ _ _) as [[res|e|e] n'].
  - unfold run_event, handleLog, forget. cbn [br_processed br_relayer rl_privKey rl_processedHashes rl_node].
    case_bool_decide; [done|]. cbv zeta. destruct (decodeLockEvent lg) as [ev|e|e]; [|done..].
    unfold handleEthereumLock.
    cbn [snd br_relayer rl_node rl_privKey rl_processedHashes br_processed update bridge_rebuild relayer_rebuild].
    rewrite Mint_forget. by destruct (Mint n _ _ _).
Qed.

(** The key a first start generates and saves is the key every later start loads. *)
Theorem relayer_key_survives k k' written :
  let '(key, file) := loadOrGenerateKey k true None in
  ∃ kf, file = Some kf ∧ loadOrGenerateKey k' written (Some (Ok kf)) = (key, None).
Proof.
  unfold loadOrGenerateKey. pose proof (GenerateKey_priv_len k) as Hl.
  destruct (GenerateKey k) as [pub priv]. cbn [negb snd] in *. eexists. split; [reflexivity|].
  cbn [kf_PrivateKey kf_PublicKey]. by rewrite !DecodeString_EncodeToString, Hl.
Qed.

(** The decoder of lock events asks for 96 bytes and reads 128: a log with less
    than four words and at least three ends the relayer. *)
Theorem short_log_panics lg :
  (∃ e, decodeLockEvent lg = Panic e) ↔ (96 ≤ length (lg_Data lg) < 128)%nat.
Proof.
  unfold decodeLockEvent, slice. cbv zeta.
  destruct (96 <=? length (lg_Data lg))%nat eqn:E1; [apply Nat.leb_le in E1|apply Nat.leb_gt in E1].
  - destruct (128 <=? length (lg_Data lg))%nat eqn:E2; [apply Nat.leb_le in E2|apply Nat.leb_gt in E2].
    + split; [intros [e ?]; done|lia].
    + split; [lia|by eexists].
  - split; [intros [e ?]; done|lia].
Qed.
End safety.

(** ** The relayer and the node program *)

(** What the relayer sends and what the node answers, on the wire. *)
Class BridgeWire := {
  encode_amount : string → Z → list byte;
  encode_transfer : string → string → Z → list byte;
  encode_reply : NodeApi.reply → list byte;
  relayer_addr : string;
}.

Section node_program.
Context `{Runtime} `{Ed25519} `{Network} `{Api.Decoders} `{NodeDecoders} `{BridgeJson} `{BridgeWire}.
Implicit Types (r : relayer server).

(** The header of the adapter with the key [nodeAPIKey]. *)
Definition authorization (key : string) : string :=
  if bool_decide (key = "") then "" else "Bearer " +:+ key.

Definition adapter_request (key path : string) (body : list byte) : request :=
  mkrequest "POST" path relayer_addr (authorization key) "" body.

(** A handler that panics closes the connection, one that hangs is given up after
    five seconds. *)
Definition as_http (o : step response) : option http_reply :=
  match o with
  | Continue r | Respond r => Some (mkhttp_reply (rs_code r) (encode_reply (rs_body r)))
  | Abort | Hang => None
  end.

#[local] Instance node_program (fuel : nat) (key : string) : MintNode server :=
  {| node_post s path address amount :=
       let '(o, s) := serve fuel (adapter_request key path (encode_amount address amount)) s in
       (as_http o, s);
     node_transfer s from to amount :=
       let '(o, s) := serve fuel (adapter_request key "/api/transfer" (encode_transfer from to amount)) s in
       (as_http o, s) |}.

(** A mint request carried out by the node program: the relayer reports the mint,
    and the account of the recipient on the node is replaced by one that holds the
    amount and nothing else.  Whatever was bridged to the address before is gone. *)
Theorem bridge_mint_replaces fuel key req now r :
  let node := rl_node r in
  requireAuth (authorization key) (sv_cfg node) = Ok tt → sv_locked node = false →
  Api.decode_amount (encode_amount (mq_To req) (mq_Amount req)) =
    Ok (Api.mkamountPayload (mq_To req) (mq_Amount req)) →
  mq_TxHash req ≠ "" → mq_To req ≠ "" → mq_Amount req ≠ 0 →
  mq_TxHash req ∉ rl_processedHashes r →
  let '(answer, r') := @handleMint _ (node_program fuel key) _ _ "POST" (Ok req) now r in
  (∃ signature result, answer = MintExecuted req signature result) ∧
  rl_processedHashes r' = {[mq_TxHash req]} ∪ rl_processedHashes r ∧
  nd_Ledger (sv_chain (rl_node r')) =
    <[mq_To req := mkAccount (mq_To req) (mq_Amount req) 0 false]> (nd_Ledger (sv_chain node)).
Proof.
  cbv zeta. intros Ha Hl Hd Hh Ht Hz Hn. unfold handleMint.
  rewrite (bool_decide_true ("POST" = "POST")) by done. cbn [negb].
  rewrite (bool_decide_false _ Hh), (bool_decide_false _ Ht), (bool_decide_false _ Hn).
  pose proof Hz as Hz'. apply Z.eqb_neq in Hz'. rewrite Hz'. cbn [orb]. cbv zeta. unfold Mint.
  cbn [node_post node_program rl_node].
  change (rl_node (r <| rl_processedHashes ::= union {[mq_TxHash req]} |>)) with (rl_node r).
  pose proof (admin_mint_runs fuel (adapter_request key "/api/admin/mint"
    (encode_amount (mq_To req) (mq_Amount req))) (rl_node r)
    (Api.mkamountPayload (mq_To req) (mq_Amount req))) as Hm.
  specialize (Hm ltac:(split_and!; done) Hd Ht Hz). cbv zeta in Hm.
  destruct (serve fuel _ (rl_node r)) as [o node'].
  destruct Hm as ([body ->] & El & _). cbn [as_http rs_code hr_code Api.amp_Address Api.amp_Amount] in *.
  change (200 =? 200) with true. cbn [orb].
  split; [by do 2 eexists|]. split; [done|]. exact El.
Qed.
End node_program.

(** ** Concrete runs *)

#[local] Existing Instance demo_runtime.
#[local] Existing Instance demo_ed25519.
#[local] Existing Instance NodeDemo.demo_net.
#[local] Existing Instance demo_bodies.
#[local] Existing Instance demo_node_bodies.
#[local] Instance demo_bridge_json : BridgeJson :=
  {| decode_mint_result r _ := r; faucet_ids _ := None |}.
#[local] Instance demo_bridge_wire : BridgeWire :=
  {| encode_amount _ _ := []; encode_transfer _ _ _ := []; encode_reply _ := []; relayer_addr := "10.0.0.9:1" |}.
#[local] Instance demo_ethereum : Ethereum := {| address_hex := EncodeToString; hash_hex h := h |}.

Definition demo_relayer : relayer server := mkrelayer [] ∅ node_server.
Definition demo_lock : lockRequest := mklockRequest "0xaa" "0xcarol" 5 "bob".

(** A lock is recorded; the mint for it is then refused. *)
Definition recorded_bridge : bridge (recorder server) :=
  mkbridge (mkrelayer [] ∅ (mkrecorder node_server [])) ∅.

Lemma locked_hash_never_mints_witness :
  (ByRequest, "0xaa", "/api/admin/mint") ∉
    @run_attempts _ (node_program 0 "secret") _ _ _
      (@run_event _ (@recording _ (node_program 0 "secret")) _ _ _ recorded_bridge (EvLock "POST" (Ok demo_lock)))
      [EvMint "POST" (Ok (mkmintRequest "0xaa" "bob" 5)) 1700000000].
Proof.
  apply (@locked_hash_never_mints _ (node_program 0 "secret") _ _ _ recorded_bridge demo_lock).
  reflexivity.
Defined.

(** Two requests and one log of the same transaction: two posts. *)
Example demo_attempts :
  @run_attempts _ (node_program 0 "secret") _ _ _ recorded_bridge
    [EvMint "POST" (Ok (mkmintRequest "0xaa" "bob" 5)) 1700000000;
     EvMint "POST" (Ok (mkmintRequest "0xaa" "bob" 5)) 1700000001;
     EvLog (mkethereumLog "0xaa" 1 0 []) 1700000002; EvLog (mkethereumLog "0xaa" 1 1 []) 1700000003]
  = [(ByRequest, "0xaa", "/api/admin/mint"); (ByLog, "0xaa", "/api/admin/mint")].
Proof. vm_compute. reflexivity. Qed.

(** Bob had 20 and 7 staked: after a mint of 5 he has 5. *)
Lemma bridge_mint_replaces_witness :
  nd_Ledger (sv_chain node_server) !! "bob" = Some (mkAccount "bob" 20 7 false) ∧
  nd_Ledger (sv_chain (rl_node (@handleMint _ (node_program 0 "secret") _ _ "POST"
    (Ok (mkmintRequest "0xbb" "bob" 5)) 1700000000 demo_relayer).2)) !! "bob" =
    Some (mkAccount "bob" 5 0 false).
Proof.
  split; [vm_compute; reflexivity|].
  pose proof (bridge_mint_replaces 0 "secret" (mkmintRequest "0xbb" "bob" 5) 1700000000 demo_relayer
    eq_refl eq_refl eq_refl) as Hm.
  destruct (handleMint _ _ _ demo_relayer) as [answer r'].
  destruct Hm as (_ & _ & E); [discriminate|discriminate|discriminate|apply not_elem_of_empty|].
  cbn [snd]. rewrite E. vm_compute. reflexivity.
Defined.
