(* ===== verification/WalletTool.v ===== *)
(** * The wallet tool (go-chain/tools/wallet/main.go)

    Wallet files, amounts, and the commands [show], [balance] and [send], against
    the node program of [NodeApi].  The tool has its own copies of the transaction,
    of its signed bytes and of the signing code; they are shown to be those of
    package [blockchain], and a transfer it sends is followed into the pool of the
    node.

    A command returns the lines it prints; [Err] is an exit with code 1.  The
    answers of the node are the values of [NodeApi]; the body of a request and the
    format of a time are the class [WalletWire].  The tool puts the address into
    the URL as it is; the requests here carry the address itself, so addresses with
    characters that a URL escapes are not covered. *)

From S2P Require Import Prelude Runtime Float64 Text Sha256 Domain Json Merkle Tendermint State Accounts Validation Mempool Mining Keys Limits P2P Node NodeChain NodeLedger NodeMining NodeP2P NodeApi NodeSafety NodeDemo.
From S2P Require Api.
Open Scope Z_scope.
Open Scope go_scope.

Record WalletFile := mkWalletFile {
  wf_PublicKey : string; wf_PrivateKey : string; wf_Address : string; wf_Label : string;
  wf_CreatedAt : string }.

Class WalletWire := {
  rfc3339 : Z → string;
  encode_tx : Transaction → list byte;
  client_addr : string;
}.

Definition tool_HogohogoPerTender : Z := 10000000.
Definition defaultChainID : string := "tdr-mainnet-1".

(** ** Amounts *)

(** [%0nd] of a number that is not negative. *)
Definition zero_padded (n : nat) (v : Z) : string :=
  let s := FormatInt v in zeros (n - String.length s) +:+ s.

Definition formatTender (amount : Z) : string :=
  let tender := amount `div` tool_HogohogoPerTender in
  let hogohogo := amount `mod` tool_HogohogoPerTender in
  FormatInt tender +:+ "." +:+ zero_padded 8 hogohogo +:+ " TDR".

(** ** Signing *)

Definition canonicalBytes (tx : Transaction) : list byte :=
  bytes_of_string
    (foldl (λ b s, b +:+ s) ""
       [tx_ChainID tx; nul; tx_From tx; nul; tx_FromPubKey tx; nul; tx_To tx; nul;
        FormatInt (tx_Amount tx); nul; FormatInt (tx_Fee tx); nul; FormatInt (tx_Nonce tx); nul;
        tx_TxType tx; nul; tx_Payload tx; nul; FormatInt (tx_Timestamp tx)]).

Section tool.
Context `{Ed25519} `{WalletWire}.

(** The file and its name. *)
Definition createWallet (k : nat) (now : Z) (label : string) : WalletFile * string :=
  let '(pub, priv) := GenerateKey k in
  let addr := sha_hex pub in
  (mkWalletFile (EncodeToString pub) (EncodeToString priv) addr label (rfc3339 now),
   "tender-wallet-" +:+ String.substring 0 8 addr +:+ ".json").

Definition showWallet (wallet : outcome WalletFile) : outcome (list string) :=
  match wallet with
  | Ok w =>
      Ok ["=== TENDER Wallet ==="; "  Address:    " +:+ wf_Address w; "  Public Key: " +:+ wf_PublicKey w;
          "  Private Key: " +:+ wf_PrivateKey w; "  Label:      " +:+ wf_Label w;
          "  Created:    " +:+ wf_CreatedAt w]
  | Err e => Err e
  | Panic e => Panic e
  end.

(** The transaction [send] signs, with the number the node gave. *)
Definition signed_transfer (wallet : WalletFile) (priv : list byte) (toAddress : string)
    (amount fee nonce now : Z) : outcome Transaction :=
  let tx := mkTransaction "" (wf_Address wallet) "" toAddress (amount *! tool_HogohogoPerTender) fee nonce
              "TRANSFER" "" "" 0 defaultChainID in
  let tx := tx <| tx_FromPubKey := wf_PublicKey wallet |> <| tx_Timestamp := now |> in
  let payload := canonicalBytes tx in
  let tx := tx <| tx_ID := EncodeToString (Sum256 payload) |> in
  if negb (length priv =? PrivateKeySize)%nat then Panic "ed25519: bad private key length" else
  Ok (tx <| tx_Signature := EncodeToString (ed_Sign priv payload) |>).
End tool.

(** ** Commands that ask the node *)

Section commands.
Context `{Runtime} `{Ed25519} `{Network} `{Api.Decoders} `{NodeDecoders} `{WalletWire}.
Implicit Types (s : server).

Definition account_request (address : string) : request :=
  mkrequest "GET" "/api/account" client_addr "" address [].

Definition transfer_request (apiKey : string) (tx : Transaction) : request :=
  mkrequest "POST" "/api/transactions" client_addr
    (if bool_decide (apiKey = "") then "" else "Bearer " +:+ apiKey) "" (encode_tx tx).

(** A number and a flag of the answer; fields that are missing stay zero. *)
Definition answer_field (body : NodeApi.reply) (name : string) : option Api.value :=
  match body with
  | Object fields =>
      match list_find (λ p, p.1 = name) fields with
      | Some (_, (_, V v)) => Some v
      | _ => None
      end
  | _ => None
  end.
Definition answer_int (body : NodeApi.reply) (name : string) : Z :=
  match answer_field body name with Some (Api.VInt n) => n | _ => 0 end.
Definition answer_bool (body : NodeApi.reply) (name : string) : bool :=
  match answer_field body name with Some (Api.VBool b) => b | _ => false end.

(** One request: [None] when no answer ever comes. *)
Definition ask (fuel : nat) (r : request) s : option (outcome response) * server :=
  let '(o, s) := serve fuel r s in
  (match o with
   | Continue a | Respond a => Some (Ok a)
   | Abort => Some (Err "error connecting to node")
   | Hang => None
   end, s).

Definition balanceWallet (fuel : nat) (address : string) s : option (outcome (list string)) * server :=
  let '(o, s) := ask fuel (account_request address) s in
  (match o with
   | None => None
   | Some (Ok resp) =>
       if rs_code resp =? 404 then Some (Ok ["Address " +:+ address +:+ " has 0 TDR (not found on chain)"])
       else if negb (rs_code resp =? 200) then Some (Err "error from node") else
       let body := rs_body resp in
       Some (Ok ["Address:    " +:+ address; "Balance:    " +:+ formatTender (answer_int body "balance");
                 "Staked:     " +:+ formatTender (answer_int body "staked");
                 "Is Agent:   " +:+ (if answer_bool body "is_agent" then "true" else "false");
                 "Next Nonce: " +:+ FormatInt (answer_int body "next_nonce")])
   | Some (Err e) | Some (Panic e) => Some (Err e)
   end, s).

Definition fetchNextNonce (fuel : nat) (address : string) s : option (outcome Z) * server :=
  let '(o, s) := ask fuel (account_request address) s in
  (match o with
   | None => None
   | Some (Ok resp) =>
       if rs_code resp =? 404 then Some (Ok 0) else
       if negb (rs_code resp =? 200) then Some (Err "error from node")
       else Some (Ok (answer_int (rs_body resp) "next_nonce"))
   | Some (Err e) | Some (Panic e) => Some (Err e)
   end, s).

(** The submission is given up after 30 seconds; the question before it is not. *)
Definition sendTransaction (fuel : nat) (wallet : outcome WalletFile) (toAddress : string)
    (amount fee : Z) (apiKey : string) (now : Z) s : option (outcome Transaction) * server :=
  match wallet with
  | Err e => (Some (Err e), s)
  | Panic e => (Some (Panic e), s)
  | Ok wallet =>
      match DecodeString (wf_PrivateKey wallet) with
      | Ok priv =>
          match fetchNextNonce fuel (wf_Address wallet) s with
          | (None, s) => (None, s)
          | (Some (Err e), s) | (Some (Panic e), s) => (Some (Err e), s)
          | (Some (Ok nonce), s) =>
              match signed_transfer wallet priv toAddress amount fee nonce now with
              | Ok tx =>
                  let '(o, s) := ask fuel (transfer_request apiKey tx) s in
                  (match o with
                   | Some (Ok resp) =>
                       if negb (rs_code resp =? 200) then Some (Err "transaction rejected") else Some (Ok tx)
                   | _ => Some (Err "error submitting transaction")
                   end, s)
              | Err e => (Some (Err e), s)
              | Panic e => (Some (Panic e), s)
              end
          end
      | Err e | Panic e => (Some (Err "error decoding private key"), s)
      end
  end.
End commands.

(** ** The command line *)

Inductive command :=
| Usage
| CreateCmd (label : string)
| ShowCmd (file : string)
| BalanceCmd (apiURL address : string)
| SendCmd (apiURL file toAddress : string) (amount fee : Z) (apiKey : string).

Definition defaultAPI : string := "http://localhost:8080".

(** [main]: the command that [os.Args[1:]] and the two variables of the environment
    ask for; [Err] is an exit with code 1.  Arguments after the last one a command
    reads are ignored. *)
Definition wallet_main (getenv : string → string) (args : list string) : outcome command :=
  let env := getenv "TENDER_API_URL" in
  let apiURL := if bool_decide (env = "") then defaultAPI else env in
  let apiKey := getenv "TENDER_API_KEY" in
  match args with
  | [] => Ok Usage
  | name :: args =>
      if bool_decide (name = "create") then Ok (CreateCmd (default "default" (head args)))
      else if bool_decide (name = "show") then
        match args with file :: _ => Ok (ShowCmd file) | [] => Err "usage" end
      else if bool_decide (name = "balance") then
        match args with
        | address :: more => Ok (BalanceCmd (default apiURL (head more)) address)
        | [] => Err "usage"
        end
      else if bool_decide (name = "send") then
        match args with
        | file :: toAddress :: amount :: more =>
            match ParseUint amount with
            | (_, Some e) => Err ("invalid amount: " +:+ e)
            | (amount, None) =>
                let send fee := Ok (SendCmd (default apiURL (more !! 0%nat)) file toAddress amount fee
                                      (default apiKey (more !! 2%nat))) in
                match more !! 1%nat with
                | None => send 1
                | Some fee =>
                    match ParseUint fee with
                    | (_, Some e) => Err ("invalid fee: " +:+ e)
                    | (fee, None) => send fee
                    end
                end
            end
        | _ => Err "usage"
        end
      else Err ("unknown command: " +:+ name)
  end.

(** The words a command is written with. *)
Definition words_of (c : command) : list string :=
  match c with
  | Usage => []
  | CreateCmd label => ["create"; label]
  | ShowCmd file => ["show"; file]
  | BalanceCmd apiURL address => ["balance"; address; apiURL]
  | SendCmd apiURL file toAddress amount fee apiKey =>
      ["send"; file; toAddress; FormatInt amount; apiURL; FormatInt fee; apiKey]
  end.

(** Every command whose numbers fit is read back from its words, whatever the
    environment says. *)
Lemma command_line_roundtrip getenv c :
  match c with SendCmd _ _ _ amount fee _ => is_u64 amount ∧ is_u64 fee | _ => True end →
  wallet_main getenv (words_of c) = Ok c.
Proof.
  destruct c as [|label|file|api addr|api file to amount fee key]; intros Hc; try done.
  destruct Hc as [Ha Hf]. unfold wallet_main, words_of.
  rewrite (ParseUint_FormatInt _ Ha). cbn [lookup list_lookup].
  by rewrite (ParseUint_FormatInt _ Hf).
Qed.

(** ** The tool signs as package [blockchain] does *)

Lemma canonicalBytes_eq tx : canonicalBytes tx = CanonicalSigningBytes tx.
Proof.
  unfold canonicalBytes, CanonicalSigningBytes. f_equal. cbn [foldl].
  change ("" +:+ ?s) with s. by rewrite !string_app_assoc.
Qed.

Section equivalence.
Context `{Ed25519} `{WalletWire}.

(** The transfer of a wallet, before it is signed. *)
Definition transfer_of (k : nat) (toAddress : string) (amount fee nonce : Z) : Transaction :=
  mkTransaction "" (WalletAddress (NewWallet k)) "" toAddress (amount *! tool_HogohogoPerTender) fee nonce
    Transfer "" "" 0 defaultChainID.

Lemma signed_transfer_eq k created label toAddress amount fee nonce now :
  signed_transfer (createWallet k created label).1 (GenerateKey k).2 toAddress amount fee nonce now =
    Ok (Sign (NewWallet k) now (transfer_of k toAddress amount fee nonce)).
Proof.
  unfold signed_transfer, createWallet, Sign, transfer_of, NewWallet, WalletAddress.
  pose proof (GenerateKey_priv_len k) as Hl. destruct (GenerateKey k) as [pub priv]. cbn [fst snd] in *.
  rewrite Hl, Nat.eqb_refl. cbn [negb]. rewrite canonicalBytes_eq. reflexivity.
Qed.

(** C32. A wallet file written by the tool signs transfers exactly as the wallets of
    package [blockchain] do, so every transfer it signs passes the signature
    check of the nodes. *)
Theorem wallet_signs_like_node k created label toAddress amount fee nonce now :
  ∃ tx, signed_transfer (createWallet k created label).1 (GenerateKey k).2 toAddress amount fee nonce now =
      Ok tx ∧
    tx = Sign (NewWallet k) now (transfer_of k toAddress amount fee nonce) ∧ VerifyTransaction tx = true.
Proof.
  eexists. split; [apply signed_transfer_eq|]. split; [done|]. by apply VerifyTransaction_Sign.
Qed.
End equivalence.

(** ** A transfer reaches the pool *)

Section delivery.
Context `{Runtime} `{Ed25519} `{Network} `{Api.Decoders} `{NodeDecoders} `{WalletWire}.
Implicit Types (s : server) (bc : Blockchain).

Lemma read_locked_run {A} (f : Blockchain → A) s :
  sv_locked s = false → read_locked f s = (Continue (f (sv_chain s)), s).
Proof.
  intros Hl. unfold read_locked. rewrite locked_run by done. cbn [fst snd]. unfold set_chain.
  destruct s as [cfg [] l rl cb]. reflexivity.
Qed.

(** The tool learns the next number of the account. *)
Lemma fetchNextNonce_run fuel address s account :
  sv_locked s = false → address ≠ "" → nd_Ledger (sv_chain s) !! address = Some account →
  fetchNextNonce fuel address s = (Some (Ok (next_nonce (sv_chain s) address)), s).
Proof.
  intros Hl Hne Ha. unfold fetchNextNonce, ask, serve. cbn [rq_Method account_request].
  replace (writes "GET") with false by done.
  unfold mux. rewrite (bind_Continue _ _ s (nc_MetricsPath (sv_cfg s)) s) by done.
  replace (find_route (rq_Path (account_request address)) (nc_MetricsPath (sv_cfg s)) (routes fuel)
    (account_request address)) with (h_account (account_request address)) by done.
  unfold h_account. cbn [rq_address account_request]. rewrite bool_decide_false by done.
  rewrite (bind_Continue _ _ s _ s (read_locked_run _ s Hl)). rewrite Ha. reflexivity.
Qed.

(** What validation reads, for a transfer. *)
Definition books bc := (nd_Ledger bc, nd_ChainID bc, nd_UsedNonces bc, nd_NextNonce bc, nd_SeenTxIDs bc).

Lemma validateTransaction_transfer bc tx sender receiver :
  VerifyTransaction tx = true → tx_TxType tx = Transfer → tx_ChainID tx = nd_ChainID bc →
  isReplay bc tx = false → tx_Timestamp tx ≠ 0 → stale (tx_Timestamp tx) (clock (nd_ticks bc)) = false →
  nd_Ledger bc !! tx_From tx = Some sender → nd_Ledger bc !! tx_To tx = Some receiver →
  0 < tx_Amount tx ≤ acc_Balance sender →
  (validateTransaction bc tx).1 = true.
Proof.
  intros Hv Ht Hc Hr Hts Hs Hf Hto Hb. unfold validateTransaction.
  rewrite (bool_decide_true _ Hc), Hv, Hr. cbn [negb]. apply Z.eqb_neq in Hts. rewrite Hts.
  unfold UnixNano. rewrite Hs. cbn [fst]. unfold sender_ok.
  change (nd_Ledger (tick bc)) with (nd_Ledger bc). rewrite Hf, Hto, Ht.
  assert (tx_Amount tx =? 0 = false) as -> by (apply Z.eqb_neq; lia). rewrite andb_false_r.
  change (isAITransaction Transfer) with false. cbn [andb].
  change (switch_tx Transfer) with CaseTransfer. cbn. apply Z.leb_le. lia.
Qed.

Lemma isReplay_books bc bc' tx : books bc' = books bc → isReplay bc' tx = isReplay bc tx.
Proof.
  unfold books. intros E. injection E as _ _ E1 E2 E3. unfold isReplay, used_nonces, next_nonce.
  by rewrite E1, E2, E3.
Qed.

(** A transaction with its number and identifier joins the pool unchanged. *)
Lemma EnqueueTransaction_joins bc tx :
  tx_ID tx ≠ "" → tx_Nonce tx = next_nonce bc (tx_From tx) → isReplay bc tx = false →
  Forall (λ p, ¬ same_pending tx p) (nd_Pending bc) → blen (nd_Pending bc) < 5000 →
  nd_Pending (EnqueueTransaction bc tx) = nd_Pending bc ++ [tx] ∧
  books (EnqueueTransaction bc tx) = books bc.
Proof.
  intros Hid Hn Hr Hp Hl. unfold EnqueueTransaction, with_ID. rewrite bool_decide_false by done.
  assert (with_nonce bc tx = tx) as ->.
  { unfold with_nonce. destruct (Z.eqb_spec (tx_Nonce tx) 0) as [E|]; [|done].
    rewrite <- Hn. by destruct tx. }
  unfold enqueue. rewrite Hr.
  assert (list_find (same_pending tx) (nd_Pending bc) = None) as ->
    by (by apply list_find_None).
  cbv zeta. rewrite u64_small by (pose proof (blen_nonneg (nd_Pending bc)); u64_lia).
  rewrite (proj2 (Z.leb_gt _ _)) by done. done.
Qed.

Lemma saveToDiskSafe_books bc :
  nd_Pending (saveToDiskSafe bc).2 = nd_Pending bc ∧ books (saveToDiskSafe bc).2 = books bc.
Proof. unfold saveToDiskSafe, saveToDisk. cbv zeta. split; by repeat case_match. Qed.

(** Queueing, saving and broadcasting, in the server. *)
Lemma submit_tx_run tx s :
  sv_locked s = false →
  ∃ s', submit_tx tx s = (Continue tt, s') ∧
    nd_Pending (sv_chain s') = nd_Pending (EnqueueTransaction (sv_chain s) tx) ∧
    books (sv_chain s') = books (EnqueueTransaction (sv_chain s) tx).
Proof.
  intros Hl. unfold submit_tx, save, locked_do.
  rewrite (bind_Continue _ _ _ _ _ (locked_run _ s Hl)). set (s1 := set_chain _ s).
  rewrite (bind_Continue _ _ _ _ _ (locked_run _ s1 Hl)). set (s2 := set_chain _ s1).
  eexists. split; [reflexivity|].
  destruct (saveToDiskSafe_books (EnqueueTransaction (sv_chain s) tx)) as [E1 E2].
  assert (∃ n, p2_chain (broadcastTransaction tx (sv_p2p s2)).2 = at_tick n (p2_chain (sv_p2p s2))) as [n En].
  { unfold broadcastTransaction. destruct (broadcastMessage_frame
      (mkp2pMessage "tx" "" "" "" None [] (Some tx) None None "") (sv_p2p s2)) as (_ & _ & _ & n & E).
    exists n. exact E. }
  unfold sv_chain at 1 3. cbn [sv_p2p]. 
  change (p2_chain (sv_p2p (s2 <| sv_p2p ::= λ p, (broadcastTransaction tx p).2 |>)))
    with (p2_chain (broadcastTransaction tx (sv_p2p s2)).2).
  rewrite En. split; [exact E1|exact E2].
Qed.
End delivery.

Section delivered.
Context `{Runtime} `{Ed25519} `{Network} `{Api.Decoders} `{NodeDecoders} `{WalletWire}.
Context (k : nat) (toAddress apiKey : string) (amount fee now : Z) (s : server).

Definition sent_tx : Transaction :=
  Sign (NewWallet k) now (transfer_of k toAddress amount fee
    (next_nonce (sv_chain s) (WalletAddress (NewWallet k)))).

(** What the node must be ready for: the request is authorised and within the
    limits, its body is decoded, and the transaction is new. *)
Record ready : Prop := {
  rdy_lock : sv_locked s = false;
  rdy_key : requireAuth (rq_Authorization (transfer_request apiKey sent_tx)) (sv_cfg s) = Ok tt;
  rdy_rate : (allowed (transfer_request apiKey sent_tx) s).1 = Continue true;
  rdy_body : Api.decode_tx (encode_tx sent_tx) = Ok sent_tx;
  rdy_fresh : isReplay (sv_chain s) sent_tx = false;
  rdy_new : Forall (λ p, tx_ID p ≠ tx_ID sent_tx) (nd_Pending (sv_chain s));
  rdy_room : blen (nd_Pending (sv_chain s)) < 5000 }.

Lemma transfer_request_run fuel :
  ready →
  ∃ s', serve fuel (transfer_request apiKey sent_tx) s =
      (Continue (mkresponse 200 (Json (V (Api.VTx sent_tx)))), s') ∧
    nd_Pending (sv_chain s') = nd_Pending (sv_chain s) ++ [sent_tx] ∧
    books (sv_chain s') = books (sv_chain s).
Proof.
  intros [Hl Ha Hr Hb Hf Hn Hm].
  set (r := transfer_request apiKey sent_tx) in *.
  rewrite (serve_post fuel r s h_transactions eq_refl Ha) by done. unfold h_transactions.
  rewrite (bind_Continue _ _ s tt s) by (unfold authorized, gets, mbind, handler_bind; by rewrite Ha).
  assert (∃ s1, limited r s = (Continue tt, s1) ∧ sv_locked s1 = false ∧
    nd_Pending (sv_chain s1) = nd_Pending (sv_chain s) ∧ books (sv_chain s1) = books (sv_chain s))
    as (s1 & E1 & Hl1 & Hp1 & Hb1).
  { unfold limited, mbind, handler_bind, allowed in *. destruct (Now (sv_p2p s)) as [t p] eqn:En.
    destruct (allow (sv_limiter s) t (rq_RemoteAddr r)) as [b rl]. cbn [fst] in Hr. injection Hr as ->.
    eexists. split; [reflexivity|]. unfold Now, UnixNano in En. injection En as _ <-. done. }
  rewrite (bind_Continue _ _ _ _ _ E1).
  unfold post_only. rewrite bool_decide_true by done. rewrite (bind_Continue _ _ s1 tt s1) by done.
  unfold decoded. change (rq_Body r) with (encode_tx sent_tx). rewrite Hb. cbn [or_error].
  rewrite (bind_Continue _ _ s1 sent_tx s1) by done.
  destruct (submit_tx_run sent_tx s1 Hl1) as (s' & E & Hp & Hk).
  rewrite (bind_Continue _ _ _ _ _ E). exists s'. split; [reflexivity|].
  assert (tx_ID sent_tx ≠ "") as Hid by apply sha_hex_not_empty.
  destruct (EnqueueTransaction_joins (sv_chain s1) sent_tx) as [Hp2 Hb2]; [done| |..].
  - unfold books in Hb1. injection Hb1 as _ _ _ E2 _. unfold next_nonce. by rewrite E2.
  - by rewrite (isReplay_books _ _ _ Hb1).
  - rewrite Hp1. eapply Forall_impl; [exact Hn|]. intros p Hne (E2 & _). done.
  - by rewrite Hp1.
  - rewrite Hp, Hp2, Hk, Hb2. by rewrite Hp1.
Qed.

(** C26. From the wallet to the pool of a ready node (not blocked, the key accepted,
    the rate limit not reached, the body decoded as it was encoded, the transaction no
    replay, its ID new to the pool, and less than 5000 transactions in it) with the
    chain identifier of the tool: when sender and receiver have accounts and the sender
    covers a positive amount, the tool gets the next number from the node, signs the
    transfer and submits it; the node queues exactly the signed transaction, which
    passes [validateTransaction] in the state right after, unless it is ten minutes old
    by then. Whether a block with it is mined is another matter: one with a number is
    not. *)
Theorem wallet_transfer_queued fuel created label sender receiver :
  ready → nd_ChainID (sv_chain s) = defaultChainID →
  nd_Ledger (sv_chain s) !! WalletAddress (NewWallet k) = Some sender → is_u64 (acc_Balance sender) →
  nd_Ledger (sv_chain s) !! toAddress = Some receiver →
  0 < amount * tool_HogohogoPerTender ≤ acc_Balance sender →
  now ≠ 0 →
  ∃ s', sendTransaction fuel (Ok (createWallet k created label).1) toAddress amount fee apiKey now s =
      (Some (Ok sent_tx), s') ∧
    nd_Pending (sv_chain s') = nd_Pending (sv_chain s) ++ [sent_tx] ∧
    (stale now (clock (nd_ticks (sv_chain s'))) = false →
     (validateTransaction (sv_chain s') sent_tx).1 = true).
Proof.
  intros Hrdy Hc Hs Hu Ht Hb Hn.
  destruct (transfer_request_run fuel Hrdy) as (s' & E & Hp & Hk).
  exists s'. split_and!; [|exact Hp|].
  - unfold sendTransaction, createWallet. destruct (GenerateKey k) as [pub priv] eqn:Eg.
    cbn [wf_PrivateKey wf_Address fst]. rewrite DecodeString_EncodeToString.
    assert (sha_hex pub = WalletAddress (NewWallet k)) as Ew
      by (unfold NewWallet, WalletAddress; by rewrite Eg).
    rewrite Ew. rewrite (fetchNextNonce_run fuel _ s sender); [|apply Hrdy|apply sha_hex_not_empty|done].
    pose proof (signed_transfer_eq k created label toAddress amount fee
      (next_nonce (sv_chain s) (WalletAddress (NewWallet k))) now) as Es.
    unfold createWallet in Es. rewrite Eg in Es. cbn [fst snd] in Es. rewrite Ew in Es. rewrite Es.
    fold sent_tx. unfold ask. rewrite E. reflexivity.
  - intros Hst. unfold books in Hk. pose proof Hk as Hk'. injection Hk' as El Ec _ _ _.
    apply (validateTransaction_transfer _ _ sender receiver).
    + by apply VerifyTransaction_Sign.
    + done.
    + by rewrite Ec.
    + rewrite (isReplay_books _ _ _ Hk). apply Hrdy.
    + done.
    + done.
    + by rewrite El.
    + by rewrite El.
    + cbn. rewrite u64_small by u64_lia. done.
Qed.
End delivered.

(** ** Concrete runs *)

#[local] Existing Instance demo_runtime.
#[local] Existing Instance demo_ed25519.
#[local] Existing Instance NodeDemo.demo_net.
#[local] Existing Instance demo_node_bodies.
#[local] Instance demo_wallet_wire : WalletWire :=
  {| rfc3339 _ := "2023-11-14T22:13:20Z"; encode_tx _ := []; client_addr := "10.0.0.7:1" |}.

(** The node of [NodeDemo] under the chain identifier of the tool. *)
Definition tool_server : server :=
  node_server <| sv_p2p ::= λ p, p <| p2_chain ::= λ b, b <| nd_ChainID := defaultChainID |> |> |>.

(** The body is the transfer of 3 from Alice to Bob. *)
#[local] Instance wallet_bodies : Api.Decoders :=
  {| Api.decode_finality := λ _, Err "json"; Api.decode_index := λ _, Err "json";
     Api.decode_tx := λ _, Ok (@sent_tx demo_ed25519 7 "bob" 3 1 1700000000 tool_server);
     Api.decode_miner := λ _, Err "json"; Api.decode_block := λ _, Err "json";
     Api.decode_register := λ _, Err "json"; Api.decode_model := λ _, Err "json";
     Api.decode_purchase := λ _, Err "json"; Api.decode_amount := λ _, Err "json";
     Api.decode_directory := λ _, Err "json"; Api.decode_universal := λ _, Err "json";
     Api.decode_wallet := λ _, Err "json"; Api.decode_escrow := λ _, Err "json";
     Api.decode_reversal := λ _, Err "json"; Api.decode_proposal := λ _, Err "json";
     Api.decode_agreement := λ _, Err "json"; Api.decode_usage := λ _, Err "json";
     Api.decode_ingest := λ _, Err "json" |}.

Lemma tool_ready : ready 7 "bob" "secret" 3 1 1700000000 tool_server.
Proof.
  split; [reflexivity|vm_compute; reflexivity|vm_compute; reflexivity|reflexivity|vm_compute; reflexivity| |
    vm_compute; reflexivity].
  assert (forallb (λ p, negb (bool_decide (tx_ID p = tx_ID (sent_tx 7 "bob" 3 1 1700000000 tool_server))))
    (nd_Pending (sv_chain tool_server)) = true) as Hf by (vm_compute; reflexivity).
  rewrite List.forallb_forall in Hf. apply Forall_forall. intros p Hp E.
  apply list_elem_of_In, Hf in Hp. by rewrite (bool_decide_true _ E) in Hp.
Qed.

Lemma tool_accounts :
  nd_Ledger (sv_chain tool_server) !! WalletAddress (NewWallet 7) =
    Some (mkAccount demo_alice 1000000000 30 false) ∧
  nd_Ledger (sv_chain tool_server) !! "bob" = Some (mkAccount "bob" 20 7 false).
Proof. split; vm_compute; reflexivity. Qed.

Lemma wallet_transfer_queued_witness :
  ∃ s', sendTransaction 0 (Ok (createWallet 7 0 "alice").1) "bob" 3 1 "secret" 1700000000 tool_server =
    (Some (Ok (sent_tx 7 "bob" 3 1 1700000000 tool_server)), s').
Proof.
  destruct (wallet_transfer_queued 7 "bob" "secret" 3 1 1700000000 tool_server 0 0 "alice"
    (mkAccount demo_alice 1000000000 30 false) (mkAccount "bob" 20 7 false) tool_ready eq_refl
    (proj1 tool_accounts)) as (s' & E & _).
  - vm_compute. split; congruence.
  - exact (proj2 tool_accounts).
  - vm_compute. split; congruence.
  - discriminate.
  - exists s'. exact E.
Defined.

(** A fraction is printed with eight digits although one TENDER has 10^7 parts: a
    TENDER and a half reads as 1.05. *)
Lemma half_tender_misprinted : formatTender 15000000 = "1.05000000 TDR".
Proof. reflexivity. Qed.
