(* ===== verification/GenesisTool.v ===== *)
(** * The genesis tool (go-chain/tools/genesis-tool/main.go)

    Generating a genesis file, signing it and verifying the signatures; and what
    the node program makes of the file.

    The file is a value: writing and reading it back is JSON, whose text is the
    parameter [marshal_genesis], used where the text is signed.  A panic ends the
    command.  The call [privBytes.Public()] is taken as the method of
    [ed25519.PrivateKey], the second half of the key. *)

From S2P Require Import Prelude Runtime Float64 Text Sha256 Domain Merkle State Accounts Limits Node NodeLedger.
Open Scope Z_scope.
Open Scope go_scope.

(** ** Data *)

Record GenesisAllocation := mkGenesisAllocation {
  ga_Address : string; ga_PublicKey : string; ga_Amount : Z; ga_Description : string;
  ga_LockupUntil : Z; ga_Vesting : string }.
Record ValidatorMeta := mkValidatorMeta {
  vm_Address : string; vm_PublicKey : string; vm_Stake : Z; vm_Country : string; vm_City : string;
  vm_Contact : string }.
Record GenesisSignature := mkGenesisSignature {
  gs_SignerAddress : string; gs_PublicKey : string; gs_Signature : string; gs_SignedAt : Z }.
Record Multisig := mkMultisig {
  mg_Threshold : Z; mg_Signers : list string; mg_Signatures : list GenesisSignature;
  mg_Finalized : bool; mg_FinalizedAt : Z }.
Record GenesisFile := mkGenesisFile {
  gf_ChainID : string; gf_GenesisTime : Z; gf_Consensus : string; gf_InitialSupply : Z; gf_MaxSupply : Z;
  gf_Token : genesisToken; gf_Allocations : list GenesisAllocation; gf_Validators : list ValidatorMeta;
  gf_Economics : genesisEconomics; gf_Multisig : Multisig }.

#[export] Instance Multisig_rebuild : Rebuild Multisig := λ r,
  mkMultisig (mg_Threshold r) (mg_Signers r) (mg_Signatures r) (mg_Finalized r) (mg_FinalizedAt r).
#[export] Instance GenesisFile_rebuild : Rebuild GenesisFile := λ r,
  mkGenesisFile (gf_ChainID r) (gf_GenesisTime r) (gf_Consensus r) (gf_InitialSupply r) (gf_MaxSupply r)
    (gf_Token r) (gf_Allocations r) (gf_Validators r) (gf_Economics r) (gf_Multisig r).

(** [EqualFold] is [strings.EqualFold], on ASCII equality up to case;
    [four_years_on] is [AddDate(4, 0, 0)] on Unix times. *)
Class GenesisEnv := {
  marshal_genesis : GenesisFile → list byte;
  EqualFold : string → string → bool;
  EqualFold_ascii : ∀ s t, is_ascii s = true → is_ascii t = true →
    EqualFold s t = bool_decide (lower_ascii s = lower_ascii t);
  four_years_on : Z → Z;
}.

Record keyPair := mkkeyPair { kp_address : string; kp_publicKey : string; kp_privateKey : string }.

Definition generateKeyPair `{Ed25519} (k : nat) : keyPair :=
  let '(pub, priv) := GenerateKey k in
  mkkeyPair (sha_hex pub) (EncodeToString pub) (EncodeToString priv).

(** ** Generating *)

Record generateFlags := mkgenerateFlags {
  ff_chainID : string; ff_initialSupply : Z; ff_maxSupply : Z; ff_validatorCount : Z;
  ff_teamPct : float64; ff_communityPct : float64; ff_treasuryPct : float64; ff_stakingPct : float64;
  ff_liquidityPct : float64 }.

Definition default_flags (validatorCount : Z) : generateFlags :=
  mkgenerateFlags "tdr-mainnet-1" 50000000000 18446744073709551615 validatorCount
    (f64_lit 15 100) (f64_lit 35 100) (f64_lit 20 100) (f64_lit 25 100) (f64_lit 5 100).

Section tool.
Context `{Runtime} `{Ed25519} `{GenesisEnv}.

(** One share of the supply, with the key of number [k]. *)
Definition allocate (fl : generateFlags) (now : Z) (k : nat) (desc : string) (pct : float64) (lock : bool)
    : GenesisAllocation :=
  let key := generateKeyPair k in
  let amount := u64_of_f64 (f64_mul (f64_of_Z (ff_initialSupply fl)) pct) in
  mkGenesisAllocation (kp_address key) (kp_publicKey key) amount desc
    (if lock then four_years_on now else 0) "linear_4_years".

Definition shares (fl : generateFlags) (now : Z) : list GenesisAllocation :=
  [allocate fl now 0 "Team and advisors" (ff_teamPct fl) true;
   allocate fl now 1 "Community and ecosystem" (ff_communityPct fl) false;
   allocate fl now 2 "Treasury and operations" (ff_treasuryPct fl) false;
   allocate fl now 3 "Staking rewards pool" (ff_stakingPct fl) false;
   allocate fl now 4 "Liquidity and exchange listings" (ff_liquidityPct fl) false].

(** The countries, sorted, and their cities. *)
Definition places : list (string * string) :=
  [("AE", "Dubai"); ("DE", "Frankfurt"); ("KE", "Nairobi"); ("NG", "Lagos"); ("SG", "Singapore");
   ("US", "New York"); ("ZA", "Cape Town")].

(** Round [i] of the validator loop. *)
Definition add_validator (g : GenesisFile) (i : nat) : GenesisFile :=
  let key := generateKeyPair (5 + i) in
  let '(country, city) := default ("", "") (places !! (i mod 7)%nat) in
  let number := FormatInt (Z.of_nat i + 1) in
  let g := g <| gf_Validators ::= λ l, l ++
    [mkValidatorMeta (kp_address key) (kp_publicKey key) 100000 country city
       ("validator-" +:+ number +:+ "@tender.network")] |> in
  let g := g <| gf_Allocations ::= λ l, l ++
    [mkGenesisAllocation (kp_address key) (kp_publicKey key) 100000
       ("Genesis validator " +:+ number +:+ " stake") 0 "none"] |> in
  if (i <? 2)%nat
  then g <| gf_Multisig ::= λ m, m <| mg_Signers ::= λ l, l ++ [kp_publicKey key] |> |>
  else g.

(** A file without signers gets the first validator, if there is one. *)
Definition ensure_signer (g : GenesisFile) : GenesisFile :=
  match mg_Signers (gf_Multisig g), gf_Validators g with
  | [], v :: _ => g <| gf_Multisig ::= λ m, m <| mg_Signers := [vm_PublicKey v] |> |>
  | _, _ => g
  end.

Definition mainGenerate (fl : generateFlags) (now : Z) : outcome GenesisFile :=
  let pctTotal := f64_add (f64_add (f64_add (f64_add (ff_teamPct fl) (ff_communityPct fl))
    (ff_treasuryPct fl)) (ff_stakingPct fl)) (ff_liquidityPct fl) in
  if negb (f64_eqb pctTotal (f64_of_Z 1)) then Panic "allocation percentages must sum to 1.0" else
  let g := mkGenesisFile (ff_chainID fl) now "hybrid-pos-poa" (ff_initialSupply fl) (ff_maxSupply fl)
    (mkgenesisToken "TENDER" "TDR" 8) (shares fl now) []
    (mkgenesisEconomics 5 1 4 100 5 2026 (f64_lit 15 100)) (mkMultisig 2 [] [] false 0) in
  let g := foldl add_validator g (seq 0 (Z.to_nat (ff_validatorCount fl))) in
  Ok (ensure_signer g).

(** ** Signing *)

Definition generateKeyPairFromHex (privHex : string) : outcome (list byte * list byte) :=
  match DecodeString (TrimPrefix privHex "0x") with
  | Ok priv =>
      if negb (length priv =? PrivateKeySize)%nat then Err "invalid private key size"
      else Ok (drop 32 priv, priv)
  | Err e => Err e
  | Panic e => Panic e
  end.

Definition mainSign (privKeyHex address : string) (now : Z) (g : GenesisFile) : outcome GenesisFile :=
  if bool_decide (privKeyHex = "") || bool_decide (address = "") then
    Panic "--private-key and --address are required" else
  if mg_Finalized (gf_Multisig g) then Panic "genesis already finalized" else
  match generateKeyPairFromHex privKeyHex with
  | Err e | Panic e => Panic e
  | Ok (pub, priv) =>
      if negb (EqualFold (EncodeToString pub) (TrimPrefix address "0x")) then
        Panic "private key does not match provided address" else
      if negb (existsb (λ s, EqualFold s (EncodeToString pub)) (mg_Signers (gf_Multisig g))) then
        Panic "provided public key is not in the signer set" else
      if existsb (λ sig, EqualFold (gs_SignerAddress sig) address) (mg_Signatures (gf_Multisig g)) then
        Panic "address already signed" else
      let sig := ed_Sign priv (marshal_genesis g) in
      let g := g <| gf_Multisig ::= λ m, m <| mg_Signatures ::= λ l, l ++
        [mkGenesisSignature address (EncodeToString pub) (EncodeToString sig) now] |> |> in
      Ok (if mg_Threshold (gf_Multisig g) <=? blen (mg_Signatures (gf_Multisig g))
          then g <| gf_Multisig ::= λ m, m <| mg_Finalized := true |> <| mg_FinalizedAt := now |> |>
          else g)
  end.

(** ** Verifying *)

Definition verify_one (canonicalJSON : list byte) (sig : GenesisSignature) : outcome (string * bool) :=
  match DecodeString (gs_PublicKey sig) with
  | Err e | Panic e => Panic e
  | Ok pub =>
      match DecodeString (gs_Signature sig) with
      | Err e | Panic e => Panic e
      | Ok sigBytes =>
          if negb (length pub =? PublicKeySize)%nat then Panic "ed25519: bad public key length" else
          Ok (gs_SignerAddress sig, ed_Verify pub canonicalJSON sigBytes)
      end
  end.

Fixpoint verify_all (canonicalJSON : list byte) (sigs : list GenesisSignature)
    : outcome (list (string * bool)) :=
  match sigs with
  | [] => Ok []
  | sig :: sigs =>
      match verify_one canonicalJSON sig with
      | Ok line => match verify_all canonicalJSON sigs with Ok l => Ok (line :: l) | e => e end
      | Err e => Err e
      | Panic e => Panic e
      end
  end.

(** The hash printed and a line per signature. *)
Definition mainVerify (g : GenesisFile) : outcome (string * list (string * bool)) :=
  let canonicalJSON := marshal_genesis g in
  match verify_all canonicalJSON (mg_Signatures (gf_Multisig g)) with
  | Ok l => Ok (sha_hex canonicalJSON, l)
  | Err e => Err e
  | Panic e => Panic e
  end.

(** ** The file in the node program *)

(** [loadGenesis] decodes the file into a struct whose signatures are strings; the
    tool writes objects, which do not decode. *)
Definition node_file (g : GenesisFile) : outcome genesisFile :=
  let m := gf_Multisig g in
  match mg_Signatures m with
  | _ :: _ => Err "json: cannot unmarshal object into Go struct field of type string"
  | [] =>
      Ok (mkgenesisFile (gf_ChainID g) (gf_GenesisTime g) (gf_Consensus g) (gf_InitialSupply g)
            (gf_MaxSupply g) (gf_Token g)
            (map (λ a, mkgenesisAllocation (ga_Address a) (ga_PublicKey a) (ga_Amount a)
                         (ga_Description a) (ga_LockupUntil a) (ga_Vesting a)) (gf_Allocations g))
            (map (λ v, mkgenesisValidator (vm_Address v) (vm_PublicKey v) (vm_Stake v) (vm_Country v)
                         (vm_City v) (vm_Contact v)) (gf_Validators g))
            (gf_Economics g)
            (mkgenesisMultisig (mg_Threshold m) (mg_Signers m) [] (mg_Finalized m) (mg_FinalizedAt m)))
  end.
End tool.

(** ** Supply *)

Definition sumZ (l : list Z) : Z := foldr Z.add 0 l.

Lemma sumZ_app l k : sumZ (l ++ k) = sumZ l + sumZ k.
Proof. induction l as [|x l IH]; [done|]. cbn. unfold sumZ in *. lia. Qed.

Section supply.
Context `{Runtime} `{Ed25519} `{GenesisEnv}.

Definition allocated (g : GenesisFile) : Z := sumZ (map ga_Amount (gf_Allocations g)).
Definition staked (g : GenesisFile) : Z := sumZ (map vm_Stake (gf_Validators g)).

(** Entries the node accepts. *)
Definition good_allocation (a : GenesisAllocation) : Prop := ga_Address a ≠ "" ∧ 0 ≤ ga_Amount a ≤ MaxSupply.
Definition good_validator (v : ValidatorMeta) : Prop := vm_Address v ≠ "" ∧ MinStake ≤ vm_Stake v.

Lemma generated_address k : kp_address (generateKeyPair k) ≠ "".
Proof. unfold generateKeyPair. destruct (GenerateKey k). apply sha_hex_not_empty. Qed.

Lemma add_validator_spec g i :
  ∃ v a, gf_Validators (add_validator g i) = gf_Validators g ++ [v] ∧ good_validator v ∧ vm_Stake v = 100000 ∧
    gf_Allocations (add_validator g i) = gf_Allocations g ++ [a] ∧ good_allocation a ∧ ga_Amount a = 100000 ∧
    gf_InitialSupply (add_validator g i) = gf_InitialSupply g ∧
    mg_Signatures (gf_Multisig (add_validator g i)) = mg_Signatures (gf_Multisig g).
Proof.
  unfold add_validator. pose proof (generated_address (5 + i)) as Hk.
  destruct (default _ _) as [country city]. cbv zeta. do 2 eexists.
  split_and!; [by destruct (i <? 2)%nat|split; [exact Hk|cbn; unfold MinStake; lia]|done
    |by destruct (i <? 2)%nat|split; [exact Hk|cbn; unfold MaxSupply; lia]|done|by destruct (i <? 2)%nat..].
Qed.

Lemma add_validators_spec n g :
  let g' := foldl add_validator g (seq 0 n) in
  allocated g' = allocated g + 100000 * Z.of_nat n ∧ staked g' = staked g + 100000 * Z.of_nat n ∧
  (Forall good_allocation (gf_Allocations g) → Forall good_allocation (gf_Allocations g')) ∧
  (Forall good_validator (gf_Validators g) → Forall good_validator (gf_Validators g')) ∧
  gf_InitialSupply g' = gf_InitialSupply g ∧ mg_Signatures (gf_Multisig g') = mg_Signatures (gf_Multisig g).
Proof.
  cbv zeta. induction n as [|n (IH1 & IH2 & IH3 & IH4 & IH5 & IH6)]; [cbn; split_and!; (done || lia)|].
  rewrite seq_S, foldl_app. cbn [foldl].
  destruct (add_validator_spec (foldl add_validator g (seq 0 n)) (0 + n))
    as (v & a & Ev & Hv & Sv & Ea & Ha & Sa & Es & Em).
  unfold allocated, staked in *. rewrite Ev, Ea, Es, Em, !map_app, !sumZ_app, IH1, IH2.
  cbn [map sumZ foldr]. rewrite Sv, Sa, !Forall_app, !Forall_singleton. split_and!; [lia|lia|tauto|tauto|done|done].
Qed.

Lemma ensure_signer_spec g :
  gf_Allocations (ensure_signer g) = gf_Allocations g ∧ gf_Validators (ensure_signer g) = gf_Validators g ∧
  gf_InitialSupply (ensure_signer g) = gf_InitialSupply g ∧
  mg_Signatures (gf_Multisig (ensure_signer g)) = mg_Signatures (gf_Multisig g).
Proof. unfold ensure_signer. destruct (mg_Signers _); [|done]. by destruct (gf_Validators g) eqn:E; rewrite ?E. Qed.

(** What the node adds up. *)
Lemma load_allocations_spec l : ∀ bc,
  is_u64 (nd_TokenSupply bc) →
  Forall (λ a, gnal_Address a ≠ "" ∧ gnal_Amount a ≤ MaxSupply) l →
  ∃ bc', load_allocations bc l = (Ok tt, bc') ∧
    nd_TokenSupply bc' = u64 (nd_TokenSupply bc + sumZ (map gnal_Amount l)).
Proof.
  induction l as [|a l IH]; intros bc Hu Hl.
  { exists bc. split; [done|]. cbn. by rewrite Z.add_0_r, u64_small. }
  apply Forall_cons in Hl as [[Ha Hm] Hl]. cbn [load_allocations].
  rewrite bool_decide_false, (proj2 (Z.ltb_ge _ _)) by done. cbv zeta.
  set (bc1 := _ <| nd_TokenSupply ::= _ |>).
  assert (nd_TokenSupply bc1 = u64 (nd_TokenSupply bc + gnal_Amount a)) as E1 by done.
  destruct (IH bc1) as (bc' & -> & E); [rewrite E1; apply u64_range|done|].
  exists bc'. split; [done|]. rewrite E, E1, u64_add_l. cbn. f_equal. unfold sumZ. lia.
Qed.

Lemma load_validators_spec l : ∀ bc,
  is_u64 (nd_TokenSupply bc) →
  Forall (λ v, gnva_Address v ≠ "" ∧ MinStake ≤ gnva_Stake v) l →
  ∃ bc', load_validators bc l = (Ok tt, bc') ∧
    nd_TokenSupply bc' = u64 (nd_TokenSupply bc + sumZ (map gnva_Stake l)).
Proof.
  induction l as [|v l IH]; intros bc Hu Hl.
  { exists bc. split; [done|]. cbn. by rewrite Z.add_0_r, u64_small. }
  apply Forall_cons in Hl as [[Ha Hm] Hl]. cbn [load_validators].
  rewrite bool_decide_false, (proj2 (Z.ltb_ge _ _)) by done.
  assert (nd_TokenSupply (load_validator bc v) = u64 (nd_TokenSupply bc + gnva_Stake v)) as E1.
  { unfold load_validator, Unix. cbv zeta. by destruct (_ !! gnva_Address v). }
  destruct (IH (load_validator bc v)) as (bc' & -> & E); [rewrite E1; apply u64_range|done|].
  exists bc'. split; [done|]. rewrite E, E1, u64_add_l. cbn. f_equal. unfold sumZ. lia.
Qed.

(** A file the tool can have written, as the node loads it. *)
Lemma loadGenesis_spec g file bc :
  node_file g = Ok file → Forall good_allocation (gf_Allocations g) → Forall good_validator (gf_Validators g) →
  0 ≤ allocated g + staked g ≤ MaxSupply →
  ∃ bc', loadGenesis bc (Ok file) = (Ok tt, bc') ∧ nd_TokenSupply bc' = allocated g + staked g.
Proof.
  unfold node_file. cbv zeta. destruct (mg_Signatures _); [|done]. intros [= <-] Ha Hv Hs.
  unfold loadGenesis. cbn [gnf_Allocations gnf_Validators]. cbv zeta. set (b0 := _ <| nd_TokenSupply := 0 |>).
  match goal with |- context [load_allocations b0 ?l] => destruct (load_allocations_spec l b0) as (b1 & -> & E1) end.
  { change (is_u64 0). split; [done|unfold max_u64; lia]. }
  { apply Forall_map. eapply Forall_impl; [exact Ha|]. intros a [? [? ?]]. done. }
  match goal with |- context [load_validators b1 ?l] => destruct (load_validators_spec l b1) as (b2 & -> & E2) end.
  { rewrite E1. apply u64_range. }
  { apply Forall_map. eapply Forall_impl; [exact Hv|]. intros v [? ?]. done. }
  rewrite E1, !map_map in E2. cbn [gnal_Amount gnva_Stake] in E2.
  change (nd_TokenSupply b0) with 0 in E2. rewrite Z.add_0_l, u64_add_l in E2.
  change (map (λ x, ga_Amount x) (gf_Allocations g)) with (map ga_Amount (gf_Allocations g)) in E2.
  fold (allocated g) in E2. change (sumZ (map (λ x, vm_Stake x) (gf_Validators g))) with (staked g) in E2.
  rewrite u64_small in E2 by (unfold is_u64, MaxSupply, max_u64 in *; lia).
  rewrite E2, (proj2 (Z.ltb_ge _ _)) by lia. eexists. split; [reflexivity|]. exact E2.
Qed.

(** With the default shares, the allocations of a generated file exceed its
    initial supply by the stakes of the validators, and the node that loads it
    counts the stakes once more. *)
Theorem genesis_supply_exceeds n now bc :
  0 ≤ n ≤ 10 ^ 9 →
  ∃ g file bc', mainGenerate (default_flags n) now = Ok g ∧ node_file g = Ok file ∧
    loadGenesis bc (Ok file) = (Ok tt, bc') ∧ gf_InitialSupply g = 50000000000 ∧
    allocated g = gf_InitialSupply g + 100000 * n ∧
    nd_TokenSupply bc' = gf_InitialSupply g + 200000 * n.
Proof.
  intros Hn. unfold mainGenerate. cbv zeta. cbn [ff_validatorCount default_flags].
  match goal with |- context [negb ?b] => replace b with true by (vm_compute; reflexivity) end. cbn [negb].
  match goal with |- context [foldl add_validator ?g ?l] => set (g0 := g) end.
  destruct (add_validators_spec (Z.to_nat n) g0) as (E1 & E2 & Ha & Hv & E3 & E4).
  set (g1 := foldl add_validator g0 (seq 0 (Z.to_nat n))) in *.
  assert (allocated g0 = 50000000000) as Ea by (vm_compute; reflexivity).
  assert (Forall good_allocation (gf_Allocations g0)) as Hg0.
  { cbn [g0 gf_Allocations]. unfold shares. repeat constructor; cbn [allocate ga_Address];
      try apply generated_address; vm_compute; congruence. }
  assert (staked g0 = 0) as Es0 by done. assert (gf_InitialSupply g0 = 50000000000) as Ei0 by done.
  assert (Forall good_validator (gf_Validators g0)) as Hv0 by constructor.
  assert (mg_Signatures (gf_Multisig g0) = []) as Em0 by done. clearbody g1 g0.
  destruct (ensure_signer_spec g1) as (F1 & F2 & F3 & F4). set (g2 := ensure_signer g1) in *. clearbody g2.
  assert (allocated g2 = 50000000000 + 100000 * n) as A2.
  { unfold allocated in *. rewrite F1, E1, Ea. lia. }
  assert (staked g2 = 100000 * n) as S2.
  { unfold staked in *. rewrite F2, E2, Es0. lia. }
  assert (∃ file, node_file g2 = Ok file) as [file Ef].
  { unfold node_file. rewrite F4, E4, Em0. by eexists. }
  destruct (loadGenesis_spec g2 file bc) as (bc' & El & Es); [done| | | |].
  { rewrite F1. by apply Ha. }
  { rewrite F2. by apply Hv. }
  { rewrite A2, S2. unfold MaxSupply. lia. }
  exists g2, file, bc'. split_and!; [done|done|done|by rewrite F3, E3| |].
  - rewrite F3, E3, Ei0. exact A2.
  - rewrite Es, A2, S2, F3, E3, Ei0. lia.
Qed.
End supply.

(** ** Signing *)

Section signing.
Context `{Runtime} `{Ed25519} `{GenesisEnv}.
Implicit Types g : GenesisFile.

(** A successful signature adds one entry, made over the file before it. *)
Lemma mainSign_Ok privKeyHex address now g g' :
  mainSign privKeyHex address now g = Ok g' →
  ∃ pub priv, mg_Finalized (gf_Multisig g) = false ∧
    mg_Signatures (gf_Multisig g') = mg_Signatures (gf_Multisig g) ++
      [mkGenesisSignature address (EncodeToString pub)
         (EncodeToString (ed_Sign priv (marshal_genesis g))) now].
Proof.
  unfold mainSign. destruct (_ || _); [done|]. destruct (mg_Finalized _); [done|].
  destruct (generateKeyPairFromHex privKeyHex) as [[pub priv]|e|e]; [|done..].
  destruct (negb _); [done|]. destruct (negb _); [done|]. destruct (existsb _ (mg_Signatures _)); [done|].
  cbv zeta. intros [= <-]. exists pub, priv. split; [done|]. by destruct (_ <=? _).
Qed.

(** Files reached from one without signatures. *)
Inductive signed : GenesisFile → Prop :=
| signed_none g : mg_Signatures (gf_Multisig g) = [] → signed g
| signed_more g g' privKeyHex address now :
    signed g → mainSign privKeyHex address now g = Ok g' → signed g'.

Definition signature_count g : nat := length (mg_Signatures (gf_Multisig g)).

(** Every signature was made over a file with fewer signatures. *)
Lemma signed_earlier g :
  signed g → Forall (λ sig, ∃ priv h, gs_Signature sig = EncodeToString (ed_Sign priv (marshal_genesis h)) ∧
    (signature_count h < signature_count g)%nat) (mg_Signatures (gf_Multisig g)).
Proof.
  induction 1 as [g E|g g' privKeyHex address now Hs IH E]; [by rewrite E|].
  apply mainSign_Ok in E as (pub & priv & _ & E). unfold signature_count in *. rewrite E.
  rewrite length_app. cbn [length]. apply Forall_app. split.
  - eapply Forall_impl; [exact IH|]. intros sig (p & h & Es & Hl). exists p, h. split; [done|lia].
  - apply Forall_singleton. exists priv, g. split; [done|]. lia.
Qed.

Lemma verify_all_elem json sigs l addr valid :
  verify_all json sigs = Ok l → (addr, valid) ∈ l →
  ∃ sig pub sigBytes, sig ∈ sigs ∧ DecodeString (gs_Signature sig) = Ok sigBytes ∧
    valid = ed_Verify pub json sigBytes.
Proof.
  revert l. induction sigs as [|sig sigs IH]; intros l E Hin; cbn [verify_all] in E.
  { injection E as <-. by apply not_elem_of_nil in Hin. }
  unfold verify_one in E. destruct (DecodeString (gs_PublicKey sig)) as [pub|e|e]; [|done..].
  destruct (DecodeString (gs_Signature sig)) as [sigBytes|e|e] eqn:Es; [|done..].
  destruct (negb _); [done|]. destruct (verify_all json sigs) as [k|e|e] eqn:Ek; [|done..].
  injection E as <-. apply elem_of_cons in Hin as [Hin|Hin].
  - injection Hin as _ ->. exists sig, pub, sigBytes. split_and!; [apply list_elem_of_here|done|done].
  - destruct (IH k eq_refl Hin) as (s & p & b & Hs & ?). exists s, p, b. split; [|done].
    by apply list_elem_of_further.
Qed.

(** [verify] checks every signature against the file that contains it, but it was
    made over the file before: a signature is reported valid only if it verifies
    for a file with more signatures than the one it was made for. *)
Theorem signature_checked_on_other_file g hash lines addr :
  signed g → mainVerify g = Ok (hash, lines) → (addr, true) ∈ lines →
  ∃ pub priv h, (signature_count h < signature_count g)%nat ∧
    ed_Verify pub (marshal_genesis g) (ed_Sign priv (marshal_genesis h)) = true.
Proof.
  intros Hs Hv Hin. unfold mainVerify in Hv. cbv zeta in Hv.
  destruct (verify_all _ _) as [l|e|e] eqn:El; [|done..]. injection Hv as _ ->.
  destruct (verify_all_elem _ _ _ _ _ El Hin) as (sig & pub & b & Hsig & Hd & Hok).
  pose proof (signed_earlier g Hs) as Hall. rewrite Forall_forall in Hall.
  destruct (Hall sig Hsig) as (priv & h & Es & Hl). rewrite Es, DecodeString_EncodeToString in Hd.
  injection Hd as <-. by exists pub, priv, h.
Qed.

(** A file that was signed at all does not load: the node starts with the demo
    state, as if no genesis file had been given. *)
Theorem signed_genesis_ignored privKeyHex address now g g' consensus dataDir chainID file :
  mainSign privKeyHex address now g = Ok g' →
  NewBlockchain consensus dataDir chainID file (Some (node_file g')) =
  NewBlockchain consensus dataDir chainID file None.
Proof.
  intros E. apply mainSign_Ok in E as (pub & priv & _ & E).
  assert (∃ e, node_file g' = Err e) as [e ->].
  { unfold node_file. rewrite E. destruct (mg_Signatures (gf_Multisig g)); by eexists. }
  unfold NewBlockchain. by destruct (loadFromDisk _) as [[[]|?|?] bc].
Qed.

(** ** One signer is enough *)

Lemma lower_ascii_length s : String.length (lower_ascii s) = String.length s.
Proof. induction s as [|c s IH]; [done|]. cbn. by rewrite IH. Qed.

Lemma hex_ascii l : is_ascii (EncodeToString l) = true.
Proof.
  induction l as [|b l IH]; [done|]. change (EncodeToString (b :: l)) with (hex_byte b (EncodeToString l)).
  unfold hex_byte. destruct b; cbn; exact IH.
Qed.

Lemma EqualFold_refl s : is_ascii s = true → EqualFold s s = true.
Proof. intros Hs. rewrite EqualFold_ascii by done. by apply bool_decide_eq_true. Qed.

Lemma EqualFold_longer s t :
  is_ascii s = true → is_ascii t = true → String.length s ≠ String.length t → EqualFold s t = false.
Proof.
  intros Hs Ht Hl. rewrite EqualFold_ascii by done. apply bool_decide_eq_false. intros E.
  apply Hl. by rewrite <- (lower_ascii_length s), E, lower_ascii_length.
Qed.

(** The signature of an allowed key under one of its names. *)
Lemma mainSign_run priv address now g :
  let pub := drop 32 priv in
  length priv = PrivateKeySize → mg_Finalized (gf_Multisig g) = false →
  EncodeToString pub ∈ mg_Signers (gf_Multisig g) → address ≠ "" →
  TrimPrefix address "0x" = EncodeToString pub →
  existsb (λ sig, EqualFold (gs_SignerAddress sig) address) (mg_Signatures (gf_Multisig g)) = false →
  ∃ g', mainSign (EncodeToString priv) address now g = Ok g' ∧
    mg_Threshold (gf_Multisig g') = mg_Threshold (gf_Multisig g) ∧
    mg_Signers (gf_Multisig g') = mg_Signers (gf_Multisig g) ∧
    (∃ sig, gs_SignerAddress sig = address ∧
      mg_Signatures (gf_Multisig g') = mg_Signatures (gf_Multisig g) ++ [sig]) ∧
    mg_Finalized (gf_Multisig g') =
      (mg_Threshold (gf_Multisig g) <=? blen (mg_Signatures (gf_Multisig g)) + 1).
Proof.
  intros pub Hl Hf Hin Hne Ht Hnew. unfold mainSign.
  assert (EncodeToString priv ≠ "") as Hp.
  { intros E. apply (f_equal String.length) in E. rewrite EncodeToString_length, Hl in E. done. }
  rewrite (bool_decide_false _ Hp), (bool_decide_false _ Hne), Hf. cbn [orb].
  assert (TrimPrefix (EncodeToString priv) "0x" = EncodeToString priv) as Ep.
  { destruct priv as [|b priv]; [done|]. unfold TrimPrefix.
    change (EncodeToString (b :: priv)) with (hex_byte b (EncodeToString priv)).
    destruct b; cbn; reflexivity. }
  unfold generateKeyPairFromHex. rewrite Ep, DecodeString_EncodeToString, Hl, Nat.eqb_refl. cbn [negb].
  fold pub. rewrite Ht, EqualFold_refl by apply hex_ascii. cbn [negb].
  assert (existsb (λ s, EqualFold s (EncodeToString pub)) (mg_Signers (gf_Multisig g)) = true) as ->.
  { apply existsb_exists. exists (EncodeToString pub). split; [by apply list_elem_of_In|].
    apply EqualFold_refl, hex_ascii. }
  cbn [negb]. rewrite Hnew. cbv zeta.
  eexists. split; [reflexivity|].
  match goal with |- context [if ?a <=? ?b then _ else _] =>
    change a with (mg_Threshold (gf_Multisig g));
    change b with (blen (mg_Signatures (gf_Multisig g) ++ [mkGenesisSignature address (EncodeToString pub)
      (EncodeToString (ed_Sign priv (marshal_genesis g))) now])) end.
  rewrite blen_app. change (blen [_]) with 1.
  destruct (_ <=? _); (split_and!; [done|done|eexists; split; [|reflexivity]; reflexivity|first [done|exact Hf]]).
Qed.

(** The threshold of two counts addresses, and the same key has two: with and
    without ["0x"].  One signer alone finalizes a genesis file. *)
Theorem one_signer_finalizes priv now now' g :
  let pub := EncodeToString (drop 32 priv) in
  length priv = PrivateKeySize → mg_Finalized (gf_Multisig g) = false →
  mg_Threshold (gf_Multisig g) = 2 → mg_Signatures (gf_Multisig g) = [] →
  pub ∈ mg_Signers (gf_Multisig g) →
  ∃ g1 g2, mainSign (EncodeToString priv) pub now g = Ok g1 ∧
    mainSign (EncodeToString priv) ("0x" +:+ pub) now' g1 = Ok g2 ∧
    mg_Finalized (gf_Multisig g2) = true.
Proof.
  intros pub Hl Hf Ht Hs Hin.
  assert (pub ≠ "") as Hne.
  { intros E. apply (f_equal String.length) in E. unfold pub in E.
    rewrite EncodeToString_length, length_drop, Hl in E. done. }
  destruct (mainSign_run priv pub now g) as (g1 & E1 & T1 & S1 & (sig & Ea & Es) & F1); [done..| | |].
  { unfold pub. destruct (drop 32 priv) as [|b l] eqn:Ed; [done|]. unfold TrimPrefix.
    change (EncodeToString (b :: l)) with (hex_byte b (EncodeToString l)). destruct b; cbn; reflexivity. }
  { by rewrite Hs. }
  rewrite Ht, Hs in F1. change (2 <=? blen [] + 1) with false in F1. rewrite Hs in Es. cbn [app] in Es.
  destruct (mainSign_run priv ("0x" +:+ pub) now' g1) as (g2 & E2 & _ & _ & _ & F2).
  { done. } { done. } { by rewrite S1. } { done. } { by rewrite TrimPrefix_app. }
  { rewrite Es. cbn [existsb]. rewrite Ea, orb_false_r. apply EqualFold_longer.
    - apply hex_ascii.
    - rewrite is_ascii_app. unfold pub. by rewrite hex_ascii.
    - rewrite string_length_app. cbn [String.length]. lia. }
  exists g1, g2. split; [done|]. split; [done|]. rewrite F2, T1, Ht, Es. reflexivity.
Qed.
End signing.

(** ** Concrete runs *)

#[local] Existing Instance demo_runtime.
#[local] Existing Instance demo_ed25519.
(** The text is the number of signatures. *)
#[local] Instance demo_genesis_env : GenesisEnv :=
  {| marshal_genesis g := [byte_of_Z (blen (mg_Signatures (gf_Multisig g)))];
     EqualFold s t := bool_decide (lower_ascii s = lower_ascii t);
     EqualFold_ascii s t _ _ := eq_refl;
     four_years_on t := t + 126230400 |}.

Lemma genesis_supply_exceeds_witness :
  ∃ g file bc', mainGenerate (default_flags 7) 1700000000 = Ok g ∧ node_file g = Ok file ∧
    loadGenesis (empty_blockchain ProofOfStake "data" "tender" None) (Ok file) = (Ok tt, bc') ∧
    gf_InitialSupply g = 50000000000 ∧ allocated g = gf_InitialSupply g + 700000 ∧
    nd_TokenSupply bc' = gf_InitialSupply g + 1400000.
Proof.
  apply (genesis_supply_exceeds 7 1700000000 (empty_blockchain ProofOfStake "data" "tender" None)). lia.
Defined.

(** A file whose only signer has the key of zeros. *)
Definition demo_priv : list byte := replicate 64 x00.
Definition demo_genesis : GenesisFile :=
  mkGenesisFile "tdr-mainnet-1" 0 "hybrid-pos-poa" 0 0 (mkgenesisToken "TENDER" "TDR" 8) [] []
    (mkgenesisEconomics 5 1 4 100 5 2026 (f64_lit 15 100))
    (mkMultisig 2 [EncodeToString (drop 32 demo_priv)] [] false 0).

Lemma one_signer_finalizes_witness :
  ∃ g1 g2, mainSign (EncodeToString demo_priv) (EncodeToString (drop 32 demo_priv)) 5 demo_genesis = Ok g1 ∧
    mainSign (EncodeToString demo_priv) ("0x" +:+ EncodeToString (drop 32 demo_priv)) 6 g1 = Ok g2 ∧
    mg_Finalized (gf_Multisig g2) = true.
Proof.
  apply (one_signer_finalizes demo_priv 5 6 demo_genesis);
    [reflexivity|reflexivity|reflexivity|reflexivity|apply list_elem_of_here].
Defined.

Definition demo_signed_genesis : GenesisFile :=
  match mainSign (EncodeToString demo_priv) (EncodeToString (drop 32 demo_priv)) 5 demo_genesis with
  | Ok g => g
  | _ => demo_genesis
  end.

Lemma demo_signed_genesis_eq :
  mainSign (EncodeToString demo_priv) (EncodeToString (drop 32 demo_priv)) 5 demo_genesis = Ok demo_signed_genesis.
Proof. vm_compute. reflexivity. Qed.

Lemma signed_genesis_ignored_witness :
  NewBlockchain ProofOfStake "data" "tender" None (Some (node_file demo_signed_genesis)) =
  NewBlockchain ProofOfStake "data" "tender" None None.
Proof.
  exact (signed_genesis_ignored _ _ _ _ _ ProofOfStake "data" "tender" None demo_signed_genesis_eq).
Defined.

(** An encoder that forgets everything makes the signature valid for both files. *)
Definition blind_env : GenesisEnv :=
  {| marshal_genesis _ := [];
     EqualFold s t := bool_decide (lower_ascii s = lower_ascii t);
     EqualFold_ascii s t _ _ := eq_refl;
     four_years_on t := t |}.

Definition blind_signed : GenesisFile :=
  match @mainSign demo_ed25519 blind_env (EncodeToString demo_priv) (EncodeToString (drop 32 demo_priv)) 5
          demo_genesis with
  | Ok g => g
  | _ => demo_genesis
  end.

Lemma blind_signed_eq :
  @mainSign demo_ed25519 blind_env (EncodeToString demo_priv) (EncodeToString (drop 32 demo_priv)) 5 demo_genesis =
    Ok blind_signed.
Proof. vm_compute. reflexivity. Qed.

Lemma blind_verified :
  @mainVerify demo_ed25519 blind_env blind_signed =
    Ok (sha_hex [], [(EncodeToString (drop 32 demo_priv), true)]).
Proof. vm_compute. reflexivity. Qed.

Lemma signature_checked_on_other_file_witness :
  ∃ pub priv h, (signature_count h < signature_count blind_signed)%nat ∧
    @ed_Verify demo_ed25519 pub (@marshal_genesis blind_env blind_signed)
      (@ed_Sign demo_ed25519 priv (@marshal_genesis blind_env h)) = true.
Proof.
  apply (@signature_checked_on_other_file demo_ed25519 blind_env blind_signed (sha_hex [])
    [(EncodeToString (drop 32 demo_priv), true)] (EncodeToString (drop 32 demo_priv)));
    [|exact blind_verified|apply list_elem_of_here].
  apply (@signed_more demo_ed25519 blind_env demo_genesis blind_signed _ _ _
    (@signed_none demo_ed25519 blind_env demo_genesis eq_refl) blind_signed_eq).
Defined.
