(* ===== verification/Clients.v ===== *)
(** * Stand-alone clients (go-chain/tools/miner, go-chain/tools/rosetta-server, go-chain/validator-onboard, go-chain/validator_onboarding.go)

    The miner against the node program of [NodeApi]; the Rosetta server with its own
    copy of a state file; the onboarding programs as the files they write.  What is
    sent is encoded by [MinerWire]; what a file holds is a value. *)

From S2P Require Import Prelude Runtime Float64 Text Sha256 Domain Json Merkle Tendermint State Accounts Validation Mempool Mining Keys Limits P2P StateStore Node NodeChain NodeLedger NodeMining NodeP2P NodeApi NodeSafety NodeDemo.
From S2P Require Api.
Open Scope Z_scope.
Open Scope go_scope.

(** ** The miner *)

(** The block travels through a map with floating-point numbers. *)
Class MinerWire := {
  encode_miner : string → list byte;
  encode_block : Block → list byte;
  miner_addr : string;
}.

Section miner.
Context `{Runtime} `{Ed25519} `{Network} `{Api.Decoders} `{NodeDecoders} `{MinerWire}.
Implicit Types (s : server) (bc : Blockchain).

(** Requests carry no key. *)
Definition miner_request (path : string) (body : list byte) : request :=
  mkrequest "POST" path miner_addr "" "" body.

(** [None] when the node never answers. *)
Definition mineBlock (fuel : nat) (minerAddr : string) s : option (outcome Block) * server :=
  let '(o, s) := serve fuel (miner_request "/api/mine" (encode_miner minerAddr)) s in
  (match o with
   | Hang => None
   | Abort => Some (Err "EOF")
   | Continue resp | Respond resp =>
       if negb (rs_code resp =? 200) then
         Some (Err ("mine endpoint returned " +:+ FormatInt (rs_code resp))) else
       match rs_body resp with
       | NodeApi.Json (V (Api.VBlock block)) => Some (Ok block)
       | _ => Some (Err "json")
       end
   end, s).

Definition submitBlock (fuel : nat) (block : Block) s : option (outcome unit) * server :=
  let '(o, s) := serve fuel (miner_request "/api/miner/submit" (encode_block block)) s in
  (match o with
   | Hang => None
   | Abort => Some (Err "EOF")
   | Continue resp | Respond resp =>
       if negb (rs_code resp =? 200) then
         Some (Err ("submit endpoint returned " +:+ FormatInt (rs_code resp)))
       else Some (Ok tt)
   end, s).

(** One round of [Start]: what was mined, and what became of the submission. *)
Definition miner_round (fuel : nat) (minerAddr : string) s
    : option (outcome Block) * option (outcome unit) * server :=
  match mineBlock fuel minerAddr s with
  | (Some (Ok block), s) => let '(o, s) := submitBlock fuel block s in (Some (Ok block), o, s)
  | (o, s) => (o, None, s)
  end.

(** ** A mined block cannot be submitted again *)

Lemma commit_mined_Ok bc block author block' bc' :
  commit_mined bc block author = (Ok block', bc') → block' = block ∧ nd_Chain bc' = nd_Chain bc ++ [block].
Proof.
  intros E. split.
  - unfold commit_mined in E. cbv zeta in E. destruct (extend _ block) as [[[]|?|?] b]; [|done..].
    destruct (saveToDisk _) as [[[]|?|?] b']; [|done..]. by injection E as <- _.
  - destruct (commit_mined_spec bc block author) as [[Hc|[_ (e & [Hc|Hc])]] _]; rewrite E in Hc; [|done..].
    unfold chain_and_pool in Hc. by injection Hc.
Qed.

Lemma MineBlockFor_tail fuel bc miner block bc' :
  MineBlockFor fuel bc miner = Some (Ok block, bc') → last (nd_Chain bc') = Some block.
Proof.
  unfold MineBlockFor. destruct (minting_paused bc) as [paused b0]. destruct paused; [done|]. cbv zeta.
  destruct (last _) as [prev|]; [|done]. destruct (assemble _ _ _) as [b1 blk].
  destruct (seal_block fuel b1 miner blk) as [sealed|]; [|done]. cbn [mbind option_bind].
  destruct (validateBlock b1 sealed prev) as [[[]|?|?] b2]; [|done..]. intros [= E].
  apply commit_mined_Ok in E as [-> ->]. apply last_snoc.
Qed.

(** The last block of a linked chain has the index of its position. *)
Lemma chain_ok_last bc block :
  chain_ok bc → last (nd_Chain bc) = Some block → blk_Index block = u64 (blen (nd_Chain bc) - 1).
Proof.
  intros [(g & rest & E & Hg) Hl] Hlast. rewrite last_lookup in Hlast.
  rewrite (node_linked_index (nd_Chain bc) g rest E Hg Hl _ _ Hlast). f_equal. unfold blen. rewrite E. cbn [length]. lia.
Qed.

Lemma u64_pred_ne x : u64 (x - 1) ≠ u64 x.
Proof.
  unfold u64. intros E. pose proof (Z.div_mod (x - 1) max_u64 ltac:(done)) as D1.
  pose proof (Z.div_mod x max_u64 ltac:(done)) as D2. rewrite E in D1.
  assert (1 = max_u64 * (x `div` max_u64 - (x - 1) `div` max_u64)) as D3 by lia.
  unfold max_u64 in *. lia.
Qed.

Lemma SubmitMinedBlock_again bc block b :
  chain_ok bc → last (nd_Chain bc) = Some block → blk_Index b = blk_Index block →
  SubmitMinedBlock bc b = (Err "invalid block index", bc).
Proof.
  intros Hok Hl Hb. unfold SubmitMinedBlock. rewrite Hl.
  assert (blk_Index b =? u64 (blen (nd_Chain bc)) = false) as ->; [|done].
  apply Z.eqb_neq. rewrite Hb, (chain_ok_last bc block Hok Hl). apply u64_pred_ne.
Qed.

(** A request of the miner: refused for want of a key, or handled. *)
Lemma serve_miner fuel path body s h :
  find_route path (nc_MetricsPath (sv_cfg s)) (routes fuel) (miner_request path body) =
    h (miner_request path body) →
  (∃ msg, serve fuel (miner_request path body) s = (Respond (mkresponse 401 (Text msg)), s)) ∨
  serve fuel (miner_request path body) s = h (miner_request path body) s.
Proof.
  intros Hf. pose proof (requireAuth_no_panic "" (sv_cfg s)) as Hnp.
  destruct (requireAuth "" (sv_cfg s)) as [[]|e|e] eqn:Ea; [|left; exists e|by destruct (Hnp e)].
  - right. by apply serve_post.
  - unfold serve. replace (writes (rq_Method (miner_request path body))) with true by done.
    unfold authorized, gets, mbind, handler_bind, or_error.
    change (rq_Authorization (miner_request path body)) with "". by rewrite Ea.
Qed.

(** Broadcasting a block keeps the chain. *)
Lemma broadcast_block_run block s :
  sv_locked s = false →
  ∃ s', broadcast_block block s = (Continue tt, s') ∧ nd_Chain (sv_chain s') = nd_Chain (sv_chain s) ∧
    sv_locked s' = false ∧ sv_cfg s' = sv_cfg s.
Proof.
  intros Hl. unfold broadcast_block, read_locked.
  rewrite (bind_Continue _ _ _ _ _ (locked_run _ s Hl)). set (s1 := set_chain _ s).
  eexists. split; [reflexivity|]. split_and!; [|exact Hl|done].
  unfold sv_chain. change (p2_chain (sv_p2p (s1 <| sv_p2p ::= λ p, (broadcastBlock block p).2 |>)))
    with (p2_chain (broadcastBlock block (sv_p2p s1)).2).
  unfold broadcastBlock.
  destruct (broadcastMessage_frame (mkp2pMessage "block" "" "" "" (Some block) [] None None
    (Some (ledgerState (p2_chain (sv_p2p s1)))) "") (sv_p2p s1)) as (_ & _ & _ & n & E).
  by rewrite E.
Qed.

Lemma mineBlock_Ok fuel minerAddr s block s1 :
  mineBlock fuel minerAddr s = (Some (Ok block), s1) → chain_ok (sv_chain s) →
  chain_ok (sv_chain s1) ∧ last (nd_Chain (sv_chain s1)) = Some block ∧ sv_locked s1 = false.
Proof.
  intros E Hok. unfold mineBlock in E.
  destruct (serve_miner fuel "/api/mine" (encode_miner minerAddr) s (h_mine fuel)) as [[msg Es]|Es]; [done| |];
    rewrite Es in E; [done|].
  set (r := miner_request _ _) in *. unfold h_mine, post_only in E.
  rewrite bool_decide_true in E by done. rewrite (bind_Continue _ _ s tt s) in E by done.
  unfold decoded in E. destruct (Api.decode_miner (rq_Body r)) as [miner|e|e]; cbn [or_error] in E; [|done..].
  rewrite (bind_Continue _ _ s miner s) in E by done.
  destruct (sv_locked s) eqn:Hl; [by unfold mbind, handler_bind, mine in E; rewrite Hl in E|].
  destruct (MineBlockFor fuel (sv_chain s) miner) as [[[b|e|e] bc']|] eqn:Em.
  2-4: unfold mbind, handler_bind, mine in E; rewrite Hl, Em in E; done.
  set (s0 := set_chain bc' s).
  rewrite (bind_Continue _ _ s (Ok b) s0) in E by (unfold mine; by rewrite Hl, Em).
  cbn [or_error] in E. rewrite (bind_Continue _ _ s0 b s0) in E by done.
  destruct (broadcast_block_run b s0 Hl) as (s' & Eb & Hc & Hl' & _).
  rewrite (bind_Continue _ _ _ _ _ Eb) in E.
  assert (b = block ∧ s' = s1) as [<- <-] by (by injection E).
  change (nd_Chain (sv_chain s0)) with (nd_Chain bc') in Hc. split_and!; [|rewrite Hc|done].
  - eapply (chain_ok_same bc'); [exact Hc|]. by eapply MineBlockFor_chain_ok.
  - by eapply MineBlockFor_tail.
Qed.

(** The miner asks the node to mine, which appends the block, and then submits the
    block it was given: on a node with a linked chain no submission is ever
    accepted, and it changes no block. *)
Theorem miner_submission_refused fuel minerAddr s :
  (∀ block b, Api.decode_block (encode_block block) = Ok b → blk_Index b = blk_Index block) →
  chain_ok (sv_chain s) →
  let '(mined, submitted, s') := miner_round fuel minerAddr s in
  submitted ≠ Some (Ok tt) ∧
  (∀ block, mined = Some (Ok block) → last (nd_Chain (sv_chain s')) = Some block).
Proof.
  intros Hw Hok. unfold miner_round.
  destruct (mineBlock fuel minerAddr s) as [[[block|e|e]|] s1] eqn:Em; [|done..].
  destruct (mineBlock_Ok _ _ _ _ _ Em Hok) as (Hok1 & Hlast & Hl). unfold submitBlock.
  destruct (serve_miner fuel "/api/miner/submit" (encode_block block) s1 h_miner_submit)
    as [[msg Es]|Es]; [done|by rewrite Es; split; [|intros ? [= <-]]|].
  set (r := miner_request _ _) in *. rewrite Es. unfold h_miner_submit, post_only.
  rewrite bool_decide_true by done. rewrite (bind_Continue _ _ s1 tt s1) by done.
  unfold decoded. change (rq_Body r) with (encode_block block).
  destruct (Api.decode_block (encode_block block)) as [b|e|e] eqn:Ed; cbn [or_error];
    [|by split; [|intros ? [= <-]]..].
  rewrite (bind_Continue _ _ s1 b s1) by done.
  rewrite (bind_Continue _ _ _ _ _ (locked_run _ s1 Hl)).
  rewrite (SubmitMinedBlock_again _ block b Hok1 Hlast (Hw _ _ Ed)). cbn [fst snd or_error].
  split; [done|]. intros ? [= <-]. exact Hlast.
Qed.
End miner.

(** ** The Rosetta server *)

(** The state read from a file at the start, and changed in memory only. *)
Record RosettaState := mkRosettaState {
  rn_Chain : list Block; rn_Pending : list Transaction; rn_ChainID : string; rn_TokenSupply : Z }.

#[export] Instance RosettaState_rebuild : Rebuild RosettaState := λ r,
  mkRosettaState (rn_Chain r) (rn_Pending r) (rn_ChainID r) (rn_TokenSupply r).

(** Index and hash. *)
Definition identifier : Type := Z * string.

Record status := mkstatus {
  rt_current : identifier; rt_oldest : identifier; rt_genesis : identifier; rt_timestamp : Z;
  rt_peers : list string }.

Definition networkStatus (now : Z) (st : RosettaState) : status :=
  let genesis := (0, "genesis") in
  match last (rn_Chain st) with
  | None => mkstatus genesis genesis genesis now []
  | Some tail => mkstatus (blk_Index tail, blk_BlockHash tail) genesis genesis (blk_Timestamp tail) []
  end.

Record block_answer := mkblock_answer {
  ba_block : identifier; ba_parent : identifier; ba_timestamp : Z; ba_transactions : list Transaction }.

Definition answer_of (b : Block) : block_answer :=
  mkblock_answer (blk_Index b, blk_BlockHash b) (u64 (blk_Index b - 1), blk_PreviousHash b)
    (blk_Timestamp b) (blk_Transactions b).

(** [fmt.Sscanf(path, "%d", &targetIndex)]: text after the digits is ignored. *)
Definition scan_index (path : string) : option Z :=
  match ParseUint (digits_of (skip_blanks path)).1 with
  | (i, None) => Some i
  | _ => None
  end.

(** An error code or an answer; [path] is what follows [/block/]. *)
Definition blockByIndex (path : string) (st : RosettaState) : Z + block_answer :=
  if bool_decide (path = "") then inl 400 else
  match scan_index path with
  | None => inl 400
  | Some target =>
      match list_find (λ b, blk_Index b = target) (rn_Chain st) with
      | Some (_, b) => inr (answer_of b)
      | None => inl 404
      end
  end.

(** [req] is the decoded request, [unmarshal] the decoder of the transaction. *)
Definition constructionSubmit (req : outcome (string * string)) (unmarshal : string → outcome Transaction)
    (nano : Z) (st : RosettaState) : (Z + string) * RosettaState :=
  match req with
  | Err _ | Panic _ => (inl 400, st)
  | Ok (transaction, network) =>
      if bool_decide (transaction = "") then (inl 400, st) else
      match unmarshal transaction with
      | Err _ | Panic _ => (inl 400, st)
      | Ok tx =>
          let tx := tx <| tx_ID := "tx-" +:+ FormatInt nano |> in
          (inr (sha_hex (bytes_of_string (tx_ID tx +:+ network))), st <| rn_Pending ::= λ l, l ++ [tx] |>)
      end
  end.

(** A decimal number is read back, whatever follows it but a digit. *)
Lemma digits_of_app s t :
  string_all is_digit s = true → match t with String c _ => is_digit c = false | EmptyString => True end →
  digits_of (s +:+ t) = (s, t).
Proof.
  intros Hs Ht. induction s as [|c s IH].
  - destruct t as [|c t]; [done|]. cbn. by rewrite Ht.
  - cbn [string_all] in Hs. apply andb_prop in Hs as [Hc Hs].
    change (String c s +:+ t) with (String c (s +:+ t)). cbn [digits_of]. by rewrite Hc, IH.
Qed.

Lemma digit_not_blank c : is_digit c = true → blank c = false.
Proof. destruct c as [[] [] [] [] [] [] [] []]; vm_compute; done. Qed.

Lemma scan_index_number i : is_u64 i → scan_index (FormatInt i) = Some i.
Proof.
  intros Hi. unfold scan_index. pose proof (FormatInt_digits i ltac:(u64_lia)) as Hd.
  assert (skip_blanks (FormatInt i) = FormatInt i) as ->.
  { destruct (FormatInt i) as [|c s]; [done|]. cbn [string_all] in Hd. apply andb_prop in Hd as [Hc _].
    cbn [skip_blanks]. by rewrite digit_not_blank. }
  assert (digits_of (FormatInt i) = (FormatInt i, "")) as ->.
  { rewrite <- (string_app_nil_r (FormatInt i)) at 1. by apply digits_of_app. }
  cbn [fst]. by rewrite ParseUint_FormatInt.
Qed.

(** A block is found under its number; the parent of the genesis block is reported
    at 2^64 - 1. *)
Theorem tool_block_lookup i st :
  is_u64 i →
  blockByIndex (FormatInt i) st =
    match list_find (λ b, blk_Index b = i) (rn_Chain st) with
    | Some (_, b) => inr (answer_of b)
    | None => inl 404
    end.
Proof.
  intros Hi. unfold blockByIndex. rewrite scan_index_number by done.
  rewrite bool_decide_false; [done|]. apply FormatInt_nonempty. u64_lia.
Qed.

(** ** Onboarding of validators *)

Record ValidatorIdentity := mkValidatorIdentity {
  vi_Name : string; vi_Address : string; vi_PublicKey : string; vi_PrivateKey : string; vi_Stake : Z;
  vi_Country : string; vi_Region : string; vi_City : string; vi_IPAddress : string; vi_P2PPort : Z;
  vi_APIPort : Z; vi_MetricsPort : Z; vi_UptimeSLA : string; vi_Consensus : string; vi_Network : string;
  vi_TelemetryEndpoint : string; vi_RegisteredAt : Z; vi_LastHeartbeatAt : Z }.

#[export] Instance ValidatorIdentity_rebuild : Rebuild ValidatorIdentity := λ r,
  mkValidatorIdentity (vi_Name r) (vi_Address r) (vi_PublicKey r) (vi_PrivateKey r) (vi_Stake r)
    (vi_Country r) (vi_Region r) (vi_City r) (vi_IPAddress r) (vi_P2PPort r) (vi_APIPort r)
    (vi_MetricsPort r) (vi_UptimeSLA r) (vi_Consensus r) (vi_Network r) (vi_TelemetryEndpoint r)
    (vi_RegisteredAt r) (vi_LastHeartbeatAt r).

Record ValidatorManifest := mkValidatorManifest {
  vt_Network : string; vt_Chain : string; vt_Version : string; vt_GeneratedAt : Z;
  vt_Validators : list ValidatorIdentity; vt_BootstrapSeeds : list string; vt_TelemetryURL : string }.

Inductive content :=
| ManifestFile (m : ValidatorManifest)
| IdentityFile (i : ValidatorIdentity)
| EnvFile (lines : list (string * string))
| TelemetryFile (fields : list (string * string)) (registered_at : Z).

(** Name in the output directory, permissions, content. *)
Record artifact := mkartifact { ar_name : string; ar_perm : Z; ar_content : content }.

(** [0o644] and [0o600] *)
Definition world_readable : Z := 6 * 64 + 4 * 8 + 4.
Definition owner_only : Z := 6 * 64.

Record onboardFlags := mkonboardFlags {
  of_name : string; of_country : string; of_region : string; of_city : string; of_stake : Z;
  of_network : string; of_consensus : string; of_output : string; of_p2pPort : Z; of_apiPort : Z;
  of_metricsPort : Z; of_telemetryURL : string }.

Section onboard.
Context `{Runtime} `{Ed25519}.

(** [strings.ToUpper] is the argument [upper]; [ip] is the local address.  Paths are
    joined without being cleaned. *)
Definition new_identity (fl : onboardFlags) (upper : string → string) (ip : string) (k : nat) (now : Z)
    : ValidatorIdentity :=
  let '(pub, priv) := GenerateKey k in
  mkValidatorIdentity (of_name fl) (sha_hex pub) (EncodeToString pub) (EncodeToString priv) (of_stake fl)
    (upper (of_country fl)) (of_region fl) (of_city fl) (ip +:+ ":" +:+ FormatInt (of_p2pPort fl))
    (of_p2pPort fl) (of_apiPort fl) (of_metricsPort fl) "99.90%" (of_consensus fl) (of_network fl)
    (of_telemetryURL fl) now now.

(** [main] with flags: the files in the order they are written, when every write
    succeeds (a write that fails panics). *)
Definition onboard_main (fl : onboardFlags) (upper : string → string) (ip : string) (k : nat) (now : Z)
    : outcome (list artifact) :=
  if bool_decide (of_name fl = "") || bool_decide (of_country fl = "") || (of_stake fl =? 0) then Err "usage" else
  let identity := new_identity fl upper ip k now in
  let outDir := if bool_decide (of_output fl = "") then "validator-" +:+ of_name fl else of_output fl in
  let manifest := mkValidatorManifest (of_network fl) "go-chain" "v1.0.0" now [identity]
                    [vi_IPAddress identity] (of_telemetryURL fl) in
  let publicIdentity := identity <| vi_PrivateKey := "" |> in
  let env := [("TENDER_VALIDATOR_NAME", vi_Name identity); ("TENDER_VALIDATOR_ADDRESS", vi_Address identity);
              ("TENDER_VALIDATOR_PUBLIC_KEY", vi_PublicKey identity);
              ("TENDER_P2P_PORT", FormatInt (vi_P2PPort identity));
              ("TENDER_API_PORT", FormatInt (vi_APIPort identity));
              ("TENDER_METRICS_PORT", FormatInt (vi_MetricsPort identity));
              ("TENDER_DATA_DIR", outDir +:+ "/data"); ("TENDER_CONSENSUS", vi_Consensus identity);
              ("TENDER_TELEMETRY_ENDPOINT", vi_TelemetryEndpoint identity)] in
  let telemetry := [("validator_address", vi_Address identity); ("validator_name", vi_Name identity);
                    ("public_key", vi_PublicKey identity); ("country", vi_Country identity);
                    ("region", vi_Region identity); ("city", vi_City identity);
                    ("ip_address", vi_IPAddress identity); ("network", vi_Network identity);
                    ("consensus", vi_Consensus identity); ("stake", FormatInt (vi_Stake identity));
                    ("uptime_sla", vi_UptimeSLA identity)] in
  Ok [mkartifact "validator_manifest.json" world_readable (ManifestFile manifest);
      mkartifact "validator.key.json" owner_only (IdentityFile identity);
      mkartifact "validator.public.json" world_readable (IdentityFile publicIdentity);
      mkartifact ".env" owner_only (EnvFile env);
      mkartifact "telemetry_payload.json" world_readable (TelemetryFile telemetry (vi_RegisteredAt identity))].

(** [runInteractive]: [fl] holds what the prompts left in the variables, the empty
    string and 0 where nothing was read.  Nothing is refused, and the two files name
    no address of the machine. *)
Definition or_default (d s : string) : string := if bool_decide (s = "") then d else s.
Definition port_or (d p : Z) : Z := if p =? 0 then d else p.

Definition runInteractive (fl : onboardFlags) (upper : string → string) (k : nat) (now : Z) : list artifact :=
  let network := or_default "tdr-testnet" (of_network fl) in
  let telemetry := or_default "https://telemetry.tender.network/api/v1/register" (of_telemetryURL fl) in
  let '(pub, priv) := GenerateKey k in
  let identity :=
    mkValidatorIdentity (of_name fl) (sha_hex pub) (EncodeToString pub) (EncodeToString priv) (of_stake fl)
      (upper (of_country fl)) (of_region fl) (of_city fl) "" (port_or 3030 (of_p2pPort fl))
      (port_or 8080 (of_apiPort fl)) (port_or 9090 (of_metricsPort fl)) "99.90%"
      (or_default "pos" (of_consensus fl)) network telemetry now now in
  [mkartifact "validator_manifest.json" world_readable
     (ManifestFile (mkValidatorManifest network "go-chain" "v1.0.0" now [identity] [] telemetry));
   mkartifact "validator.key.json" owner_only (IdentityFile identity)].

(** The private keys a file discloses. *)
Definition disclosed (c : content) : list string :=
  filter (λ s, s ≠ "") (match c with
    | ManifestFile m => map vi_PrivateKey (vt_Validators m)
    | IdentityFile i => [vi_PrivateKey i]
    | EnvFile _ | TelemetryFile _ _ => []
    end).

Lemma key_disclosed k m :
  EncodeToString (GenerateKey k).2 ∈ map vi_PrivateKey (vt_Validators m) →
  EncodeToString (GenerateKey k).2 ∈ disclosed (ManifestFile m).
Proof.
  intros Hin. apply list_elem_of_filter. split; [|exact Hin].
  intros E. apply (f_equal String.length) in E. rewrite EncodeToString_length, GenerateKey_priv_len in E. done.
Qed.

(** The interactive mode writes an identity for any answers, none at all included,
    with its key in the file everyone can read. *)
Lemma interactive_refuses_nothing fl upper k now :
  ∃ m, head (runInteractive fl upper k now) =
         Some (mkartifact "validator_manifest.json" world_readable (ManifestFile m)) ∧
    EncodeToString (GenerateKey k).2 ∈ disclosed (ManifestFile m) ∧ vt_BootstrapSeeds m = [] ∧
    map vi_Stake (vt_Validators m) = [of_stake fl].
Proof.
  unfold runInteractive. pose proof (key_disclosed k) as Hk.
  destruct (GenerateKey k) as [pub priv]. cbv zeta. eexists. split; [reflexivity|].
  split; [|done]. apply Hk, list_elem_of_here.
Qed.

(** The key file is for the owner only and the public file has no key, but the
    manifest, readable by everyone, holds the identity with its private key. *)
Theorem manifest_discloses_key fl upper ip k now :
  of_name fl ≠ "" → of_country fl ≠ "" → of_stake fl ≠ 0 →
  ∃ files f, onboard_main fl upper ip k now = Ok files ∧ f ∈ files ∧ ar_perm f = world_readable ∧
    EncodeToString (GenerateKey k).2 ∈ disclosed (ar_content f).
Proof.
  intros Hn Hc Hs. unfold onboard_main. rewrite bool_decide_false, bool_decide_false by done.
  apply Z.eqb_neq in Hs. rewrite Hs. cbn [orb]. cbv zeta.
  do 2 eexists. split; [reflexivity|]. split; [apply list_elem_of_here|]. split; [done|].
  apply key_disclosed. unfold new_identity. destruct (GenerateKey k) as [pub priv]. apply list_elem_of_here.
Qed.
End onboard.

(** [validator_onboarding.go] of the program [main]: the key is written in raw
    bytes.  [dir_made] and [written] are the answers of the file system. *)
Record NodeIdentity := mkNodeIdentity {
  nid_Name : string; nid_PublicKey : string; nid_PrivateKeyPath : string; nid_Country : string;
  nid_Region : string; nid_Weight : Z }.

Record ValidatorTelemetryPayload := mkTelemetryPayload {
  tp_ValidatorID : string; tp_PublicKey : string; tp_Country : string; tp_Region : string;
  tp_Weight : Z; tp_Seeds : list string }.

Definition GenerateValidatorIdentity `{Ed25519} (k : nat) (dir_made written : bool)
    (name country region : string) (weight : Z) (seedDir : string)
    : outcome NodeIdentity * option (string * list byte) :=
  let '(pub, priv) := GenerateKey k in
  if negb dir_made then (Err "mkdir", None) else
  let keyPath := seedDir +:+ "/" +:+ name +:+ ".key" in
  if negb written then (Err "write", None) else
  (Ok (mkNodeIdentity name (EncodeToString pub) keyPath country region weight), Some (keyPath, priv)).

Definition TelemetryPayload (v : NodeIdentity) (seeds : list string) : ValidatorTelemetryPayload :=
  mkTelemetryPayload (nid_Name v) (nid_PublicKey v) (nid_Country v) (nid_Region v) (nid_Weight v) seeds.

(** ** Concrete runs *)

#[local] Existing Instance demo_runtime.
#[local] Existing Instance demo_ed25519.
#[local] Existing Instance NodeDemo.demo_net.
#[local] Existing Instance demo_bodies.
#[local] Existing Instance demo_node_bodies.
#[local] Instance demo_miner_wire : MinerWire :=
  {| encode_miner _ := []; encode_block _ := []; miner_addr := "10.0.0.8:1" |}.

Lemma miner_submission_refused_witness : (miner_round 0 "carol" node_server).1.2 ≠ Some (Ok tt).
Proof.
  pose proof (miner_submission_refused 0 "carol" node_server) as Hm.
  destruct (miner_round 0 "carol" node_server) as [[mined submitted] s'].
  apply Hm; [by intros block b [=]|exact node_server_ok].
Defined.

Lemma tool_block_lookup_witness :
  blockByIndex "0" (mkRosettaState [mkBlock 0 "" "" "" 0 [] 0 "g" ""] [] "" 0) =
    inr (mkblock_answer (0, "g") (18446744073709551615, "") 0 []).
Proof.
  exact (tool_block_lookup 0
    (mkRosettaState [mkBlock 0 "" "" "" 0 [] 0 "g" ""] [] "" 0) ltac:(split; vm_compute; congruence)).
Defined.

Lemma manifest_discloses_key_witness :
  ∃ files f, onboard_main (mkonboardFlags "v1" "KE" "" "" 5 "tdr-testnet" "pos" "out" 3030 8080
      9090 "") id "127.0.0.1" 1 0 = Ok files ∧ f ∈ files ∧ ar_perm f = world_readable ∧
    EncodeToString (GenerateKey 1).2 ∈ disclosed (ar_content f).
Proof. apply manifest_discloses_key; discriminate. Defined.
