(* ===== verification/Replication.v ===== *)
(** * Several nodes (go-chain/main.go)

    Nodes of the program [main] together: one that mines and broadcasts, and one
    that receives its messages.  [round] composes [MineBlockFor], [broadcastBlock]
    and [processMessage] of [NodeChain] and [NodeP2P] as the mine endpoint, the
    socket and the read loop do; a message arrives as it was sent. *)

From S2P Require Import Prelude Runtime Float64 Text Sha256 Domain Json Merkle Tendermint State Accounts Validation Mempool Mining Limits P2P Node NodeChain NodeLedger NodeMining NodeP2P NodeApi NodeSafety NodeDemo Clients.
Open Scope Z_scope.
Open Scope go_scope.

Implicit Types (p leader follower : P2PNode) (msg : p2pMessage) (bc : Blockchain) (block : Block).

Section replication.
Context `{Runtime} `{Ed25519} `{Network}.

(** ** Agreement *)

(** Balance, stake and kind: what a node takes over from another. *)
Definition holdings (a : Account) : Z * Z * bool := (acc_Balance a, acc_Staked a, acc_IsAgent a).

(** The books of [b] hold everything the books of [a] do. *)
Definition books_agree (a b : Blockchain) : Prop :=
  (∀ k acct, nd_Ledger a !! k = Some acct → ∃ acct', nd_Ledger b !! k = Some acct' ∧ holdings acct' = holdings acct) ∧
  (nd_Authorities a ≠ [] → nd_Authorities b = nd_Authorities a) ∧
  (0 < nd_TokenSupply a → nd_TokenSupply b = nd_TokenSupply a).

Definition in_step leader follower : Prop :=
  chain_ok (p2_chain leader) ∧ nd_Chain (p2_chain follower) = nd_Chain (p2_chain leader).

(** ** Rounds *)

(** The leader mines a block and broadcasts it; the follower, which has not seen the
    identifier of the message, handles it.  No chain reaches 2^63 blocks. *)
Inductive round : P2PNode * P2PNode → P2PNode * P2PNode → Prop :=
| round_intro fuel miner block bc msg sent push remote conn leader follower leader' :
    MineBlockFor fuel (p2_chain leader) miner = Some (Ok block, bc) →
    blen (nd_Chain bc) < 2 ^ 63 →
    broadcastBlock block (leader <| p2_chain := bc |>) = (msg, sent, push, leader') →
    p2_seenMsgIDs follower !! pm_StreamID msg = None →
    round (leader, follower) (leader', (processMessage msg remote conn follower).2).

(** Besides, both nodes may do anything that leaves their chains alone: requests,
    transactions of clients and of each other, greetings. *)
Inductive pair_step : P2PNode * P2PNode → P2PNode * P2PNode → Prop :=
| pair_round s s' : round s s' → pair_step s s'
| pair_leader leader leader' follower :
    nd_Chain (p2_chain leader') = nd_Chain (p2_chain leader) → pair_step (leader, follower) (leader', follower)
| pair_follower leader follower follower' :
    nd_Chain (p2_chain follower') = nd_Chain (p2_chain follower) →
    pair_step (leader, follower) (leader, follower').

Lemma MineBlockFor_extends fuel bc miner block bc' :
  MineBlockFor fuel bc miner = Some (Ok block, bc') → chain_ok bc →
  ∃ prev, last (nd_Chain bc) = Some prev ∧ follows prev block ∧ nd_Chain bc' = nd_Chain bc ++ [block].
Proof.
  intros E Hok. pose proof (MineBlockFor_chain_ok _ _ _ _ _ E Hok) as Hok'. revert E. unfold MineBlockFor.
  assert (∃ n, (minting_paused bc).2 = at_tick n bc) as [n0 E0].
  { unfold minting_paused, Unix. destruct (_ && _); cbn [snd];
      [eexists; by rewrite tick_at|exists (nd_ticks bc); by rewrite at_tick_self]. }
  destruct (minting_paused bc) as [[] b0]; [done|]. cbn [snd] in E0. subst b0. cbv zeta.
  replace (match nd_Chain (at_tick n0 bc) with [] => createGenesisBlock (at_tick n0 bc)
           | _ => at_tick n0 bc end) with (at_tick n0 bc)
    by (destruct Hok as [(g & rest & Eg & _) _]; cbn; by rewrite Eg).
  change (nd_Chain (at_tick n0 bc)) with (nd_Chain bc).
  destruct (last (nd_Chain bc)) as [prev|] eqn:El; [|done].
  destruct (node_assemble_spec (at_tick n0 bc) (blk_BlockHash prev) miner) as (i & n & now & author & _ & -> & _).
  destruct (seal_block _ _ _ _) as [blk|]; [|done]. cbn [mbind option_bind].
  set (b1 := select_txs _). destruct (validateBlock_frame b1.1 blk prev) as [k Ef].
  destruct (validateBlock b1.1 blk prev) as [o b2] eqn:Ev. cbn [snd] in Ef. subst b2.
  destruct o as [[]|e|e]; [|done..]. intros [= E].
  apply commit_mined_Ok in E as [-> Ec]. exists prev. split; [done|].
  assert ((validateBlock b1.1 blk prev).1 = Ok tt) as Hv by by rewrite Ev.
  apply validateBlock_accepts in Hv as (Hf & _). split; [done|]. rewrite Ec. f_equal.
  change (nd_Chain (at_tick k b1.1)) with (nd_Chain b1.1). unfold b1. by rewrite select_txs_chain.
Qed.

(** What the replicas compare; network operations and writes leave it alone. *)
Definition shared bc := (nd_Chain bc, nd_Ledger bc, nd_Authorities bc, nd_TokenSupply bc).

Lemma saveToDisk_shared bc : shared (saveToDisk bc).2 = shared bc.
Proof. unfold saveToDisk. cbv zeta. by repeat case_match. Qed.

Lemma io_frame_shared p p' : io_frame p p' → shared (p2_chain p') = shared (p2_chain p).
Proof. by intros (_ & _ & _ & n & ->). Qed.

(** A message whose identifier is new is handled, in a node that noted it. *)
Lemma new_block_handled msg block remote conn p :
  pm_Type msg = "block" → pm_Block msg = Some block → p2_seenMsgIDs p !! pm_StreamID msg = None →
  ∃ q, shared (p2_chain q) = shared (p2_chain p) ∧ (nd_ticks (p2_chain p) ≤ nd_ticks (p2_chain q))%nat ∧
    processMessage msg remote conn p = handle_block msg block remote q.
Proof.
  intros Et Eb Hnew. unfold processMessage.
  assert (∃ q, shared (p2_chain q) = shared (p2_chain p) ∧ (nd_ticks (p2_chain p) ≤ nd_ticks (p2_chain q))%nat ∧
    (if bool_decide (pm_StreamID msg = "") then (false, p) else seenMessageID (pm_StreamID msg) p) = (false, q))
    as (q & Hq & Ht & ->).
  { case_bool_decide as Hid; [by exists p|].
    unfold seenMessageID, Now, UnixNano, P2P.seenMessageID. cbn. rewrite bool_decide_false by done.
    cbn in Hnew. rewrite Hnew. destruct (_ <? _); eexists; (split_and!; [| |reflexivity]; [done|cbn; lia]). }
  exists q. split; [done|]. split; [done|]. rewrite Et, Eb. done.
Qed.

(** A block that fits, sent with the books of its sender. *)
Lemma fitting_block_taken msg block state remote p prev :
  pm_State msg = Some state → pm_Chain msg = [] →
  last (nd_Chain (p2_chain p)) = Some prev → i64 (blk_Index block) = blen (nd_Chain (p2_chain p)) →
  blk_PreviousHash block = blk_BlockHash prev →
  let bc := applyLedgerState (p2_chain p) state in
  shared (p2_chain (handle_block msg block remote p).2) = shared (bc <| nd_Chain ::= λ l, l ++ [block] |>).
Proof.
  intros Es Ec Hl Hi Hh bc. unfold handle_block. rewrite Es, Ec. cbv zeta.
  cbn [p2_chain update P2PNode_rebuild]. fold bc.
  assert (nd_Chain bc = nd_Chain (p2_chain p)) as Ech by apply applyLedgerState_chain.
  match goal with |- context [relayed msg remote ?x] => set (r := x) end.
  destruct (relayed_frame msg remote r) as [Hf _]. rewrite (io_frame_shared _ _ Hf). unfold r.
  change (shared (append_block block bc) = shared (bc <| nd_Chain ::= λ l, l ++ [block] |>)).
  unfold append_block. rewrite Ech, Hl, Hi, Z.eqb_refl, bool_decide_true by done. cbn [andb].
  apply saveToDisk_shared.
Qed.

Lemma synced_books bc bc' :
  let b := applyLedgerState bc (ledgerState bc') in books_agree bc' b.
Proof.
  destruct (state_message_decides bc (ledgerState bc')) as (Hl & Ha & Hs & _). cbv zeta.
  split_and!; [|exact Ha|exact Hs].
  intros k acct Hk. rewrite Hl. cbn [ls_Ledger ledgerState]. rewrite lookup_fmap, Hk. cbn.
  by eexists.
Qed.

Lemma books_agree_same a a' b b' :
  (shared a').1.1.2 = (shared a).1.1.2 → (shared a').1.2 = (shared a).1.2 → (shared a').2 = (shared a).2 →
  (shared b').1.1.2 = (shared b).1.1.2 → (shared b').1.2 = (shared b).1.2 → (shared b').2 = (shared b).2 →
  books_agree a b → books_agree a' b'.
Proof. unfold books_agree. cbn. by intros -> -> -> -> -> ->. Qed.

(** A round keeps the nodes in step and leaves their books in agreement. *)
Lemma round_agrees leader follower leader' follower' :
  round (leader, follower) (leader', follower') → in_step leader follower →
  in_step leader' follower' ∧ books_agree (p2_chain leader') (p2_chain follower').
Proof.
  intros Hr [Hok Heq].
  inversion Hr as [fuel miner block bc msg sent push remote conn ? ? ? Em Hb Ebr Hnew]; subst.
  destruct (MineBlockFor_extends _ _ _ _ _ Em Hok) as (prev & Hl & [Hi Hh] & Ec).
  pose proof (MineBlockFor_chain_ok _ _ _ _ _ Em Hok) as Hok'.
  assert (shared (p2_chain leader') = shared bc) as Hlead.
  { pose proof (broadcastMessage_frame (mkp2pMessage "block" "" "" "" (Some block) [] None None
      (Some (ledgerState bc)) "") (leader <| p2_chain := bc |>)) as Hf.
    change (broadcastMessage _ _) with (broadcastBlock block (leader <| p2_chain := bc |>)) in Hf.
    rewrite Ebr in Hf. by apply io_frame_shared in Hf. }
  assert (pm_Type msg = "block" ∧ pm_Block msg = Some block ∧ pm_Chain msg = [] ∧
    pm_State msg = Some (ledgerState bc)) as (Et & Eb & Ech & Est).
  { unfold broadcastBlock, broadcastMessage in Ebr. destruct (Now _) as [now q].
    destruct (foldl _ _ _) as [q' l]. by injection Ebr as <- _ _ _. }
  destruct (new_block_handled msg block remote conn follower Et Eb Hnew) as (q & Hq & _ & ->).
  assert (nd_Chain (p2_chain q) = nd_Chain (p2_chain leader)) as Hqc by (unfold shared in Hq; congruence).
  assert (i64 (blk_Index block) = blen (nd_Chain (p2_chain leader))) as Hidx.
  { pose proof (chain_ok_last _ _ Hok' (MineBlockFor_tail _ _ _ _ _ Em)) as E.
    rewrite Ec, blen_app in E. change (blen [block]) with 1 in E. rewrite Z.add_simpl_r in E.
    rewrite Ec, blen_app in Hb. change (blen [block]) with 1 in Hb.
    pose proof (blen_nonneg (nd_Chain (p2_chain leader))).
    rewrite E. apply i64_u64. unfold is_i64. lia. }
  pose proof (fitting_block_taken msg block (ledgerState bc) remote q prev Est Ech) as Htake.
  rewrite Hqc in Htake. specialize (Htake Hl Hidx Hh). cbv zeta in Htake. split.
  - split.
    + eapply (chain_ok_same bc); [|done]. unfold shared in Hlead. congruence.
    + assert (nd_Chain (p2_chain leader') = nd_Chain bc) as -> by (unfold shared in Hlead; congruence).
      apply (f_equal (λ x, x.1.1.1)) in Htake. cbn [fst snd shared] in Htake.
      change (nd_Chain (p2_chain (handle_block msg block remote q).2) =
              nd_Chain (applyLedgerState (p2_chain q) (ledgerState bc)) ++ [block]) in Htake.
      by rewrite Htake, Ec, applyLedgerState_chain, Hqc.
  - apply (books_agree_same bc _ (applyLedgerState (p2_chain q) (ledgerState bc)));
      [by rewrite ?Hlead, ?Htake..|apply synced_books].
Qed.

(** C24. Two nodes start with one linked chain. The leader mines and broadcasts a block
    and the follower, which has not seen the message, handles it; in between both may
    do anything that leaves their chains alone, and no chain reaches 2^63 blocks. After
    every such round the follower has the chain of the leader, block for block, and
    every account of the leader with its balance and stake. *)
Theorem mined_blocks_replicate leader follower s1 leader' follower' :
  in_step leader follower → rtc pair_step (leader, follower) s1 → round s1 (leader', follower') →
  nd_Chain (p2_chain follower') = nd_Chain (p2_chain leader') ∧
  books_agree (p2_chain leader') (p2_chain follower').
Proof.
  intros Hin Hs Hr.
  assert (in_step s1.1 s1.2) as Hmid.
  { apply (@rtc_ind_r _ pair_step (λ s, in_step s.1 s.2) (leader, follower)); [done| |done].
    intros y z _ Hstep Hy. destruct Hstep as [[l f] [l' f'] Hround|l l' f E|l f f' E]; cbn [fst snd] in *.
    - by apply (round_agrees l f l' f').
    - destruct Hy as [Hok Heq]. split; [by eapply chain_ok_same|congruence].
    - destruct Hy as [Hok Heq]. split; [done|congruence]. }
  destruct s1 as [l f]. destruct (round_agrees l f leader' follower' Hr Hmid) as [[_ Heq] Hb]. done.
Qed.

(** ** A newcomer *)

(** Every transaction was recent when it was read, at or after the tick of [bc]. *)
Definition read_fresh bc (tx : Transaction) : Prop :=
  ∃ k, (nd_ticks bc ≤ k)%nat ∧ stale (tx_Timestamp tx) (clock k) = false.

Lemma validate_txs_fresh txs : ∀ bc seen,
  (nd_ticks bc ≤ nd_ticks (validate_txs bc seen txs).2)%nat ∧
  ((validate_txs bc seen txs).1 = Ok tt → Forall (read_fresh bc) txs).
Proof.
  induction txs as [|tx txs IH]; intros bc seen; cbn [validate_txs]; [by split|].
  case_bool_decide; [done|]. case_bool_decide; [done|].
  destruct (validateTransaction_frame bc tx) as (n & En & Hn).
  destruct (validateTransaction bc tx) as [valid b] eqn:Ev. cbn [snd] in En. subst b.
  destruct valid; cbn [negb]; [|by split; [cbn; lia|]].
  destruct (IH (at_tick n bc) ({[tx_ID tx]} ∪ seen)) as [Ht Hf]. cbn in Ht. split; [lia|].
  intros Hok. constructor.
  - exists (nd_ticks bc). split; [done|]. apply (validateTransaction_true bc tx). by rewrite Ev.
  - eapply Forall_impl; [by apply Hf|]. intros t (k & Hk & Hs). exists k. cbn in Hk. split; [lia|done].
Qed.

Lemma validate_links_fresh chain : ∀ bc prev,
  (validate_links bc prev chain).1 = Ok tt →
  Forall (λ b, Forall (read_fresh bc) (blk_Transactions b)) chain.
Proof.
  induction chain as [|b chain IH]; intros bc prev; cbn [validate_links]; [constructor|].
  destruct (validateBlock bc b prev) as [o bc2] eqn:Ev. intros Hok.
  assert (o = Ok tt) as -> by (by destruct o as [[]|?|?]).
  assert ((validateBlock bc b prev).1 = Ok tt) as Hv by by rewrite Ev.
  apply validateBlock_accepts in Hv as (_ & _ & Htx).
  destruct (validate_txs_fresh (blk_Transactions b) bc ∅) as [Ht Hf].
  assert ((nd_ticks bc ≤ nd_ticks bc2)%nat) as Hle.
  { unfold validateBlock in Ev. destruct (negb _); [discriminate Ev|].
    destruct (negb _); [discriminate Ev|]. destruct (bool_decide _); [discriminate Ev|].
    destruct (negb _); [discriminate Ev|]. by rewrite Ev in Ht. }
  constructor; [by apply Hf|]. eapply Forall_impl; [by apply IH in Hok|]. intros b' Hb'. cbn in Hb'.
  eapply Forall_impl; [exact Hb'|]. intros t (k & Hk & Hs). exists k. split; [lia|done].
Qed.

(** A chain with a transaction that has become stale is not taken over. *)
Lemma stale_chain_refused bc genesis rest b tx :
  b ∈ rest → tx ∈ blk_Transactions b →
  (∀ k, (nd_ticks bc ≤ k)%nat → stale (tx_Timestamp tx) (clock k) = true) →
  (replaceChain bc (genesis :: rest)).1 = false ∧ shared (replaceChain bc (genesis :: rest)).2 = shared bc.
Proof.
  intros Hb Htx Hst. unfold replaceChain, validateChain.
  destruct (negb _); [done|]. destruct (validate_links_frame rest bc genesis) as [n En].
  destruct (validate_links bc genesis rest) as [o bc2] eqn:Ev. cbn [snd] in En. subst bc2.
  destruct o as [[]|e|e]; [|done..]. exfalso.
  assert ((validate_links bc genesis rest).1 = Ok tt) as Hok by by rewrite Ev.
  apply validate_links_fresh in Hok. rewrite Forall_forall in Hok. specialize (Hok b Hb).
  rewrite Forall_forall in Hok. destruct (Hok tx Htx) as (k & Hk & Hs). by rewrite (Hst k Hk) in Hs.
Qed.

Lemma appendAuditEntry_ticks bc event actor details :
  (nd_ticks bc ≤ nd_ticks (appendAuditEntry bc event actor details))%nat.
Proof. unfold appendAuditEntry, Unix. repeat case_match; cbn; lia. Qed.

Lemma applyLedgerState_ticks bc state : (nd_ticks bc ≤ nd_ticks (applyLedgerState bc state))%nat.
Proof.
  unfold applyLedgerState. cbv zeta.
  assert (nd_ticks bc ≤ nd_ticks (foldl sync_account (tick bc) (range_map (nd_ticks bc) (ls_Ledger state))))%nat
    as Hf.
  { apply (foldl_inv (λ b, (nd_ticks bc ≤ nd_ticks b)%nat)); [|cbn; lia].
    intros b' [addr acct] _ Hb. unfold sync_account. destruct acct as [a|]; [|done].
    destruct (nd_Ledger b' !! addr); [done|].
    etrans; [exact Hb|]. change (nd_ticks b') with (nd_ticks (b' <| nd_Ledger ::= <[addr:=a]> |>)) at 1.
    apply appendAuditEntry_ticks. }
  etrans; [exact Hf|]. etrans; [|apply appendAuditEntry_ticks].
  by destruct (ls_Authorities state), (0 <? ls_TokenSupply state).
Qed.

(** A block message with a chain that is refused and a block that does not fit. *)
Lemma refused_chain_keeps msg block state remote p genesis rest b tx :
  pm_State msg = Some state → pm_Chain msg = genesis :: rest → b ∈ rest → tx ∈ blk_Transactions b →
  (∀ k, (nd_ticks (p2_chain p) ≤ k)%nat → stale (tx_Timestamp tx) (clock k) = true) →
  i64 (blk_Index block) ≠ blen (nd_Chain (p2_chain p)) →
  shared (p2_chain (handle_block msg block remote p).2) = shared (applyLedgerState (p2_chain p) state).
Proof.
  intros Es Ec Hb Htx Hst Hi. unfold handle_block. rewrite Es, Ec. cbv zeta.
  set (bc := applyLedgerState (p2_chain p) state).
  change (p2_chain (p <| p2_chain ::= λ bc0, applyLedgerState bc0 state |>)) with bc.
  pose proof (applyLedgerState_ticks (p2_chain p) state) as Ht. fold bc in Ht.
  destruct (stale_chain_refused bc genesis rest b tx Hb Htx) as [E1 E2]; [intros k Hk; apply Hst; lia|].
  destruct (replaceChain bc (genesis :: rest)) as [replaced bc']. cbn [fst snd] in E1, E2. subst replaced.
  match goal with |- context [relayed msg remote ?x] => set (r := x) end.
  destruct (relayed_frame msg remote r) as [Hf _]. rewrite (io_frame_shared _ _ Hf). unfold r. clear r Hf.
  change (shared (append_block block bc') = shared bc). unfold append_block.
  assert (nd_Chain bc' = nd_Chain (p2_chain p)) as Ech
    by (rewrite <- (applyLedgerState_chain (p2_chain p) state); exact (f_equal (λ x, x.1.1.1) E2)).
  rewrite Ech. apply Z.eqb_neq in Hi. rewrite Hi. cbn [andb]. destruct (last _); exact E2.
Qed.

(** C25. The message a greeting is answered with ([sync_message]) carries the chain and
    the books of a node with a linked chain of less than 2^63 blocks. A newcomer that
    is more than one block behind, has not seen the message, and for which one
    transaction in that chain is stale at every later reading of its clock, takes the
    books over and none of the blocks. *)
Theorem newcomer_takes_books_only node newcomer msg node' genesis rest b tx remote conn :
  sync_message node = ([msg], node') → chain_ok (p2_chain node) →
  nd_Chain (p2_chain node) = genesis :: rest → b ∈ rest → tx ∈ blk_Transactions b →
  (∀ k, (nd_ticks (p2_chain newcomer) ≤ k)%nat → stale (tx_Timestamp tx) (clock k) = true) →
  blen (nd_Chain (p2_chain newcomer)) + 1 < blen (nd_Chain (p2_chain node)) < 2 ^ 63 →
  p2_seenMsgIDs newcomer !! pm_StreamID msg = None →
  let newcomer' := (processMessage msg remote conn newcomer).2 in
  nd_Chain (p2_chain newcomer') = nd_Chain (p2_chain newcomer) ∧
  books_agree (p2_chain node) (p2_chain newcomer').
Proof.
  intros Hm Hok Ec Hb Htx Hst Hlen Hnew. cbv zeta. unfold sync_message in Hm.
  destruct (last (nd_Chain (p2_chain node))) as [tail|] eqn:El; [|done].
  destruct (Now node) as [now q] eqn:En. injection Hm as <- _.
  assert (shared (p2_chain q) = shared (p2_chain node)) as Hq.
  { pose proof (Now_frame node) as Hf. rewrite En in Hf. by apply io_frame_shared in Hf. }
  match goal with |- context [processMessage ?m] => set (msg := m) in * end.
  destruct (new_block_handled msg tail remote conn newcomer eq_refl eq_refl Hnew) as (p & Hp & Ht & ->).
  assert (nd_Chain (p2_chain q) = genesis :: rest) as Eq by (unfold shared in Hq; congruence).
  pose proof (refused_chain_keeps msg tail (ledgerState (p2_chain q)) remote p genesis rest b tx
    eq_refl Eq Hb Htx) as Hkeep. unshelve (epose proof (Hkeep _ _) as Hs); clear Hkeep.
  - intros k Hk. apply Hst. lia.
  - rewrite (chain_ok_last _ _ Hok El). rewrite i64_u64 by (unfold is_i64; pose proof
      (blen_nonneg (nd_Chain (p2_chain newcomer))); lia).
    assert (nd_Chain (p2_chain p) = nd_Chain (p2_chain newcomer)) as -> by (unfold shared in Hp; congruence). lia.
  - split.
    + apply (f_equal (λ x, x.1.1.1)) in Hs, Hp. cbn [fst snd shared] in Hs, Hp.
      rewrite applyLedgerState_chain in Hs. congruence.
    + apply (books_agree_same (p2_chain q) _ (applyLedgerState (p2_chain p) (ledgerState (p2_chain q))));
        [by rewrite ?Hq, ?Hs..|apply synced_books].
Qed.
End replication.

(** ** Concrete runs *)

#[local] Existing Instance demo_runtime.
#[local] Existing Instance demo_ed25519.
#[local] Existing Instance NodeDemo.demo_net.

Definition demo_leader : P2PNode := start_peer <| p2_chain := node_chain |>.

Definition mined_ok {A B} (o : option (outcome A * B)) : bool :=
  match o with Some (Ok _, _) => true | _ => false end.

Lemma demo_leader_mines : mined_ok (MineBlockFor 0 node_chain "carol") = true.
Proof. vm_compute. reflexivity. Qed.

Lemma demo_in_step : in_step demo_leader demo_leader.
Proof. split; [|done]. exact node_server_ok. Qed.

Lemma demo_leader_new id : p2_seenMsgIDs demo_leader !! id = None.
Proof. assert (p2_seenMsgIDs demo_leader = ∅) as -> by (vm_compute; reflexivity). apply lookup_empty. Qed.

Lemma demo_round : ∃ leader' follower', round (demo_leader, demo_leader) (leader', follower').
Proof.
  pose proof demo_leader_mines as Hm.
  destruct (MineBlockFor 0 node_chain "carol") as [[[block|e|e] bc]|] eqn:E; [|done..].
  destruct (MineBlockFor_extends _ _ _ _ _ E (proj1 demo_in_step)) as (prev & _ & _ & Ec).
  destruct (broadcastBlock block (demo_leader <| p2_chain := bc |>)) as [[[msg sent] push] leader'] eqn:Eb.
  exists leader'. eexists. eapply (round_intro 0 "carol" block bc msg sent push "peer" true demo_leader);
    [exact E| |exact Eb|].
  - rewrite Ec. vm_compute. reflexivity.
  - apply demo_leader_new.
Qed.

Lemma mined_blocks_replicate_witness :
  ∃ leader' follower', round (demo_leader, demo_leader) (leader', follower') ∧
    nd_Chain (p2_chain follower') = nd_Chain (p2_chain leader') ∧
    books_agree (p2_chain leader') (p2_chain follower').
Proof.
  destruct demo_round as (leader' & follower' & Hr). exists leader', follower'. split; [exact Hr|].
  apply (mined_blocks_replicate demo_leader demo_leader (demo_leader, demo_leader) leader' follower');
    [exact demo_in_step|apply rtc_refl|exact Hr].
Defined.

(** A node with an old transfer in its chain, and one that has just started. *)
Definition old_tx : Transaction := node_tx <| tx_Timestamp := 1 |>.
Definition old_chain : list Block :=
  [mkBlock 0 "" "" "" 0 [] 0 "g" ""; mkBlock 1 "a" "a" "g" 2 [old_tx] 0 "h" ""; mkBlock 2 "a" "a" "h" 3 [] 0 "i" ""].
Definition old_node : P2PNode := start_peer <| p2_chain := node_chain <| nd_Chain := old_chain |> |>.

Lemma old_node_linked : chain_ok (p2_chain old_node).
Proof.
  split; [by eexists _, _|]. apply node_linked_cons. split; [by split|].
  apply node_linked_cons. split; [by split|]. apply linked_singleton.
Qed.

Lemma old_node_syncs : ∃ msg node', sync_message old_node = ([msg], node').
Proof. unfold sync_message. destruct (Now old_node) as [now q]. by eexists _, _. Qed.

Lemma old_tx_stale k : stale (tx_Timestamp old_tx) (clock k) = true.
Proof.
  unfold stale. cbn [clock demo_runtime]. apply Z.ltb_lt. change (tx_Timestamp old_tx) with 1.
  replace (i64 (1 + 62135596800)) with 62135596801 by reflexivity. lia.
Qed.

Lemma newcomer_shorter :
  blen (nd_Chain (p2_chain demo_leader)) + 1 < blen (nd_Chain (p2_chain old_node)) < 2 ^ 63.
Proof. vm_compute. split; reflexivity. Qed.

Lemma newcomer_takes_books_only_witness :
  ∃ msg node', sync_message old_node = ([msg], node') ∧
    nd_Chain (p2_chain (processMessage msg "peer" true demo_leader).2) = nd_Chain (p2_chain demo_leader) ∧
    books_agree (p2_chain old_node) (p2_chain (processMessage msg "peer" true demo_leader).2).
Proof.
  destruct old_node_syncs as (msg & node' & Hm). exists msg, node'. split; [exact Hm|].
  apply (newcomer_takes_books_only old_node demo_leader msg node' (mkBlock 0 "" "" "" 0 [] 0 "g" "")
    [mkBlock 1 "a" "a" "g" 2 [old_tx] 0 "h" ""; mkBlock 2 "a" "a" "h" 3 [] 0 "i" ""]
    (mkBlock 1 "a" "a" "g" 2 [old_tx] 0 "h" "") old_tx "peer" true Hm old_node_linked).
  - reflexivity.
  - apply list_elem_of_here.
  - apply list_elem_of_here.
  - intros k _. apply old_tx_stale.
  - exact newcomer_shorter.
  - apply demo_leader_new.
Defined.
