(* ===== verification/Wiring.v ===== *)
(** * Where the parts meet (go-chain/main.go, go-chain/blockchain/blockchain.go)

    Two places where one part of the system hands its data to another: the node
    program starts a libp2p host with the validators of its chain, and package
    [blockchain] tells the bridge relayer of every block it mines.  Each is modelled
    with the code on both sides. *)

From S2P Require Import Prelude Runtime Text Sha256 Domain Json Tendermint State Accounts Validation Mempool Mining LibP2P Node NodeDemo Bridge.
Open Scope Z_scope.
Open Scope go_scope.

(** ** The libp2p host of the node program *)

Section embedded.
Context `{Runtime} `{Ed25519} `{LibP2PJson}.

(** The branch of [main] for the backend ["libp2p"]; [k] is the key it generates,
    [ord] the order in which it ranges over the validators. *)
Definition embedded_host (k ord : nat) (addr : string) (strictP2P : bool) (chain : Node.Blockchain)
    : LibP2PNode :=
  ValidatorSet (NewLibP2PNode k addr strictP2P) (map fst (range_map ord (nd_Validators chain))).

(** The peers that connect, one after the other, and what each session was. *)
Definition incoming (n : LibP2PNode) (peers : list ((nat → bool) * Z * list (list byte)))
    : list (option (string * reader)) * LibP2PNode :=
  foldl (λ acc peer, let '(w, now, src) := peer in
           let '(_, session, n) := handleIncoming acc.2 w now src in (acc.1 ++ [session], n))
        ([], n) peers.

Lemma embedded_validators k ord addr strict chain id :
  id ∈ ln_validatorSet (embedded_host k ord addr strict chain) ↔ is_Some (nd_Validators chain !! id).
Proof.
  unfold embedded_host, ValidatorSet, NewLibP2PNode. destruct (GenerateKey k) as [pub priv].
  cbn. rewrite elem_of_union, elem_of_list_to_set, list_elem_of_fmap. split.
  - intros [Hin|[[a v] [-> Hin]]]; [set_solver|]. rewrite range_map_Permutation in Hin.
    apply elem_of_map_to_list in Hin. by exists v.
  - intros [v Hv]. right. exists (id, v). split; [done|]. rewrite range_map_Permutation.
    by apply elem_of_map_to_list.
Qed.

Lemma stranger_refused n w now src :
  ln_strictMode n = true → (∀ pub, lib_peer_id pub ∉ ln_validatorSet n) →
  (handleIncoming n w now src).1.2 = None ∧ (handleIncoming n w now src).2 = n.
Proof.
  intros Hs Hv. unfold handleIncoming.
  destruct (noiseHandshakeInbound n w src) as [[[pub|] out] src']; [|done]. cbv zeta.
  unfold may_join. rewrite Hs. rewrite bool_decide_false by apply Hv.
  by destruct (ln_peers n !! _).
Qed.

(** The validator set of the embedded host holds addresses, and peers are looked up
    by an identifier that starts with ["libp2p:"].  A strict host therefore accepts
    no connection at all, as long as no validator has an address of that form;
    since nothing in the program calls [Connect], it never has a session. *)
Theorem embedded_host_alone k ord addr chain peers :
  (∀ a v, nd_Validators chain !! a = Some v → String.prefix "libp2p:" a = false) →
  let n := embedded_host k ord addr true chain in
  incoming n peers = (map (λ _, None) peers, n).
Proof.
  intros Hv n.
  assert (ln_strictMode n = true) as Hs.
  { unfold n, embedded_host, ValidatorSet, NewLibP2PNode. by destruct (GenerateKey k). }
  assert (∀ pub, lib_peer_id pub ∉ ln_validatorSet n) as Hid.
  { intros pub Hin. apply embedded_validators in Hin as [v Hval]. apply Hv in Hval. done. }
  clearbody n. induction peers as [|[[w now] src] peers IH] using rev_ind; [done|].
  unfold incoming in *. rewrite foldl_app, IH, map_app. cbn [foldl fst snd].
  destruct (stranger_refused n w now src Hs Hid) as [E1 E2].
  destruct (handleIncoming n w now src) as [[out session] n']. cbn in E1, E2. by subst.
Qed.
End embedded.

(** ** The notification of the bridge relayer *)

Section notify.
Context {N : Type} `{MintNode N} `{Ed25519}.

(** The status code of an answer of the relayer: the handlers set none but for
    errors. *)
Definition reply_code (r : Bridge.reply) : Z :=
  match r with Refused code _ => code | _ => 200 end.

(** What the node sends; the relayer ignores the two fields it does not know. *)
Definition notification (block : Block) : lockRequest :=
  mklockRequest (blk_BlockHash block) (blk_Author block) 0 (blk_Author block).

(** [NotifyBridgeRelayer]; [post] is the answer of the relayer, [None] when the
    request fails. *)
Definition NotifyBridgeRelayer (block : option Block) (post : lockRequest → option Z) : outcome unit :=
  match block with
  | None => Ok tt
  | Some block =>
      match post (notification block) with
      | None => Err "request failed"
      | Some code =>
          if negb (code =? 200) && negb (code =? 201) then Err ("bridge relayer returned " +:+ FormatInt code)
          else Ok tt
      end
  end.

(** A block is reported with the amount 0, which the relayer refuses as missing: no
    notification is ever recorded, and the error is discarded where the block was
    mined. *)
Theorem notification_refused (block : Block) (r : relayer N) :
  let '(answer, r') := handleLock "POST" (Ok (notification block)) r in
  NotifyBridgeRelayer (Some block) (λ _, Some (reply_code answer)) = Err "bridge relayer returned 400" ∧ r' = r.
Proof.
  unfold handleLock, notification. cbn [lr_TxHash lr_From lr_Amount lr_Recipient Z.eqb].
  rewrite bool_decide_true by done. cbn [negb]. rewrite !orb_true_r. done.
Qed.
End notify.

(** ** Concrete runs *)

#[local] Existing Instance demo_runtime.
#[local] Existing Instance demo_ed25519.
#[local] Existing Instance demo_lib_json.

Definition validated_chain_state : Node.Blockchain :=
  node_chain <| nd_Validators := {["alice" := mkValidator "" "alice" 1000 true 0 100 0 0 0]} |>.

Lemma embedded_host_alone_witness :
  (incoming (embedded_host 1 0 "0.0.0.0:3030" true validated_chain_state)
     [(λ _, true, 5, [replicate 64 Byte.x00; replicate 32 Byte.x01])]).1 = [None].
Proof.
  rewrite (embedded_host_alone 1 0 "0.0.0.0:3030" validated_chain_state
             [(λ _, true, 5, [replicate 64 Byte.x00; replicate 32 Byte.x01])]); [reflexivity|].
  intros a v Ha. change (nd_Validators validated_chain_state) with
    ({["alice" := mkValidator "" "alice" 1000 true 0 100 0 0 0]} : gmap string Validator) in Ha.
  apply lookup_singleton_Some in Ha as [<- _]. reflexivity.
Defined.
