(* ===== verification/GossipHost.v ===== *)
(** * The gossip host (node/p2p/host.go)

    A host over the libp2p library, in a Go module of its own: its construction with
    the cleanup of every failure, publishing to three topics, and peer scores.

    The library is a class that says which of its calls succeed.  What the program
    asks of it is kept in [resources]: whether the context was cancelled, how often
    the library's host was opened and closed, the topics joined, and what was
    published; closing is a request, whose result the source drops on error paths. *)

From S2P Require Import Prelude Runtime.
Open Scope Z_scope.
Open Scope go_scope.

Definition BlocksTopic : string := "/chain/blocks/1.0.0".
Definition TxsTopic : string := "/chain/txs/1.0.0".
Definition AgentTopic : string := "/chain/agent/1.0.0".

(** The answers of the library: [None] is success. *)
Class Library := {
  new_host : string → option string;
  new_dht : option string;
  new_gossip : option string;
  join : string → option string;
  start_mdns : option string;
  bootstrap : option string;
  publish : string → list byte → bool → option string;
  close_host : option string;
}.

Record resources := mkresources {
  rs_cancelled : bool; rs_opened : nat; rs_closed : nat; rs_joined : list string;
  rs_published : list (string * list byte) }.

#[export] Instance resources_rebuild : Rebuild resources := λ r,
  mkresources (rs_cancelled r) (rs_opened r) (rs_closed r) (rs_joined r) (rs_published r).

Definition fresh_context : resources := mkresources false 0 0 [] [].

(** The topics are kept by name. *)
Record Host := mkHost {
  ho_blocksTopic : string; ho_txsTopic : string; ho_agentTopic : string; ho_peerScores : gmap string Z }.

#[export] Instance Host_rebuild : Rebuild Host := λ r,
  mkHost (ho_blocksTopic r) (ho_txsTopic r) (ho_agentTopic r) (ho_peerScores r).

Section host.
Context `{Library}.

Definition cancel (r : resources) : resources := r <| rs_cancelled := true |>.
Definition close (r : resources) : resources := r <| rs_closed ::= S |>.

(** A call that may fail after the library's host exists: on failure the context is
    cancelled and the host closed. *)
Definition guarded {A} (call : option string) (msg : string) (r : resources)
    (go_on : resources → outcome A * resources) : outcome A * resources :=
  match call with
  | Some e => (Err (msg +:+ ": " +:+ e), close (cancel r))
  | None => go_on r
  end.

Definition joined (topic : string) (r : resources) : resources := r <| rs_joined ::= λ l, l ++ [topic] |>.

Definition NewHost (listenAddr : string) : outcome Host * resources :=
  let r := fresh_context in
  match new_host listenAddr with
  | Some e => (Err ("create libp2p host: " +:+ e), cancel r)
  | None =>
      let r := r <| rs_opened ::= S |> in
      guarded new_dht "create dht" r (λ r,
      guarded new_gossip "create pubsub" r (λ r,
      guarded (join BlocksTopic) "join blocks topic" r (λ r,
      let r := joined BlocksTopic r in
      guarded (join TxsTopic) "join txs topic" r (λ r,
      let r := joined TxsTopic r in
      guarded (join AgentTopic) "join agent topic" r (λ r,
      let r := joined AgentTopic r in
      let host := mkHost BlocksTopic TxsTopic AgentTopic ∅ in
      guarded start_mdns "start discovery" r (λ r, (Ok host, r)))))))
  end.

Definition Start (h : Host) : outcome unit :=
  match bootstrap with Some e => Err ("bootstrap dht: " +:+ e) | None => Ok tt end.

(** The call under the context of the host. *)
Definition publish_to (topic : string) (payload : list byte) (r : resources) : outcome unit * resources :=
  match publish topic payload (rs_cancelled r) with
  | Some e => (Err e, r)
  | None => (Ok tt, r <| rs_published ::= λ l, l ++ [(topic, payload)] |>)
  end.

Definition PublishBlock (h : Host) := publish_to (ho_blocksTopic h).
Definition PublishTransaction (h : Host) := publish_to (ho_txsTopic h).
Definition PublishAgentMessage (h : Host) := publish_to (ho_agentTopic h).

Definition ScorePeer (peerID : string) (delta : Z) (h : Host) : Host :=
  h <| ho_peerScores ::= λ m, <[peerID := i64 (default 0 (m !! peerID) + delta)]> m |>.

Definition PeerScoreFor (peerID : string) (h : Host) : Z := default 0 (ho_peerScores h !! peerID).

Definition Close (r : resources) : outcome unit * resources :=
  (match close_host with Some e => Err e | None => Ok tt end, close (cancel r)).

(** ** Construction and release *)

(** Nothing is left running: the context is cancelled, and what was opened was
    closed, once. *)
Definition released (r : resources) : Prop := rs_cancelled r = true ∧ rs_closed r = rs_opened r.

Definition ready (h : Host) (r : resources) : Prop :=
  rs_cancelled r = false ∧ rs_opened r = 1%nat ∧ rs_closed r = 0%nat ∧
  rs_joined r = [ho_blocksTopic h; ho_txsTopic h; ho_agentTopic h] ∧ NoDup (rs_joined r) ∧
  ∀ id, PeerScoreFor id h = 0.

Definition settled (x : outcome Host * resources) : Prop :=
  match x with (Ok h, r) => ready h r | (Err _, r) => released r | (Panic _, _) => False end.

Lemma guarded_settled call msg r k :
  rs_opened r = 1%nat → rs_closed r = 0%nat → settled (k r) → settled (guarded call msg r k).
Proof. intros Ho Hc Hk. destruct call; [|done]. split; [done|]. cbn. by rewrite Ho, Hc. Qed.

Lemma NewHost_settled listenAddr : settled (NewHost listenAddr).
Proof.
  unfold NewHost. destruct (new_host listenAddr); [done|]. cbv zeta.
  repeat (apply guarded_settled; [done|done|]).
  split_and!; try done. apply (bool_decide_unpack _). vm_compute. exact I.
Qed.

(** C36. Whichever calls of the library fail, [NewHost] returns a host that is open, with
    its three topics joined, or an error with everything released. *)
Theorem construction_releases listenAddr : settled (NewHost listenAddr).
Proof. apply NewHost_settled. Qed.

(** A host that is closed once is released. *)
Theorem host_lifecycle listenAddr h r :
  NewHost listenAddr = (Ok h, r) → released (Close r).2.
Proof.
  intros E. pose proof (NewHost_settled listenAddr) as Hs. rewrite E in Hs.
  destruct Hs as (_ & Ho & Hc & _). split; [done|]. cbn. by rewrite Ho, Hc.
Qed.

(** ** Scores *)

Definition run_scores (ops : list (string * Z)) (h : Host) : Host :=
  foldl (λ h op, ScorePeer op.1 op.2 h) h ops.

(** The sum of the changes made to a peer. *)
Definition changes (id : string) (ops : list (string * Z)) : Z :=
  foldr (λ op n, if bool_decide (op.1 = id) then op.2 + n else n) 0 ops.

Lemma i64_add_l x y : i64 (i64 x + y) = i64 (x + y).
Proof.
  unfold i64. generalize (2 ^ 63) as h. intros h.
  replace ((x + h) mod max_u64 - h + y + h) with ((x + h) mod max_u64 + y) by ring.
  rewrite Zplus_mod_idemp_l. do 2 f_equal. ring.
Qed.

Lemma run_scores_for ops : ∀ h id,
  is_i64 (PeerScoreFor id h) →
  PeerScoreFor id (run_scores ops h) = i64 (PeerScoreFor id h + changes id ops).
Proof.
  induction ops as [|[k d] ops IH]; intros h id Hr; cbn [run_scores foldl changes foldr fst snd].
  { by rewrite Z.add_0_r, i64_small. }
  change (foldl _ ?x ops) with (run_scores ops x).
  assert (PeerScoreFor id (ScorePeer k d h) =
    if bool_decide (k = id) then i64 (PeerScoreFor id h + d) else PeerScoreFor id h) as E.
  { unfold PeerScoreFor, ScorePeer. cbn. case_bool_decide as Hk.
    - subst k. by rewrite lookup_insert_eq.
    - by rewrite lookup_insert_ne. }
  rewrite IH, E; [|rewrite E; case_bool_decide; [apply i64_range|done]].
  case_bool_decide; [|done]. rewrite i64_add_l. unfold changes. f_equal. lia.
Qed.

Lemma changes_Permutation id ops ops' : ops ≡ₚ ops' → changes id ops = changes id ops'.
Proof.
  unfold changes. induction 1 as [|op l l' _ IH|op op' l|l1 l2 l3 _ IH1 _ IH2]; cbn; [done|by rewrite IH| |congruence].
  repeat case_bool_decide; lia.
Qed.

(** The score of a peer is the sum of the changes made to it, modulo 2^64, in
    whatever order concurrent callers made them. *)
Theorem scores_sum listenAddr h r ops ops' id :
  NewHost listenAddr = (Ok h, r) → ops ≡ₚ ops' →
  PeerScoreFor id (run_scores ops h) = i64 (changes id ops) ∧
  PeerScoreFor id (run_scores ops' h) = PeerScoreFor id (run_scores ops h).
Proof.
  intros E Hp. pose proof (NewHost_settled listenAddr) as Hs. rewrite E in Hs.
  destruct Hs as (_ & _ & _ & _ & _ & H0'). assert (is_i64 (PeerScoreFor id h)) as Hr by by rewrite H0'.
  by rewrite !run_scores_for, H0', (changes_Permutation id _ _ Hp) by done.
Qed.

(** ** Publishing *)

Inductive publication := PubBlock (l : list byte) | PubTx (l : list byte) | PubAgent (l : list byte).

Definition run_publication (h : Host) (r : resources) (p : publication) : resources :=
  match p with
  | PubBlock l => (PublishBlock h l r).2
  | PubTx l => (PublishTransaction h l r).2
  | PubAgent l => (PublishAgentMessage h l r).2
  end.

Definition destination (p : publication) : string * list byte :=
  match p with PubBlock l => (BlocksTopic, l) | PubTx l => (TxsTopic, l) | PubAgent l => (AgentTopic, l) end.

(** While the library accepts what is published, every payload goes to the topic of
    its kind, in order. *)
Theorem published_by_kind listenAddr h r ps :
  NewHost listenAddr = (Ok h, r) → (∀ t l, publish t l false = None) →
  rs_published (foldl (run_publication h) r ps) = map destination ps.
Proof.
  intros E Hp.
  assert (rs_cancelled r = false ∧ rs_published r = [] ∧ h = mkHost BlocksTopic TxsTopic AgentTopic ∅) as (Hc & Hr & ->).
  { unfold NewHost, guarded in E. repeat case_match; try done. by injection E as <- <-. }
  clear E. assert (∀ r, rs_cancelled r = false →
    rs_published (foldl (run_publication (mkHost BlocksTopic TxsTopic AgentTopic ∅)) r ps) =
    rs_published r ++ map destination ps) as Hg; [|by rewrite Hg, Hr].
  clear r Hc Hr. induction ps as [|p ps IH]; intros r Hc; cbn [foldl map]; [by rewrite app_nil_r|].
  destruct p; cbn [run_publication]; unfold PublishBlock, PublishTransaction, PublishAgentMessage, publish_to;
    cbn [ho_blocksTopic ho_txsTopic ho_agentTopic]; rewrite Hc, Hp; rewrite IH by done; cbn; by rewrite <- app_assoc.
Qed.
End host.

(** ** Concrete runs *)

#[local] Instance demo_library : Library :=
  {| new_host := λ _, None; new_dht := None; new_gossip := None; join := λ _, None; start_mdns := None;
     bootstrap := None; publish := λ _ _ cancelled, if cancelled then Some "context canceled" else None;
     close_host := None |}.

Definition demo_host : Host := mkHost BlocksTopic TxsTopic AgentTopic ∅.
Definition demo_resources : resources := mkresources false 1 0 [BlocksTopic; TxsTopic; AgentTopic] [].

Lemma host_lifecycle_witness : released (Close demo_resources).2.
Proof. apply (host_lifecycle "/ip4/0.0.0.0/tcp/0" demo_host demo_resources). reflexivity. Defined.

Lemma scores_sum_witness :
  PeerScoreFor "p" (run_scores [("p", 5); ("q", 1); ("p", -7)] demo_host) = -2 ∧
  PeerScoreFor "p" (run_scores [("q", 1); ("p", 5); ("p", -7)] demo_host) = -2.
Proof.
  destruct (scores_sum "/ip4/0.0.0.0/tcp/0" demo_host demo_resources
    [("p", 5); ("q", 1); ("p", -7)] [("q", 1); ("p", 5); ("p", -7)] "p") as [E1 E2];
    [reflexivity|apply Permutation_swap|]. split; [exact E1|]. rewrite E2. exact E1.
Defined.

Lemma published_by_kind_witness :
  rs_published (foldl (run_publication demo_host) demo_resources [PubTx [Byte.x01]; PubBlock []]) =
  [(TxsTopic, [Byte.x01]); (BlocksTopic, [])].
Proof.
  apply (published_by_kind "/ip4/0.0.0.0/tcp/0" demo_host demo_resources); [reflexivity|reflexivity].
Defined.
