(* ===== verification/HostLifecycle.v ===== *)
(** * Starting and stopping the libp2p-style host (go-chain/p2p/libp2p_host.go)

    [Start], [Connect] and [Stop] of [LibP2PNode] with the goroutines between them:
    the accept loop, the mDNS listener, the three timers, one goroutine per accepted
    connection and one per connection the node dialled.  They are the steps of a
    relation on [lifecycle], which keeps the shutdown channel, the listener and the
    counter of the [WaitGroup].  A step is taken by the host itself, which nothing
    but its own timers and deadlines can hold up, or waits for somebody outside: a
    caller or a peer.  A step that changes none of the above is left out (a tick of
    a timer, a datagram, an error of [Accept] before the channel is closed), except
    for the messages of the peers, which are what may keep a session, and with it
    [Stop], from ever ending.  The host is started at most once, and not after
    [Stop].  What a session does with a message is in [LibP2P]. *)

From S2P Require Import Prelude Runtime.
Open Scope Z_scope.
Open Scope go_scope.

(** [Accepted] is the accept loop with a connection that it has not handed on yet;
    [MDNS] opens its socket and then loops; [handleIncoming] shakes hands and then
    reads; [Dialled] is the [readLoop] of a connection made by [Connect]. *)
Inductive goroutine :=
| AcceptLoop | Accepted | MDNS | MDNSLoop | HolePunch | UPnP | NATPMP | Handshake | Reading | Dialled.

#[export] Instance goroutine_eq_dec : EqDecision goroutine.
Proof. solve_decision. Defined.

(** The caller of [Stop]: not called, in [wg.Wait], returned. *)
Inductive stopping := NotStopped | Waiting | Stopped.

(** [lc_listening] is whether the listener the node knows is open. *)
Record lifecycle := mklifecycle {
  lc_closed : bool; lc_listening : bool; lc_live : list goroutine; lc_wg : Z; lc_stop : stopping }.

#[export] Instance lifecycle_rebuild : Rebuild lifecycle := λ r,
  mklifecycle (lc_closed r) (lc_listening r) (lc_live r) (lc_wg r) (lc_stop r).

Definition new_lifecycle : lifecycle := mklifecycle false false [] 0 NotStopped.

(** [wg.Add(1); go g()] *)
Definition spawn (g : goroutine) (s : lifecycle) : lifecycle := s <| lc_wg ::= Z.add 1 |> <| lc_live ::= cons g |>.

(** [go g()] alone: [Connect] does not count the goroutine it starts. *)
Definition spawn_uncounted (g : goroutine) (s : lifecycle) : lifecycle := s <| lc_live ::= cons g |>.

(** Whether the goroutine defers [wg.Done()]. *)
Definition counted (g : goroutine) : bool := match g with Dialled => false | _ => true end.

(** The end of the goroutine between [before] and [after]. *)
Definition finish (before : list goroutine) (g : goroutine) (after : list goroutine) (s : lifecycle) : lifecycle :=
  s <| lc_wg ::= λ n, if counted g then n - 1 else n |> <| lc_live := before ++ after |>.

(** [Start]; [listened] is the answer of [net.Listen]. *)
Definition Start (listened : bool) (s : lifecycle) : outcome unit * lifecycle :=
  if negb listened then (Err "libp2p listen", s) else
  (Ok tt, foldl (λ s g, spawn g s) (s <| lc_listening := true |>) [AcceptLoop; MDNS; HolePunch; UPnP; NATPMP]).

(** [Stop] up to [wg.Wait]: a second call closes a closed channel. *)
Definition Stop (s : lifecycle) : outcome unit * lifecycle :=
  if lc_closed s then (Panic "close of closed channel", s)
  else (Ok tt, s <| lc_closed := true |> <| lc_listening := false |> <| lc_stop := Waiting |>).

(** Where a loop of [Start] returns: when it finds the channel closed, the accept
    loop on the error of its closed listener, the loops of the timers in their
    [select], that of mDNS before its next read; the mDNS listener also when its
    socket cannot be opened. *)
Definition loop_ends (g : goroutine) (s : lifecycle) : bool :=
  match g with
  | MDNS => true
  | AcceptLoop | MDNSLoop | HolePunch | UPnP | NATPMP => lc_closed s
  | Accepted | Handshake | Reading | Dialled => false
  end.

(** The goroutines in [readLoop]: each message prolongs the deadline, and the
    channel is not looked at. *)
Definition in_readLoop (g : goroutine) : bool := match g with Reading | Dialled => true | _ => false end.

Inductive actor := Host | Outside.

Inductive life_step : actor → lifecycle → lifecycle → Prop :=
| life_start s s' :
    lc_closed s = false → lc_listening s = false → Start true s = (Ok tt, s') → life_step Outside s s'
| life_accept before after s :
    lc_live s = before ++ AcceptLoop :: after → lc_listening s = true →
    life_step Outside s (s <| lc_live := before ++ Accepted :: after |>)
| life_serve before after s :
    lc_live s = before ++ Accepted :: after →
    life_step Host s (spawn Handshake (s <| lc_live := before ++ AcceptLoop :: after |>))
| life_open_mdns before after s :
    lc_live s = before ++ MDNS :: after →
    life_step Host s (s <| lc_live := before ++ MDNSLoop :: after |>)
| life_welcome before after s :
    lc_live s = before ++ Handshake :: after →
    life_step Host s (s <| lc_live := before ++ Reading :: after |>)
| life_turn_away before after s :
    lc_live s = before ++ Handshake :: after → life_step Host s (finish before Handshake after s)
| life_connect s : life_step Outside s (spawn_uncounted Dialled s)
| life_message g before after s :
    lc_live s = before ++ g :: after → in_readLoop g = true → life_step Outside s s
| life_disconnect g before after s :
    lc_live s = before ++ g :: after → in_readLoop g = true → life_step Outside s (finish before g after s)
| life_end g before after s :
    lc_live s = before ++ g :: after → loop_ends g s = true → life_step Host s (finish before g after s)
| life_stop s s' : Stop s = (Ok tt, s') → life_step Outside s s'
| life_return s : lc_stop s = Waiting → lc_wg s = 0 → life_step Host s (s <| lc_stop := Stopped |>).

(** A run, with who took its steps. *)
Inductive life_run : list actor → lifecycle → lifecycle → Prop :=
| run_none s : life_run [] s s
| run_step a l s s' s'' : life_step a s s' → life_run l s' s'' → life_run (a :: l) s s''.

(** ** The counter *)

Definition running (l : list goroutine) : Z := blen (filter counted l).

Lemma running_app l l' : running (l ++ l') = running l + running l'.
Proof. unfold running. by rewrite filter_app, blen_app. Qed.

Lemma running_cons g l : running (g :: l) = (if counted g then 1 else 0) + running l.
Proof.
  destruct g; [..|reflexivity];
    (change (running (?x :: l)) with (blen (x :: filter counted l)); rewrite blen_cons; cbn [counted]; unfold running; lia).
Qed.

Lemma running_nonneg l : 0 ≤ running l.
Proof. apply blen_nonneg. Qed.

Lemma running_zero l : running l = 0 ↔ ∀ g, g ∈ l → g = Dialled.
Proof.
  induction l as [|x l IH]; [set_solver|]. rewrite running_cons. pose proof (running_nonneg l).
  setoid_rewrite elem_of_cons. destruct x; cbn [counted];
    [split; [lia|intros Hg; by specialize (Hg _ (or_introl eq_refl))]..|].
  rewrite Z.add_0_l, IH. naive_solver.
Qed.

(** The counter is the number of the counted goroutines, and a call of [Stop]
    means a closed channel and a closed listener. *)
Record life_ok (s : lifecycle) : Prop := {
  wg_counts : lc_wg s = running (lc_live s);
  stop_closes : lc_stop s ≠ NotStopped → lc_closed s = true;
  closed_deaf : lc_closed s = true → lc_listening s = false;
  stopped_empty : lc_stop s = Stopped → running (lc_live s) = 0;
}.

Lemma Start_spec s s' :
  Start true s = (Ok tt, s') →
  s' = s <| lc_listening := true |> <| lc_wg ::= Z.add 5 |>
         <| lc_live ::= app [NATPMP; UPnP; HolePunch; MDNS; AcceptLoop] |>.
Proof. intros [= <-]. unfold spawn. destruct s. cbn. f_equal. lia. Qed.

(** A counted goroutine means that [Stop] has not returned. *)
Lemma live_not_stopped s before g after :
  life_ok s → lc_live s = before ++ g :: after → counted g = true → lc_stop s ≠ Stopped.
Proof.
  intros Hok El Hg Hst. pose proof (stopped_empty s Hok Hst) as E.
  rewrite El, running_app, running_cons, Hg in E.
  pose proof (running_nonneg before). pose proof (running_nonneg after). lia.
Qed.

Lemma finish_ok s before g after :
  life_ok s → lc_live s = before ++ g :: after → life_ok (finish before g after s).
Proof.
  intros Hok El. pose proof (live_not_stopped s before g after Hok El) as Hns.
  destruct Hok as [Hw Hs Hc Hd]. rewrite El, running_app, running_cons in *.
  split; cbn [finish lc_wg lc_live lc_stop lc_closed lc_listening update lifecycle_rebuild]; try done;
    rewrite running_app; destruct (counted g); (done || lia || naive_solver).
Qed.

(** A goroutine that turns into another one of its kind. *)
Lemma become_ok s before g g' after :
  life_ok s → lc_live s = before ++ g :: after → counted g' = counted g →
  life_ok (s <| lc_live := before ++ g' :: after |>).
Proof.
  intros [Hw Hs Hc Hd] El Eg. rewrite El, running_app, running_cons in *.
  split; cbn; try done; by rewrite running_app, running_cons, Eg.
Qed.

Lemma life_step_ok a s s' : life_step a s s' → life_ok s → life_ok s'.
Proof.
  destruct 1 as [s s' Ho Hl E|before after s El Hl|before after s El|before after s El|before after s El
    |before after s El|s|g before after s El Hm|g before after s El Hm|g before after s El Hm|s s' E|s Ew E0];
    intros Hok; try exact Hok; try by (apply finish_ok || eapply become_ok).
  - apply Start_spec in E as ->. destruct Hok as [Hw Hs Hc Hd].
    split; cbn [lc_wg lc_live lc_stop lc_closed lc_listening update lifecycle_rebuild]; try done.
    + rewrite running_app, Hw. done.
    + by rewrite Ho.
    + intros Hst. exfalso. rewrite Hs in Ho; [done|]. by rewrite Hst.
  - pose proof (live_not_stopped s before Accepted after Hok El eq_refl) as Hns.
    eapply (become_ok _ _ _ AcceptLoop) in El; [|done|done].
    destruct El as [Hw Hs Hc Hd]. split; cbn [spawn lc_wg lc_live lc_stop lc_closed lc_listening update lifecycle_rebuild] in *; try done.
    rewrite running_cons, Hw. done.
  - destruct Hok as [Hw Hs Hc Hd]. split; cbn; try done; by rewrite running_cons.
  - unfold Stop in E. destruct (lc_closed s) eqn:Ec; [done|]. injection E as <-. destruct Hok as [Hw Hs Hc Hd].
    by split.
  - destruct Hok as [Hw Hs Hc Hd]. split; cbn; try done; [|intros _; by rewrite <- Hw].
    intros _. apply Hs. by rewrite Ew.
Qed.

Lemma life_run_ok l s s' : life_run l s s' → life_ok s → life_ok s'.
Proof. induction 1 as [|a l s s' s'' Hstep _ IH]; [done|]. intros Hok. by eapply IH, life_step_ok. Qed.

Lemma reachable_life_ok l s : life_run l new_lifecycle s → life_ok s.
Proof. intros Hr. by eapply life_run_ok. Qed.

(** The counter goes up only where something is counted already, once the channel
    is closed. *)
Lemma step_raises a s s' :
  life_ok s → lc_closed s = true → life_step a s s' → lc_wg s < lc_wg s' → 0 < lc_wg s.
Proof.
  intros Hok Hcl Hstep.
  destruct Hstep as [s s' Ho Hl E|before after s El Hl|before after s El|before after s El|before after s El
    |before after s El|s|g before after s El Hm|g before after s El Hm|g before after s El Hm|s s' E|s Ew E0];
    cbn; intros Hlt; try (lia || congruence); try (destruct (counted g); lia).
  - rewrite (wg_counts s Hok), El, running_app, running_cons. cbn [counted].
    pose proof (running_nonneg before). pose proof (running_nonneg after). lia.
  - unfold Stop in E. by rewrite Hcl in E.
Qed.

(** C35. In every run of a host that is started at most once, and not after [Stop], the
    counter is the number of live goroutines other than those [Connect] started; it is
    only raised from 0 before [Stop] was called; and when [Stop] has returned the
    listener is closed and every goroutine that is left was started by [Connect]. *)
Theorem stop_leaves_nothing l s :
  life_run l new_lifecycle s →
  lc_wg s = running (lc_live s) ∧
  (lc_stop s = Stopped → lc_listening s = false ∧ ∀ g, g ∈ lc_live s → g = Dialled) ∧
  (∀ a s', life_step a s s' → lc_wg s < lc_wg s' → lc_closed s = true → 0 < lc_wg s).
Proof.
  intros Hok%reachable_life_ok. split_and!; [apply Hok| |].
  - intros Hst. split; [|by apply running_zero, Hok].
    apply Hok, (stop_closes s Hok). by rewrite Hst.
  - intros a s' Hstep Hlt Hcl. by eapply step_raises.
Qed.

(** ** Stopping *)

(** The steps of the host that are left to a goroutine: a connection in hand still
    becomes a handshake. *)
Definition steps_of (g : goroutine) : nat :=
  match g with
  | Accepted => 3
  | MDNS => 2
  | AcceptLoop | MDNSLoop | HolePunch | UPnP | NATPMP | Handshake => 1
  | Reading | Dialled => 0
  end.

Definition work (l : list goroutine) : nat := list_sum (map steps_of l).

Definition left_to_do (s : lifecycle) : nat :=
  match lc_stop s with Waiting => S (work (lc_live s)) | _ => work (lc_live s) end.

Lemma work_middle before g after : work (before ++ g :: after) = (steps_of g + work (before ++ after))%nat.
Proof.
  unfold work. rewrite !map_app, !list_sum_app. change (map steps_of (g :: after)) with (steps_of g :: map steps_of after).
  change (list_sum (?x :: ?l)) with (x + list_sum l)%nat. lia.
Qed.

Lemma work_length l : (work l ≤ 3 * length l)%nat.
Proof.
  induction l as [|g l IH]; [done|]. change (work (g :: l)) with (steps_of g + work l)%nat.
  cbn [length]. destruct g; cbn [steps_of]; lia.
Qed.

(** How many of the steps are the host's. *)
Definition cost (a : actor) : nat := match a with Host => 1 | Outside => 0 end.
Definition host_steps (l : list actor) : nat := list_sum (map cost l).

(** While [Stop] waits, a step of the host leaves it less to do, and nobody outside
    gives it more. *)
Lemma stopping_decreases a s s' :
  life_ok s → lc_stop s ≠ NotStopped → life_step a s s' →
  (cost a + left_to_do s' ≤ left_to_do s)%nat ∧ lc_stop s' ≠ NotStopped.
Proof.
  intros Hok Hst Hstep. pose proof (stop_closes s Hok Hst) as Hcl. pose proof (closed_deaf s Hok Hcl) as Hli.
  destruct Hstep as [s s' Ho Hl E|before after s El Hl|before after s El|before after s El|before after s El
    |before after s El|s|g before after s El Hm|g before after s El Hm|g before after s El Hm|s s' E|s Ew E0];
    cbn [cost];
    [congruence|congruence|..|unfold Stop in E; by rewrite Hcl in E|by unfold left_to_do; cbn; rewrite Ew].
  all: split; [|done]; unfold left_to_do;
    cbn [spawn spawn_uncounted finish lc_stop lc_live update lifecycle_rebuild].
  all: try change (work (Handshake :: ?l)) with (S (work l)); try change (work (Dialled :: ?l)) with (work l).
  all: try rewrite El, !work_middle; cbn [steps_of].
  all: try destruct g; try done; cbn [steps_of]; destruct (lc_stop s); lia.
Qed.

Lemma run_decreases l s s' :
  life_run l s s' → life_ok s → lc_stop s ≠ NotStopped →
  (host_steps l + left_to_do s' ≤ left_to_do s)%nat ∧ lc_stop s' ≠ NotStopped.
Proof.
  induction 1 as [|a l s s1 s2 Hstep _ IH]; intros Hok Hst; [done|].
  destruct (stopping_decreases a s s1 Hok Hst Hstep) as [E Hst1].
  destruct IH as [E' ?]; [by eapply life_step_ok|done|]. split; [|done].
  change (host_steps (a :: l)) with (cost a + host_steps l)%nat. lia.
Qed.

(** A goroutine that does not read can be run by the host once the channel is
    closed. *)
Lemma host_can_run s before g after :
  lc_closed s = true → lc_live s = before ++ g :: after → in_readLoop g = false →
  ∃ s', life_step Host s s'.
Proof.
  intros Hcl El Hg.
  destruct g; try done;
    try (eexists; apply (life_end _ before after s El); done);
    eexists; [by apply (life_serve before after)|by apply (life_turn_away before after)].
Qed.

Lemma all_reading (l : list goroutine) :
  (∃ before g after, l = before ++ g :: after ∧ in_readLoop g = false) ∨
  (∀ g, g ∈ l → g = Reading ∨ g = Dialled).
Proof.
  induction l as [|x l [(b & g & a & -> & Hg)|IH]]; [right; set_solver|by left; exists (x :: b), g, a|].
  destruct (in_readLoop x) eqn:Ex; [right|left; by exists [], x, l].
  intros g [->|Hg]%elem_of_cons; [destruct x; auto; done|by apply IH].
Qed.

Lemma waiting_progress s :
  life_ok s → lc_stop s = Waiting →
  (∃ s', life_step Host s s') ∨ (Reading ∈ lc_live s ∧ ∀ g, g ∈ lc_live s → g = Reading ∨ g = Dialled).
Proof.
  intros Hok Hw. assert (lc_closed s = true) as Hcl by (apply (stop_closes s Hok); by rewrite Hw).
  destruct (all_reading (lc_live s)) as [(before & g & after & El & Hg)|Hall];
    [left; by eapply host_can_run|].
  destruct (decide (Reading ∈ lc_live s)) as [Hr|Hr]; [by right|left]. eexists. apply life_return; [done|].
  rewrite (wg_counts s Hok). apply running_zero. intros g Hg. by destruct (Hall g Hg) as [->| ->].
Qed.

Lemma messages_forever s m : Reading ∈ lc_live s → life_run (replicate m Outside) s s.
Proof.
  intros (before & after & El)%list_elem_of_split.
  induction m as [|m IH]; [constructor|]. econstructor; [|exact IH]. by eapply life_message.
Qed.

(** C34. Once [Stop] is waiting, in a host that was started at most once: whatever callers
    and peers do meanwhile, the host itself takes at most three steps for each live
    goroutine and one to return; as long as [Stop] has not returned the host can take
    another step, unless all that is left are sessions that read from a peer; and
    while an accepted one of those is left [Stop] has not returned, and may wait for
    any number of messages more. *)
Theorem stop_returns l s l' s' :
  life_run l new_lifecycle s → lc_stop s = Waiting → life_run l' s s' →
  (host_steps l' ≤ S (3 * length (lc_live s)))%nat ∧
  (lc_stop s' = Stopped ∨ (∃ s'', life_step Host s' s'') ∨
   (Reading ∈ lc_live s' ∧ ∀ g, g ∈ lc_live s' → g = Reading ∨ g = Dialled)) ∧
  (Reading ∈ lc_live s' → lc_stop s' = Waiting ∧ ∀ m, life_run (replicate m Outside) s' s').
Proof.
  intros Hr Hw Hn. pose proof (reachable_life_ok l s Hr) as Hok.
  pose proof (life_run_ok l' s s' Hn Hok) as Hok'.
  destruct (run_decreases l' s s' Hn Hok) as [E Hst]; [by rewrite Hw|]. split_and!.
  - unfold left_to_do in E at 2. rewrite Hw in E. pose proof (work_length (lc_live s)). lia.
  - destruct (lc_stop s') eqn:Es; [done| |by left]. right. by apply waiting_progress.
  - intros Hin. split; [|intros m; by apply messages_forever].
    apply list_elem_of_split in Hin as (before & after & El).
    pose proof (live_not_stopped s' before Reading after Hok' El eq_refl).
    by destruct (lc_stop s').
Qed.

(** A second [Stop] panics. *)
Lemma second_stop_panics s s' : Stop s = (Ok tt, s') → ∃ m, (Stop s').1 = Panic m.
Proof. unfold Stop. destruct (lc_closed s); [done|]. intros [= <-]. by eexists. Qed.

(** ** Concrete runs *)

Definition started : lifecycle := (Start true new_lifecycle).2.
Definition stopping_state : lifecycle := (Stop started).2.

Lemma started_reachable : life_run [Outside] new_lifecycle started.
Proof. apply (run_step _ _ _ started); [by apply life_start|apply run_none]. Qed.

Lemma stopping_reachable : life_run [Outside; Outside] new_lifecycle stopping_state.
Proof.
  apply (run_step _ _ _ started); [by apply life_start|].
  apply (run_step _ _ _ stopping_state); [by apply life_stop|apply run_none].
Qed.

Lemma stop_leaves_nothing_witness : lc_wg started = running (lc_live started).
Proof. apply (stop_leaves_nothing [Outside] started). exact started_reachable. Defined.

Lemma stop_returns_witness : lc_stop stopping_state = Stopped ∨ (∃ s'', life_step Host stopping_state s'') ∨
  (Reading ∈ lc_live stopping_state ∧ ∀ g, g ∈ lc_live stopping_state → g = Reading ∨ g = Dialled).
Proof.
  apply (stop_returns [Outside; Outside] stopping_state [] stopping_state);
    [exact stopping_reachable|reflexivity|apply run_none].
Defined.

(** A node that dialled a peer and was stopped before it was ever started is
    stopped with the goroutine of the connection alive. *)
Example dialled_survives :
  ∃ l s, life_run l new_lifecycle s ∧ lc_stop s = Stopped ∧ lc_live s = [Dialled].
Proof.
  do 2 eexists. split; [|split]; [eapply run_step; [apply life_connect|]; eapply run_step; [by apply life_stop|];
    eapply run_step; [by apply life_return|apply run_none]|done|done].
Qed.

(** A peer in session keeps the host from stopping. *)
Definition loops : list goroutine := [NATPMP; UPnP; HolePunch; MDNS].

Example session_holds_stop :
  life_run [Outside; Outside; Host; Host; Outside] new_lifecycle
    (mklifecycle true false (Reading :: loops ++ [AcceptLoop]) 6 Waiting).
Proof.
  apply (run_step _ _ _ started); [by apply life_start|].
  apply (run_step _ _ _ (mklifecycle false true (loops ++ [Accepted]) 5 NotStopped));
    [by apply (life_accept loops [])|].
  apply (run_step _ _ _ (mklifecycle false true (Handshake :: loops ++ [AcceptLoop]) 6 NotStopped));
    [by apply (life_serve loops [] (mklifecycle false true (loops ++ [Accepted]) 5 NotStopped))|].
  apply (run_step _ _ _ (mklifecycle false true (Reading :: loops ++ [AcceptLoop]) 6 NotStopped));
    [by apply (life_welcome [] (loops ++ [AcceptLoop]) (mklifecycle false true (Handshake :: loops ++ [AcceptLoop]) 6 NotStopped))|].
  eapply run_step; [by apply life_stop|apply run_none].
Qed.
