(* ===== verification/Relayer.v ===== *)
(** * The relayer process (go-chain/tools/bridge-relayer/main.go, ethereum_listener.go)

    [main] and the subscription loop of the Ethereum listener, around the handlers of
    [Bridge].  The requests and the cases the [select] of the loop takes are one
    sequence of events, in the order they happen; the node's clock is part of them. *)

From S2P Require Import Prelude Runtime Float64 Text Sha256 Domain Limits NodeApi NodeDemo Bridge.
Open Scope Z_scope.
Open Scope go_scope.

(** ** Configuration *)

Record relayConfig := mkrelayConfig {
  rc_port : string; rc_nodeAPIBase : string; rc_nodeAPIKey : string; rc_ethereumRPC : string;
  rc_ethereumContract : string; rc_ethereumTopic : string }.

Definition env_or (getenv : string → string) (key fallback : string) : string :=
  if bool_decide (getenv key = "") then fallback else getenv key.

Definition relay_config (getenv : string → string) : relayConfig :=
  mkrelayConfig (env_or getenv "RELAYER_PORT" "9090") (env_or getenv "TENDER_NODE_URL" "http://localhost:8080")
    (env_or getenv "TENDER_API_KEY" "") (env_or getenv "TENDER_ETHEREUM_RPC_URL" "")
    (env_or getenv "TENDER_ETHEREUM_LOCK_CONTRACT" "") (env_or getenv "TENDER_ETHEREUM_LOCK_TOPIC" "").

(** Whether [main] starts the listener. *)
Definition relay_enabled (c : relayConfig) : bool :=
  negb (bool_decide (rc_ethereumRPC c = "")) && negb (bool_decide (rc_ethereumContract c = "")) &&
  negb (bool_decide (rc_ethereumTopic c = "")).

Section process.
Context {N : Type} `{MintNode N} `{BridgeJson} `{Runtime} `{Ed25519} `{Ethereum}.

Definition newEthereumListener (rpcURL : string) (r : relayer N) : outcome (bridge N) :=
  if bool_decide (TrimSpace rpcURL = "") then Err "missing TENDER_ETHEREUM_RPC_URL" else Ok (mkbridge r ∅).

(** ** The process *)

(** [pr_listening] is whether the loop of the listener is running. *)
Record process := mkprocess { pr_bridge : bridge N; pr_listening : bool; pr_exited : option string }.

#[global] Instance process_rebuild : Rebuild process := λ r,
  mkprocess (pr_bridge r) (pr_listening r) (pr_exited r).

(** [start] up to the loop: dialling and subscribing, whose errors [main] drops. *)
Definition start_listener (dialed subscribed : bool) (p : process) : process :=
  p <| pr_listening := dialed && subscribed |>.

(** [main] up to the server, with the node and the key file; an error is
    [log.Fatal]. *)
Definition relay_main (getenv : string → string) (k : nat) (written : bool) (file : option (outcome keyFile))
    (node : N) (dialed subscribed : bool) : outcome process :=
  let c := relay_config getenv in
  match (loadOrGenerateKey k written file).1 with
  | Err e | Panic e => Err ("failed to load/generate relayer key: " +:+ e)
  | Ok (priv, pub) =>
      let r := mkrelayer priv ∅ node in
      if relay_enabled c then
        match newEthereumListener (rc_ethereumRPC c) r with
        | Ok b => Ok (start_listener dialed subscribed (mkprocess b false None))
        | Err e | Panic e => Err ("failed to create ethereum listener: " +:+ e)
        end
      else Ok (mkprocess (mkbridge r ∅) false None)
  end.

(** Requests and the cases of the [select]; [PDone] is the case of the context, which
    [SIGINT] and [SIGTERM] cancel. *)
Inductive process_event :=
| PLock (method : string) (req : outcome lockRequest)
| PMint (method : string) (req : outcome mintRequest) (now : Z)
| PLog (lg : ethereumLog) (now : Z)
| PSubscriptionError (resubscribed : bool)
| PDone.

(** One turn.  When the context is cancelled the loop ends and the server goes on; a
    panic in the loop ends the process. *)
Definition process_step (p : process) (e : process_event) : process :=
  match pr_exited p with
  | Some _ => p
  | None =>
      match e with
      | PLock method req => p <| pr_bridge ::= λ b, run_event b (EvLock method req) |>
      | PMint method req now => p <| pr_bridge ::= λ b, run_event b (EvMint method req now) |>
      | PLog lg now =>
          if pr_listening p then
            match handleLog lg now (pr_bridge p) with
            | (Panic e, b) => p <| pr_bridge := b |> <| pr_exited := Some e |>
            | (_, b) => p <| pr_bridge := b |>
            end
          else p
      | PSubscriptionError resubscribed =>
          if pr_listening p then p <| pr_listening := resubscribed |> else p
      | PDone => p <| pr_listening := false |>
      end
  end.

Definition run_process (p : process) (es : list process_event) : process := foldl process_step p es.

(** ** What a run does to the bridge *)

(** The events of [Bridge] that take effect. *)
Fixpoint effective (p : process) (es : list process_event) : list bridge_event :=
  match es with
  | [] => []
  | e :: es =>
      (if bool_decide (is_Some (pr_exited p)) then [] else
       match e with
       | PLock method req => [EvLock method req]
       | PMint method req now => [EvMint method req now]
       | PLog lg now => if pr_listening p then [EvLog lg now] else []
       | PSubscriptionError _ | PDone => []
       end) ++ effective (process_step p e) es
  end.

Lemma effective_run es : ∀ p, pr_bridge (run_process p es) = foldl run_event (pr_bridge p) (effective p es).
Proof.
  induction es as [|e es IH]; intros p; [done|]. cbn [effective run_process foldl].
  change (foldl process_step ?q es) with (run_process q es). rewrite IH, foldl_app. f_equal.
  unfold process_step. destruct (pr_exited p) as [x|] eqn:Ex.
  { by rewrite bool_decide_true by (by eexists). }
  rewrite bool_decide_false by (by intros [? ?]).
  destruct e as [m r|m r t|lg t|ok|]; [done|done| |by destruct (pr_listening p)|done].
  destruct (pr_listening p); [|done]. cbn [foldl run_event].
  by destruct (handleLog lg t (pr_bridge p)) as [[]].
Qed.

Definition request_of (e : process_event) : option bridge_event :=
  match e with
  | PLock method req => Some (EvLock method req)
  | PMint method req now => Some (EvMint method req now)
  | _ => None
  end.

Lemma deaf_run es : ∀ p,
  pr_listening p = false → pr_exited p = None →
  effective p es = omap request_of es ∧
  pr_listening (run_process p es) = false ∧ pr_exited (run_process p es) = None.
Proof.
  induction es as [|e es IH]; intros p Hl Hx; [done|]. cbn [effective run_process foldl].
  change (foldl process_step ?q es) with (run_process q es).
  assert (pr_listening (process_step p e) = false ∧ pr_exited (process_step p e) = None) as [Hl' Hx'].
  { unfold process_step. rewrite Hx. destruct e; rewrite ?Hl; done. }
  destruct (IH _ Hl' Hx') as (-> & ? & ?). split; [|done]. rewrite bool_decide_false by (rewrite Hx; by intros [? ?]).
  rewrite Hl. by destruct e.
Qed.

(** Once the loop has seen a signal, or the subscription broke and could not be
    renewed, the relayer serves requests as before, for ever, and handles no log any
    more: nothing starts the listener again, and the signal does not end the
    process. *)
Theorem listener_never_returns p es e es' :
  pr_exited (run_process p es) = None → e = PDone ∨ e = PSubscriptionError false →
  let p1 := run_process p es in let p2 := run_process p (es ++ e :: es') in
  pr_exited p2 = None ∧ pr_listening p2 = false ∧
  pr_bridge p2 = foldl run_event (pr_bridge p1) (omap request_of es').
Proof.
  intros Hx He p1 p2. unfold p2, run_process. rewrite foldl_app. cbn [foldl].
  fold (run_process p es). fold p1. change (foldl process_step ?q es') with (run_process q es').
  assert (pr_listening (process_step p1 e) = false ∧ pr_exited (process_step p1 e) = None ∧
    pr_bridge (process_step p1 e) = pr_bridge p1) as (Hl' & Hx' & Hb).
  { fold p1 in Hx. unfold process_step. rewrite Hx. destruct He as [->| ->]; [done|].
    destruct (pr_listening p1) eqn:El; done. }
  destruct (deaf_run es' _ Hl' Hx') as (E & ? & ?). split_and!; [done|done|].
  by rewrite effective_run, E, Hb.
Qed.

(** One log with three words and not four ends the process while it listens: no
    request is served after it. *)
Theorem short_log_ends_relayer p lg now es :
  pr_exited p = None → pr_listening p = true → lg_TxHash lg ∉ br_processed (pr_bridge p) →
  (96 ≤ length (lg_Data lg) < 128)%nat →
  (∃ e, pr_exited (run_process p (PLog lg now :: es)) = Some e) ∧
  effective (process_step p (PLog lg now)) es = [].
Proof.
  intros Hx Hl Hnew Hlen. apply short_log_panics in Hlen as [e He].
  assert (pr_exited (process_step p (PLog lg now)) = Some e) as Hexit.
  { unfold process_step, handleLog. rewrite Hx, Hl, bool_decide_false by done. cbv zeta. by rewrite He. }
  cbn [run_process foldl]. set (q := process_step p (PLog lg now)) in *. clearbody q.
  assert (∀ es q, pr_exited q = Some e → pr_exited (run_process q es) = Some e ∧ effective q es = []) as Hdead.
  { clear. induction es as [|x es IH]; intros q Hq; [done|]. cbn [run_process foldl effective].
    change (foldl process_step ?z es) with (run_process z es).
    assert (process_step q x = q) as -> by (unfold process_step; by rewrite Hq).
    rewrite bool_decide_true by (by eexists). by apply IH. }
  destruct (Hdead es q Hexit) as [E1 E2]. split; [by exists e|done].
Qed.
End process.
Arguments process : clear implicits.

(** ** Concrete runs *)

#[local] Existing Instance demo_runtime.
#[local] Existing Instance demo_ed25519.
#[local] Existing Instance NodeDemo.demo_net.
#[local] Existing Instance demo_bodies.
#[local] Existing Instance demo_node_bodies.
#[local] Existing Instance demo_bridge_json.
#[local] Existing Instance demo_bridge_wire.
#[local] Existing Instance demo_ethereum.

Definition demo_process : process server := mkprocess (mkbridge demo_relayer ∅) true None.

Lemma listener_never_returns_witness :
  pr_exited (@run_process _ (node_program 0 "secret") _ _ _ demo_process
    ([] ++ PDone :: [PLock "POST" (Ok demo_lock)])) = None.
Proof.
  apply (@listener_never_returns _ (node_program 0 "secret") _ _ _ demo_process [] PDone
    [PLock "POST" (Ok demo_lock)]); [reflexivity|by left].
Defined.

Lemma short_log_ends_relayer_witness :
  ∃ e, pr_exited (@run_process _ (node_program 0 "secret") _ _ _ demo_process
    [PLog (mkethereumLog "0xcc" 1 0 (replicate 100 Byte.x00)) 1700000000]) = Some e.
Proof.
  apply (@short_log_ends_relayer _ (node_program 0 "secret") _ _ _ demo_process
    (mkethereumLog "0xcc" 1 0 (replicate 100 Byte.x00)) 1700000000 []);
    [reflexivity|reflexivity|apply not_elem_of_empty|cbn; lia].
Defined.
