(* ===== verification/Varint.v ===== *)
(** * Strings with a variable-length prefix (go-chain/p2p/libp2p_host.go)

    [writeVarintString] and [readVarintString] of [LibP2PNode], over the part of
    [encoding/binary] they use.  The reader is the buffered reader of [LibP2P]. *)

From S2P Require Import Prelude Runtime Text Sha256 Domain LibP2P.
Open Scope Z_scope.
Open Scope go_scope.

(** ** [encoding/binary] *)

Definition MaxVarintLen64 : nat := 10.

(** Seven bits a byte, the lowest first; nine continuations are enough for 64 bits
    ([uvarint_roundtrip]). *)
Fixpoint put_uvarint (fuel : nat) (x : Z) : list byte :=
  if x <? 0x80 then [byte_of_Z x] else
  match fuel with
  | O => []
  | S fuel => byte_of_Z (Z.lor x 0x80) :: put_uvarint fuel (Z.shiftr x 7)
  end.

Definition PutUvarint (x : Z) : list byte := put_uvarint 9 x.

(** The value and the number of bytes read: 0 when the buffer is too small, negative
    when the value overflows. *)
Fixpoint uvarint (i : nat) (x s : Z) (buf : list byte) : Z * Z :=
  match buf with
  | [] => (0, 0)
  | b :: buf =>
      let b := Z_of_byte b in
      if (i =? MaxVarintLen64)%nat then (0, - (Z.of_nat i + 1)) else
      if b <? 0x80 then
        if (i =? MaxVarintLen64 - 1)%nat && (1 <? b) then (0, - (Z.of_nat i + 1))
        else (Z.lor x (u64 (Z.shiftl b s)), Z.of_nat i + 1)
      else uvarint (S i) (Z.lor x (u64 (Z.shiftl (Z.land b 0x7f) s))) (s + 7) buf
  end.

Definition Uvarint (buf : list byte) : Z * Z := uvarint 0 0 0 buf.

(** ** The helpers of the node *)

Definition writeVarintString (w : nat → bool) (s : list byte) : outcome unit * list (list byte) :=
  let header := PutUvarint (u64 (blen s)) in
  if negb (w 0%nat) then (Err "write", []) else
  if negb (w 1%nat) then (Err "write", [header]) else (Ok tt, [header; s]).

(** The prefix is read with a buffer for the longest one, and as many bytes as the
    prefix has are read again behind the string. *)
Definition readVarintString (r : reader) : option (list byte * reader) :=
  '(lenBuf, r) ← read_into MaxVarintLen64 r;
  let '(length, vn) := Uvarint lenBuf in
  if (length =? 0) || (4096 <? length) then None else
  '(buf, r) ← read_into (Z.to_nat length) r;
  '(_, r) ← read_into (Z.to_nat vn) r;
  Some (buf, r).

(** ** Bits *)

Lemma lor_shiftl_add x y s : 0 ≤ s → 0 ≤ x < 2 ^ s → Z.lor x (Z.shiftl y s) = x + y * 2 ^ s.
Proof.
  intros Hs Hx. rewrite <- (Z.shiftl_mul_pow2 y s Hs). symmetry.
  pose proof (Z.add_lor_land x (Z.shiftl y s)) as E.
  assert (Z.land x (Z.shiftl y s) = 0) as El; [|lia].
  apply Z.bits_inj'. intros n Hn. rewrite Z.land_spec, Z.bits_0.
  destruct (decide (n < s)) as [Hlt|Hge].
  - by rewrite Z.shiftl_spec_low, andb_false_r.
  - rewrite <- (Z.mod_small x (2 ^ s)) by done. by rewrite Z.mod_pow2_bits_high by lia.
Qed.

(** A continuation byte: its seven bits, and that it is one. *)
Lemma continuation_byte v :
  0 ≤ v → let b := Z_of_byte (byte_of_Z (Z.lor v 0x80)) in (b <? 0x80) = false ∧ Z.land b 0x7f = v mod 128.
Proof.
  intros Hv. cbv zeta. rewrite Z_of_byte_of_Z.
  assert (Z.lor v 0x80 mod 256 = Z.lor (Z.land v 255) 0x80) as ->.
  { change 256 with (2 ^ 8). rewrite <- Z.land_ones by lia. change (Z.ones 8) with 255.
    by rewrite Z.land_lor_distr_l. }
  split.
  - apply Z.ltb_ge. pose proof (Z.lor_nonneg (Z.land v 255) 0x80).
    destruct (Z.lt_ge_cases (Z.lor (Z.land v 255) 0x80) 128) as [Hlt|]; [|done].
    assert (Z.testbit (Z.lor (Z.land v 255) 0x80) 7 = true) as Ht by (rewrite Z.lor_spec; apply orb_true_r).
    assert (0 ≤ Z.lor (Z.land v 255) 0x80) as Hge by (apply Z.lor_nonneg; split; [apply Z.land_nonneg; lia|lia]).
    rewrite <- (Z.mod_small _ (2 ^ 7)) in Ht by (split; [done|lia]). by rewrite Z.mod_pow2_bits_high in Ht by lia.
  - rewrite Z.land_lor_distr_l, <- Z.land_assoc. change (Z.land 255 127) with (Z.ones 7).
    change (Z.land 128 127) with 0. by rewrite Z.lor_0_r, Z.land_ones.
Qed.

Lemma uvarint_put fuel : ∀ i v x rest,
  (i + fuel = 9)%nat → 0 ≤ x < 2 ^ (7 * Z.of_nat i) → 0 ≤ v → v * 2 ^ (7 * Z.of_nat i) < 2 ^ 64 →
  uvarint i x (7 * Z.of_nat i) (put_uvarint fuel v ++ rest) =
    (x + v * 2 ^ (7 * Z.of_nat i), Z.of_nat i + blen (put_uvarint fuel v)).
Proof.
  induction fuel as [|fuel IH]; intros i v x rest Hi Hx Hv Hb; cbn [put_uvarint].
  - assert (i = 9%nat) as -> by lia. change (7 * Z.of_nat 9) with 63 in *.
    assert (v < 2) as Hv2 by nia. rewrite (proj2 (Z.ltb_lt v 128)) by lia. cbn [app uvarint].
    rewrite Z_of_byte_of_Z, Z.mod_small by lia. cbn [Nat.eqb MaxVarintLen64].
    rewrite (proj2 (Z.ltb_lt v 128)), (proj2 (Z.ltb_ge 1 v)) by lia. cbn [andb Nat.eqb Nat.sub].
    rewrite u64_small by (rewrite Z.shiftl_mul_pow2 by lia; unfold is_u64, max_u64; lia).
    by rewrite lor_shiftl_add by lia.
  - set (s := 7 * Z.of_nat i) in *. assert (0 < 2 ^ s) as Hp by (apply Z.pow_pos_nonneg; lia).
    assert ((i =? MaxVarintLen64)%nat = false) as Hi1 by (apply Nat.eqb_neq; unfold MaxVarintLen64; lia).
    assert ((i =? MaxVarintLen64 - 1)%nat = false) as Hi2 by (apply Nat.eqb_neq; unfold MaxVarintLen64; lia).
    destruct (Z.ltb_spec v 128) as [Hlt|Hge]; cbn [app uvarint]; rewrite Hi1.
    + rewrite Z_of_byte_of_Z, Z.mod_small by lia. rewrite (proj2 (Z.ltb_lt v 128)), Hi2 by lia. cbn [andb].
      rewrite u64_small by (rewrite Z.shiftl_mul_pow2 by lia; unfold is_u64, max_u64; nia).
      by rewrite lor_shiftl_add by lia.
    + destruct (continuation_byte v Hv) as [E1 E2]. cbv zeta in E1, E2. rewrite E1, E2.
      pose proof (Z.mod_pos_bound v 128 ltac:(lia)) as Hm. pose proof (Z.div_mod v 128 ltac:(lia)) as Hd.
      rewrite u64_small by (rewrite Z.shiftl_mul_pow2 by lia; unfold is_u64, max_u64; nia).
      rewrite lor_shiftl_add by lia. rewrite Z.shiftr_div_pow2 by lia. change (2 ^ 7) with 128.
      assert (2 ^ (7 * Z.of_nat (S i)) = 128 * 2 ^ s) as Ep.
      { replace (7 * Z.of_nat (S i)) with (7 + s) by lia. by rewrite Z.pow_add_r by lia. }
      replace (s + 7) with (7 * Z.of_nat (S i)) by lia.
      rewrite IH, Ep, blen_cons; [f_equal; [|lia]|lia| |apply Z.div_pos; lia|].
      * rewrite Hd at 3. ring.
      * rewrite Ep. nia.
      * rewrite Ep. nia.
Qed.

(** Every 64-bit number is read back from its bytes, whatever follows them. *)
Theorem uvarint_roundtrip v rest :
  is_u64 v → Uvarint (PutUvarint v ++ rest) = (v, blen (PutUvarint v)).
Proof.
  intros [Hv0 Hv]. unfold Uvarint, PutUvarint. change 0 with (7 * Z.of_nat 0) at 2.
  rewrite uvarint_put; [|done|cbn; lia|done|cbn; unfold max_u64 in Hv; lia].
  cbn [Z.of_nat]. f_equal; lia.
Qed.

(** ** The string is not read back *)

Lemma put_uvarint_length fuel : ∀ x, (1 ≤ length (put_uvarint fuel x) ≤ S fuel)%nat ∨ put_uvarint fuel x = [].
Proof.
  induction fuel as [|fuel IH]; intros x; cbn [put_uvarint]; (destruct (x <? 128); [left; cbn; lia|]); [by right|].
  left. cbn [length]. destruct (IH (Z.shiftr x 7)) as [Hl| ->]; cbn; lia.
Qed.

Lemma PutUvarint_length v : is_u64 v → (1 ≤ length (PutUvarint v) ≤ 10)%nat.
Proof.
  intros Hv. destruct (put_uvarint_length 9 v) as [Hl|Hl]; [exact Hl|]. exfalso.
  pose proof (uvarint_roundtrip v [] Hv) as E. unfold PutUvarint in E. rewrite Hl in E. cbn in E.
  injection E as <-. done.
Qed.

(** The facts about the size of the buffer, which is not computed with. *)
Lemma bufio_bounds (s h : list byte) : (length s + 10 ≤ bufio_size)%nat → (length h ≤ 10)%nat →
  blen s < 4096 ∧ (0 < MaxVarintLen64 < bufio_size)%nat ∧ (length (h ++ s) ≤ bufio_size)%nat.
Proof.
  assert (Z.of_nat bufio_size = 4096) as HB by (vm_compute; reflexivity).
  revert HB. generalize bufio_size as B. intros B HB Hs Hh. rewrite length_app. unfold blen, MaxVarintLen64. lia.
Qed.

(** Nothing comes after the last piece. *)
Lemma read_into_end n r : (0 < n)%nat → rd_buffer r = [] → rd_src r = [] → read_into n r = None.
Proof.
  intros Hn Hb Hs. unfold read_into, bufio_read. destruct n as [|n]; [lia|]. cbn [Nat.eqb]. rewrite Hb, Hs.
  by destruct (_ <=? _)%nat.
Qed.

(** A buffered read from the only piece takes what is asked for, or all there is. *)
Lemma read_into_buffered n b : (0 < n)%nat → b ≠ [] →
  read_into n (mkreader b []) = Some (pad n (take n b), mkreader (drop n b) []).
Proof. intros Hn Hb. unfold read_into, bufio_read. destruct n as [|n]; [lia|]. by destruct b. Qed.

Lemma read_into_first n s : (0 < n < bufio_size)%nat → s ≠ [] → (length s ≤ bufio_size)%nat →
  read_into n (mkreader [] [s]) = Some (pad n (take n s), mkreader (drop n s) []).
Proof.
  intros Hn Hs Hl. rewrite <- read_into_buffered by (done || lia). unfold read_into. by rewrite bufio_read_piece.
Qed.

(** A string that was written and arrives in one piece, with nothing behind it, is
    not received: the reader takes ten bytes for the prefix, and then waits for as
    many bytes behind the string as the prefix has. *)
Theorem varint_string_lost w s header :
  0 < blen s → (length s + 10 ≤ bufio_size)%nat → writeVarintString w s = (Ok tt, [header; s]) →
  readVarintString (mkreader [] [header ++ s]) = None.
Proof.
  intros Hs Hl Hw. assert (0 < length s)%nat as Hpos by (unfold blen in Hs; clear -Hs; lia). destruct (bufio_bounds s [] Hl) as (Hl4 & _); [cbn; lia|].
  assert (header = PutUvarint (blen s)) as ->.
  { unfold writeVarintString in Hw. destruct (w 0%nat), (w 1%nat); try done. cbn [negb] in Hw. cbv zeta in Hw.
    rewrite u64_small in Hw by (unfold is_u64, max_u64; lia). injection Hw as E. symmetry. exact E. }
  assert (is_u64 (blen s)) as Hu by (unfold is_u64, max_u64; lia).
  pose proof (PutUvarint_length _ Hu) as Hh. set (h := PutUvarint (blen s)) in *.
  destruct (bufio_bounds s h Hl) as (_ & Hmax & Hlen); [lia|]. clear Hl.
  assert (h ++ s ≠ []) as Hne by (destruct h; [cbn in Hh; lia|done]).
  unfold readVarintString. rewrite read_into_first;
    [|exact Hmax|done|exact Hlen]. clear Hmax Hlen.
  cbn [mbind option_bind].
  assert (pad MaxVarintLen64 (take MaxVarintLen64 (h ++ s)) =
    h ++ (take (10 - length h) s ++ replicate (10 - length (take 10 (h ++ s))) zero)) as ->.
  { unfold pad, MaxVarintLen64. rewrite take_app, (take_ge h) by lia. by rewrite <- app_assoc. }
  unfold h. rewrite (uvarint_roundtrip _ _ Hu). fold h.
  rewrite (proj2 (Z.eqb_neq _ _)), (proj2 (Z.ltb_ge 4096 _)) by lia. cbn [orb].
  rewrite !blen_to_nat. destruct (decide (drop MaxVarintLen64 (h ++ s) = [])) as [->|Hd].
  { rewrite (read_into_end (length s)); [done|exact Hpos|reflexivity|reflexivity]. }
  rewrite read_into_buffered by done. cbn [mbind option_bind].
  rewrite drop_drop, (drop_ge (h ++ s) (MaxVarintLen64 + length s)) by (rewrite length_app; unfold MaxVarintLen64; lia).
  rewrite read_into_end; [done|lia|done|done].
Qed.

Lemma varint_string_lost_witness : readVarintString (mkreader [] [[Byte.x02] ++ [Byte.x68; Byte.x69]]) = None.
Proof.
  apply (varint_string_lost (λ _, true) [Byte.x68; Byte.x69] [Byte.x02]);
    [reflexivity|apply Nat.leb_le; vm_compute; reflexivity|vm_compute; reflexivity].
Defined.

Lemma uvarint_roundtrip_witness : Uvarint (PutUvarint 300 ++ [Byte.xff]) = (300, 2).
Proof. apply (uvarint_roundtrip 300 [Byte.xff]). split; [done|reflexivity]. Defined.
